(** * A plan / execute / verify agent with bounded retries

    Shallow embedding of [main.py]: the text operations it applies to the
    generation service's answers ([str.strip], [str.replace]), the JSON
    decoder behind [json.loads], the three roles [plan], [execute] and
    [verify_llm], the summary [summarize_short] and the controller [solve].

    Python values are modelled as they are at run time: a [str] is a
    sequence of code points, the result of [json.loads] is an untyped tree
    of [None], [bool], [int], [float], [str], [list] and [dict], and a
    [dict] keeps its keys in insertion order.  Exceptions are explicit
    results; the generation service is a state transformer that the code
    calls with a prompt; the limits the interpreter sets to the decoder
    and to the encoder are parameters of a run. *)

From Stdlib Require Import List ZArith NArith Bool Lia String Ascii.
Import ListNotations.

Set Warnings "-register-all".
Local Open Scope N_scope.

(** ** Python strings *)

(** A [str] is a finite sequence of Unicode code points. *)
Definition pystr := list N.

(** A source literal, one code point per character of the literal. *)
Definition lit (s : string) : pystr :=
  map N_of_ascii (list_ascii_of_string s).

(** The same, where the literal writes [@] for the double quote. *)
Definition qlit (s : string) : pystr :=
  map (fun c => if c =? 64 then 34 else c) (lit s).

Fixpoint pystr_eqb (a b : pystr) : bool :=
  match a, b with
  | [], [] => true
  | x :: a', y :: b' => (x =? y) && pystr_eqb a' b'
  | _, _ => false
  end.

(** [str.isspace] on one code point (the table of CPython's
    [_PyUnicode_IsWhitespace]). *)
Definition py_isspace (c : N) : bool :=
  ((9 <=? c) && (c <=? 13)) || ((28 <=? c) && (c <=? 32))
  || (c =? 133) || (c =? 160) || (c =? 5760)
  || ((8192 <=? c) && (c <=? 8202))
  || (c =? 8232) || (c =? 8233) || (c =? 8239) || (c =? 8287)
  || (c =? 12288).

Fixpoint lstrip (s : pystr) : pystr :=
  match s with
  | [] => []
  | c :: s' => if py_isspace c then lstrip s' else s
  end.

Definition rstrip (s : pystr) : pystr := rev (lstrip (rev s)).

(** [s.strip()] *)
Definition strip (s : pystr) : pystr := rstrip (lstrip s).

(** [s.startswith(p)] *)
Fixpoint startswith (p s : pystr) : bool :=
  match p, s with
  | [], _ => true
  | x :: p', y :: s' => (x =? y) && startswith p' s'
  | _ :: _, [] => false
  end.

(** [s.replace(old, new)] for a non-empty [old]: the occurrences of [old]
    are found from the left and do not overlap.  [skip] counts the code
    points of a matched occurrence that are still to be dropped. *)
Fixpoint replace_from (skip : nat) (old new s : pystr) : pystr :=
  match s with
  | [] => []
  | c :: s' =>
      match skip with
      | S k => replace_from k old new s'
      | O =>
          if startswith old s
          then new ++ replace_from (pred (List.length old)) old new s'
          else c :: replace_from 0 old new s'
      end
  end.

Definition replace (old new s : pystr) : pystr := replace_from 0 old new s.

(** [s[:n]] for [n >= 0] *)
Definition slice_to (n : nat) (s : pystr) : pystr := firstn n s.

(** ** Python values decoded from JSON *)

(** A [float] made by [float(literal)]: the decimal literal is kept, its
    value is [(-1)^neg * m * 10^e]; Python holds the binary64 number
    nearest to it.  [NaN], [Infinity] and [-Infinity] are the constants
    the decoder also accepts. *)
Inductive pyfloat : Type :=
| FNaN
| FInf (neg : bool)
| FDec (neg : bool) (m : N) (e : Z).

Inductive pyval : Type :=
| PyNone
| PyBool (b : bool)
| PyInt (z : Z)
| PyFloat (f : pyfloat)
| PyStr (s : pystr)
| PyList (l : list pyval)
| PyDict (kvs : list (pystr * pyval)).

(** [d.get(key, default)] on the items of a dict *)
Fixpoint dict_get (kvs : list (pystr * pyval)) (key : pystr) (default : pyval)
  : pyval :=
  match kvs with
  | [] => default
  | (k, v) :: kvs' => if pystr_eqb k key then v else dict_get kvs' key default
  end.

(** [d[key] = v]: an existing key keeps its place and takes the new
    value, a new key goes last.  The decoder fills an object with it, so
    that of a repeated key the last value is kept. *)
Fixpoint dict_set (kvs : list (pystr * pyval)) (key : pystr) (v : pyval)
  : list (pystr * pyval) :=
  match kvs with
  | [] => [(key, v)]
  | (k, w) :: kvs' =>
      if pystr_eqb k key then (k, v) :: kvs'
      else (k, w) :: dict_set kvs' key v
  end.

(** A decimal rounds to the float zero when its magnitude is at most
    [2^-1075], half the least subnormal (the tie goes to the even
    neighbour, which is zero). *)
Definition dec_rounds_to_zero (m : N) (e : Z) : bool :=
  if (0 <=? e)%Z then m =? 0
  else (Z.of_N m * 2 ^ 1075 <=? 10 ^ (- e))%Z.

(** The truth value Python gives a decoded value in [if v:]. *)
Definition py_truthy (v : pyval) : bool :=
  match v with
  | PyNone => false
  | PyBool b => b
  | PyInt z => negb (z =? 0)%Z
  | PyFloat FNaN => true
  | PyFloat (FInf _) => true
  | PyFloat (FDec _ m e) => negb (dec_rounds_to_zero m e)
  | PyStr s => match s with [] => false | _ => true end
  | PyList l => match l with [] => false | _ => true end
  | PyDict kvs => match kvs with [] => false | _ => true end
  end.

(** A positive decimal rounds to the float one when it lies between
    [1 - 2^-54] and [1 + 2^-53], the midpoints to the neighbours of one
    (both ties go to one, whose significand is even). *)
Definition dec_rounds_to_one (m : N) (e : Z) : bool :=
  if (0 <=? e)%Z then (Z.of_N m * 10 ^ e =? 1)%Z
  else ((2 ^ 54 - 1) * 10 ^ (- e) <=? Z.of_N m * 2 ^ 54)%Z
       && (Z.of_N m * 2 ^ 53 <=? (2 ^ 53 + 1) * 10 ^ (- e))%Z.

(** [v == True] for a decoded value: only [True], the integer [1] and the
    float [1.0] compare equal to [True]. *)
Definition py_eq_True (v : pyval) : bool :=
  match v with
  | PyBool b => b
  | PyInt z => (z =? 1)%Z
  | PyFloat (FDec false m e) => dec_rounds_to_one m e
  | _ => false
  end.

(** ** Exceptions *)

(** The exceptions a run can end with.  [ServiceError] stands for whatever
    the generation client raises.  [JSONDecodeError] is the decoder's own
    error; [ValueError] is what [int] raises on a literal and
    [int.__repr__] on a number with more digits than the interpreter
    allows, and [RecursionError] what the interpreter raises when lists
    and dicts are nested deeper than its recursion limit leaves room
    for. *)
Inductive exn : Type :=
| JSONDecodeError
| ValueError
| AttributeError
| TypeError
| RecursionError
| ServiceError.

Inductive outcome (A : Type) : Type :=
| Ok (a : A)
| Raise (e : exn).

Arguments Ok {A} a.
Arguments Raise {A} e.

(** ** The interpreter *)

(** What a run depends on beside the program and the service.

    [decoder_room] is the number of lists and dicts, one inside the
    other, that the recursion limit lets the decoder have open at the
    place where [execute] and [verify_llm] call [json.loads]: the scanner
    enters a recursive call for each.  [error_room] is the number of
    levels the scanner needs to raise [JSONDecodeError] from inside a
    string, a list or a dict, where it builds the exception by a call.
    [room_to_raise] says that the recursion limit leaves the scanner the
    room to do so one level inside a list or a dict: the program is not
    run so close to the limit that the decoder cannot tell what is wrong
    with an object.  ([json.loads] builds its own errors, for no value
    where one is expected, text after the value and a byte-order mark, in
    the functions that call the scanner, which then have the room as
    well.)  [encoder_room] is
    what [decoder_room] is, for [json.dumps] at the place where the
    result is printed.  [int_max_str_digits] is
    [sys.get_int_max_str_digits()]: the number of digits [int] accepts in
    a literal and [int.__repr__] writes, zero for no limit; the
    interpreter takes zero or a number from 640 on, which is what
    [digits_limit_valid] says. *)
Class interpreter : Type := {
  decoder_room : nat;
  error_room : nat;
  encoder_room : nat;
  int_max_str_digits : nat;
  room_to_raise : (error_room < decoder_room)%nat;
  digits_limit_valid :
    int_max_str_digits = O \/ (640 <= int_max_str_digits)%nat
}.

(** ** The JSON decoder behind [json.loads] *)

(** What the scanner makes of the head of a text: a value and the rest of
    the text, or an exception.  [OutOfFuel] belongs to the fuel of the
    definitions below, not to the decoder: a later lemma shows that
    [json_loads] never meets it. *)
Inductive parsed (A : Type) : Type :=
| Parsed (v : A) (rest : pystr)
| Failed (e : exn)
| OutOfFuel.

Arguments Parsed {A} v rest.
Arguments Failed {A} e.
Arguments OutOfFuel {A}.

(** The text is not JSON. *)
Abbreviation Invalid := (Failed JSONDecodeError).

(** The decoder's whitespace: space, tab, line feed, carriage return. *)
Definition json_ws (c : N) : bool :=
  (c =? 32) || (c =? 9) || (c =? 10) || (c =? 13).

Fixpoint skip_ws (s : pystr) : pystr :=
  match s with
  | [] => []
  | c :: s' => if json_ws c then skip_ws s' else s
  end.

Definition is_digit (c : N) : bool := (48 <=? c) && (c <=? 57).

Definition hex_value (c : N) : option N :=
  if is_digit c then Some (c - 48)
  else if (97 <=? c) && (c <=? 102) then Some (c - 87)
  else if (65 <=? c) && (c <=? 70) then Some (c - 55)
  else None.

Definition hex4 (a b c d : N) : option N :=
  match hex_value a, hex_value b, hex_value c, hex_value d with
  | Some x, Some y, Some z, Some w => Some (((x * 16 + y) * 16 + z) * 16 + w)
  | _, _, _, _ => None
  end.

(** The one-letter escapes of a JSON string. *)
Definition backslash (c : N) : option N :=
  if c =? 34 then Some 34
  else if c =? 92 then Some 92
  else if c =? 47 then Some 47
  else if c =? 98 then Some 8
  else if c =? 102 then Some 12
  else if c =? 110 then Some 10
  else if c =? 114 then Some 13
  else if c =? 116 then Some 9
  else None.

Definition is_high_surrogate (u : N) : bool := (55296 <=? u) && (u <=? 56319).
Definition is_low_surrogate (u : N) : bool := (56320 <=? u) && (u <=? 57343).
Definition join_surrogates (u u2 : N) : N :=
  65536 + ((u - 55296) * 1024 + (u2 - 56320)).

(** [scanstring] in strict mode, from just after the opening quote; [acc]
    holds the decoded code points, last one first.  [high] is the high
    surrogate that the escape just before has decoded, when it has: the
    escape of a low surrogate right after it is joined with it into one
    code point, anything else leaves it as it is. *)
Fixpoint scanstring (s : pystr) (acc : pystr) (high : option N)
  : parsed pystr :=
  match s with
  | [] => Invalid
  | c :: s1 =>
      if c =? 34 then Parsed (rev acc) s1
      else if c =? 92 then
        match s1 with
        | [] => Invalid
        | e :: s2 =>
            if e =? 117 then
              match s2 with
              | h1 :: h2 :: h3 :: h4 :: s3 =>
                  match hex4 h1 h2 h3 h4 with
                  | None => Invalid
                  | Some u =>
                      match high with
                      | Some h =>
                          if is_low_surrogate u
                          then scanstring s3 (join_surrogates h u :: tl acc) None
                          else scanstring s3 (u :: acc)
                                 (if is_high_surrogate u then Some u else None)
                      | None =>
                          scanstring s3 (u :: acc)
                            (if is_high_surrogate u then Some u else None)
                      end
                  end
              | _ => Invalid
              end
            else
              match backslash e with
              | Some ch => scanstring s2 (ch :: acc) None
              | None => Invalid
              end
        end
      else if c <? 32 then Invalid
      else scanstring s1 (c :: acc) None
  end.

(** *** Numbers

    An optional minus sign, an integer part (a lone zero, or a non-zero
    digit and more digits), then optionally a point and one digit or more,
    then optionally [e] or [E], a sign and one digit or more. *)

Fixpoint span_digits (s : pystr) : pystr * pystr :=
  match s with
  | [] => ([], [])
  | c :: s' =>
      if is_digit c
      then let (d, r) := span_digits s' in (c :: d, r)
      else ([], s)
  end.

Definition digits_value (ds : pystr) : N :=
  fold_left (fun a c => a * 10 + (c - 48)) ds 0.

Definition match_sign (s : pystr) : bool * pystr :=
  match s with
  | c :: s' => if c =? 45 then (true, s') else (false, s)
  | [] => (false, s)
  end.

Definition match_int (s : pystr) : option (pystr * pystr) :=
  match s with
  | [] => None
  | c :: s' =>
      if c =? 48 then Some ([c], s')
      else if is_digit c
      then let (d, r) := span_digits s' in Some (c :: d, r)
      else None
  end.

Definition match_frac (s : pystr) : option (pystr * pystr) :=
  match s with
  | [] => None
  | c :: s' =>
      if c =? 46 then
        match span_digits s' with
        | ([], _) => None
        | (d, r) => Some (d, r)
        end
      else None
  end.

Definition match_exp_sign (s : pystr) : bool * pystr :=
  match s with
  | c :: s' =>
      if c =? 45 then (true, s')
      else if c =? 43 then (false, s')
      else (false, s)
  | [] => (false, s)
  end.

Definition match_exp (s : pystr) : option (Z * pystr) :=
  match s with
  | [] => None
  | c :: s' =>
      if (c =? 101) || (c =? 69) then
        let (neg, s2) := match_exp_sign s' in
        match span_digits s2 with
        | ([], _) => None
        | (d, r) =>
            Some ((if neg then - Z.of_N (digits_value d)
                   else Z.of_N (digits_value d))%Z, r)
        end
      else None
  end.

(** A literal with a fraction or an exponent is a [float], any other an
    [int]. *)
Definition match_number (s : pystr) : option (pyval * pystr) :=
  let (neg, s1) := match_sign s in
  match match_int s1 with
  | None => None
  | Some (ip, s2) =>
      match match_frac s2 with
      | Some (fd, s3) =>
          match match_exp s3 with
          | Some (ex, s4) =>
              Some (PyFloat (FDec neg (digits_value (ip ++ fd))
                               (ex - Z.of_nat (List.length fd))), s4)
          | None =>
              Some (PyFloat (FDec neg (digits_value (ip ++ fd))
                               (- Z.of_nat (List.length fd))), s3)
          end
      | None =>
          match match_exp s2 with
          | Some (ex, s4) =>
              Some (PyFloat (FDec neg (digits_value ip) ex), s4)
          | None =>
              Some (PyInt (if neg then - Z.of_N (digits_value ip)
                           else Z.of_N (digits_value ip))%Z, s2)
          end
      end
  end.

(** The constants, tried in the scanner's order. *)
Definition match_constant (s : pystr) : option (pyval * pystr) :=
  if startswith (lit "null") s then Some (PyNone, skipn 4 s)
  else if startswith (lit "true") s then Some (PyBool true, skipn 4 s)
  else if startswith (lit "false") s then Some (PyBool false, skipn 5 s)
  else None.

Definition match_nonfinite (s : pystr) : option (pyval * pystr) :=
  if startswith (lit "NaN") s then Some (PyFloat FNaN, skipn 3 s)
  else if startswith (lit "Infinity") s then Some (PyFloat (FInf false), skipn 8 s)
  else if startswith (lit "-Infinity") s then Some (PyFloat (FInf true), skipn 9 s)
  else None.

(** The digits of the integer part of the number at the head of [s]. *)
Definition int_digits (s : pystr) : nat :=
  match match_int (snd (match_sign s)) with
  | Some (ip, _) => List.length ip
  | None => O
  end.

Section Decoder.

Context {py : interpreter}.

(** A number of [digits] digits is more than [int] reads and
    [int.__repr__] writes. *)
Definition over_int_limit (digits : nat) : bool :=
  (0 <? int_max_str_digits)%nat && (int_max_str_digits <? digits)%nat.

(** How the scanner ends where a string, a dict or a list goes wrong:
    it calls [JSONDecodeError] to build the exception, and the interpreter
    raises [RecursionError] instead where the [room] left is less than the
    call needs.  (Where no value starts, the scanner ends without a call
    and the error is raised by [json.loads] itself.) *)
Definition refused {A : Type} (room : nat) : parsed A :=
  if (room <? error_room)%nat then Failed RecursionError else Invalid.

(** [scan_once]: one value at the head of [s].  [object_items] runs the
    loop of [JSONObject] from just after the opening quote of a key, and
    [array_items] the loop of [JSONArray] from the first code point of an
    element.

    [room] is the number of lists and dicts that can still be entered,
    one inside the other: the scanner enters a recursive call at an
    opening brace or bracket, before it looks at what follows, and the
    interpreter raises [RecursionError] when there is no room for it.
    The float for [NaN], [Infinity] or [-Infinity] is made by a call, which
    takes a level as well.  A literal without fraction and exponent is
    given to [int], which raises [ValueError] when it has too many digits.

    A call takes one unit of fuel and, from one call of [scan_once] to the
    next one below it, at least one code point is consumed, so fuel above
    twice the length of the text is never used up. *)
Fixpoint scan_once (fuel room : nat) (s : pystr) : parsed pyval :=
  match fuel with
  | O => OutOfFuel
  | S fuel' =>
      match s with
      | [] => Invalid
      | c :: s' =>
          if c =? 34 then
            match scanstring s' [] None with
            | Parsed str r => Parsed (PyStr str) r
            | Failed _ => refused room
            | OutOfFuel => OutOfFuel
            end
          else if c =? 123 then
            match room with
            | O => Failed RecursionError
            | S room' =>
                match skip_ws s' with
                | [] => refused room'
                | d :: r =>
                    if d =? 125 then Parsed (PyDict []) r
                    else if d =? 34 then object_items fuel' room' r []
                    else refused room'
                end
            end
          else if c =? 91 then
            match room with
            | O => Failed RecursionError
            | S room' =>
                match skip_ws s' with
                | [] => Invalid
                | d :: r =>
                    if d =? 93 then Parsed (PyList []) r
                    else array_items fuel' room' (d :: r) []
                end
            end
          else
            match match_constant s with
            | Some (v, r) => Parsed v r
            | None =>
                match match_number s with
                | Some (PyInt z, r) =>
                    if over_int_limit (int_digits s) then Failed ValueError
                    else Parsed (PyInt z) r
                | Some (v, r) => Parsed v r
                | None =>
                    match match_nonfinite s with
                    | Some (v, r) =>
                        match room with
                        | O => Failed RecursionError
                        | S _ => Parsed v r
                        end
                    | None => Invalid
                    end
                end
            end
      end
  end
with object_items (fuel room : nat) (s : pystr) (d : list (pystr * pyval))
  : parsed pyval :=
  match fuel with
  | O => OutOfFuel
  | S fuel' =>
      match scanstring s [] None with
      | Parsed key r1 =>
          match skip_ws r1 with
          | [] => refused room
          | c :: r2 =>
              if c =? 58 then
                match scan_once fuel' room (skip_ws r2) with
                | Parsed v r3 =>
                    match skip_ws r3 with
                    | [] => refused room
                    | e :: r4 =>
                        if e =? 125 then Parsed (PyDict (dict_set d key v)) r4
                        else if e =? 44 then
                          match skip_ws r4 with
                          | [] => refused room
                          | q :: r5 =>
                              if q =? 34
                              then object_items fuel' room r5 (dict_set d key v)
                              else refused room
                          end
                        else refused room
                    end
                | Failed x => Failed x
                | OutOfFuel => OutOfFuel
                end
              else refused room
          end
      | Failed _ => refused room
      | OutOfFuel => OutOfFuel
      end
  end
with array_items (fuel room : nat) (s : pystr) (acc : list pyval)
  : parsed pyval :=
  match fuel with
  | O => OutOfFuel
  | S fuel' =>
      match scan_once fuel' room s with
      | Parsed v r1 =>
          match skip_ws r1 with
          | [] => refused room
          | e :: r2 =>
              if e =? 93 then Parsed (PyList (acc ++ [v])) r2
              else if e =? 44
              then array_items fuel' room (skip_ws r2) (acc ++ [v])
              else refused room
          end
      | Failed x => Failed x
      | OutOfFuel => OutOfFuel
      end
  end.

(** [json.loads(s)] on a [str]: a byte-order mark is refused, whitespace
    around the one value is skipped, anything after it is an error.  An
    exception of the scanner passes through as it is; where the scanner
    found no value, and for the two errors of [json.loads] itself, the
    [JSONDecodeError] is built in the functions that call the scanner,
    which have the room for it by [room_to_raise].  (The fuel given is
    never used up, see [json_loads_fuel].) *)
Definition json_loads (s : pystr) : outcome pyval :=
  if startswith [65279] s then Raise JSONDecodeError
  else
    match scan_once (S (2 * List.length s)) decoder_room (skip_ws s) with
    | Parsed v r =>
        match skip_ws r with
        | [] => Ok v
        | _ :: _ => Raise JSONDecodeError
        end
    | Failed e => Raise e
    | OutOfFuel => Raise RecursionError
    end.

End Decoder.

(** ** Prompts *)

(** An f-string before formatting: literal text and the values that are
    interpolated into it.  The generation service is the only reader of a
    prompt, so the text Python's [str] gives an interpolated value is left
    to it. *)
Inductive piece : Type :=
| Text (s : pystr)
| Value (v : pyval).

Definition prompt := list piece.

Definition plan_prompt (question : pystr) : prompt :=
  [ Text (lit "
[PLANNER]
You are a planner for small math and logic word problems.

Task:
- Read the QUESTION.
- Produce a short numbered plan with 3" ++ [226; 8364; 8220] ++ lit "6 steps to solve it.
- Focus on extracting quantities, understanding relationships, computing,
  checking constraints (like non-negative counts, correct time ranges),
  and formatting the final answer.

Output format:
- Only the numbered plan as plain text, e.g.
  1. ...
  2. ...
  3. ...

QUESTION: ");
    Value (PyStr question);
    Text (lit "
") ].

Definition execute_prompt (question plan_text : pystr) : prompt :=
  [ Text (qlit "
[EXECUTOR]
You are an executor for math and logic word problems.

You will be given:
- QUESTION: the user's problem.
- PLAN: a numbered plan of steps to solve it.

Task:
- Follow the PLAN step-by-step.
- Do the necessary calculations.
- Keep track of intermediate values.
- Produce a proposed final answer and a short explanation.

IMPORTANT:
- Return ONLY valid JSON.
- Do NOT include any markdown fences or extra text.

JSON schema to return:
{
  @proposed_answer@: @<short final answer as a string>@,
  @explanation@: @<short explanation including key intermediate steps>@,
  @intermediate@: {
    @notes@: @<optional free-form notes or parsed info>@
  }
}

QUESTION: ");
    Value (PyStr question);
    Text (lit "

PLAN:
");
    Value (PyStr plan_text);
    Text (lit "
") ].

Definition verify_prompt (question : pystr) (proposed_answer explanation : pyval) : prompt :=
  [ Text (qlit "
[VERIFIER]
You are a strict verifier for math and logic word problems.

You will be given:
- QUESTION: the original problem.
- PROPOSED_ANSWER: the answer string.
- EXPLANATION: a short explanation with intermediate reasoning.

Your job:
- Check if the explanation actually solves the QUESTION.
- Check if the arithmetic and logical steps are correct.
- Check if constraints (time ranges, non-negative counts, totals) are satisfied.
- Decide whether the solution is acceptable.

VERY IMPORTANT:
- Return exactly ONE JSON object.
- Do NOT repeat any part of the JSON.
- Do NOT repeat checks.
- Do NOT add any text before or after the JSON.
- Do NOT include markdown like ```json ... ```.

Output:
Return ONLY valid JSON with this schema:
{
  @passed@: true or false,
  @checks@: [
    {
      @check_name@: @<short name of this check>@,
      @passed@: true or false,
      @details@: @<one-line description>@
    }
  ],
  @issues@: @<short description of problems if any, empty string if none>@
}

QUESTION: ");
    Value (PyStr question);
    Text (lit "
PROPOSED_ANSWER: ");
    Value proposed_answer;
    Text (lit "
EXPLANATION: ");
    Value explanation;
    Text (lit "
") ].

(** ** Operations on decoded values *)

(** [v.get(key, default)]: only a [dict] has the method. *)
Definition py_get (v : pyval) (key : pystr) (default : pyval) : outcome pyval :=
  match v with
  | PyDict kvs => Ok (dict_get kvs key default)
  | _ => Raise AttributeError
  end.

(** [iter(v)]: the elements of a list, the characters of a string, the
    keys of a dict; nothing else decoded from JSON is iterable. *)
Definition py_iter (v : pyval) : outcome (list pyval) :=
  match v with
  | PyList l => Ok l
  | PyStr s => Ok (map (fun c => PyStr [c]) s)
  | PyDict kvs => Ok (map (fun kv => PyStr (fst kv)) kvs)
  | _ => Raise TypeError
  end.

(** [l.extend(v)] *)
Definition list_extend (l : list pyval) (v : pyval) : outcome (list pyval) :=
  match py_iter v with
  | Ok items => Ok (l ++ items)
  | Raise e => Raise e
  end.

(** [v.strip()]: only a [str] has the method. *)
Definition py_strip (v : pyval) : outcome pystr :=
  match v with
  | PyStr s => Ok (strip s)
  | _ => Raise AttributeError
  end.

(** The two [replace] calls that [execute] and [verify_llm] apply to the
    stripped answer of the service. *)
Definition strip_fences (raw : pystr) : pystr :=
  replace (lit "```") [] (replace (lit "```json") [] raw).

(** The text that reaches [json.loads] for an answer [text] of the
    service. *)
Definition fence_stripped (text : pystr) : pystr :=
  strip_fences (strip text).

(** ** Results of [solve] *)

Inductive status_t : Type := success | failed.

(** [metadata]: the plan is [None] until the first attempt sets it. *)
Record metadata_t : Type := {
  md_plan : option pystr;
  md_checks : list pyval;
  md_retries : Z
}.

Record final_result : Type := {
  answer : pyval;
  status : status_t;
  reasoning_visible_to_user : pystr;
  metadata : metadata_t
}.

Definition failure_sentence : pystr :=
  lit "The agent could not find a consistent solution after verification.".

(** [range(n)] *)
Definition py_range (n : Z) : list Z :=
  map Z.of_nat (seq 0 (Z.to_nat n)).

(** * The agent, over an arbitrary generation service *)

Section Agent.

Context {py : interpreter}.

(** The state of the generation service and one round trip
    [model.generate_content(prompt)] followed by [resp.text]. *)
Variable service : Type.
Variable generate_content :
  prompt -> service -> outcome (option pystr) * service.

(** Computations that call the service and may raise. *)
Definition M (A : Type) : Type := service -> outcome A * service.

Definition ret {A : Type} (a : A) : M A := fun st => (Ok a, st).

Definition bind {A B : Type} (c : M A) (k : A -> M B) : M B :=
  fun st =>
    match c st with
    | (Ok a, st') => k a st'
    | (Raise e, st') => (Raise e, st')
    end.

Definition lift {A : Type} (o : outcome A) : M A := fun st => (o, st).

Notation "x <- c ;; k" := (bind c (fun x => k))
  (at level 61, c at next level, right associativity).

(** [resp.text or ""] *)
Definition gemini_call (p : prompt) : M pystr :=
  text <- generate_content p ;;
  ret (match text with Some t => t | None => [] end).

Definition plan (question : pystr) : M pystr :=
  text <- gemini_call (plan_prompt question) ;;
  ret (strip text).

Definition execute (question plan_text : pystr) : M pyval :=
  text <- gemini_call (execute_prompt question plan_text) ;;
  lift (json_loads (fence_stripped text)).

Definition verify_llm (question : pystr) (exec_result : pyval) : M pyval :=
  proposed_answer <- lift (py_get exec_result (lit "proposed_answer") (PyStr [])) ;;
  explanation <- lift (py_get exec_result (lit "explanation") (PyStr [])) ;;
  text <- gemini_call (verify_prompt question proposed_answer explanation) ;;
  lift (json_loads (fence_stripped text)).

Definition summarize_short (exec_result : pyval) : outcome pystr :=
  match py_get exec_result (lit "explanation") (PyStr []) with
  | Ok e =>
      match py_strip e with
      | Ok expl => Ok (slice_to 250 expl)
      | Raise x => Raise x
      end
  | Raise x => Raise x
  end.

(** What one pass through the loop body leaves behind: the plan, the
    execution result, the verdict, the metadata after the pass, and the
    result the pass returns when the verdict is accepted. *)
Record attempt_t : Type := {
  att_index : Z;
  att_plan : pystr;
  att_exec : pyval;
  att_verdict : pyval;
  att_metadata : metadata_t;
  att_return : option final_result
}.

(** The body of the [for] loop of [solve] for one value of [attempt]. *)
Definition attempt_body (question : pystr) (attempt : Z) (md : metadata_t)
  : M attempt_t :=
  let md1 := {| md_plan := md_plan md; md_checks := md_checks md;
                md_retries := attempt |} in
  plan_text <- plan question ;;
  let md2 := {| md_plan := Some plan_text; md_checks := md_checks md1;
                md_retries := md_retries md1 |} in
  exec_result <- execute question plan_text ;;
  verify_result <- verify_llm question exec_result ;;
  new_checks <- lift (py_get verify_result (lit "checks") (PyList [])) ;;
  all_checks <- lift (list_extend (md_checks md2) new_checks) ;;
  let md3 := {| md_plan := md_plan md2; md_checks := all_checks;
                md_retries := md_retries md2 |} in
  passed <- lift (py_get verify_result (lit "passed") (PyBool false)) ;;
  if py_truthy passed then
    ans <- lift (py_get exec_result (lit "proposed_answer") (PyStr [])) ;;
    reasoning <- lift (summarize_short exec_result) ;;
    ret {| att_index := attempt; att_plan := plan_text;
           att_exec := exec_result; att_verdict := verify_result;
           att_metadata := md3;
           att_return := Some {| answer := ans; status := success;
                                 reasoning_visible_to_user := reasoning;
                                 metadata := md3 |} |}
  else
    ret {| att_index := attempt; att_plan := plan_text;
           att_exec := exec_result; att_verdict := verify_result;
           att_metadata := md3; att_return := None |}.

(** The result after the loop, when no attempt returned. *)
Definition all_retries_fail (md : metadata_t) : final_result :=
  {| answer := PyStr []; status := failed;
     reasoning_visible_to_user := failure_sentence;
     metadata := md |}.

(** The [for] loop over the remaining values of [attempt]. *)
Fixpoint solve_loop (question : pystr) (attempts : list Z) (md : metadata_t)
  : M final_result :=
  match attempts with
  | [] => ret (all_retries_fail md)
  | attempt :: rest =>
      a <- attempt_body question attempt md ;;
      match att_return a with
      | Some result => ret result
      | None => solve_loop question rest (att_metadata a)
      end
  end.

Definition initial_metadata : metadata_t :=
  {| md_plan := None; md_checks := []; md_retries := 0 |}.

Definition solve (question : pystr) (max_retries : Z) : M final_result :=
  solve_loop question (py_range (max_retries + 1)) initial_metadata.

(** The passes of the loop that ran to their end, in order: the loop
    again, keeping what each pass leaves behind instead of the result. *)
Fixpoint attempts_of (question : pystr) (attempts : list Z) (md : metadata_t)
  : M (list attempt_t) :=
  match attempts with
  | [] => ret []
  | attempt :: rest =>
      a <- attempt_body question attempt md ;;
      match att_return a with
      | Some _ => ret [a]
      | None =>
          more <- attempts_of question rest (att_metadata a) ;;
          ret (a :: more)
      end
  end.

Definition solve_attempts (question : pystr) (max_retries : Z)
  : M (list attempt_t) :=
  attempts_of question (py_range (max_retries + 1)) initial_metadata.

(** The number of times the loop body is entered, whether the pass then
    runs to its end or raises. *)
Fixpoint attempts_started (question : pystr) (attempts : list Z)
  (md : metadata_t) (st : service) : nat :=
  match attempts with
  | [] => O
  | attempt :: rest =>
      S (match attempt_body question attempt md st with
         | (Ok a, st') =>
             match att_return a with
             | Some _ => O
             | None => attempts_started question rest (att_metadata a) st'
             end
         | (Raise _, _) => O
         end)
  end.

Definition solve_attempts_started (question : pystr) (max_retries : Z)
  (st : service) : nat :=
  attempts_started question (py_range (max_retries + 1)) initial_metadata st.

End Agent.

(** ** A scripted generation service *)

(** The test double of the generation client: the answers are served in
    order whatever the prompt, an entry can be a failure of the service,
    and a call past the end of the script fails. *)
Definition script := list (outcome pystr).

Definition scripted (p : prompt) (sc : script) : outcome (option pystr) * script :=
  match sc with
  | [] => (Raise ServiceError, [])
  | Ok text :: rest => (Ok (Some text), rest)
  | Raise e :: rest => (Raise e, rest)
  end.

(** The three answers one pass of the loop consumes. *)
Definition pass (plan_text exec_text verify_text : pystr) : script :=
  [Ok plan_text; Ok exec_text; Ok verify_text].

Section Vocabulary.

Context {py : interpreter}.

Definition run (question : pystr) (max_retries : Z) (sc : script)
  : outcome final_result * script :=
  solve script scripted question max_retries sc.


(** ** Vocabulary of the statements *)

(** The part of a result that an observer of the controller's decisions
    sees: everything but the accumulated checks and the plan. *)
Record decision : Type := {
  dec_status : status_t;
  dec_answer : pyval;
  dec_reasoning : pystr;
  dec_retries : Z
}.

Definition decision_of (r : final_result) : decision :=
  {| dec_status := status r; dec_answer := answer r;
     dec_reasoning := reasoning_visible_to_user r;
     dec_retries := md_retries (metadata r) |}.

(** The checks a verdict contributes: [verify_result.get("checks", [])]
    as [extend] iterates it. *)
Definition verdict_checks (verdict : pyval) : outcome (list pyval) :=
  match py_get verdict (lit "checks") (PyList []) with
  | Ok c => py_iter c
  | Raise e => Raise e
  end.

(** The value the controller tests: [verify_result.get("passed", False)]. *)
Definition verdict_passed (verdict : pyval) : outcome pyval :=
  py_get verdict (lit "passed") (PyBool false).

Section Contributions.

Variable service : Type.
Variable generate_content :
  prompt -> service -> outcome (option pystr) * service.

(** The checks the passes of a run contribute, read off the calls
    themselves: from the state [st] of the service, each pass calls
    [plan], [execute] on the plan and [verify_llm] on the execution
    result, one after the other, and contributes the checks of the
    verdict [verify_llm] returns; the passes leave the service in the
    state [st']. *)
Inductive contributes (question : pystr)
  : service -> list (list pyval) -> service -> Prop :=
| contributes_nil st : contributes question st [] st
| contributes_pass st st1 st2 st3 st' plan_text exec_result verdict items per :
    plan service generate_content question st = (Ok plan_text, st1) ->
    execute service generate_content question plan_text st1
    = (Ok exec_result, st2) ->
    verify_llm service generate_content question exec_result st2
    = (Ok verdict, st3) ->
    verdict_checks verdict = Ok items ->
    contributes question st3 per st' ->
    contributes question st (items :: per) st'.

End Contributions.

(** The result [solve] returns after the passes [log], started from the
    metadata [md]: the result of the first pass that returns one, the
    failure with the metadata of the last pass otherwise. *)
Fixpoint result_of (md : metadata_t) (log : list attempt_t) : final_result :=
  match log with
  | [] => all_retries_fail md
  | a :: log' =>
      match att_return a with
      | Some r => r
      | None => result_of (att_metadata a) log'
      end
  end.

(** What one pass that ran to its end has done, from the metadata [md] it
    started with. *)
Definition pass_spec (md : metadata_t) (attempt : Z) (a : attempt_t) : Prop :=
  exists ke kv items,
    att_index a = attempt /\
    att_exec a = PyDict ke /\
    att_verdict a = PyDict kv /\
    py_iter (dict_get kv (lit "checks") (PyList [])) = Ok items /\
    att_metadata a = {| md_plan := Some (att_plan a);
                        md_checks := md_checks md ++ items;
                        md_retries := attempt |} /\
    ((py_truthy (dict_get kv (lit "passed") (PyBool false)) = false /\
      att_return a = None)
     \/
     (py_truthy (dict_get kv (lit "passed") (PyBool false)) = true /\
      exists expl,
        dict_get ke (lit "explanation") (PyStr []) = PyStr expl /\
        att_return a =
          Some {| answer := dict_get ke (lit "proposed_answer") (PyStr []);
                  status := success;
                  reasoning_visible_to_user := slice_to 250 (strip expl);
                  metadata := att_metadata a |})).

(** The passes of one run: each starts from the metadata the one before
    left, all but the last are rejected, and the last is either accepted
    or the pass for the last value of [attempt]. *)
Inductive passes : metadata_t -> list Z -> list attempt_t -> Prop :=
| passes_none md : passes md [] []
| passes_accept md attempt rest a r :
    pass_spec md attempt a -> att_return a = Some r ->
    passes md (attempt :: rest) [a]
| passes_reject md attempt rest a log :
    pass_spec md attempt a -> att_return a = None ->
    passes (att_metadata a) rest log ->
    passes md (attempt :: rest) (a :: log).

(** The script of a run: one entry of three answers for each pass. *)
Definition entry : Type := pystr * pystr * pystr.

Definition script_of (entries : list entry) : script :=
  flat_map (fun en => pass (fst (fst en)) (snd (fst en)) (snd en)) entries.

(** What [execute] and [verify_llm] make of an answer of the service. *)
Definition decode (text : pystr) : outcome pyval :=
  json_loads (fence_stripped text).

(** An entry whose pass runs to its end and is rejected: both answers
    decode to dicts, the verdict's [passed] (or its default) is false in
    an [if], and its [checks] (or their default) can be iterated, giving
    [items]. *)
Definition rejected (en : entry) (items : list pyval) : Prop :=
  exists ke kv,
    decode (snd (fst en)) = Ok (PyDict ke) /\
    decode (snd en) = Ok (PyDict kv) /\
    py_truthy (dict_get kv (lit "passed") (PyBool false)) = false /\
    py_iter (dict_get kv (lit "checks") (PyList [])) = Ok items.

(** The metadata after the rejected passes for the values [attempts], with
    the answers [plans] of the planner and the checks [per] of the
    verdicts. *)
Fixpoint md_after (md : metadata_t) (attempts : list Z) (plans : list pystr)
  (per : list (list pyval)) : metadata_t :=
  match attempts, plans, per with
  | attempt :: attempts', p :: plans', items :: per' =>
      md_after {| md_plan := Some (strip p);
                  md_checks := md_checks md ++ items;
                  md_retries := attempt |} attempts' plans' per'
  | _, _, _ => md
  end.

(** Two entries between which the controller cannot tell: the same answer
    of the executor, and two verdicts that are dicts with the same truth
    value of [passed] and with [checks] that can be iterated, whatever
    else they hold. *)
Definition same_verdict (en1 en2 : entry) : Prop :=
  snd (fst en1) = snd (fst en2) /\
  exists kv1 kv2 items1 items2,
    decode (snd en1) = Ok (PyDict kv1) /\
    decode (snd en2) = Ok (PyDict kv2) /\
    py_truthy (dict_get kv1 (lit "passed") (PyBool false)) =
    py_truthy (dict_get kv2 (lit "passed") (PyBool false)) /\
    py_iter (dict_get kv1 (lit "checks") (PyList [])) = Ok items1 /\
    py_iter (dict_get kv2 (lit "checks") (PyList [])) = Ok items2.

(** What an observer of the controller's decisions sees of a run: the
    decision or the exception, and how many answers were left unread. *)
Definition observe (o : outcome final_result * script)
  : outcome decision * nat :=
  (match fst o with
   | Ok r => Ok (decision_of r)
   | Raise e => Raise e
   end, List.length (snd o)).

(** What a lexer that returns a rest makes of a longer text. *)
Definition with_rest {A : Type} (t : pystr) (o : option (A * pystr))
  : option (A * pystr) :=
  match o with
  | Some (a, r) => Some (a, r ++ t)
  | None => None
  end.

(** [c in p] for a code point and a string. *)
Definition occurs (c : N) (p : pystr) : bool := existsb (N.eqb c) p.

(** The code points still to be dropped belong to the occurrence of [old]
    that is being dropped. *)
Definition dropping (old : pystr) (k : nat) (s : pystr) : Prop :=
  (k <= List.length s)%nat /\
  forall c, In c (firstn k s) -> occurs c old = true.

(** The text of a JSON object between an opening fence marker, with or
    without the language tag, and a closing one; [o1], [ws1], [ws2] and
    [o2] are the whitespace (line ends, as a rule) around the markers. *)
Definition fenced (o1 fence ws1 body ws2 o2 : pystr) : pystr :=
  o1 ++ fence ++ ws1 ++ body ++ ws2 ++ lit "```" ++ o2.

(** [erased old s s']: [s'] is [s] without some of the places where
    [old] occurs in it. *)
Inductive erased (old : pystr) : pystr -> pystr -> Prop :=
| erased_nil : erased old [] []
| erased_keep c s s' : erased old s s' -> erased old (c :: s) (c :: s')
| erased_drop s s' : erased old s s' -> erased old (old ++ s) s'.

(** A code point that stands for itself inside a JSON string. *)
Definition plain_char (c : N) : bool :=
  negb (c =? 34) && negb (c =? 92) && negb (c <? 32).

(** A rest that starts with something that can follow a value: nothing,
    whitespace, a comma, a closing brace or bracket. *)
Definition delimited (r : pystr) : bool :=
  match r with
  | [] => true
  | c :: _ => json_ws c || (c =? 44) || (c =? 125) || (c =? 93)
  end.

(** A text that does not start with a backquote. *)
Definition no_backquote_first (r : pystr) : Prop :=
  match r with
  | [] => True
  | c :: _ => c <> 96
  end.

(** A text made of the decoder's whitespace only. *)
Definition all_ws (s : pystr) : bool := forallb json_ws s.

(** A key that a dict does not hold. *)
Definition lacks (kvs : list (pystr * pyval)) (key : pystr) : Prop :=
  forall k v, In (k, v) kvs -> pystr_eqb k key = false.

(** The answers a pass reads up to a decoding error [err]: the plan and
    an answer of the executor that does not decode, or the plan, an answer
    of the executor that decodes to a dict and an answer of the verifier
    that does not decode. *)
Definition undecodable (en : entry) (err : exn) (consumed : script) : Prop :=
  (decode (snd (fst en)) = Raise err /\
   consumed = [Ok (fst (fst en)); Ok (snd (fst en))])
  \/
  (exists ke,
      decode (snd (fst en)) = Ok (PyDict ke) /\
      decode (snd en) = Raise err /\
      consumed = pass (fst (fst en)) (snd (fst en)) (snd en)).

(** The exceptions [json.loads] can raise: its own, and the two of the
    interpreter. *)
Definition decoder_error (e : exn) : Prop :=
  e = JSONDecodeError \/ e = ValueError \/ e = RecursionError.

End Vocabulary.

(** ** Sample answers of the service *)

(** CPython 3.11 started with its defaults, at the calls [main.py] makes
    when it runs as a script: a recursion limit of 1000 leaves the decoder
    room for 993 lists and dicts one inside the other and the encoder for
    995, the scanner needs three levels to raise its error, and [int]
    takes 4300 digits.  The closed examples run on it. *)
Definition script_interpreter : interpreter :=
  {| decoder_room := 993; error_room := 3; encoder_room := 995;
     int_max_str_digits := 4300;
     room_to_raise := proj1 (Nat.ltb_lt 3 993) eq_refl;
     digits_limit_valid := or_intror (proj1 (Nat.leb_le 640 4300) eq_refl) |}.


(** A run of two passes: the first is rejected, the second accepted. *)
Definition two_pass_script : script :=
  pass (lit "1. Add the numbers.")
       (qlit "{@proposed_answer@: @5@, @explanation@: @2 + 2 = 5@}")
       (qlit "{@passed@: false, @checks@: [{@check_name@: @sum@, "
        ++ qlit "@passed@: false, @details@: @2 + 2 is 4@}], "
        ++ qlit "@issues@: @wrong sum@}")
  ++
  pass (lit "1. Add the numbers again.")
       (qlit "{@proposed_answer@: @4@, @explanation@: @2 + 2 = 4@}")
       (qlit "{@passed@: true, @checks@: [{@check_name@: @sum@, "
        ++ qlit "@passed@: true, @details@: @ok@}], @issues@: @@}").

(** One rejected pass, and two of them. *)
Definition one_rejection : list entry :=
  [ (lit "1. Add.", qlit "{@proposed_answer@: @5@}", qlit "{@passed@: false}") ].

Definition two_rejections : list entry :=
  [ (lit "1. Add.", qlit "{@proposed_answer@: @5@}", qlit "{@passed@: false}");
    (lit "1. Add again.", qlit "{@proposed_answer@: @6@}",
     qlit "{@checks@: [@sum@], @passed@: 0}") ].

(** Two runs with the same answers of the executor and verdicts that
    agree on [passed] only: in the first run the checks even contradict
    the verdict they come with. *)
Definition verbose_verdicts : list entry :=
  [ (lit "1. Add.",
     qlit "{@proposed_answer@: @5@, @explanation@: @2 + 2 = 5@}",
     qlit "{@passed@: false, @checks@: [{@check_name@: @sum@, "
     ++ qlit "@passed@: true, @details@: @fine@}], @issues@: @@}");
    (lit "1. Add.",
     qlit "{@proposed_answer@: @4@, @explanation@: @2 + 2 = 4@}",
     qlit "{@passed@: true, @checks@: [{@check_name@: @sum@, "
     ++ qlit "@passed@: false, @details@: @off@}], @issues@: @bad@}") ].

Definition terse_verdicts : list entry :=
  [ (lit "1. Sum.",
     qlit "{@proposed_answer@: @5@, @explanation@: @2 + 2 = 5@}",
     qlit "{@passed@: false, @checks@: [], @issues@: @the sum is wrong@}");
    (lit "1. Sum.",
     qlit "{@proposed_answer@: @4@, @explanation@: @2 + 2 = 4@}",
     qlit "{@passed@: true}") ].

(** What stands between the braces of a small execution result. *)
Definition inside_of_object : pystr :=
  qlit "@proposed_answer@: @4@, @explanation@: @2 + 2 = 4@".

(** * Around the loop

    What the statements about the edges of [solve] and about the text
    that reaches the decoder need, and the callers of [solve]: the entry
    point of [main.py], which prints the result with [json.dumps], and
    [run_tests] of [test.py] with the script around it. *)

(** ** The service with a record of what it was asked *)

Section Recording.

Variable service : Type.
Variable generate_content :
  prompt -> service -> outcome (option pystr) * service.

(** The state of the service and the prompts it has been sent, the
    earliest first. *)
Definition recorded : Type := (service * list prompt)%type.

(** A call is recorded whether the service answers or fails. *)
Definition recording (p : prompt) (st : recorded)
  : outcome (option pystr) * recorded :=
  match generate_content p (fst st) with
  | (o, st') => (o, (st', snd st ++ [p]))
  end.

End Recording.

(** [v.get(key, default)] of a value known to be a dict. *)
Definition field (v : pyval) (key : pystr) (default : pyval) : pyval :=
  match v with
  | PyDict kvs => dict_get kvs key default
  | _ => default
  end.

(** The three prompts of a pass that ran to its end, in the order of the
    calls. *)
Definition prompts_of_pass (question : pystr) (a : attempt_t) : list prompt :=
  [ plan_prompt question;
    execute_prompt question (att_plan a);
    verify_prompt question
      (field (att_exec a) (lit "proposed_answer") (PyStr []))
      (field (att_exec a) (lit "explanation") (PyStr [])) ].

(** ** Shapes of texts and values *)

(** A text with no whitespace at either end. *)
Definition trimmed (s : pystr) : bool :=
  negb (py_isspace (hd 0 s)) && negb (py_isspace (last s 0)).

(** [p in s] for two strings *)
Fixpoint contains (p s : pystr) : bool :=
  startswith p s ||
  match s with
  | [] => false
  | _ :: s' => contains p s'
  end.

Definition is_dict (v : pyval) : bool :=
  match v with
  | PyDict _ => true
  | _ => false
  end.

(** The decoded values that [extend] cannot iterate. *)
Definition not_iterable (v : pyval) : bool :=
  match v with
  | PyNone | PyBool _ | PyInt _ | PyFloat _ => true
  | _ => false
  end.

(** A value whose text ends with a closing quote, bracket or brace. *)
Definition closed (v : pyval) : bool :=
  match v with
  | PyStr _ | PyList _ | PyDict _ => true
  | _ => false
  end.

(** The code points a JSON value can start with: a quote, an opening
    brace or bracket, a minus sign, a digit, and the first letters of
    [null], [true], [false], [NaN] and [Infinity]. *)
Definition starts_value (c : N) : bool :=
  (c =? 34) || (c =? 123) || (c =? 91) || (c =? 45) || is_digit c
  || (c =? 110) || (c =? 116) || (c =? 102) || (c =? 78) || (c =? 73).

(** ** Passes that end the run with an exception *)

Section Edges.

Context {py : interpreter}.

(** The answers a pass reads up to a failure [e] of the service: at the
    call of the planner, of the executor, or of the verifier, which is
    only called with an execution result that is a dict. *)
Definition service_fails (en : entry) (e : exn) (consumed : script) : Prop :=
  consumed = [Raise e]
  \/
  consumed = [Ok (fst (fst en)); Raise e]
  \/
  (exists ke,
      decode (snd (fst en)) = Ok (PyDict ke) /\
      consumed = [Ok (fst (fst en)); Ok (snd (fst en)); Raise e]).

(** The answers a pass reads up to an answer that decodes, but not to a
    dict: the executor's, or the verifier's after an execution result that
    is one. *)
Definition not_an_object (en : entry) (consumed : script) : Prop :=
  (exists x,
      decode (snd (fst en)) = Ok x /\ is_dict x = false /\
      consumed = [Ok (fst (fst en)); Ok (snd (fst en))])
  \/
  (exists ke x,
      decode (snd (fst en)) = Ok (PyDict ke) /\
      decode (snd en) = Ok x /\ is_dict x = false /\
      consumed = pass (fst (fst en)) (snd (fst en)) (snd en)).

(** A pass whose verdict holds [checks] that cannot be iterated. *)
Definition checks_not_iterable (en : entry) : Prop :=
  exists ke kv,
    decode (snd (fst en)) = Ok (PyDict ke) /\
    decode (snd en) = Ok (PyDict kv) /\
    not_iterable (dict_get kv (lit "checks") (PyList [])) = true.

(** A pass whose verdict is accepted while the execution result holds an
    [explanation] that is not a string. *)
Definition accepted_without_text (en : entry) : Prop :=
  exists ke kv items,
    decode (snd (fst en)) = Ok (PyDict ke) /\
    decode (snd en) = Ok (PyDict kv) /\
    py_iter (dict_get kv (lit "checks") (PyList [])) = Ok items /\
    py_truthy (dict_get kv (lit "passed") (PyBool false)) = true /\
    (forall s, dict_get ke (lit "explanation") (PyStr []) <> PyStr s).

End Edges.

(** An answer of the service without text: [resp.text] is [None], empty
    or whitespace. *)
Definition blank (t : option pystr) : bool :=
  match t with
  | None => true
  | Some text => forallb py_isspace text
  end.

(** ** The JSON encoder behind [json.dumps(result, indent=2)]

    The encoder with its defaults and an indent of two: strings are
    written in ASCII, items are separated by a comma and a new line, a key
    is followed by a colon and a space, and an empty list or dict is
    written without a line break.  The text is produced piece by piece,
    so that the first value that cannot be written ends the call with its
    exception. *)

Definition hexdigit (d : N) : N := if d <? 10 then 48 + d else 87 + d.

(** The escape of a code point below [0x10000]: a backslash, [u] and four
    hexadecimal digits in lower case. *)
Definition u_escape (u : N) : pystr :=
  [92; 117; hexdigit (u / 4096); hexdigit (u / 256 mod 16);
   hexdigit (u / 16 mod 16); hexdigit (u mod 16)].

(** What one code point of a string is written as: the printable ASCII
    code points stand for themselves, but the quote and the backslash;
    the others are escaped, those above [0xFFFF] as a surrogate pair. *)
Definition escape_char (c : N) : pystr :=
  if c =? 92 then [92; 92]
  else if c =? 34 then [92; 34]
  else if (32 <=? c) && (c <=? 126) then [c]
  else if c =? 8 then [92; 98]
  else if c =? 12 then [92; 102]
  else if c =? 10 then [92; 110]
  else if c =? 13 then [92; 114]
  else if c =? 9 then [92; 116]
  else if c <? 65536 then u_escape c
  else
    let n := c - 65536 in
    u_escape (N.lor 55296 (N.land (N.shiftr n 10) 1023))
    ++ u_escape (N.lor 56320 (N.land n 1023)).

Definition encode_basestring_ascii (s : pystr) : pystr :=
  34 :: flat_map escape_char s ++ [34].

(** The decimal digits of a natural number, the digits already produced
    in [acc]; the binary length of the number is fuel enough. *)
Fixpoint digits_from (fuel : nat) (n : N) (acc : pystr) : pystr :=
  match fuel with
  | O => acc
  | S fuel' =>
      if n <? 10 then (48 + n) :: acc
      else digits_from fuel' (n / 10) ((48 + n mod 10) :: acc)
  end.

Definition N_repr (n : N) : pystr :=
  digits_from (S (N.to_nat (N.log2 n))) n [].

(** A line break and the indentation of a nesting level. *)
Definition newline_indent (level : nat) : pystr :=
  10 :: repeat 32 (2 * level).

(** [o], and then [k] on what it returns, unless it raises. *)
Definition and_then {A B : Type} (o : outcome A) (k : A -> outcome B)
  : outcome B :=
  match o with
  | Ok a => k a
  | Raise e => Raise e
  end.

(** The texts [enc] gives for the items of a list, one after the other,
    up to the first item for which it raises. *)
Definition encode_each {A : Type} (enc : A -> outcome pystr)
  : list A -> outcome pystr :=
  fix go (l : list A) : outcome pystr :=
    match l with
    | [] => Ok []
    | x :: l' =>
        and_then (enc x) (fun tx =>
        and_then (go l') (fun rest => Ok (tx ++ rest)))
    end.

Section Encoder.

Context {py : interpreter}.

(** [int.__repr__]: a number with too many digits is not written. *)
Definition int_repr (z : Z) : outcome pystr :=
  if over_int_limit (List.length (N_repr (Z.abs_N z))) then Raise ValueError
  else Ok (if (z <? 0)%Z then 45 :: N_repr (Z.abs_N z)
           else N_repr (Z.abs_N z)).

(** The text of the float made from a decimal literal, which is
    [float.__repr__] of the binary64 number nearest to it (or [Infinity]
    where the literal is beyond the range): the rounding is not
    modelled, the text is a parameter. *)
Variable float_text : bool -> N -> Z -> pystr.

Definition floatstr (f : pyfloat) : pystr :=
  match f with
  | FNaN => lit "NaN"
  | FInf false => lit "Infinity"
  | FInf true => lit "-Infinity"
  | FDec neg m e => float_text neg m e
  end.

(** The text of a value at a nesting level.  [room] is what the
    recursion limit leaves: the generator of a list or dict that is not
    empty takes one level for itself and the calls it makes, and runs the
    generators of its items one level further; [floatstr], a function of
    the encoder, needs a level as well.  Where there is none the
    interpreter raises [RecursionError]. *)
Fixpoint iterencode (room level : nat) (v : pyval) {struct v}
  : outcome pystr :=
  match v with
  | PyNone => Ok (lit "null")
  | PyBool true => Ok (lit "true")
  | PyBool false => Ok (lit "false")
  | PyInt z => int_repr z
  | PyFloat f =>
      match room with
      | O => Raise RecursionError
      | S _ => Ok (floatstr f)
      end
  | PyStr s => Ok (encode_basestring_ascii s)
  | PyList [] => Ok (lit "[]")
  | PyList (x :: l) =>
      match room with
      | O => Raise RecursionError
      | S room' =>
          and_then (iterencode room' (S level) x) (fun tx =>
          and_then
            (encode_each
               (fun y =>
                  and_then (iterencode room' (S level) y) (fun ty =>
                  Ok (44 :: newline_indent (S level) ++ ty))) l)
            (fun rest =>
          Ok (91 :: newline_indent (S level) ++ tx ++ rest
              ++ newline_indent level ++ [93])))
      end
  | PyDict [] => Ok (lit "{}")
  | PyDict ((k, x) :: kvs) =>
      match room with
      | O => Raise RecursionError
      | S room' =>
          and_then (iterencode room' (S level) x) (fun tx =>
          and_then
            (encode_each
               (fun kv =>
                  and_then (iterencode room' (S level) (snd kv)) (fun ty =>
                  Ok (44 :: newline_indent (S level)
                      ++ encode_basestring_ascii (fst kv) ++ [58; 32] ++ ty)))
               kvs)
            (fun rest =>
          Ok (123 :: newline_indent (S level) ++ encode_basestring_ascii k
              ++ [58; 32] ++ tx ++ rest ++ newline_indent level ++ [125])))
      end
  end.

(** [json.dumps(v, indent=2)] *)
Definition json_dumps (v : pyval) : outcome pystr :=
  iterencode encoder_room 0 v.

End Encoder.

(** ** The callers of [solve] *)

Definition status_text (s : status_t) : pystr :=
  match s with
  | success => lit "success"
  | failed => lit "failed"
  end.

(** The dict [solve] returns: the keys in the order of the two dict
    displays. *)
Definition metadata_dict (md : metadata_t) : pyval :=
  PyDict [ (lit "plan", match md_plan md with
                        | Some p => PyStr p
                        | None => PyNone
                        end);
           (lit "checks", PyList (md_checks md));
           (lit "retries", PyInt (md_retries md)) ].

Definition result_dict (r : final_result) : pyval :=
  PyDict [ (lit "answer", answer r);
           (lit "status", PyStr (status_text (status r)));
           (lit "reasoning_visible_to_user",
            PyStr (reasoning_visible_to_user r));
           (lit "metadata", metadata_dict (metadata r)) ].

Section EntryPoint.

Context {py : interpreter}.
Variable float_text : bool -> N -> Z -> pystr.
Variable service : Type.
Variable generate_content :
  prompt -> service -> outcome (option pystr) * service.

(** The command-line entry point, from the line [input] returns to the
    text that is printed: nothing is printed when [solve] or [json.dumps]
    raises. *)
Definition main_cli (q : pystr) : M service pystr :=
  bind service (solve service generate_content q 1)
    (fun result => lift service (json_dumps float_text (result_dict result))).

End EntryPoint.

(** [v == s] for a decoded value and a string *)
Definition py_eq_str (v : pyval) (s : pystr) : bool :=
  match v with
  | PyStr x => pystr_eqb x s
  | _ => false
  end.

(** [all(c.get("passed", False) for c in checks)]: the generator is
    consumed up to the first item that is false. *)
Fixpoint all_passed (checks : list pyval) : outcome bool :=
  match checks with
  | [] => Ok true
  | c :: checks' =>
      match py_get c (lit "passed") (PyBool false) with
      | Ok p => if py_truthy p then all_passed checks' else Ok false
      | Raise e => Raise e
      end
  end.

(** The conditional expression that gives [verifier_passed]. *)
Definition verifier_passed (status checks : pyval) : outcome bool :=
  if py_truthy checks then
    match py_iter checks with
    | Ok items => all_passed items
    | Raise e => Raise e
    end
  else Ok (py_eq_str status (lit "success")).

(** What [run_tests] derives from a result, in the order of the
    statements: the status, the checks, the retries, then
    [verifier_passed]; the pair of the two values it prints. *)
Definition derive (result : pyval) : outcome (bool * pyval) :=
  match py_get result (lit "status") PyNone with
  | Raise e => Raise e
  | Ok status =>
      match py_get result (lit "metadata") (PyDict []) with
      | Raise e => Raise e
      | Ok md =>
          match py_get md (lit "checks") (PyList []) with
          | Raise e => Raise e
          | Ok checks =>
              match py_get md (lit "retries") (PyInt 0) with
              | Raise e => Raise e
              | Ok retries =>
                  match verifier_passed status checks with
                  | Raise e => Raise e
                  | Ok vp => Ok (vp, retries)
                  end
              end
          end
      end
  end.

Section Tests.

Context {py : interpreter}.
Variable float_text : bool -> N -> Z -> pystr.
Variable service : Type.

(** [solve] as [test.py] imports it from the module [agent]. *)
Variable agent_solve : pystr -> Z -> service -> outcome pyval * service.

(** The state of the service and what [print] was called with so far,
    one entry for each call; an entry is an f-string before formatting. *)
Definition console : Type := (service * list prompt)%type.

Definition print (line : prompt) : M console unit :=
  fun st => (Ok tt, (fst st, snd st ++ [line])).

Definition call_solve (q : pystr) (max_retries : Z) : M console pyval :=
  fun st =>
    match agent_solve q max_retries (fst st) with
    | (o, s') => (o, (s', snd st))
    end.

(** The body of the loop of [run_tests] for the question [q], the
    [i]-th. *)
Definition test_body (i : Z) (q : pystr) : M console unit :=
  bind console
    (print [Text (lit "
--- Test "); Value (PyInt i); Text (lit " ---")])
    (fun _ =>
  bind console (print [Text (lit "Question: "); Value (PyStr q)])
    (fun _ =>
  bind console (call_solve q 1)
    (fun result =>
  bind console (print [Text (lit "Final JSON:")])
    (fun _ =>
  bind console (lift console (json_dumps float_text result))
    (fun text =>
  bind console (print [Text text])
    (fun _ =>
  bind console (lift console (derive result))
    (fun d =>
  bind console
    (print [Text (lit "Verifier passed: "); Value (PyBool (fst d))])
    (fun _ =>
  print [Text (lit "Agent retries: "); Value (snd d)])))))))).

(** The loop over [enumerate(questions, start=i)]. *)
Fixpoint tests_loop (i : Z) (questions : list pystr) : M console unit :=
  match questions with
  | [] => ret console tt
  | q :: rest =>
      bind console (test_body i q) (fun _ => tests_loop (i + 1) rest)
  end.

Definition run_tests (questions : list pystr) (label : pystr)
  : M console unit :=
  bind console
    (print [Text (lit "
=== "); Value (PyStr label); Text (lit " TESTS ===")])
    (fun _ => tests_loop 1 questions).

End Tests.

(** [solve] of this program as a function that returns a dict. *)
Definition solve_dict {py : interpreter} (service : Type)
  (generate_content : prompt -> service -> outcome (option pystr) * service)
  (question : pystr) (max_retries : Z) (st : service)
  : outcome pyval * service :=
  match solve service generate_content question max_retries st with
  | (Ok r, st') => (Ok (result_dict r), st')
  | (Raise e, st') => (Raise e, st')
  end.

(** ** Values that survive encoding and decoding *)

(** No high surrogate stands right before a low one. *)
Fixpoint no_split_pair (s : pystr) : bool :=
  match s with
  | [] => true
  | c :: s' =>
      match s' with
      | d :: _ => negb (is_high_surrogate c && is_low_surrogate d)
      | [] => true
      end && no_split_pair s'
  end.

(** A string of code points of Unicode in which no two code points would
    be read back as one. *)
Definition text_round_trips (s : pystr) : bool :=
  forallb (fun c => c <? 1114112) s && no_split_pair s.

Fixpoint keys_distinct (ks : list pystr) : bool :=
  match ks with
  | [] => true
  | k :: ks' => negb (existsb (pystr_eqb k) ks') && keys_distinct ks'
  end.

(** A value as Python holds it (the keys of a dict are distinct), with
    strings as above and no finite float. *)
Fixpoint round_trips (v : pyval) : bool :=
  match v with
  | PyNone | PyBool _ | PyInt _ => true
  | PyFloat (FDec _ _ _) => false
  | PyFloat _ => true
  | PyStr s => text_round_trips s
  | PyList l => forallb round_trips l
  | PyDict kvs =>
      keys_distinct (map fst kvs)
      && forallb (fun kv => text_round_trips (fst kv) && round_trips (snd kv)) kvs
  end.

(** The code points [json.dumps] writes: the line feed and the printable
    ASCII code points. *)
Definition plain_ascii (c : N) : bool :=
  (c =? 10) || ((32 <=? c) && (c <=? 126)).

(** Induction on a value and, for a list or a dict, on the values it
    holds. *)
Section ValueInduction.

Variable P : pyval -> Prop.
Hypothesis HNone : P PyNone.
Hypothesis HBool : forall b, P (PyBool b).
Hypothesis HInt : forall z, P (PyInt z).
Hypothesis HFloat : forall f, P (PyFloat f).
Hypothesis HStr : forall s, P (PyStr s).
Hypothesis HList : forall l, Forall P l -> P (PyList l).
Hypothesis HDict :
  forall kvs, Forall (fun kv => P (snd kv)) kvs -> P (PyDict kvs).

Fixpoint pyval_nested_ind (v : pyval) : P v :=
  match v with
  | PyNone => HNone
  | PyBool b => HBool b
  | PyInt z => HInt z
  | PyFloat f => HFloat f
  | PyStr s => HStr s
  | PyList l =>
      HList l
        ((fix go (l : list pyval) : Forall P l :=
            match l with
            | [] => Forall_nil P
            | x :: l' => Forall_cons x (pyval_nested_ind x) (go l')
            end) l)
  | PyDict kvs =>
      HDict kvs
        ((fix go (kvs : list (pystr * pyval))
            : Forall (fun kv => P (snd kv)) kvs :=
            match kvs with
            | [] => Forall_nil _
            | kv :: kvs' =>
                Forall_cons kv (pyval_nested_ind (snd kv)) (go kvs')
            end) kvs)
  end.

End ValueInduction.

(** The levels the decoder needs for a value: one for each list or dict
    that is open at once, and one for a float that is not finite, which is
    made by a call. *)
Fixpoint nesting (v : pyval) : nat :=
  match v with
  | PyList l => S (fold_right (fun x n => Nat.max (nesting x) n) O l)
  | PyDict kvs =>
      S (fold_right (fun kv n => Nat.max (nesting (snd kv)) n) O kvs)
  | PyFloat (FDec _ _ _) => O
  | PyFloat _ => 1
  | _ => O
  end.

(** A value is read back from the text the encoder writes for it, at any
    nesting level and before any text that ends a value, when the decoder
    has room for its lists and dicts and fuel enough. *)
Definition reads_back {py : interpreter}
  (float_text : bool -> N -> Z -> pystr) (v : pyval) : Prop :=
  round_trips v = true ->
  forall eroom droom level text t,
    iterencode float_text eroom level v = Ok text ->
    (nesting v <= droom)%nat ->
    delimited t = true ->
    exists n, forall fuel,
        (n <= fuel)%nat ->
        scan_once fuel droom (text ++ t) = Parsed v t.

(** The value [all] sees of a check of a result of [solve]. *)
Definition check_passed (c : pyval) : bool :=
  py_truthy (field c (lit "passed") (PyBool false)).

(** A small result as [solve] returns it after a rejected and an accepted
    pass, and the dict of it. *)
Definition sample_result : final_result :=
  {| answer := PyStr (lit "4");
     status := success;
     reasoning_visible_to_user := lit "2 + 2 = 4";
     metadata :=
       {| md_plan := Some (lit "1. Add the numbers again.");
          md_checks :=
            [ PyDict [ (lit "check_name", PyStr (lit "sum"));
                       (lit "passed", PyBool false);
                       (lit "details", PyStr (lit "2 + 2 is 4")) ];
              PyDict [ (lit "check_name", PyStr (lit "sum"));
                       (lit "passed", PyBool true);
                       (lit "details", PyStr [111; 107; 32; 10003; 128512]) ] ];
          md_retries := 1 |} |}.



(** The text of an object with one member whose value is a string: an
    opening brace, the key and the value between quotes with a colon and
    a space between them, a closing brace. *)
Definition one_member (k s : pystr) : pystr :=
  qlit "{@" ++ k ++ qlit "@: @" ++ s ++ qlit "@}".


(** ** The test script *)

Definition EASY_QUESTIONS : list pystr :=
  [ lit "A train leaves at 12:30 and arrives at 18:05. How long is the journey?";
    lit "Alice has 3 red apples and twice as many green apples as red. How many apples does she have in total?";
    lit "If you have 15 chocolates and give 7 to a friend, how many are left?";
    lit "A movie starts at 09:45 and ends at 11:10. How long does it last?";
    lit "Tom has 8 pens and buys 5 more. How many pens does he have now?" ].

(** The last question holds three en dashes, the code point 8211. *)
Definition TRICKY_QUESTIONS : list pystr :=
  [ lit "Ravi has 20 marbles. He gives 4 to Sita and 3 to Arjun, then buys 5 more. How many marbles does he have now?";
    lit "A shop sells boxes with 6 or 8 cookies each. Rohan buys 3 boxes and gets 22 cookies in total. How many boxes of each type might he have bought?";
    lit "A meeting needs exactly 30 minutes. Free slots are 10:00" ++ [8211]
    ++ lit "10:30, 10:30" ++ [8211] ++ lit "11:00, 10:45" ++ [8211]
    ++ lit "11:15. Which slots can fit the meeting?" ].

(** What the script runs: the easy questions, then the tricky ones. *)
Definition test_main {py : interpreter}
  (float_text : bool -> N -> Z -> pystr) (service : Type)
  (agent_solve : pystr -> Z -> service -> outcome pyval * service)
  : M (console service) unit :=
  bind (console service)
    (run_tests float_text service agent_solve EASY_QUESTIONS (lit "EASY"))
    (fun _ =>
       run_tests float_text service agent_solve TRICKY_QUESTIONS (lit "TRICKY")).

(** What a computation of the test runner adds on the recorded service:
    at most [prompts] prompts to those sent and at most [prints] calls of
    [print] to those made (a call can print a text of several lines). *)
Definition adds (service : Type) {A : Type}
  (c : M (console (recorded service)) A) (prompts prints : nat) : Prop :=
  forall st l out,
  exists sent printed,
    snd (fst (snd (c ((st, l), out)))) = l ++ sent /\
    snd (snd (c ((st, l), out))) = out ++ printed /\
    (List.length sent <= prompts)%nat /\
    (List.length printed <= prints)%nat.

(** * Facts *)

Arguments lit : simpl never.

(** ** The decoder never runs out of fuel *)

Lemma skip_ws_length s : (List.length (skip_ws s) <= List.length s)%nat.
Proof.
  induction s as [|c s IH]; cbn; [lia|].
  destruct (json_ws c); cbn; lia.
Qed.

(** Case analysis along the branches of a definition applied in [H]. *)
Ltac branches H :=
  repeat
    match type of H with
    | context [if ?b then _ else _] => destruct b eqn:?
    | context [match ?x with _ => _ end] => destruct x eqn:?
    end.

Lemma scanstring_length s :
  forall acc high k r,
    scanstring s acc high = Parsed k r -> (List.length r < List.length s)%nat.
Proof.
  induction s as [s IH] using (induction_ltof1 _ (@List.length N)).
  unfold ltof in IH. intros acc high k r H.
  destruct s as [|c s1]; [discriminate|]. cbn [scanstring] in H.
  branches H; try discriminate;
    try (inversion H; subst; cbn [List.length]; lia);
    try (apply IH in H; cbn [List.length] in *; lia).
Qed.

Lemma scanstring_ends s :
  forall acc high, scanstring s acc high <> OutOfFuel.
Proof.
  induction s as [s IH] using (induction_ltof1 _ (@List.length N)).
  unfold ltof in IH. intros acc high E.
  destruct s as [|c s1]; [discriminate|]. cbn [scanstring] in E.
  branches E; try discriminate;
    try (eapply IH; [|exact E]; cbn [List.length]; lia).
Qed.

Lemma span_digits_length s :
  forall d r, span_digits s = (d, r) -> (List.length r <= List.length s)%nat.
Proof.
  induction s as [|c s IH]; intros d r H; cbn in H.
  - inversion H. cbn. lia.
  - destruct (is_digit c).
    + destruct (span_digits s) as [d' r'] eqn:E. inversion H; subst.
      specialize (IH _ _ eq_refl). cbn. lia.
    + inversion H. cbn. lia.
Qed.

Lemma match_sign_length s b r :
  match_sign s = (b, r) -> (List.length r <= List.length s)%nat.
Proof.
  unfold match_sign. intros H. branches H; inversion H; subst; cbn; lia.
Qed.

Lemma match_int_length s d r :
  match_int s = Some (d, r) -> (List.length r <= List.length s)%nat.
Proof.
  unfold match_int. intros H. branches H; try discriminate;
    inversion H; subst; cbn;
    try match goal with
        | E : span_digits _ = _ |- _ => apply span_digits_length in E
        end; lia.
Qed.

Lemma match_frac_length s d r :
  match_frac s = Some (d, r) -> (List.length r <= List.length s)%nat.
Proof.
  unfold match_frac. intros H. branches H; try discriminate;
    inversion H; subst; cbn;
    match goal with
    | E : span_digits _ = _ |- _ => apply span_digits_length in E
    end; lia.
Qed.

Lemma match_exp_sign_length s b r :
  match_exp_sign s = (b, r) -> (List.length r <= List.length s)%nat.
Proof.
  unfold match_exp_sign. intros H. branches H; inversion H; subst; cbn; lia.
Qed.

Lemma match_exp_length s z r :
  match_exp s = Some (z, r) -> (List.length r <= List.length s)%nat.
Proof.
  unfold match_exp. intros H. destruct s as [|c s']; [discriminate|].
  destruct ((c =? 101) || (c =? 69)); [|discriminate].
  destruct (match_exp_sign s') as [neg s2] eqn:Es.
  destruct (span_digits s2) as [d r'] eqn:Ed.
  apply match_exp_sign_length in Es. apply span_digits_length in Ed.
  destruct d; [discriminate|]. inversion H; subst. cbn. lia.
Qed.

Lemma match_number_length s v r :
  match_number s = Some (v, r) -> (List.length r <= List.length s)%nat.
Proof.
  unfold match_number. intros H.
  destruct (match_sign s) as [neg s1] eqn:E1. apply match_sign_length in E1.
  destruct (match_int s1) as [[ip s2]|] eqn:E2; [|discriminate].
  apply match_int_length in E2.
  destruct (match_frac s2) as [[fd s3]|] eqn:E3.
  - apply match_frac_length in E3.
    destruct (match_exp s3) as [[ex s4]|] eqn:E4.
    + apply match_exp_length in E4. inversion H; subst. lia.
    + inversion H; subst. lia.
  - destruct (match_exp s2) as [[ex s4]|] eqn:E4.
    + apply match_exp_length in E4. inversion H; subst. lia.
    + inversion H; subst. lia.
Qed.

Lemma skipn_le (n : nat) (s : pystr) :
  (List.length (skipn n s) <= List.length s)%nat.
Proof. rewrite length_skipn. lia. Qed.

Lemma match_constant_length s v r :
  match_constant s = Some (v, r) -> (List.length r <= List.length s)%nat.
Proof.
  unfold match_constant. intros H.
  branches H; try discriminate; injection H as _ Hr; subst r;
    first [apply (skipn_le 3) | apply (skipn_le 4) | apply (skipn_le 5)
          | apply (skipn_le 8) | apply (skipn_le 9)].
Qed.

Lemma match_nonfinite_length s v r :
  match_nonfinite s = Some (v, r) -> (List.length r <= List.length s)%nat.
Proof.
  unfold match_nonfinite. intros H.
  branches H; try discriminate; injection H as _ Hr; subst r;
    first [apply (skipn_le 3) | apply (skipn_le 4) | apply (skipn_le 5)
          | apply (skipn_le 8) | apply (skipn_le 9)].
Qed.

Lemma refused_not_parsed {py : interpreter} {A : Type} room (v : A) r :
  refused room <> Parsed v r.
Proof. unfold refused. destruct (_ <? _)%nat; discriminate. Qed.

Lemma refused_not_fuel {py : interpreter} {A : Type} room :
  @refused py A room <> OutOfFuel.
Proof. unfold refused. destruct (_ <? _)%nat; discriminate. Qed.

(** Closes a goal about a scanner that has ended with an exception. *)
Ltac ended :=
  first
    [ split; [discriminate | intros; discriminate]
    | split; [apply refused_not_fuel
             | intros ? ? Hparsed; exfalso;
               exact (refused_not_parsed _ _ _ Hparsed)] ].

(** With fuel above twice the length of the text, and one unit more for
    the two loops, the decoder ends with a value or an exception, and a
    value leaves a rest that is not longer than the text. *)
Lemma decoder_fuel {py : interpreter} fuel :
  (forall room s, (2 * List.length s < fuel)%nat ->
     scan_once fuel room s <> OutOfFuel /\
     forall v r, scan_once fuel room s = Parsed v r ->
                 (List.length r <= List.length s)%nat)
  /\
  (forall room s d, (2 * List.length s + 1 < fuel)%nat ->
     object_items fuel room s d <> OutOfFuel /\
     forall v r, object_items fuel room s d = Parsed v r ->
                 (List.length r <= List.length s)%nat)
  /\
  (forall room s acc, (2 * List.length s + 1 < fuel)%nat ->
     array_items fuel room s acc <> OutOfFuel /\
     forall v r, array_items fuel room s acc = Parsed v r ->
                 (List.length r <= List.length s)%nat).
Proof.
  induction fuel as [|fuel (IHs & IHo & IHa)].
  - repeat split; intros; lia.
  - split; [|split].
    + intros room s Hf. destruct s as [|c s']; [ended|].
      cbn [scan_once List.length] in *.
      destruct (c =? 34).
      { destruct (scanstring s' [] None) as [k r| |] eqn:E.
        - apply scanstring_length in E. split; [discriminate|].
          intros v r0 H; inversion H; subst. lia.
        - ended.
        - exfalso. exact (scanstring_ends _ _ _ E). }
      destruct (c =? 123).
      { destruct room as [|room']; [ended|].
        pose proof (skip_ws_length s') as Hw.
        destruct (skip_ws s') as [|d r]; [ended|].
        cbn [List.length] in Hw.
        destruct (d =? 125).
        - split; [discriminate|]. intros v r0 H; inversion H; subst. lia.
        - destruct (d =? 34); [|ended].
          destruct (IHo room' r [] ltac:(lia)) as [H1 H2]. split; [exact H1|].
          intros v r0 H. apply H2 in H. lia. }
      destruct (c =? 91).
      { destruct room as [|room']; [ended|].
        pose proof (skip_ws_length s') as Hw.
        destruct (skip_ws s') as [|d r]; [ended|].
        cbn [List.length] in Hw.
        destruct (d =? 93).
        - split; [discriminate|]. intros v r0 H; inversion H; subst. lia.
        - destruct (IHa room' (d :: r) [] ltac:(cbn [List.length]; lia))
            as [H1 H2].
          split; [exact H1|].
          intros v r0 H. apply H2 in H. cbn [List.length] in H. lia. }
      destruct (match_constant (c :: s')) as [[v r]|] eqn:Ec.
      { apply match_constant_length in Ec. split; [discriminate|].
        intros v0 r0 H; inversion H; subst. exact Ec. }
      destruct (match_number (c :: s')) as [[v r]|] eqn:En.
      { apply match_number_length in En.
        destruct v; try (split; [discriminate|];
                         intros v0 r0 H; inversion H; subst; exact En).
        destruct (over_int_limit _); [ended|].
        split; [discriminate|]. intros v0 r0 H; inversion H; subst. exact En. }
      destruct (match_nonfinite (c :: s')) as [[v r]|] eqn:Ei; [|ended].
      apply match_nonfinite_length in Ei.
      destruct room; [ended|]. split; [discriminate|].
      intros v0 r0 H; inversion H; subst. exact Ei.
    + intros room s d Hf. cbn [object_items].
      destruct (scanstring s [] None) as [key r1| |] eqn:Ek;
        [|ended|exfalso; exact (scanstring_ends _ _ _ Ek)].
      apply scanstring_length in Ek.
      pose proof (skip_ws_length r1) as Hw1.
      destruct (skip_ws r1) as [|c r2]; [ended|].
      cbn [List.length] in Hw1.
      destruct (c =? 58); [|ended].
      pose proof (skip_ws_length r2) as Hw2.
      destruct (IHs room (skip_ws r2) ltac:(lia)) as [Hs1 Hs2].
      destruct (scan_once fuel room (skip_ws r2)) as [v r3| |];
        [|ended|congruence].
      specialize (Hs2 _ _ eq_refl).
      pose proof (skip_ws_length r3) as Hw3.
      destruct (skip_ws r3) as [|e r4]; [ended|].
      cbn [List.length] in Hw3.
      destruct (e =? 125).
      { split; [discriminate|]. intros v0 r0 H; inversion H; subst. lia. }
      destruct (e =? 44); [|ended].
      pose proof (skip_ws_length r4) as Hw4.
      destruct (skip_ws r4) as [|q r5]; [ended|].
      cbn [List.length] in Hw4.
      destruct (q =? 34); [|ended].
      destruct (IHo room r5 (dict_set d key v) ltac:(lia)) as [H1 H2].
      split; [exact H1|]. intros v0 r0 H. apply H2 in H. lia.
    + intros room s acc Hf. cbn [array_items].
      destruct (IHs room s ltac:(lia)) as [Hs1 Hs2].
      destruct (scan_once fuel room s) as [v r1| |];
        [|ended|congruence].
      specialize (Hs2 _ _ eq_refl).
      pose proof (skip_ws_length r1) as Hw1.
      destruct (skip_ws r1) as [|e r2]; [ended|].
      cbn [List.length] in Hw1.
      destruct (e =? 93).
      { split; [discriminate|]. intros v0 r0 H; inversion H; subst. lia. }
      destruct (e =? 44); [|ended].
      pose proof (skip_ws_length r2) as Hw2.
      destruct (IHa room (skip_ws r2) (acc ++ [v]) ltac:(lia)) as [H1 H2].
      split; [exact H1|]. intros v0 r0 H. apply H2 in H. lia.
Qed.

Lemma refused_error {py : interpreter} {A : Type} room e :
  @refused py A room = Failed e -> decoder_error e.
Proof.
  unfold refused, decoder_error.
  destruct (_ <? _)%nat; intros H; inversion H; auto.
Qed.

Lemma decoder_errors {py : interpreter} fuel :
  (forall room s e, scan_once fuel room s = Failed e -> decoder_error e)
  /\
  (forall room s d e, object_items fuel room s d = Failed e -> decoder_error e)
  /\
  (forall room s acc e,
      array_items fuel room s acc = Failed e -> decoder_error e).
Proof.
  assert (Hi : decoder_error JSONDecodeError) by (left; reflexivity).
  assert (Hv : decoder_error ValueError) by (right; left; reflexivity).
  assert (Hr : decoder_error RecursionError) by (right; right; reflexivity).
  induction fuel as [|fuel (IHs & IHo & IHa)].
  - repeat split; intros; discriminate.
  - split; [|split].
    + intros room s e H. destruct s as [|c s'];
        [inversion H; exact Hi|].
      cbn [scan_once] in H.
      repeat
        match type of H with
        | refused _ = Failed _ => exact (refused_error _ _ H)
        | Failed _ = Failed _ => inversion H; subst; assumption
        | Parsed _ _ = Failed _ => discriminate
        | OutOfFuel = Failed _ => discriminate
        | object_items _ _ _ _ = Failed _ => exact (IHo _ _ _ _ H)
        | array_items _ _ _ _ = Failed _ => exact (IHa _ _ _ _ H)
        | context [if ?b then _ else _] => destruct b
        | context [match ?x with _ => _ end] => destruct x
        end.
    + intros room s d e H. cbn [object_items] in H.
      destruct (scanstring s [] None) as [key r1| |];
        [|exact (refused_error _ _ H)|discriminate].
      destruct (skip_ws r1) as [|c r2]; [exact (refused_error _ _ H)|].
      destruct (c =? 58); [|exact (refused_error _ _ H)].
      destruct (scan_once fuel room (skip_ws r2)) as [v r3|x|] eqn:Ev;
        [|inversion H; subst; exact (IHs _ _ _ Ev)|discriminate].
      destruct (skip_ws r3) as [|e0 r4]; [exact (refused_error _ _ H)|].
      destruct (e0 =? 125); [discriminate|].
      destruct (e0 =? 44); [|exact (refused_error _ _ H)].
      destruct (skip_ws r4) as [|q r5]; [exact (refused_error _ _ H)|].
      destruct (q =? 34); [|exact (refused_error _ _ H)].
      exact (IHo _ _ _ _ H).
    + intros room s acc e H. cbn [array_items] in H.
      destruct (scan_once fuel room s) as [v r1|x|] eqn:Ev;
        [|inversion H; subst; exact (IHs _ _ _ Ev)|discriminate].
      destruct (skip_ws r1) as [|e0 r2]; [exact (refused_error _ _ H)|].
      destruct (e0 =? 93); [discriminate|].
      destruct (e0 =? 44); [|exact (refused_error _ _ H)].
      exact (IHa _ _ _ _ H).
Qed.

(** [json.loads] returns a value or raises [JSONDecodeError],
    [ValueError] or [RecursionError]; the fuel is never used up. *)
Lemma json_loads_fuel {py : interpreter} s :
  scan_once (S (2 * List.length s)) decoder_room (skip_ws s) <> OutOfFuel.
Proof.
  pose proof (skip_ws_length s) as Hw.
  destruct (decoder_fuel (S (2 * List.length s))) as [Hs _].
  destruct (Hs decoder_room (skip_ws s) ltac:(lia)) as [Hne _]. exact Hne.
Qed.

Lemma json_loads_error {py : interpreter} s err :
  json_loads s = Raise err -> decoder_error err.
Proof.
  unfold json_loads. intros H.
  destruct (startswith [65279] s); [inversion H; left; reflexivity|].
  pose proof (json_loads_fuel s) as Hne.
  destruct (scan_once _ _ _) as [v r|e|] eqn:Ev; [| |congruence].
  - destruct (skip_ws r); inversion H. left; reflexivity.
  - inversion H; subst.
    destruct (decoder_errors (S (2 * List.length s))) as [Hs _].
    exact (Hs _ _ _ Ev).
Qed.

(** ** Whitespace after a text does not change what is decoded *)

Lemma skip_ws_all_ws t : all_ws t = true -> skip_ws t = [].
Proof.
  induction t as [|c t IH]; cbn; [reflexivity|].
  intros H. apply andb_prop in H. destruct H as [Hc Ht].
  rewrite Hc. auto.
Qed.

Lemma skip_ws_app s t c r :
  skip_ws s = c :: r -> skip_ws (s ++ t) = c :: r ++ t.
Proof.
  induction s as [|x s IH]; cbn; [discriminate|].
  destruct (json_ws x); [exact IH|].
  intros H; inversion H; subst. reflexivity.
Qed.

Lemma skip_ws_app_nil s t :
  skip_ws s = [] -> all_ws t = true -> skip_ws (s ++ t) = [].
Proof.
  induction s as [|x s IH]; cbn.
  - intros _. apply skip_ws_all_ws.
  - destruct (json_ws x); [exact IH|discriminate].
Qed.

Lemma skip_ws_prefix a s : all_ws a = true -> skip_ws (a ++ s) = skip_ws s.
Proof.
  induction a as [|c a IH]; cbn; [reflexivity|].
  intros H. apply andb_prop in H. destruct H as [Hc Ha].
  rewrite Hc. auto.
Qed.

Lemma scanstring_app s t :
  forall acc high k r,
    scanstring s acc high = Parsed k r ->
    scanstring (s ++ t) acc high = Parsed k (r ++ t).
Proof.
  induction s as [s IH] using (induction_ltof1 _ (@List.length N)).
  unfold ltof in IH. intros acc high k r H.
  destruct s as [|c s1]; [discriminate|].
  cbn [scanstring app] in *.
  destruct (c =? 34); [inversion H; reflexivity|].
  destruct (c =? 92).
  - destruct s1 as [|e s2]; [discriminate|]. cbn [app].
    destruct (e =? 117).
    + destruct s2 as [|h1 [|h2 [|h3 [|h4 s3]]]]; try discriminate. cbn [app].
      destruct (hex4 h1 h2 h3 h4) as [u|]; [|discriminate].
      destruct high as [h|]; [destruct (is_low_surrogate u)|];
        (apply IH; [cbn [List.length]; lia | exact H]).
    + destruct (backslash e) as [ch|]; [|discriminate].
      apply IH; [cbn [List.length]; lia | exact H].
  - destruct (c <? 32); [discriminate|].
    apply IH; [cbn [List.length]; lia | exact H].
Qed.

Lemma json_ws_not_digit c : json_ws c = true -> is_digit c = false.
Proof.
  unfold json_ws, is_digit. intros H.
  repeat (apply orb_prop in H; destruct H as [H|H]);
    apply N.eqb_eq in H; subst; reflexivity.
Qed.

Lemma json_ws_cases c :
  json_ws c = true -> c = 32 \/ c = 9 \/ c = 10 \/ c = 13.
Proof.
  unfold json_ws. intros H.
  repeat (apply orb_prop in H; destruct H as [H|H]);
    apply N.eqb_eq in H; auto.
Qed.

Lemma all_ws_cases t :
  all_ws t = true ->
  t = [] \/ exists w t', t = w :: t' /\ (w = 32 \/ w = 9 \/ w = 10 \/ w = 13).
Proof.
  destruct t as [|w t']; [auto|]. cbn. intros H.
  apply andb_prop in H. destruct H as [Hw _].
  right. exists w, t'. split; [reflexivity|]. apply json_ws_cases. exact Hw.
Qed.

(** Splits on the first code point of a whitespace text. *)
Ltac ws_head Ht :=
  destruct (all_ws_cases _ Ht) as [-> | (? & ? & -> & [-> | [-> | [-> | ->]]])].

Lemma span_digits_app s t :
  all_ws t = true ->
  span_digits (s ++ t) = (fst (span_digits s), snd (span_digits s) ++ t).
Proof.
  intros Ht. induction s as [|c s IH]; cbn.
  - destruct t as [|w t']; [reflexivity|]. cbn.
    apply andb_prop in Ht. destruct Ht as [Hw _].
    rewrite (json_ws_not_digit _ Hw). reflexivity.
  - destruct (is_digit c); [|reflexivity].
    rewrite IH. destruct (span_digits s). reflexivity.
Qed.

Lemma match_sign_app s t :
  all_ws t = true ->
  match_sign (s ++ t) = (fst (match_sign s), snd (match_sign s) ++ t).
Proof.
  intros Ht. destruct s as [|c s]; cbn.
  - ws_head Ht; reflexivity.
  - destruct (c =? 45); reflexivity.
Qed.

Lemma match_int_app s t :
  all_ws t = true -> match_int (s ++ t) = with_rest t (match_int s).
Proof.
  intros Ht. destruct s as [|c s]; cbn.
  - ws_head Ht; reflexivity.
  - destruct (c =? 48); [reflexivity|].
    destruct (is_digit c); [|reflexivity].
    rewrite span_digits_app by exact Ht.
    destruct (span_digits s). reflexivity.
Qed.

Lemma match_frac_app s t :
  all_ws t = true -> match_frac (s ++ t) = with_rest t (match_frac s).
Proof.
  intros Ht. destruct s as [|c s]; cbn.
  - ws_head Ht; reflexivity.
  - destruct (c =? 46); [|reflexivity].
    rewrite span_digits_app by exact Ht.
    destruct (span_digits s) as [[|d ds] r]; reflexivity.
Qed.

Lemma match_exp_sign_app s t :
  all_ws t = true ->
  match_exp_sign (s ++ t) = (fst (match_exp_sign s), snd (match_exp_sign s) ++ t).
Proof.
  intros Ht. destruct s as [|c s]; cbn.
  - ws_head Ht; reflexivity.
  - destruct (c =? 45); [reflexivity|]. destruct (c =? 43); reflexivity.
Qed.

Lemma match_exp_app s t :
  all_ws t = true -> match_exp (s ++ t) = with_rest t (match_exp s).
Proof.
  intros Ht. destruct s as [|c s]; cbn.
  - ws_head Ht; reflexivity.
  - destruct ((c =? 101) || (c =? 69)); [|reflexivity].
    rewrite match_exp_sign_app by exact Ht.
    destruct (match_exp_sign s) as [neg s2]. cbn [fst snd].
    rewrite span_digits_app by exact Ht.
    destruct (span_digits s2) as [[|d ds] r]; reflexivity.
Qed.

Lemma match_number_app s t :
  all_ws t = true -> match_number (s ++ t) = with_rest t (match_number s).
Proof.
  intros Ht. unfold match_number.
  rewrite match_sign_app by exact Ht.
  destruct (match_sign s) as [neg s1]. cbn [fst snd].
  rewrite match_int_app by exact Ht.
  destruct (match_int s1) as [[ip s2]|]; [|reflexivity]. cbn [with_rest].
  rewrite match_frac_app by exact Ht.
  destruct (match_frac s2) as [[fd s3]|]; cbn [with_rest].
  - rewrite match_exp_app by exact Ht.
    destruct (match_exp s3) as [[ex s4]|]; reflexivity.
  - rewrite match_exp_app by exact Ht.
    destruct (match_exp s2) as [[ex s4]|]; reflexivity.
Qed.

Lemma startswith_app_ws p :
  forallb (fun c => negb (json_ws c)) p = true ->
  forall s t, all_ws t = true -> startswith p (s ++ t) = startswith p s.
Proof.
  induction p as [|x p IH]; intros Hp s t Ht; [reflexivity|].
  cbn in Hp. apply andb_prop in Hp. destruct Hp as [Hx Hp].
  destruct s as [|y s]; cbn.
  - destruct t as [|w t']; [reflexivity|]. cbn in Ht.
    apply andb_prop in Ht. destruct Ht as [Hw _].
    destruct (N.eqb_spec x w) as [->|]; [|reflexivity].
    rewrite Hw in Hx. discriminate.
  - rewrite IH by assumption. reflexivity.
Qed.

Lemma startswith_skipn_app p :
  forall s t,
    startswith p s = true ->
    skipn (List.length p) (s ++ t) = skipn (List.length p) s ++ t.
Proof.
  induction p as [|x p IH]; intros s t H; [reflexivity|].
  destruct s as [|y s]; [discriminate|]. cbn in H.
  apply andb_prop in H. destruct H as [_ H]. cbn. apply IH. exact H.
Qed.

Lemma match_constant_app s t :
  all_ws t = true -> match_constant (s ++ t) = with_rest t (match_constant s).
Proof.
  intros Ht. unfold match_constant.
  rewrite !startswith_app_ws by (exact Ht || reflexivity).
  destruct (startswith (lit "null") s) eqn:E1;
    [cbn [with_rest]; do 2 f_equal;
     exact (startswith_skipn_app (lit "null") s t E1)|].
  destruct (startswith (lit "true") s) eqn:E2;
    [cbn [with_rest]; do 2 f_equal;
     exact (startswith_skipn_app (lit "true") s t E2)|].
  destruct (startswith (lit "false") s) eqn:E3;
    [cbn [with_rest]; do 2 f_equal;
     exact (startswith_skipn_app (lit "false") s t E3)|].
  reflexivity.
Qed.

Lemma match_nonfinite_app s t :
  all_ws t = true -> match_nonfinite (s ++ t) = with_rest t (match_nonfinite s).
Proof.
  intros Ht. unfold match_nonfinite.
  rewrite !startswith_app_ws by (exact Ht || reflexivity).
  destruct (startswith (lit "NaN") s) eqn:E1;
    [cbn [with_rest]; do 2 f_equal;
     exact (startswith_skipn_app (lit "NaN") s t E1)|].
  destruct (startswith (lit "Infinity") s) eqn:E2;
    [cbn [with_rest]; do 2 f_equal;
     exact (startswith_skipn_app (lit "Infinity") s t E2)|].
  destruct (startswith (lit "-Infinity") s) eqn:E3;
    [cbn [with_rest]; do 2 f_equal;
     exact (startswith_skipn_app (lit "-Infinity") s t E3)|].
  reflexivity.
Qed.

Lemma int_digits_app s t :
  all_ws t = true -> match_int (snd (match_sign s)) <> None ->
  int_digits (s ++ t) = int_digits s.
Proof.
  intros Ht H. unfold int_digits in *.
  rewrite match_sign_app by exact Ht. cbn [snd].
  rewrite match_int_app by exact Ht.
  destruct (match_int (snd (match_sign s))) as [[ip r]|]; [reflexivity|].
  congruence.
Qed.

Lemma match_number_int s v r :
  match_number s = Some (v, r) -> match_int (snd (match_sign s)) <> None.
Proof.
  unfold match_number. destruct (match_sign s) as [neg s1]. cbn [snd].
  destruct (match_int s1); [discriminate|]. discriminate.
Qed.

Lemma scan_once_nil {py : interpreter} fuel room v r :
  scan_once fuel room [] <> Parsed v r.
Proof. destruct fuel; discriminate. Qed.

Lemma array_items_nil {py : interpreter} fuel room acc v r :
  array_items fuel room [] acc <> Parsed v r.
Proof. destruct fuel as [|[|fuel]]; discriminate. Qed.

(** A value decoded from a text is decoded from the text followed by
    whitespace, with any fuel that is not less. *)
Lemma decoder_app_ws {py : interpreter} t :
  all_ws t = true ->
  forall fuel,
    (forall room s v r fuel',
        scan_once fuel room s = Parsed v r -> (fuel <= fuel')%nat ->
        scan_once fuel' room (s ++ t) = Parsed v (r ++ t))
    /\
    (forall room s d v r fuel',
        object_items fuel room s d = Parsed v r -> (fuel <= fuel')%nat ->
        object_items fuel' room (s ++ t) d = Parsed v (r ++ t))
    /\
    (forall room s acc v r fuel',
        array_items fuel room s acc = Parsed v r -> (fuel <= fuel')%nat ->
        array_items fuel' room (s ++ t) acc = Parsed v (r ++ t)).
Proof.
  intros Ht. induction fuel as [|fuel (IHs & IHo & IHa)].
  - repeat split; intros; discriminate.
  - split; [|split].
    + intros room s v r fuel' H Hle.
      destruct fuel' as [|fuel']; [lia|]. apply le_S_n in Hle.
      destruct s as [|c s']; [discriminate|].
      cbn [scan_once app] in *.
      destruct (c =? 34).
      { destruct (scanstring s' [] None) as [k r0| |] eqn:E;
          [|exfalso; exact (refused_not_parsed _ _ _ H)|discriminate].
        rewrite (scanstring_app _ t _ _ _ _ E). inversion H; reflexivity. }
      destruct (c =? 123).
      { destruct room as [|room']; [discriminate|].
        destruct (skip_ws s') as [|d r0] eqn:Ew;
          [exfalso; exact (refused_not_parsed _ _ _ H)|].
        rewrite (skip_ws_app _ t _ _ Ew).
        destruct (d =? 125); [inversion H; reflexivity|].
        destruct (d =? 34); [|exfalso; exact (refused_not_parsed _ _ _ H)].
        apply IHo; assumption. }
      destruct (c =? 91).
      { destruct room as [|room']; [discriminate|].
        destruct (skip_ws s') as [|d r0] eqn:Ew; [discriminate|].
        rewrite (skip_ws_app _ t _ _ Ew).
        destruct (d =? 93); [inversion H; reflexivity|].
        apply (IHa room' (d :: r0)); assumption. }
      change (c :: s' ++ t) with ((c :: s') ++ t).
      rewrite match_constant_app, match_number_app, match_nonfinite_app by exact Ht.
      destruct (match_constant (c :: s')) as [[v0 r0]|];
        [inversion H; reflexivity|]. cbn [with_rest].
      destruct (match_number (c :: s')) as [[v0 r0]|] eqn:En.
      { cbn [with_rest].
        rewrite int_digits_app
          by (exact Ht || exact (match_number_int _ _ _ En)).
        destruct v0; try (inversion H; reflexivity).
        destruct (over_int_limit _); [discriminate|].
        inversion H; reflexivity. }
      cbn [with_rest].
      destruct (match_nonfinite (c :: s')) as [[v0 r0]|]; [|discriminate].
      cbn [with_rest]. destruct room; [discriminate|].
      inversion H; reflexivity.
    + intros room s d v r fuel' H Hle.
      destruct fuel' as [|fuel']; [lia|]. apply le_S_n in Hle.
      cbn [object_items] in *.
      destruct (scanstring s [] None) as [key r1| |] eqn:Ek;
        [|exfalso; exact (refused_not_parsed _ _ _ H)|discriminate].
      rewrite (scanstring_app _ t _ _ _ _ Ek).
      destruct (skip_ws r1) as [|c r2] eqn:Ew1;
        [exfalso; exact (refused_not_parsed _ _ _ H)|].
      rewrite (skip_ws_app _ t _ _ Ew1).
      destruct (c =? 58); [|exfalso; exact (refused_not_parsed _ _ _ H)].
      destruct (scan_once fuel room (skip_ws r2)) as [v0 r3| |] eqn:Ev;
        try discriminate.
      assert (Hne : exists x y, skip_ws r2 = x :: y).
      { destruct (skip_ws r2) as [|x y]; [|eauto].
        exfalso. exact (scan_once_nil _ _ _ _ Ev). }
      destruct Hne as (x & y & Ew2).
      rewrite (skip_ws_app _ t _ _ Ew2). rewrite Ew2 in Ev.
      pose proof (IHs _ _ _ _ fuel' Ev Hle) as Hv. cbn [app] in Hv. rewrite Hv.
      destruct (skip_ws r3) as [|e r4] eqn:Ew3;
        [exfalso; exact (refused_not_parsed _ _ _ H)|].
      rewrite (skip_ws_app _ t _ _ Ew3).
      destruct (e =? 125); [inversion H; reflexivity|].
      destruct (e =? 44); [|exfalso; exact (refused_not_parsed _ _ _ H)].
      destruct (skip_ws r4) as [|q r5] eqn:Ew4;
        [exfalso; exact (refused_not_parsed _ _ _ H)|].
      rewrite (skip_ws_app _ t _ _ Ew4).
      destruct (q =? 34); [|exfalso; exact (refused_not_parsed _ _ _ H)].
      apply IHo; assumption.
    + intros room s acc v r fuel' H Hle.
      destruct fuel' as [|fuel']; [lia|]. apply le_S_n in Hle.
      cbn [array_items] in *.
      destruct (scan_once fuel room s) as [v0 r1| |] eqn:Ev; try discriminate.
      rewrite (IHs _ _ _ _ fuel' Ev Hle).
      destruct (skip_ws r1) as [|e r2] eqn:Ew1;
        [exfalso; exact (refused_not_parsed _ _ _ H)|].
      rewrite (skip_ws_app _ t _ _ Ew1).
      destruct (e =? 93); [inversion H; reflexivity|].
      destruct (e =? 44); [|exfalso; exact (refused_not_parsed _ _ _ H)].
      assert (Hne : exists x y, skip_ws r2 = x :: y).
      { destruct (skip_ws r2) as [|x y]; [|eauto].
        exfalso. exact (array_items_nil _ _ _ _ _ H). }
      destruct Hne as (x & y & Ew2).
      rewrite (skip_ws_app _ t _ _ Ew2). rewrite Ew2 in H.
      apply (IHa room (x :: y)); assumption.
Qed.

(** [json.loads] gives a text the value it gives the text without the
    whitespace around it. *)
Lemma json_loads_ws {py : interpreter} a s b v :
  all_ws a = true -> all_ws b = true ->
  json_loads s = Ok v -> json_loads (a ++ s ++ b) = Ok v.
Proof.
  intros Ha Hb. unfold json_loads. intros H.
  destruct (startswith [65279] s) eqn:Hbom; [discriminate|].
  destruct (scan_once (S (2 * List.length s)) decoder_room (skip_ws s))
    as [v0 r| |] eqn:Ev; try discriminate.
  destruct (skip_ws r) eqn:Er; [|discriminate].
  inversion H; subst v0; clear H.
  destruct (skip_ws s) as [|x y] eqn:Ews;
    [exfalso; exact (scan_once_nil _ _ _ _ Ev)|].
  assert (Hbom' : startswith [65279] (a ++ s ++ b) = false).
  { destruct a as [|w a'].
    - destruct s as [|c s']; [discriminate|]. exact Hbom.
    - cbn in Ha. apply andb_prop in Ha. destruct Ha as [Hw _].
      apply json_ws_cases in Hw.
      destruct Hw as [-> | [-> | [-> | ->]]]; reflexivity. }
  rewrite Hbom'.
  rewrite (skip_ws_prefix _ _ Ha), (skip_ws_app _ b _ _ Ews).
  destruct (decoder_app_ws b Hb (S (2 * List.length s))) as [Hs _].
  pose proof (Hs decoder_room (x :: y) v r
                (S (2 * List.length (a ++ s ++ b))) Ev) as Hv.
  cbn [app] in Hv. rewrite Hv by (rewrite !length_app; lia).
  rewrite (skip_ws_app_nil _ _ Er Hb). reflexivity.
Qed.

(** ** [replace] and [strip] *)

Lemma startswith_head old c s :
  old <> [] -> occurs c old = false -> startswith old (c :: s) = false.
Proof.
  destruct old as [|x old]; [congruence|]. intros _ H. cbn in *.
  apply orb_false_elim in H. destruct H as [H _].
  rewrite N.eqb_sym, H. reflexivity.
Qed.

(** An occurrence of [old] does not reach over a code point that is not
    in [old]. *)
Lemma startswith_sep old c :
  occurs c old = false ->
  forall a b, startswith old (a ++ c :: b) = startswith old a.
Proof.
  intros Hc. induction old as [|x old IH]; intros a b; [reflexivity|].
  cbn in Hc. apply orb_false_elim in Hc. destruct Hc as [Hx Hc].
  destruct a as [|y a]; cbn.
  - rewrite N.eqb_sym, Hx. reflexivity.
  - rewrite IH by exact Hc. reflexivity.
Qed.

Lemma startswith_dropping old x s rest :
  startswith old (x :: s) = true ->
  dropping old (pred (List.length old)) (s ++ rest).
Proof.
  destruct old as [|y old]; [intros _; split; [cbn; lia | intros c []]|].
  cbn [startswith List.length pred]. intros H.
  apply andb_prop in H. destruct H as [_ H].
  assert (G : forall p s0, startswith p s0 = true ->
              (List.length p <= List.length (s0 ++ rest))%nat /\
              forall c, In c (firstn (List.length p) (s0 ++ rest)) -> In c p).
  { clear. induction p as [|z p IH]; intros s0 H.
    - split; [cbn; lia | intros c []].
    - destruct s0 as [|w s0]; [discriminate|]. cbn in H.
      apply andb_prop in H. destruct H as [Hz H].
      apply N.eqb_eq in Hz. subst w.
      destruct (IH _ H) as [Hl Hin]. split; [cbn; lia|].
      cbn. intros c [->|Hc]; auto. }
  destruct (G _ _ H) as [Hl Hin]. split; [exact Hl|].
  intros c Hc. apply Hin in Hc. unfold occurs. cbn.
  apply orb_true_iff. right. apply existsb_exists.
  exists c. split; [exact Hc | apply N.eqb_refl].
Qed.

(** [replace] works on the two sides of a code point that is not in [old]
    apart. *)
Lemma replace_from_sep old new c b :
  old <> [] -> occurs c old = false ->
  forall a k,
    dropping old k (a ++ c :: b) ->
    replace_from k old new (a ++ c :: b)
    = replace_from k old new a ++ c :: replace_from 0 old new b.
Proof.
  intros Hne Hc. induction a as [|x a IH]; intros k [Hk Hin].
  - destruct k as [|k].
    + cbn [app replace_from]. rewrite startswith_head by assumption. reflexivity.
    + exfalso. specialize (Hin c (or_introl eq_refl)). congruence.
  - cbn [app replace_from]. destruct k as [|k].
    + change (x :: a ++ c :: b) with ((x :: a) ++ c :: b).
      rewrite startswith_sep by exact Hc.
      destruct (startswith old (x :: a)) eqn:Hs.
      * rewrite IH by (eapply startswith_dropping; exact Hs).
        now rewrite app_assoc.
      * rewrite IH by (split; [cbn; lia | intros ? []]). reflexivity.
    + apply IH. split; [cbn in Hk; lia|].
      intros d Hd. apply Hin. right. exact Hd.
Qed.

Lemma replace_sep old new a c b :
  old <> [] -> occurs c old = false ->
  replace old new (a ++ c :: b) = replace old new a ++ c :: replace old new b.
Proof.
  intros Hne Hc. unfold replace. apply replace_from_sep; auto.
  split; [cbn; lia | intros ? []].
Qed.

(** A text in which no code point of [old] occurs is left as it is. *)
Lemma replace_clean old new s :
  old <> [] -> forallb (fun c => negb (occurs c old)) s = true ->
  replace old new s = s.
Proof.
  intros Hne. induction s as [|c s IH]; [reflexivity|]. cbn [forallb].
  intros H. apply andb_prop in H. destruct H as [Hc Hs].
  apply negb_true_iff in Hc.
  change (replace old new (c :: s)) with (replace old new ([] ++ c :: s)).
  rewrite (replace_sep old new [] c s Hne Hc). cbn. now rewrite IH.
Qed.

Lemma replace_app_clean old new a b :
  old <> [] -> forallb (fun c => negb (occurs c old)) b = true ->
  replace old new (a ++ b) = replace old new a ++ b.
Proof.
  intros Hne Hb. destruct b as [|c b]; [now rewrite !app_nil_r|].
  cbn [forallb] in Hb. apply andb_prop in Hb. destruct Hb as [Hc Hb].
  apply negb_true_iff in Hc.
  rewrite replace_sep by assumption.
  rewrite (replace_clean old new b) by assumption. reflexivity.
Qed.

Lemma replace_clean_app old new a b :
  old <> [] -> forallb (fun c => negb (occurs c old)) a = true ->
  replace old new (a ++ b) = a ++ replace old new b.
Proof.
  intros Hne. induction a as [|c a IH]; [reflexivity|]. cbn [forallb].
  intros H. apply andb_prop in H. destruct H as [Hc Ha].
  apply negb_true_iff in Hc.
  change (replace old new ((c :: a) ++ b))
    with (replace old new ([] ++ c :: (a ++ b))).
  rewrite replace_sep by assumption. cbn. now rewrite IH.
Qed.

(** A text without the first code point of [old] is left as it is. *)
Lemma replace_without_head old new s :
  old <> [] -> occurs (hd 0 old) s = false -> replace old new s = s.
Proof.
  intros Hne. unfold replace. induction s as [|c s IH]; [reflexivity|].
  cbn [occurs existsb]. intros H. apply orb_false_elim in H. destruct H as [Hc Hs].
  cbn [replace_from].
  destruct old as [|x old]; [congruence|]. cbn [hd] in *.
  cbn [startswith]. rewrite Hc. cbn. f_equal. apply IH. exact Hs.
Qed.

Lemma replace_object old new pre mid post :
  old <> [] -> occurs 123 old = false -> occurs 125 old = false ->
  replace old new (pre ++ (123 :: mid ++ [125]) ++ post)
  = replace old new pre ++ (123 :: replace old new mid ++ [125])
    ++ replace old new post.
Proof.
  intros Hne H1 H2.
  replace (pre ++ (123 :: mid ++ [125]) ++ post)
    with (pre ++ 123 :: (mid ++ 125 :: post))
    by (cbn [app]; now rewrite <- app_assoc).
  rewrite !replace_sep by assumption.
  cbn [app]. now rewrite <- app_assoc.
Qed.

Lemma all_ws_clean old ws :
  occurs 32 old = false -> occurs 9 old = false ->
  occurs 10 old = false -> occurs 13 old = false ->
  all_ws ws = true ->
  forallb (fun c => negb (occurs c old)) ws = true.
Proof.
  intros H32 H9 H10 H13 Hws. apply forallb_forall. intros c Hc.
  unfold all_ws in Hws. rewrite forallb_forall in Hws.
  destruct (json_ws_cases c (Hws c Hc)) as [-> | [-> | [-> | ->]]];
    apply negb_true_iff; assumption.
Qed.

(** [replace] on a fenced object: the markers, the whitespace and the
    inside of the object are worked on apart. *)
Lemma replace_fenced old new fence ws1 mid ws2 close :
  old <> [] -> occurs 123 old = false -> occurs 125 old = false ->
  occurs 32 old = false -> occurs 9 old = false ->
  occurs 10 old = false -> occurs 13 old = false ->
  all_ws ws1 = true -> all_ws ws2 = true ->
  replace old new (fence ++ ws1 ++ (123 :: mid ++ [125]) ++ ws2 ++ close)
  = replace old new fence ++ ws1 ++ (123 :: replace old new mid ++ [125])
    ++ ws2 ++ replace old new close.
Proof.
  intros Hne H1 H2 H32 H9 H10 H13 Hw1 Hw2.
  replace (fence ++ ws1 ++ (123 :: mid ++ [125]) ++ ws2 ++ close)
    with ((fence ++ ws1) ++ (123 :: mid ++ [125]) ++ (ws2 ++ close))
    by now rewrite <- !app_assoc.
  rewrite replace_object by assumption.
  rewrite replace_app_clean by (auto using all_ws_clean).
  rewrite replace_clean_app by (auto using all_ws_clean).
  now rewrite <- !app_assoc.
Qed.

(** The two [replace] calls take the markers off a fenced object and
    leave the whitespace between them and the object. *)
Lemma strip_fences_fenced fence ws1 mid ws2 :
  fence = lit "```json" \/ fence = lit "```" ->
  all_ws ws1 = true -> all_ws ws2 = true ->
  strip_fences (fence ++ ws1 ++ (123 :: mid ++ [125]) ++ ws2 ++ lit "```")
  = ws1 ++ strip_fences (123 :: mid ++ [125]) ++ ws2.
Proof.
  intros Hf Hw1 Hw2. unfold strip_fences.
  assert (Hn1 : lit "```json" <> []) by (cbv; discriminate).
  assert (Hn2 : lit "```" <> []) by (cbv; discriminate).
  rewrite (replace_fenced (lit "```json")) by (assumption || reflexivity).
  assert (Hpre : replace (lit "```") [] (replace (lit "```json") [] fence) = [])
    by (destruct Hf as [-> | ->]; reflexivity).
  assert (Hclose : replace (lit "```json") [] (lit "```") = lit "```")
    by reflexivity.
  rewrite Hclose.
  rewrite (replace_fenced (lit "```")) by (assumption || reflexivity).
  rewrite Hpre.
  change (replace (lit "```") [] (lit "```")) with (@nil N).
  rewrite app_nil_r. cbn [app].
  pose proof (replace_object (lit "```json") [] [] mid [] Hn1 eq_refl eq_refl) as E1.
  pose proof (replace_object (lit "```") [] []
                (replace (lit "```json") [] mid) [] Hn2 eq_refl eq_refl) as E2.
  change (replace (lit "```json") [] []) with (@nil N) in E1.
  change (replace (lit "```") [] []) with (@nil N) in E2.
  cbn [app] in E1, E2. rewrite !app_nil_r in E1, E2.
  rewrite E1, E2. cbn [app]. now rewrite <- !app_assoc.
Qed.

Lemma lstrip_spaces o s :
  forallb py_isspace o = true -> lstrip (o ++ s) = lstrip s.
Proof.
  induction o as [|c o IH]; cbn; [reflexivity|].
  intros H. apply andb_prop in H. destruct H as [Hc Ho].
  rewrite Hc. auto.
Qed.

(** [strip] takes the whitespace around a text that starts and ends with
    something else, and nothing more. *)
Lemma strip_spaces_around o1 t o2 c t1 t2 d :
  t = c :: t1 -> t = t2 ++ [d] ->
  py_isspace c = false -> py_isspace d = false ->
  forallb py_isspace o1 = true -> forallb py_isspace o2 = true ->
  strip (o1 ++ t ++ o2) = t.
Proof.
  intros H1 H2 Hc Hd Ho1 Ho2. unfold strip, rstrip.
  rewrite lstrip_spaces by exact Ho1.
  assert (E : lstrip (t ++ o2) = t ++ o2).
  { rewrite H1. cbn. rewrite Hc. reflexivity. }
  rewrite E, rev_app_distr.
  rewrite lstrip_spaces.
  - rewrite H2 at 1. rewrite rev_app_distr. cbn. rewrite Hd.
    change (d :: rev t2) with (rev [d] ++ rev t2).
    rewrite <- rev_app_distr, rev_involutive. symmetry. exact H2.
  - rewrite forallb_forall in *. intros x Hx. apply Ho2.
    apply in_rev. exact Hx.
Qed.

Lemma json_ws_isspace c : json_ws c = true -> py_isspace c = true.
Proof.
  intros H. destruct (json_ws_cases c H) as [-> | [-> | [-> | ->]]]; reflexivity.
Qed.

(** What [execute] and [verify_llm] decode for a fenced object is what
    they decode for the object alone. *)
Lemma decode_fenced {py : interpreter} o1 fence ws1 mid ws2 o2 v :
  fence = lit "```json" \/ fence = lit "```" ->
  forallb py_isspace o1 = true -> forallb py_isspace o2 = true ->
  all_ws ws1 = true -> all_ws ws2 = true ->
  decode (123 :: mid ++ [125]) = Ok v ->
  decode (fenced o1 fence ws1 (123 :: mid ++ [125]) ws2 o2) = Ok v.
Proof.
  intros Hf Ho1 Ho2 Hw1 Hw2. unfold decode, fence_stripped, fenced.
  assert (Hbare : strip (123 :: mid ++ [125]) = 123 :: mid ++ [125]).
  { pose proof (strip_spaces_around [] (123 :: mid ++ [125]) [] 123
                  (mid ++ [125]) (123 :: mid) 125
                  eq_refl eq_refl eq_refl eq_refl eq_refl eq_refl) as E.
    cbn [app] in E. rewrite app_nil_r in E. exact E. }
  rewrite Hbare.
  replace (o1 ++ fence ++ ws1 ++ (123 :: mid ++ [125]) ++ ws2 ++ lit "```" ++ o2)
    with (o1 ++ (fence ++ ws1 ++ (123 :: mid ++ [125]) ++ ws2 ++ lit "```") ++ o2)
    by now rewrite <- !app_assoc.
  rewrite (strip_spaces_around o1 _ o2 96
             (tl fence ++ ws1 ++ (123 :: mid ++ [125]) ++ ws2 ++ lit "```")
             (fence ++ ws1 ++ (123 :: mid ++ [125]) ++ ws2 ++ [96; 96]) 96);
    try assumption; try reflexivity.
  - rewrite strip_fences_fenced by assumption.
    intros H. apply json_loads_ws; assumption.
  - destruct Hf as [-> | ->]; reflexivity.
  - rewrite <- !app_assoc. reflexivity.
Qed.

(** An object without a backquote is decoded as [json.loads] decodes
    it. *)
Lemma decode_without_backquote {py : interpreter} mid :
  occurs 96 mid = false ->
  decode (123 :: mid ++ [125]) = json_loads (123 :: mid ++ [125]).
Proof.
  intros H. unfold decode, fence_stripped, strip_fences.
  pose proof (strip_spaces_around [] (123 :: mid ++ [125]) [] 123
                (mid ++ [125]) (123 :: mid) 125
                eq_refl eq_refl eq_refl eq_refl eq_refl eq_refl) as E.
  cbn [app] in E. rewrite app_nil_r in E. rewrite E.
  assert (Hb : occurs 96 (123 :: mid ++ [125]) = false).
  { unfold occurs in *. cbn [existsb]. rewrite existsb_app, H. reflexivity. }
  rewrite (replace_without_head (lit "```json")) by (exact Hb || (cbv; discriminate)).
  rewrite (replace_without_head (lit "```")) by (exact Hb || (cbv; discriminate)).
  reflexivity.
Qed.

(** ** More fuel does not change what is decoded *)

Lemma decoder_fuel_mono {py : interpreter} fuel :
  (forall room s fuel',
     scan_once fuel room s <> OutOfFuel -> (fuel <= fuel')%nat ->
     scan_once fuel' room s = scan_once fuel room s)
  /\
  (forall room s d fuel',
     object_items fuel room s d <> OutOfFuel -> (fuel <= fuel')%nat ->
     object_items fuel' room s d = object_items fuel room s d)
  /\
  (forall room s acc fuel',
     array_items fuel room s acc <> OutOfFuel -> (fuel <= fuel')%nat ->
     array_items fuel' room s acc = array_items fuel room s acc).
Proof.
  induction fuel as [|fuel (IHs & IHo & IHa)].
  - repeat split; intros; cbn in *; congruence.
  - split; [|split].
    + intros room s fuel' H Hle.
      destruct fuel' as [|fuel']; [lia|]. apply le_S_n in Hle.
      destruct s as [|c s']; [reflexivity|].
      cbn [scan_once] in *.
      destruct (c =? 34); [reflexivity|].
      destruct (c =? 123).
      { destruct room as [|room']; [reflexivity|].
        destruct (skip_ws s') as [|d r]; [reflexivity|].
        destruct (d =? 125); [reflexivity|].
        destruct (d =? 34); [|reflexivity]. apply IHo; assumption. }
      destruct (c =? 91).
      { destruct room as [|room']; [reflexivity|].
        destruct (skip_ws s') as [|d r]; [reflexivity|].
        destruct (d =? 93); [reflexivity|]. apply IHa; assumption. }
      reflexivity.
    + intros room s d fuel' H Hle.
      destruct fuel' as [|fuel']; [lia|]. apply le_S_n in Hle.
      cbn [object_items] in *.
      destruct (scanstring s [] None) as [key r1| |]; try reflexivity.
      destruct (skip_ws r1) as [|c r2]; [reflexivity|].
      destruct (c =? 58); [|reflexivity].
      rewrite (IHs room (skip_ws r2) fuel') by
        (try assumption; intros E; rewrite E in H; congruence).
      destruct (scan_once fuel room (skip_ws r2)) as [v r3| |]; try reflexivity.
      destruct (skip_ws r3) as [|e r4]; [reflexivity|].
      destruct (e =? 125); [reflexivity|].
      destruct (e =? 44); [|reflexivity].
      destruct (skip_ws r4) as [|q r5]; [reflexivity|].
      destruct (q =? 34); [|reflexivity]. apply IHo; assumption.
    + intros room s acc fuel' H Hle.
      destruct fuel' as [|fuel']; [lia|]. apply le_S_n in Hle.
      cbn [array_items] in *.
      rewrite (IHs room s fuel') by
        (try assumption; intros E; rewrite E in H; congruence).
      destruct (scan_once fuel room s) as [v r1| |]; try reflexivity.
      destruct (skip_ws r1) as [|e r2]; [reflexivity|].
      destruct (e =? 93); [reflexivity|].
      destruct (e =? 44); [|reflexivity]. apply IHa; assumption.
Qed.

(** ** Valid JSON stays valid when fence markers are taken out of it *)

Lemma is_digit_not_bq c : is_digit c = true -> c <> 96.
Proof. intros H E. subst. discriminate. Qed.

Lemma json_ws_not_bq c : json_ws c = true -> c <> 96.
Proof. intros H E. subst. discriminate. Qed.

Lemma hex_value_not_bq c u : hex_value c = Some u -> c <> 96.
Proof. intros H E. subst. discriminate. Qed.

Lemma backslash_not_bq c ch : backslash c = Some ch -> c <> 96.
Proof. intros H E. subst. discriminate. Qed.

Lemma delimited_not_bq c r : delimited (c :: r) = true -> c <> 96.
Proof. intros H E. subst. discriminate. Qed.

Lemma hex4_not_bq a b c d u :
  hex4 a b c d = Some u -> a <> 96 /\ b <> 96 /\ c <> 96 /\ d <> 96.
Proof.
  unfold hex4. intros H.
  destruct (hex_value a) eqn:Ea; [|discriminate].
  destruct (hex_value b) eqn:Eb; [|discriminate].
  destruct (hex_value c) eqn:Ec; [|discriminate].
  destruct (hex_value d) eqn:Ed; [|discriminate].
  repeat split; eapply hex_value_not_bq; eassumption.
Qed.

Lemma scan_once_bq {py : interpreter} fuel room s v r :
  scan_once fuel room (96 :: s) <> Parsed v r.
Proof. destruct fuel; [discriminate|]. cbn. discriminate. Qed.

Lemma scanstring_skip_plain p :
  forallb plain_char p = true ->
  forall s acc high k r,
    scanstring (p ++ s) acc high = Parsed k r ->
    exists acc2 high2, scanstring s acc2 high2 = Parsed k r.
Proof.
  induction p as [|c p IH]; intros Hp s acc high k r H; [eauto|].
  cbn [forallb] in Hp. apply andb_prop in Hp. destruct Hp as [Hc Hp].
  unfold plain_char in Hc.
  apply andb_prop in Hc. destruct Hc as [Hc H32].
  apply andb_prop in Hc. destruct Hc as [H34 H92].
  apply negb_true_iff in H34, H92, H32.
  cbn [app scanstring] in H. rewrite H34, H92, H32 in H.
  eapply IH; eassumption.
Qed.

(** A text that starts as a number starts with a minus sign or a digit,
    and then it starts as no constant. *)
Lemma match_number_first c s v r :
  match_number (c :: s) = Some (v, r) -> c = 45 \/ is_digit c = true.
Proof.
  unfold match_number. cbn [match_sign].
  destruct (c =? 45) eqn:Hc; [apply N.eqb_eq in Hc; auto|].
  cbn [match_int]. destruct (c =? 48) eqn:H0.
  - apply N.eqb_eq in H0. subst c. auto.
  - destruct (is_digit c); [auto|discriminate].
Qed.

Lemma match_constant_not_number c s :
  c = 45 \/ is_digit c = true -> match_constant (c :: s) = None.
Proof.
  intros H. unfold match_constant.
  assert (Hn : (110 =? c) = false /\ (116 =? c) = false /\ (102 =? c) = false).
  { destruct H as [->|H]; [repeat split|].
    repeat split; apply N.eqb_neq; intros E; subst c; discriminate. }
  destruct Hn as (H1 & H2 & H3).
  change (lit "null") with (110 :: lit "ull").
  change (lit "true") with (116 :: lit "rue").
  change (lit "false") with (102 :: lit "alse").
  cbn [startswith]. rewrite H1, H2, H3. reflexivity.
Qed.

(** A text that starts as one of [NaN], [Infinity] and [-Infinity]
    starts as no other constant and as no number. *)
Lemma match_nonfinite_only s v r :
  match_nonfinite s = Some (v, r) ->
  match_constant s = None /\ match_number s = None.
Proof.
  unfold match_nonfinite. intros H.
  destruct (startswith (lit "NaN") s) eqn:E1.
  { destruct s as [|c s]; [discriminate|].
    change (lit "NaN") with (78 :: lit "aN") in E1. cbn [startswith] in E1.
    apply andb_prop in E1. destruct E1 as [E1 _].
    apply N.eqb_eq in E1. subst c. split; reflexivity. }
  destruct (startswith (lit "Infinity") s) eqn:E2.
  { destruct s as [|c s]; [discriminate|].
    change (lit "Infinity") with (73 :: lit "nfinity") in E2.
    cbn [startswith] in E2.
    apply andb_prop in E2. destruct E2 as [E2 _].
    apply N.eqb_eq in E2. subst c. split; reflexivity. }
  destruct (startswith (lit "-Infinity") s) eqn:E3; [|discriminate].
  destruct s as [|c s]; [discriminate|].
  change (lit "-Infinity") with (45 :: 73 :: lit "nfinity") in E3.
  cbn [startswith] in E3.
  apply andb_prop in E3. destruct E3 as [Ec E3].
  destruct s as [|d s]; [discriminate|].
  apply andb_prop in E3. destruct E3 as [Ed _].
  apply N.eqb_eq in Ec, Ed. subst c d. split; reflexivity.
Qed.

Section Erasure.

Context {py : interpreter}.

(** The text that is taken out starts with a backquote and is made of
    code points that stand for themselves inside a JSON string, as the
    two fence markers are. *)
Variable old_tl : pystr.
Hypothesis old_plain : forallb plain_char old_tl = true.

Local Abbreviation old := (96 :: old_tl).

Lemma erased_cons_inv c s t :
  erased old (c :: s) t -> c <> 96 ->
  exists t', t = c :: t' /\ erased old s t'.
Proof.
  intros H Hc. inversion H; subst; [eauto | congruence].
Qed.

Lemma erased_nil_inv t : erased old [] t -> t = [].
Proof.
  intros H. inversion H. reflexivity.
Qed.

(** Inverts a hypothesis [erased old (c :: s) t] for a [c] that is shown
    not to be a backquote by [tac]. *)
Ltac keep H tac :=
  let t' := fresh "t" in
  apply erased_cons_inv in H; [destruct H as (t' & -> & H) | tac].

Lemma skip_ws_erased s :
  forall s' c r,
    erased old s s' -> skip_ws s = c :: r -> c <> 96 ->
    exists r', skip_ws s' = c :: r' /\ erased old r r'.
Proof.
  induction s as [|x s IH]; intros s' c r He Hs Hc; [discriminate|].
  cbn in Hs. destruct (json_ws x) eqn:Hx.
  - keep He ltac:(apply json_ws_not_bq; exact Hx).
    cbn. rewrite Hx. eapply IH; eassumption.
  - inversion Hs; subst x r. keep He ltac:(exact Hc).
    cbn. rewrite Hx. eauto.
Qed.

Lemma skip_ws_erased_nil s :
  forall s', erased old s s' -> skip_ws s = [] -> skip_ws s' = [].
Proof.
  induction s as [|x s IH]; intros s' He Hs.
  - apply erased_nil_inv in He. subst. reflexivity.
  - cbn in Hs. destruct (json_ws x) eqn:Hx; [|discriminate].
    keep He ltac:(apply json_ws_not_bq; exact Hx).
    cbn. rewrite Hx. eapply IH; eassumption.
Qed.

Lemma scanstring_erased s :
  forall s' acc high acc' high' k r,
    scanstring s acc high = Parsed k r -> erased old s s' ->
    exists k' r', scanstring s' acc' high' = Parsed k' r' /\ erased old r r'.
Proof.
  induction s as [s IH] using (induction_ltof1 _ (@List.length N)).
  unfold ltof in IH. intros s' acc high acc' high' k r H He.
  inversion He as [|c s0 s0' H0|s0 s0' H0 E]; subst.
  - discriminate.
  - cbn [scanstring] in *.
    destruct (c =? 34); [inversion H; subst; eauto|].
    destruct (c =? 92).
    + destruct s0 as [|e s2]; [discriminate|].
      destruct (e =? 117) eqn:Eu.
      * apply N.eqb_eq in Eu. subst e.
        keep H0 ltac:(discriminate). cbn [N.eqb Pos.eqb].
        destruct s2 as [|h1 [|h2 [|h3 [|h4 s3]]]]; try discriminate.
        destruct (hex4 h1 h2 h3 h4) as [u|] eqn:Eh; [|discriminate].
        destruct (hex4_not_bq _ _ _ _ _ Eh) as (N1 & N2 & N3 & N4).
        keep H0 ltac:(exact N1). keep H0 ltac:(exact N2).
        keep H0 ltac:(exact N3). keep H0 ltac:(exact N4).
        rewrite Eh.
        destruct (is_low_surrogate u);
          destruct high as [h|]; destruct high' as [h'|];
          (eapply (IH s3); [cbn [List.length]; lia | eassumption | eassumption]).
      * destruct (backslash e) as [ch|] eqn:Eb; [|discriminate].
        keep H0 ltac:(eapply backslash_not_bq; exact Eb).
        rewrite Eu, Eb.
        eapply (IH s2); [cbn [List.length]; lia | eassumption | eassumption].
    + destruct (c <? 32); [discriminate|].
      eapply (IH s0); [cbn [List.length]; lia | eassumption | eassumption].
  - apply scanstring_skip_plain in H; [|cbn [forallb]; rewrite old_plain; reflexivity].
    destruct H as (acc2 & high2 & H).
    eapply (IH s0); [|eassumption|eassumption].
    cbn [app List.length]. rewrite length_app. lia.
Qed.

Lemma span_digits_erased s :
  forall s' d r,
    span_digits s = (d, r) -> no_backquote_first r -> erased old s s' ->
    exists r', span_digits s' = (d, r') /\ erased old r r'.
Proof.
  induction s as [|c s IH]; intros s' d r H Hr He.
  - apply erased_nil_inv in He. subst. inversion H; subst.
    exists []. split; [reflexivity | constructor].
  - cbn in H. destruct (is_digit c) eqn:Hc.
    + keep He ltac:(apply is_digit_not_bq; exact Hc).
      destruct (span_digits s) as [d0 r0] eqn:E. inversion H; subst d r.
      destruct (IH _ _ _ eq_refl Hr He) as (r' & E' & He').
      exists r'. cbn. rewrite Hc, E'. split; [reflexivity | exact He'].
    + inversion H; subst d r. cbn in Hr. keep He ltac:(exact Hr).
      exists (c :: t). cbn. rewrite Hc. split; [reflexivity|].
      constructor. exact He.
Qed.

Lemma match_sign_erased s s' neg s1 :
  match_sign s = (neg, s1) -> no_backquote_first s1 -> erased old s s' ->
  exists s1', match_sign s' = (neg, s1') /\ erased old s1 s1'.
Proof.
  intros H Hr He. destruct s as [|c s].
  - apply erased_nil_inv in He. subst. inversion H; subst.
    exists []. split; [reflexivity | constructor].
  - cbn in H. destruct (c =? 45) eqn:Hc.
    + apply N.eqb_eq in Hc. subst c. keep He ltac:(discriminate).
      inversion H; subst. exists t. split; [reflexivity | exact He].
    + inversion H; subst neg s1. cbn in Hr. keep He ltac:(exact Hr).
      exists (c :: t). cbn. rewrite Hc. split; [reflexivity|].
      constructor. exact He.
Qed.

Lemma match_int_erased s s' d r :
  match_int s = Some (d, r) -> no_backquote_first r -> erased old s s' ->
  exists r', match_int s' = Some (d, r') /\ erased old r r'.
Proof.
  intros H Hr He. destruct s as [|c s]; [discriminate|].
  cbn in H. destruct (c =? 48) eqn:H0.
  - apply N.eqb_eq in H0. subst c. keep He ltac:(discriminate).
    inversion H; subst. exists t. split; [reflexivity | exact He].
  - destruct (is_digit c) eqn:Hc; [|discriminate].
    keep He ltac:(apply is_digit_not_bq; exact Hc).
    destruct (span_digits s) as [d0 r0] eqn:E. inversion H; subst d r.
    destruct (span_digits_erased _ _ _ _ E Hr He) as (r' & E' & He').
    exists r'. cbn. rewrite H0, Hc, E'. split; [reflexivity | exact He'].
Qed.

Lemma match_int_first s d r :
  match_int s = Some (d, r) -> no_backquote_first s.
Proof.
  destruct s as [|c s]; [discriminate|]. cbn. intros H E. subst c.
  discriminate.
Qed.

Lemma match_frac_erased s s' d r :
  match_frac s = Some (d, r) -> no_backquote_first r -> erased old s s' ->
  exists r', match_frac s' = Some (d, r') /\ erased old r r'.
Proof.
  intros H Hr He. destruct s as [|c s]; [discriminate|].
  cbn in H. destruct (c =? 46) eqn:H0; [|discriminate].
  apply N.eqb_eq in H0. subst c. keep He ltac:(discriminate).
  destruct (span_digits s) as [d0 r0] eqn:E.
  destruct d0 as [|x d0]; [discriminate|]. inversion H; subst d r.
  destruct (span_digits_erased _ _ _ _ E Hr He) as (r' & E' & He').
  exists r'. cbn. rewrite E'. split; [reflexivity | exact He'].
Qed.

Lemma match_frac_first s d r :
  match_frac s = Some (d, r) -> no_backquote_first s.
Proof.
  destruct s as [|c s]; [discriminate|]. cbn. intros H E. subst c.
  discriminate.
Qed.

Lemma match_exp_sign_erased s s' neg s2 :
  match_exp_sign s = (neg, s2) -> no_backquote_first s2 -> erased old s s' ->
  exists s2', match_exp_sign s' = (neg, s2') /\ erased old s2 s2'.
Proof.
  intros H Hr He. destruct s as [|c s].
  - apply erased_nil_inv in He. subst. inversion H; subst.
    exists []. split; [reflexivity | constructor].
  - cbn in H. destruct (c =? 45) eqn:Hm.
    + apply N.eqb_eq in Hm. subst c. keep He ltac:(discriminate).
      inversion H; subst. exists t. split; [reflexivity | exact He].
    + destruct (c =? 43) eqn:Hp.
      * apply N.eqb_eq in Hp. subst c. keep He ltac:(discriminate).
        inversion H; subst. exists t. split; [reflexivity | exact He].
      * inversion H; subst neg s2. cbn in Hr. keep He ltac:(exact Hr).
        exists (c :: t). cbn. rewrite Hm, Hp. split; [reflexivity|].
        constructor. exact He.
Qed.

Lemma span_digits_first s x d r :
  span_digits s = (x :: d, r) -> no_backquote_first s.
Proof.
  destruct s as [|c s]; [discriminate|]. cbn.
  destruct (is_digit c) eqn:Hc; [|discriminate].
  intros _. apply is_digit_not_bq. exact Hc.
Qed.

Lemma match_exp_erased s s' z r :
  match_exp s = Some (z, r) -> no_backquote_first r -> erased old s s' ->
  exists r', match_exp s' = Some (z, r') /\ erased old r r'.
Proof.
  intros H Hr He. destruct s as [|c s]; [discriminate|].
  cbn in H. destruct ((c =? 101) || (c =? 69)) eqn:Hc; [|discriminate].
  keep He ltac:(intros E; subst c; discriminate).
  destruct (match_exp_sign s) as [neg s2] eqn:Es.
  destruct (span_digits s2) as [d0 r0] eqn:Ed.
  destruct d0 as [|x d0]; [discriminate|]. inversion H; subst z r.
  destruct (match_exp_sign_erased _ _ _ _ Es (span_digits_first _ _ _ _ Ed) He)
    as (s2' & Es' & He2).
  destruct (span_digits_erased _ _ _ _ Ed Hr He2) as (r' & Ed' & He').
  exists r'. cbn. rewrite Hc, Es', Ed'. split; [reflexivity | exact He'].
Qed.

Lemma match_exp_first s z r :
  match_exp s = Some (z, r) -> no_backquote_first s.
Proof.
  destruct s as [|c s]; [discriminate|]. cbn. intros H E. subst c.
  discriminate.
Qed.

Lemma match_exp_not_frac s z r :
  match_exp s = Some (z, r) -> match_frac s = None.
Proof.
  destruct s as [|c s]; [discriminate|]. cbn.
  destruct (c =? 46) eqn:H0; [|reflexivity].
  apply N.eqb_eq in H0. subst c. discriminate.
Qed.

Lemma delimited_cases c r :
  delimited (c :: r) = true ->
  c = 32 \/ c = 9 \/ c = 10 \/ c = 13 \/ c = 44 \/ c = 125 \/ c = 93.
Proof.
  cbn. intros H.
  repeat (apply orb_prop in H; destruct H as [H|H]);
    try (apply json_ws_cases in H; tauto);
    apply N.eqb_eq in H; tauto.
Qed.

(** After a delimited rest no fraction and no exponent is read, whatever
    was taken out of the rest. *)
Lemma delimited_erased r r' :
  delimited r = true -> erased old r r' ->
  no_backquote_first r /\
  delimited r' = true /\ match_frac r' = None /\ match_exp r' = None.
Proof.
  intros Hd He. destruct r as [|c r].
  - apply erased_nil_inv in He. subst. repeat split.
  - pose proof (delimited_not_bq _ _ Hd) as Hc.
    keep He ltac:(exact Hc).
    split; [exact Hc|].
    destruct (delimited_cases _ _ Hd)
      as [-> | [-> | [-> | [-> | [-> | [-> | ->]]]]]]; repeat split.
Qed.

Lemma match_number_erased s s' v r :
  match_number s = Some (v, r) -> delimited r = true -> erased old s s' ->
  exists r',
    match_number s' = Some (v, r') /\ erased old r r' /\
    int_digits s' = int_digits s.
Proof.
  unfold match_number, int_digits. intros H Hd He.
  destruct (match_sign s) as [neg s1] eqn:E1.
  destruct (match_int s1) as [[ip s2]|] eqn:E2; [|discriminate].
  destruct (match_sign_erased _ _ _ _ E1 (match_int_first _ _ _ E2) He)
    as (s1' & E1' & He1).
  rewrite E1'. cbn [snd]. rewrite E2.
  destruct (match_frac s2) as [[fd s3]|] eqn:E3.
  - destruct (match_int_erased _ _ _ _ E2 (match_frac_first _ _ _ E3) He1)
      as (s2' & E2' & He2).
    rewrite E2'.
    destruct (match_exp s3) as [[ex s4]|] eqn:E4.
    + inversion H; subst v r.
      assert (Hr : no_backquote_first s4).
      { destruct s4 as [|c s4]; [exact I|]. eapply delimited_not_bq. exact Hd. }
      destruct (match_frac_erased _ _ _ _ E3 (match_exp_first _ _ _ E4) He2)
        as (s3' & E3' & He3).
      destruct (match_exp_erased _ _ _ _ E4 Hr He3) as (s4' & E4' & He4).
      rewrite E3', E4'. eauto.
    + inversion H; subst v r.
      assert (Hr : no_backquote_first s3).
      { destruct s3 as [|c s3]; [exact I|]. eapply delimited_not_bq. exact Hd. }
      destruct (match_frac_erased _ _ _ _ E3 Hr He2) as (s3' & E3' & He3).
      destruct (delimited_erased _ _ Hd He3) as (_ & _ & _ & E4').
      rewrite E3', E4'. eauto.
  - destruct (match_exp s2) as [[ex s4]|] eqn:E4.
    + inversion H; subst v r.
      assert (Hr : no_backquote_first s4).
      { destruct s4 as [|c s4]; [exact I|]. eapply delimited_not_bq. exact Hd. }
      destruct (match_int_erased _ _ _ _ E2 (match_exp_first _ _ _ E4) He1)
        as (s2' & E2' & He2).
      destruct (match_exp_erased _ _ _ _ E4 Hr He2) as (s4' & E4' & He4).
      rewrite E2', (match_exp_not_frac _ _ _ E4'), E4'. eauto.
    + inversion H; subst v r.
      assert (Hr : no_backquote_first s2).
      { destruct s2 as [|c s2]; [exact I|]. eapply delimited_not_bq. exact Hd. }
      destruct (match_int_erased _ _ _ _ E2 Hr He1) as (s2' & E2' & He2).
      destruct (delimited_erased _ _ Hd He2) as (_ & _ & E3' & E4').
      rewrite E2', E3', E4'. eauto.
Qed.

Lemma startswith_erased p :
  occurs 96 p = false ->
  forall s s',
    startswith p s = true -> erased old s s' ->
    startswith p s' = true /\
    erased old (skipn (List.length p) s) (skipn (List.length p) s').
Proof.
  induction p as [|x p IH]; intros Hp s s' H He; [auto|].
  cbn in Hp. apply orb_false_elim in Hp. destruct Hp as [Hx Hp].
  destruct s as [|y s]; [discriminate|]. cbn in H.
  apply andb_prop in H. destruct H as [Hxy H].
  apply N.eqb_eq in Hxy. subst y.
  keep He ltac:(intros E; subst x; discriminate).
  destruct (IH Hp _ _ H He) as [H' He'].
  cbn. rewrite N.eqb_refl, H'. auto.
Qed.

Lemma startswith_first_differs x p y q s :
  startswith (x :: p) s = true -> x <> y -> startswith (y :: q) s = false.
Proof.
  destruct s as [|c s]; [discriminate|]. cbn. intros H Hxy.
  apply andb_prop in H. destruct H as [Hx _]. apply N.eqb_eq in Hx. subst c.
  destruct (N.eqb_spec y x); [congruence | reflexivity].
Qed.

(** Rewrites with the fact that a text that starts as [x :: p] does not
    start as [full], which is [y :: q] for another [y]. *)
Ltac differs E x p y q full :=
  let Hn := fresh "Hn" in
  pose proof (startswith_first_differs x p y q _ E ltac:(discriminate)) as Hn;
  change (y :: q) with full in Hn;
  rewrite Hn; clear Hn.

Lemma match_constant_erased s s' v r :
  match_constant s = Some (v, r) -> erased old s s' ->
  exists r', match_constant s' = Some (v, r') /\ erased old r r'.
Proof.
  unfold match_constant. intros H He.
  destruct (startswith (lit "null") s) eqn:E1.
  { destruct (startswith_erased (lit "null") eq_refl _ _ E1 He) as [E1' He'].
    rewrite E1'. injection H as <- <-. eauto. }
  destruct (startswith (lit "true") s) eqn:E2.
  { destruct (startswith_erased (lit "true") eq_refl _ _ E2 He) as [E2' He'].
    differs E2' 116 (lit "rue") 110 (lit "ull") (lit "null").
    rewrite E2'. injection H as <- <-. eauto. }
  destruct (startswith (lit "false") s) eqn:E3; [|discriminate].
  destruct (startswith_erased (lit "false") eq_refl _ _ E3 He) as [E3' He'].
  differs E3' 102 (lit "alse") 110 (lit "ull") (lit "null").
  differs E3' 102 (lit "alse") 116 (lit "rue") (lit "true").
  rewrite E3'. injection H as <- <-. eauto.
Qed.

Lemma match_nonfinite_erased s s' v r :
  match_nonfinite s = Some (v, r) -> erased old s s' ->
  exists r', match_nonfinite s' = Some (v, r') /\ erased old r r'.
Proof.
  unfold match_nonfinite. intros H He.
  destruct (startswith (lit "NaN") s) eqn:E1.
  { destruct (startswith_erased (lit "NaN") eq_refl _ _ E1 He) as [E1' He'].
    rewrite E1'. injection H as <- <-. eauto. }
  destruct (startswith (lit "Infinity") s) eqn:E2.
  { destruct (startswith_erased (lit "Infinity") eq_refl _ _ E2 He) as [E2' He'].
    differs E2' 73 (lit "nfinity") 78 (lit "aN") (lit "NaN").
    rewrite E2'. injection H as <- <-. eauto. }
  destruct (startswith (lit "-Infinity") s) eqn:E3; [|discriminate].
  destruct (startswith_erased (lit "-Infinity") eq_refl _ _ E3 He) as [E3' He'].
  differs E3' 45 (lit "Infinity") 78 (lit "aN") (lit "NaN").
  differs E3' 45 (lit "Infinity") 73 (lit "nfinity") (lit "Infinity").
  rewrite E3'. injection H as <- <-. eauto.
Qed.

Lemma skip_ws_delimited r e r4 :
  skip_ws r = e :: r4 -> e = 44 \/ e = 125 \/ e = 93 -> delimited r = true.
Proof.
  intros H He. destruct r as [|c r]; [reflexivity|].
  cbn in H. cbn [delimited]. destruct (json_ws c); [reflexivity|].
  inversion H; subst c. destruct He as [-> | [-> | ->]]; reflexivity.
Qed.

(** What is decoded from a text is decoded, with another value maybe,
    from the text without some occurrences of [old]. *)
Lemma decoder_erased fuel :
  (forall room s s' v r,
      scan_once fuel room s = Parsed v r -> delimited r = true ->
      erased old s s' ->
      exists v' r', scan_once fuel room s' = Parsed v' r' /\ erased old r r')
  /\
  (forall room s s' d d' v r,
      object_items fuel room s d = Parsed v r -> erased old s s' ->
      exists v' r',
        object_items fuel room s' d' = Parsed v' r' /\ erased old r r')
  /\
  (forall room s s' acc acc' v r,
      array_items fuel room s acc = Parsed v r -> erased old s s' ->
      exists v' r',
        array_items fuel room s' acc' = Parsed v' r' /\ erased old r r').
Proof.
  induction fuel as [|fuel (IHs & IHo & IHa)].
  - repeat split; intros; discriminate.
  - split; [|split].
    + intros room s s' v r H Hd He.
      destruct s as [|c s0]; [discriminate|].
      assert (Hc : c <> 96).
      { intros E. subst c. exact (scan_once_bq _ _ _ _ _ H). }
      keep He ltac:(exact Hc).
      cbn [scan_once] in *.
      destruct (c =? 34).
      { destruct (scanstring s0 [] None) as [k r0| |] eqn:E;
          [|exfalso; exact (refused_not_parsed _ _ _ H)|discriminate].
        inversion H; subst v r.
        destruct (scanstring_erased _ _ [] None [] None _ _ E He)
          as (k' & r' & E' & He').
        rewrite E'. eauto. }
      destruct (c =? 123).
      { destruct room as [|room']; [discriminate|].
        destruct (skip_ws s0) as [|d r0] eqn:Ew;
          [exfalso; exact (refused_not_parsed _ _ _ H)|].
        destruct (d =? 125) eqn:E125.
        - apply N.eqb_eq in E125. subst d. inversion H; subst v r.
          destruct (skip_ws_erased _ _ _ _ He Ew ltac:(discriminate))
            as (r' & Ew' & He').
          rewrite Ew'. cbn. eauto.
        - destruct (d =? 34) eqn:E34;
            [|exfalso; exact (refused_not_parsed _ _ _ H)].
          apply N.eqb_eq in E34. subst d.
          destruct (skip_ws_erased _ _ _ _ He Ew ltac:(discriminate))
            as (r' & Ew' & He').
          rewrite Ew'. cbn. eapply IHo; eassumption. }
      destruct (c =? 91).
      { destruct room as [|room']; [discriminate|].
        destruct (skip_ws s0) as [|d r0] eqn:Ew; [discriminate|].
        destruct (d =? 93) eqn:E93.
        - apply N.eqb_eq in E93. subst d. inversion H; subst v r.
          destruct (skip_ws_erased _ _ _ _ He Ew ltac:(discriminate))
            as (r' & Ew' & He').
          rewrite Ew'. cbn. eauto.
        - assert (Hd96 : d <> 96).
          { intros E. subst d. destruct fuel; [discriminate|].
            cbn [array_items] in H.
            destruct (scan_once fuel room' (96 :: r0)) eqn:Es;
              try discriminate.
            exact (scan_once_bq _ _ _ _ _ Es). }
          destruct (skip_ws_erased _ _ _ _ He Ew Hd96) as (r' & Ew' & He').
          rewrite Ew', E93. eapply IHa; [eassumption|].
          constructor. exact He'. }
      assert (He0 : erased old (c :: s0) (c :: t)) by (constructor; exact He).
      destruct (match_constant (c :: s0)) as [[v0 r0]|] eqn:Ec.
      { inversion H; subst v0 r0.
        destruct (match_constant_erased _ _ _ _ Ec He0) as (r' & Ec' & He').
        rewrite Ec'. eauto. }
      destruct (match_number (c :: s0)) as [[v0 r0]|] eqn:En.
      { assert (Hvr : v0 = v /\ r0 = r).
        { destruct v0; try (inversion H; auto).
          destruct (over_int_limit _); [discriminate|]. inversion H; auto. }
        destruct Hvr as [-> ->].
        destruct (match_number_erased _ _ _ _ En Hd He0)
          as (r' & En' & He' & Hdig).
        rewrite (match_constant_not_number _ _ (match_number_first _ _ _ _ En)).
        rewrite En', Hdig. exists v, r'. split; [|exact He'].
        destruct v; try reflexivity.
        destruct (over_int_limit _); [discriminate|reflexivity]. }
      destruct (match_nonfinite (c :: s0)) as [[v0 r0]|] eqn:Ei; [|discriminate].
      destruct room as [|room']; [discriminate|].
      inversion H; subst v0 r0.
      destruct (match_nonfinite_erased _ _ _ _ Ei He0) as (r' & Ei' & He').
      destruct (match_nonfinite_only _ _ _ Ei') as [Ec' En'].
      rewrite Ec', En', Ei'. eauto.
    + intros room s s' d d' v r H He.
      cbn [object_items] in *.
      destruct (scanstring s [] None) as [key r1| |] eqn:Ek;
        [|exfalso; exact (refused_not_parsed _ _ _ H)|discriminate].
      destruct (scanstring_erased _ _ [] None [] None _ _ Ek He)
        as (key' & r1' & Ek' & He1).
      rewrite Ek'.
      destruct (skip_ws r1) as [|c r2] eqn:Ew1;
        [exfalso; exact (refused_not_parsed _ _ _ H)|].
      destruct (c =? 58) eqn:E58;
        [|exfalso; exact (refused_not_parsed _ _ _ H)].
      apply N.eqb_eq in E58. subst c.
      destruct (skip_ws_erased _ _ _ _ He1 Ew1 ltac:(discriminate))
        as (r2' & Ew1' & He2).
      rewrite Ew1'. cbn [N.eqb Pos.eqb].
      destruct (scan_once fuel room (skip_ws r2)) as [v0 r3| |] eqn:Ev;
        try discriminate.
      destruct (skip_ws r2) as [|x y] eqn:Ew2;
        [exfalso; exact (scan_once_nil _ _ _ _ Ev)|].
      assert (Hx : x <> 96).
      { intros E. subst x. exact (scan_once_bq _ _ _ _ _ Ev). }
      destruct (skip_ws_erased _ _ _ _ He2 Ew2 Hx) as (y' & Ew2' & He3).
      destruct (skip_ws r3) as [|e r4] eqn:Ew3;
        [exfalso; exact (refused_not_parsed _ _ _ H)|].
      destruct (e =? 125) eqn:E125.
      * apply N.eqb_eq in E125. subst e. inversion H; subst v r.
        destruct (IHs _ _ (x :: y') _ _ Ev
                    (skip_ws_delimited _ _ _ Ew3 (or_intror (or_introl eq_refl)))
                    (erased_keep _ _ _ _ He3)) as (v0' & r3' & Ev' & He4).
        rewrite Ew2', Ev'.
        destruct (skip_ws_erased _ _ _ _ He4 Ew3 ltac:(discriminate))
          as (r4' & Ew3' & He5).
        rewrite Ew3'. cbn. eauto.
      * destruct (e =? 44) eqn:E44;
          [|exfalso; exact (refused_not_parsed _ _ _ H)].
        apply N.eqb_eq in E44. subst e.
        destruct (IHs _ _ (x :: y') _ _ Ev
                    (skip_ws_delimited _ _ _ Ew3 (or_introl eq_refl))
                    (erased_keep _ _ _ _ He3)) as (v0' & r3' & Ev' & He4).
        rewrite Ew2', Ev'.
        destruct (skip_ws_erased _ _ _ _ He4 Ew3 ltac:(discriminate))
          as (r4' & Ew3' & He5).
        rewrite Ew3'. cbn [N.eqb Pos.eqb].
        destruct (skip_ws r4) as [|q r5] eqn:Ew4;
          [exfalso; exact (refused_not_parsed _ _ _ H)|].
        destruct (q =? 34) eqn:E34;
          [|exfalso; exact (refused_not_parsed _ _ _ H)].
        apply N.eqb_eq in E34. subst q.
        destruct (skip_ws_erased _ _ _ _ He5 Ew4 ltac:(discriminate))
          as (r5' & Ew4' & He6).
        rewrite Ew4'. cbn [N.eqb Pos.eqb]. eapply IHo; eassumption.
    + intros room s s' acc acc' v r H He.
      cbn [array_items] in *.
      destruct (scan_once fuel room s) as [v0 r1| |] eqn:Ev; try discriminate.
      destruct (skip_ws r1) as [|e r2] eqn:Ew1;
        [exfalso; exact (refused_not_parsed _ _ _ H)|].
      destruct (e =? 93) eqn:E93.
      * apply N.eqb_eq in E93. subst e. inversion H; subst v r.
        destruct (IHs _ _ _ _ _ Ev
                    (skip_ws_delimited _ _ _ Ew1 (or_intror (or_intror eq_refl)))
                    He) as (v0' & r1' & Ev' & He1).
        rewrite Ev'.
        destruct (skip_ws_erased _ _ _ _ He1 Ew1 ltac:(discriminate))
          as (r2' & Ew1' & He2).
        rewrite Ew1'. cbn. eauto.
      * destruct (e =? 44) eqn:E44;
          [|exfalso; exact (refused_not_parsed _ _ _ H)].
        apply N.eqb_eq in E44. subst e.
        destruct (IHs _ _ _ _ _ Ev
                    (skip_ws_delimited _ _ _ Ew1 (or_introl eq_refl))
                    He) as (v0' & r1' & Ev' & He1).
        rewrite Ev'.
        destruct (skip_ws_erased _ _ _ _ He1 Ew1 ltac:(discriminate))
          as (r2' & Ew1' & He2).
        rewrite Ew1'. cbn [N.eqb Pos.eqb].
        destruct (skip_ws r2) as [|x y] eqn:Ew2;
          [exfalso; exact (array_items_nil _ _ _ _ _ H)|].
        assert (Hx : x <> 96).
        { intros E. subst x. destruct fuel; [discriminate|].
          cbn [array_items] in H.
          destruct (scan_once fuel room (96 :: y)) eqn:Es; try discriminate.
          exact (scan_once_bq _ _ _ _ _ Es). }
        destruct (skip_ws_erased _ _ _ _ He2 Ew2 Hx) as (y' & Ew2' & He3).
        rewrite Ew2'. eapply IHa; [eassumption|].
        constructor. exact He3.
Qed.

End Erasure.

Lemma replace_from_skipn old new s :
  forall k, replace_from k old new s = replace_from 0 old new (skipn k s).
Proof.
  induction s as [|c s IH]; intros [|k]; try reflexivity.
  cbn [replace_from skipn]. apply IH.
Qed.

Lemma startswith_split p :
  forall s, startswith p s = true -> s = p ++ skipn (List.length p) s.
Proof.
  induction p as [|x p IH]; intros s H; [reflexivity|].
  destruct s as [|y s]; [discriminate|]. cbn in H.
  apply andb_prop in H. destruct H as [Hxy H].
  apply N.eqb_eq in Hxy. subst y. cbn. f_equal. apply IH. exact H.
Qed.

(** [replace] with the empty string takes occurrences out. *)
Lemma replace_erased x old_tl s :
  erased (x :: old_tl) s (replace (x :: old_tl) [] s).
Proof.
  induction s as [s IH] using (induction_ltof1 _ (@List.length N)).
  unfold ltof in IH. destruct s as [|c s0]; [constructor|].
  unfold replace in *. cbn [replace_from].
  destruct (startswith (x :: old_tl) (c :: s0)) eqn:E.
  - cbn [app List.length pred]. rewrite replace_from_skipn.
    pose proof (startswith_split _ _ E) as Hs. cbn [List.length skipn] in Hs.
    rewrite Hs at 1. apply erased_drop. apply IH.
    cbn [List.length]. rewrite length_skipn. lia.
  - constructor. apply IH. cbn [List.length]. lia.
Qed.

Lemma erased_length old s s' :
  erased old s s' -> (List.length s' <= List.length s)%nat.
Proof.
  induction 1; cbn [List.length]; try lia.
  rewrite length_app. lia.
Qed.

Lemma skip_ws_nil_delimited r : skip_ws r = [] -> delimited r = true.
Proof.
  destruct r as [|c r]; [reflexivity|]. cbn.
  destruct (json_ws c); [reflexivity|discriminate].
Qed.

(** Valid JSON without some occurrences of a fence marker is valid
    JSON. *)
Lemma json_loads_erased {py : interpreter} old_tl s s' v :
  forallb plain_char old_tl = true ->
  json_loads s = Ok v -> erased (96 :: old_tl) s s' ->
  exists v', json_loads s' = Ok v'.
Proof.
  intros Hp H He. unfold json_loads in *.
  destruct (startswith [65279] s) eqn:Hbom; [discriminate|].
  destruct (scan_once (S (2 * List.length s)) decoder_room (skip_ws s))
    as [v0 r| |] eqn:Ev; try discriminate.
  destruct (skip_ws r) eqn:Er; [|discriminate].
  destruct (skip_ws s) as [|x y] eqn:Ews;
    [exfalso; exact (scan_once_nil _ _ _ _ Ev)|].
  assert (Hx : x <> 96).
  { intros E. subst x. exact (scan_once_bq _ _ _ _ _ Ev). }
  destruct (skip_ws_erased _ _ _ _ _ He Ews Hx) as (y' & Ews' & He1).
  destruct (decoder_erased _ Hp (S (2 * List.length s))) as [Hs _].
  destruct (Hs _ _ (x :: y') _ _ Ev (skip_ws_nil_delimited _ Er)
              (erased_keep _ _ _ _ He1)) as (v' & r' & Ev' & He2).
  assert (Hbom' : startswith [65279] s' = false).
  { destruct s as [|c s0]; [discriminate|].
    assert (Hc : c <> 96).
    { intros E. subst c. cbn in Ews. inversion Ews. congruence. }
    apply erased_cons_inv in He; [|exact Hc].
    destruct He as (t & -> & _). exact Hbom. }
  rewrite Hbom', Ews'.
  pose proof (erased_length _ _ _ He) as Hlen.
  pose proof (skip_ws_length s') as Hw. rewrite Ews' in Hw.
  destruct (decoder_fuel (S (2 * List.length s'))) as [Hf _].
  destruct (Hf decoder_room (x :: y') ltac:(lia)) as [Hne _].
  destruct (decoder_fuel_mono (S (2 * List.length s'))) as [Hm _].
  rewrite <- (Hm decoder_room (x :: y') (S (2 * List.length s)) Hne ltac:(lia)).
  rewrite Ev'. rewrite (skip_ws_erased_nil _ _ _ He2 Er). eauto.
Qed.

(** A valid JSON object is still one after the two [replace] calls: the
    markers can only stand inside its strings, which lose them. *)
Lemma decode_valid_object {py : interpreter} mid v :
  json_loads (123 :: mid ++ [125]) = Ok v ->
  exists rec, decode (123 :: mid ++ [125]) = Ok rec.
Proof.
  intros H. unfold decode, fence_stripped, strip_fences.
  pose proof (strip_spaces_around [] (123 :: mid ++ [125]) [] 123
                (mid ++ [125]) (123 :: mid) 125
                eq_refl eq_refl eq_refl eq_refl eq_refl eq_refl) as E.
  cbn [app] in E. rewrite app_nil_r in E. rewrite E.
  pose proof (replace_erased 96 (lit "``json") (123 :: mid ++ [125])) as He1.
  change (96 :: lit "``json") with (lit "```json") in He1.
  destruct (json_loads_erased (lit "``json") _ _ _ eq_refl H He1) as (v1 & H1).
  pose proof (replace_erased 96 (lit "``")
                (replace (lit "```json") [] (123 :: mid ++ [125]))) as He2.
  change (96 :: lit "``") with (lit "```") in He2.
  exact (json_loads_erased (lit "``") _ _ _ eq_refl H1 He2).
Qed.
(** ** The monad of the agent *)

Section MonadFacts.

Variable service : Type.


Lemma bind_Ok {A B : Type} (c : M service A) (k : A -> M service B) st b st' :
  bind service c k st = (Ok b, st') ->
  exists a st1, c st = (Ok a, st1) /\ k a st1 = (Ok b, st').
Proof.
  unfold bind. destruct (c st) as [[a|e] st1]; intros H.
  - exists a, st1. split; [reflexivity | exact H].
  - discriminate.
Qed.

Lemma bind_step {A B : Type} (c : M service A) (k : A -> M service B) st a st1 :
  c st = (Ok a, st1) -> bind service c k st = k a st1.
Proof. unfold bind. intros ->. reflexivity. Qed.

Lemma bind_raise {A B : Type} (c : M service A) (k : A -> M service B) st e st1 :
  c st = (Raise e, st1) -> bind service c k st = (Raise e, st1).
Proof. unfold bind. intros ->. reflexivity. Qed.

Lemma lift_Ok {A : Type} (o : outcome A) st a st' :
  lift service o st = (Ok a, st') -> o = Ok a /\ st' = st.
Proof. unfold lift. intros H. inversion H. split; reflexivity. Qed.

Lemma ret_Ok {A : Type} (x : A) st a st' :
  ret service x st = (Ok a, st') -> a = x /\ st' = st.
Proof. unfold ret. intros H. inversion H. split; reflexivity. Qed.

End MonadFacts.

(** Takes apart the hypotheses that say a chain of binds returned. *)
Ltac monad_inv :=
  repeat
    match goal with
    | H : bind _ _ _ _ = (Ok _, _) |- _ =>
        let a := fresh "v" in
        let st := fresh "st" in
        let Hc := fresh "Hc" in
        apply bind_Ok in H; destruct H as (a & st & Hc & H)
    | H : lift _ _ _ = (Ok _, _) |- _ =>
        apply lift_Ok in H; destruct H as [H ->]
    | H : ret _ _ _ = (Ok _, _) |- _ =>
        apply ret_Ok in H; destruct H as [-> ->]
    end.

(** ** One pass and the loop, for any generation service *)

Section AgentFacts.

Context {py : interpreter}.
Variable service : Type.
Variable generate_content :
  prompt -> service -> outcome (option pystr) * service.


Lemma py_get_Ok v key default x :
  py_get v key default = Ok x ->
  exists kvs, v = PyDict kvs /\ x = dict_get kvs key default.
Proof.
  destruct v; simpl; intros H; try discriminate.
  inversion H. eauto.
Qed.

Lemma verify_llm_Ok question exec_result st verdict st' :
  verify_llm service generate_content question exec_result st = (Ok verdict, st') ->
  exists ke, exec_result = PyDict ke.
Proof.
  unfold verify_llm. intros H. monad_inv.
  match goal with
  | G : py_get exec_result _ _ = Ok _ |- _ =>
      apply py_get_Ok in G; destruct G as (ke & -> & _)
  end.
  eauto.
Qed.

Lemma summarize_short_Ok ke reasoning :
  summarize_short (PyDict ke) = Ok reasoning ->
  exists expl,
    dict_get ke (lit "explanation") (PyStr []) = PyStr expl /\
    reasoning = slice_to 250 (strip expl).
Proof.
  unfold summarize_short. simpl.
  destruct (dict_get ke (lit "explanation") (PyStr [])); simpl; intros H;
    try discriminate.
  inversion H. eauto.
Qed.

Lemma attempt_body_spec question attempt md st a st' :
  attempt_body service generate_content question attempt md st = (Ok a, st') ->
  pass_spec md attempt a.
Proof.
  unfold attempt_body. cbv zeta. cbn [md_plan md_checks md_retries].
  intros H. monad_inv.
  match goal with
  | G : verify_llm _ _ _ _ _ = _ |- _ =>
      apply verify_llm_Ok in G; destruct G as (ke & ->)
  end.
  repeat
    match goal with
    | G : py_get ?v _ _ = Ok _ |- _ =>
        apply py_get_Ok in G; destruct G as (? & G & ->);
        first [subst v | inversion G; subst; clear G]
    end.
  match goal with
  | G : list_extend _ _ = Ok _ |- _ =>
      unfold list_extend in G;
      destruct (py_iter _) as [items|] eqn:Hitems in G; [|discriminate];
      inversion G; subst; clear G
  end.
  match goal with
  | G : py_iter (dict_get ?kv _ _) = _ |- _ => exists ke, kv, items
  end.
  destruct (py_truthy _) eqn:Hp in H.
  - monad_inv.
    match goal with
    | G : py_get _ _ _ = Ok _ |- _ =>
        simpl in G; inversion G; subst; clear G
    end.
    match goal with
    | G : summarize_short _ = Ok _ |- _ =>
        apply summarize_short_Ok in G; destruct G as (expl & Hexpl & ->)
    end.
    cbn. repeat split; auto. right. split; [exact Hp|].
    exists expl. split; [exact Hexpl | reflexivity].
  - monad_inv. cbn. repeat split; auto.
Qed.

Lemma attempts_of_passes question attempts :
  forall md st log st',
    attempts_of service generate_content question attempts md st = (Ok log, st') ->
    passes md attempts log.
Proof.
  induction attempts as [|attempt rest IH]; intros md st log st' H.
  - cbn in H. inversion H. constructor.
  - cbn [attempts_of] in H. monad_inv.
    pose proof (attempt_body_spec _ _ _ _ _ _ Hc) as Hspec.
    destruct (att_return v) as [r|] eqn:Hr.
    + monad_inv. eapply passes_accept; eauto.
    + monad_inv. eapply passes_reject; eauto.
Qed.

(** [solve_loop] returns what the log of its passes says, ends with the
    exception the passes end with, and leaves the service in the same
    state. *)
Lemma solve_loop_attempts question attempts :
  forall md st,
    solve_loop service generate_content question attempts md st =
    match attempts_of service generate_content question attempts md st with
    | (Ok log, st') => (Ok (result_of md log), st')
    | (Raise e, st') => (Raise e, st')
    end.
Proof.
  induction attempts as [|attempt rest IH]; intros md st.
  - reflexivity.
  - cbn [solve_loop attempts_of]. unfold bind.
    destruct (attempt_body service generate_content question attempt md st)
      as [[a|e] st1]; [|reflexivity].
    destruct (att_return a) as [r|] eqn:Hr.
    + unfold ret. cbn. rewrite Hr. reflexivity.
    + rewrite IH.
      destruct (attempts_of service generate_content question rest
                  (att_metadata a) st1) as [[log|e] st2];
        [|reflexivity].
      unfold ret. cbn. rewrite Hr. reflexivity.
Qed.

Lemma attempts_started_le question attempts :
  forall md st,
    (attempts_started service generate_content question attempts md st
     <= List.length attempts)%nat.
Proof.
  induction attempts as [|attempt rest IH]; intros md st; cbn.
  - lia.
  - destruct (attempt_body service generate_content question attempt md st)
      as [[a|e] st1]; [|lia].
    destruct (att_return a); [lia|]. specialize (IH (att_metadata a) st1). lia.
Qed.

Lemma attempts_started_log question attempts :
  forall md st log st',
    attempts_of service generate_content question attempts md st = (Ok log, st') ->
    attempts_started service generate_content question attempts md st
    = List.length log.
Proof.
  induction attempts as [|attempt rest IH]; intros md st log st' H.
  - cbn in H. inversion H. reflexivity.
  - cbn [attempts_of] in H. cbn [attempts_started].
    monad_inv. rewrite Hc.
    destruct (att_return v) as [r|] eqn:Hr; monad_inv.
    + reflexivity.
    + cbn. f_equal. eapply IH; eauto.
Qed.

(** A pass that ran to its end has called the three roles, one after the
    other, and holds what they returned. *)
Lemma attempt_body_calls question attempt md st a st' :
  attempt_body service generate_content question attempt md st = (Ok a, st') ->
  exists st1 st2,
    plan service generate_content question st = (Ok (att_plan a), st1) /\
    execute service generate_content question (att_plan a) st1
    = (Ok (att_exec a), st2) /\
    verify_llm service generate_content question (att_exec a) st2
    = (Ok (att_verdict a), st').
Proof.
  unfold attempt_body. cbv zeta. intros H.
  apply bind_Ok in H. destruct H as (p & st1 & Hp & H).
  apply bind_Ok in H. destruct H as (e & st2 & He & H).
  apply bind_Ok in H. destruct H as (v & st3 & Hv & H).
  monad_inv.
  destruct (py_truthy _) in H; monad_inv; cbn; eauto.
Qed.

(** The passes of the log are the calls of the roles that [contributes]
    tells of. *)
Lemma attempts_of_contributes question attempts :
  forall md st log st' per,
    attempts_of service generate_content question attempts md st = (Ok log, st') ->
    Forall2 (fun a items => verdict_checks (att_verdict a) = Ok items) log per ->
    contributes service generate_content question st per st'.
Proof.
  induction attempts as [|attempt rest IH]; intros md st log st' per H Hall.
  - cbn in H. inversion H; subst. inversion Hall. constructor.
  - cbn [attempts_of] in H. monad_inv.
    destruct (attempt_body_calls _ _ _ _ _ _ Hc) as (st1 & st2 & Hp & He & Hv).
    destruct (att_return v) as [r|] eqn:Hr; monad_inv.
    + inversion Hall as [|? items ? per' Hit Hall']; subst.
      inversion Hall'; subst.
      eapply contributes_pass; eauto. constructor.
    + inversion Hall as [|? items ? per' Hit Hall']; subst.
      eapply contributes_pass; eauto.
Qed.

End AgentFacts.

(** ** What the log of a run says *)

Lemma pass_spec_return md attempt a r :
  pass_spec md attempt a -> att_return a = Some r ->
  exists ke kv expl,
    att_exec a = PyDict ke /\ att_verdict a = PyDict kv /\
    py_truthy (dict_get kv (lit "passed") (PyBool false)) = true /\
    dict_get ke (lit "explanation") (PyStr []) = PyStr expl /\
    r = {| answer := dict_get ke (lit "proposed_answer") (PyStr []);
           status := success;
           reasoning_visible_to_user := slice_to 250 (strip expl);
           metadata := att_metadata a |}.
Proof.
  intros (ke & kv & items & _ & He & Hv & _ & _ & [[_ Hn] | [Hp (expl & Hx & Hr)]]) Hret.
  - congruence.
  - exists ke, kv, expl. repeat split; auto. congruence.
Qed.

Lemma pass_spec_metadata md attempt a :
  pass_spec md attempt a ->
  att_index a = attempt /\
  md_retries (att_metadata a) = attempt /\
  md_plan (att_metadata a) = Some (att_plan a) /\
  exists items,
    verdict_checks (att_verdict a) = Ok items /\
    md_checks (att_metadata a) = md_checks md ++ items.
Proof.
  intros (ke & kv & items & Hi & _ & Hv & Hit & Hmd & _).
  rewrite Hmd. cbn. repeat split; auto.
  exists items. split; [|reflexivity].
  unfold verdict_checks. rewrite Hv. cbn. exact Hit.
Qed.

(** The log of a run ends with the pass that decided it. *)
Lemma passes_last md attempts log :
  passes md attempts log ->
  (log = [] /\ attempts = [] /\ result_of md log = all_retries_fail md)
  \/
  (exists earlier last md_last attempt,
      log = earlier ++ [last] /\
      Forall (fun a => att_return a = None) earlier /\
      pass_spec md_last attempt last /\
      (att_return last = Some (result_of md log)
       \/ (att_return last = None /\
           result_of md log = all_retries_fail (att_metadata last)))).
Proof.
  induction 1 as [md | md attempt rest a r Hs Hr | md attempt rest a log Hs Hr Hp IH].
  - left. auto.
  - right. exists [], a, md, attempt. cbn. rewrite Hr. repeat split; auto.
  - right.
    destruct IH
      as [(-> & -> & Hres) | (earlier & last & mdl & att & -> & Hall & Hsl & Hres)].
    + exists [], a, md, attempt. cbn. rewrite Hr. repeat split; auto.
    + exists (a :: earlier), last, mdl, att. cbn [result_of]. rewrite Hr.
      repeat split; auto.
Qed.

Lemma passes_length md attempts log :
  passes md attempts log ->
  (List.length log <= List.length attempts)%nat /\
  (attempts <> [] -> log <> []).
Proof.
  induction 1 as [md | md attempt rest a r Hs Hr | md attempt rest a log Hs Hr Hp IH];
    cbn; split; try lia; try congruence.
Qed.

Lemma passes_indices md attempts log :
  passes md attempts log ->
  map att_index log = firstn (List.length log) attempts.
Proof.
  induction 1
    as [md | md attempt rest a r Hs Hr | md attempt rest a log Hs Hr Hp IH]; cbn.
  - reflexivity.
  - destruct (pass_spec_metadata _ _ _ Hs) as (-> & _). reflexivity.
  - destruct (pass_spec_metadata _ _ _ Hs) as (-> & _). rewrite IH. reflexivity.
Qed.

Lemma result_of_metadata md attempts log :
  passes md attempts log ->
  metadata (result_of md log) =
  match rev log with
  | [] => md
  | last :: _ => att_metadata last
  end.
Proof.
  induction 1 as [md | md attempt rest a r Hs Hr | md attempt rest a log Hs Hr Hp IH].
  - reflexivity.
  - cbn. rewrite Hr.
    destruct (pass_spec_return _ _ _ _ Hs Hr) as (ke & kv & expl & _ & _ & _ & _ & ->).
    reflexivity.
  - cbn [result_of]. rewrite Hr, IH. cbn [rev].
    destruct (rev log) as [|b l]; reflexivity.
Qed.

(** The checks of the verdicts, pass by pass, and what the metadata holds
    after each pass. *)
Lemma passes_checks md attempts log :
  passes md attempts log ->
  exists per,
    Forall2 (fun a items => verdict_checks (att_verdict a) = Ok items) log per /\
    (forall k a, nth_error log k = Some a ->
                 md_checks (att_metadata a)
                 = md_checks md ++ List.concat (firstn (S k) per)) /\
    md_checks (metadata (result_of md log)) = md_checks md ++ List.concat per.
Proof.
  induction 1 as [md | md attempt rest a r Hs Hr | md attempt rest a log Hs Hr Hp IH].
  - exists []. repeat split; [constructor | | cbn; now rewrite app_nil_r].
    intros [|k] a H; discriminate.
  - destruct (pass_spec_metadata _ _ _ Hs) as (_ & _ & _ & items & Hit & Hmd).
    exists [items]. repeat split.
    + repeat constructor. exact Hit.
    + intros [|[|k]] b H; cbn in H; try discriminate.
      inversion H; subst b. cbn. now rewrite app_nil_r.
    + cbn. rewrite Hr.
      destruct (pass_spec_return _ _ _ _ Hs Hr) as (ke & kv & expl & _ & _ & _ & _ & ->).
      cbn. now rewrite app_nil_r.
  - destruct (pass_spec_metadata _ _ _ Hs) as (_ & _ & _ & items & Hit & Hmd).
    destruct IH as (per & Hall & Hnth & Hfin).
    exists (items :: per). repeat split.
    + constructor; assumption.
    + intros [|k] b H; cbn in H.
      * inversion H; subst b. cbn. now rewrite app_nil_r.
      * rewrite (Hnth _ _ H), Hmd. cbn [firstn List.concat].
        now rewrite <- app_assoc.
    + cbn [result_of]. rewrite Hr, Hfin, Hmd. cbn. now rewrite <- app_assoc.
Qed.

(** ** [range] *)

Lemma py_range_length n : List.length (py_range n) = Z.to_nat n.
Proof. unfold py_range. now rewrite length_map, length_seq. Qed.

Lemma firstn_seq_le (k : nat) :
  forall start len, (k <= len)%nat -> firstn k (seq start len) = seq start k.
Proof.
  induction k as [|k IH]; intros start len H.
  - reflexivity.
  - destruct len as [|len]; [lia|]. cbn. f_equal. apply IH. lia.
Qed.

Lemma py_range_firstn (k : nat) n :
  (k <= Z.to_nat n)%nat -> firstn k (py_range n) = py_range (Z.of_nat k).
Proof.
  intros H. unfold py_range.
  now rewrite firstn_map, firstn_seq_le, Nat2Z.id.
Qed.

Lemma py_range_last (k : nat) :
  py_range (Z.of_nat (S k)) = py_range (Z.of_nat k) ++ [Z.of_nat k].
Proof.
  unfold py_range. rewrite !Nat2Z.id, seq_S, map_app. reflexivity.
Qed.

Lemma slice_to_length n s : (List.length (slice_to n s) <= n)%nat.
Proof. unfold slice_to. apply firstn_le_length. Qed.

(** ** One pass and the loop, for the scripted service *)

Arguments slice_to : simpl never.
Arguments strip : simpl never.
Arguments fence_stripped : simpl never.
Arguments json_loads : simpl never.

Ltac run_pass :=
  unfold attempt_body, plan, execute, verify_llm, gemini_call, bind, lift, ret,
    scripted, pass, decode in *;
  cbn [app md_plan md_checks md_retries].

Section ScriptedFacts.

Context {py : interpreter}.

Lemma attempt_body_plan_fails question attempt md :
  attempt_body script scripted question attempt md [] = (Raise ServiceError, []).
Proof. reflexivity. Qed.

Lemma attempt_body_execute_raises question attempt md p e sc err :
  decode e = Raise err ->
  attempt_body script scripted question attempt md (Ok p :: Ok e :: sc)
  = (Raise err, sc).
Proof. intros H. run_pass. rewrite H. reflexivity. Qed.

Lemma attempt_body_execute_not_dict question attempt md p e sc x :
  decode e = Ok x -> (forall ke, x <> PyDict ke) ->
  attempt_body script scripted question attempt md (Ok p :: Ok e :: sc)
  = (Raise AttributeError, sc).
Proof.
  intros H Hx. run_pass. rewrite H.
  destruct x; try reflexivity. exfalso. eapply Hx. reflexivity.
Qed.

Lemma attempt_body_verify_raises question attempt md p e v sc ke err :
  decode e = Ok (PyDict ke) -> decode v = Raise err ->
  attempt_body script scripted question attempt md (pass p e v ++ sc)
  = (Raise err, sc).
Proof. intros H1 H2. run_pass. rewrite H1. cbn. rewrite H2. reflexivity. Qed.

(** A pass whose two answers decode to dicts and whose checks can be
    iterated: what it returns depends on the truth value of [passed]. *)
Lemma attempt_body_pass question attempt md p e v sc ke kv items :
  decode e = Ok (PyDict ke) -> decode v = Ok (PyDict kv) ->
  py_iter (dict_get kv (lit "checks") (PyList [])) = Ok items ->
  attempt_body script scripted question attempt md (pass p e v ++ sc)
  = (let md3 := {| md_plan := Some (strip p);
                   md_checks := md_checks md ++ items;
                   md_retries := attempt |} in
     if py_truthy (dict_get kv (lit "passed") (PyBool false)) then
       match summarize_short (PyDict ke) with
       | Ok reasoning =>
           Ok {| att_index := attempt; att_plan := strip p;
                 att_exec := PyDict ke; att_verdict := PyDict kv;
                 att_metadata := md3;
                 att_return :=
                   Some {| answer := dict_get ke (lit "proposed_answer") (PyStr []);
                           status := success;
                           reasoning_visible_to_user := reasoning;
                           metadata := md3 |} |}
       | Raise x => Raise x
       end
     else
       Ok {| att_index := attempt; att_plan := strip p;
             att_exec := PyDict ke; att_verdict := PyDict kv;
             att_metadata := md3; att_return := None |},
     sc).
Proof.
  intros H1 H2 H3. run_pass. rewrite H1. cbn [py_get]. rewrite H2.
  cbn [py_get]. unfold list_extend. rewrite H3.
  destruct (py_truthy _); [|reflexivity].
  destruct (summarize_short (PyDict ke)); reflexivity.
Qed.

(** The loop after a rejected pass goes on with the next value of
    [attempt]; the rejected pass has set the plan, appended its checks and
    set [retries]. *)
Lemma solve_loop_rejected question attempt rest md en items sc :
  rejected en items ->
  solve_loop script scripted question (attempt :: rest) md (script_of [en] ++ sc)
  = solve_loop script scripted question rest
      {| md_plan := Some (strip (fst (fst en)));
         md_checks := md_checks md ++ items;
         md_retries := attempt |} sc.
Proof.
  destruct en as [[p e] v]. intros (ke & kv & He & Hv & Hp & Hit).
  cbn [fst snd] in *. unfold script_of. cbn [flat_map fst snd].
  rewrite app_nil_r. cbn [solve_loop]. unfold bind at 1.
  rewrite (attempt_body_pass _ _ _ _ _ _ _ ke kv items) by assumption.
  cbv zeta. rewrite Hp. reflexivity.
Qed.

Lemma script_of_cons en entries :
  script_of (en :: entries) = script_of [en] ++ script_of entries.
Proof. unfold script_of. cbn [flat_map]. now rewrite app_nil_r. Qed.

(** The loop after a run of rejected passes. *)
Lemma solve_loop_all_rejected question entries :
  forall per attempts md sc,
    Forall2 rejected entries per ->
    (List.length entries <= List.length attempts)%nat ->
    solve_loop script scripted question attempts md (script_of entries ++ sc)
    = solve_loop script scripted question
        (skipn (List.length entries) attempts)
        (md_after md attempts (map (fun en => fst (fst en)) entries) per) sc.
Proof.
  induction entries as [|en entries IH]; intros per attempts md sc Hall Hlen.
  - inversion Hall; subst. cbn. destruct attempts; reflexivity.
  - inversion Hall as [|? items ? per' Hr Hall']; subst.
    destruct attempts as [|attempt rest]; [cbn in Hlen; lia|].
    rewrite script_of_cons, <- app_assoc.
    rewrite (solve_loop_rejected _ _ _ _ _ items) by exact Hr.
    rewrite (IH per') by (auto; cbn in Hlen; lia).
    reflexivity.
Qed.

Lemma md_after_checks attempts :
  forall md plans per,
    List.length plans = List.length per ->
    (List.length per <= List.length attempts)%nat ->
    md_checks (md_after md attempts plans per) = md_checks md ++ List.concat per.
Proof.
  induction attempts as [|attempt rest IH]; intros md plans per H1 H2.
  - destruct per; [|cbn in H2; lia]. cbn. now rewrite app_nil_r.
  - destruct plans as [|p plans], per as [|items per]; try discriminate.
    + cbn. now rewrite app_nil_r.
    + cbn [md_after]. rewrite IH by (cbn in *; lia). cbn.
      now rewrite app_assoc.
Qed.

Lemma md_after_last attempts :
  forall md plans per,
    List.length plans = List.length per ->
    List.length per = List.length attempts ->
    attempts <> [] ->
    md_retries (md_after md attempts plans per) = last attempts 0%Z /\
    md_plan (md_after md attempts plans per) = Some (strip (last plans [])).
Proof.
  induction attempts as [|attempt rest IH]; intros md plans per H1 H2 Hne.
  - congruence.
  - destruct plans as [|p plans], per as [|items per]; try discriminate.
    cbn [md_after]. destruct rest as [|attempt' rest].
    + destruct plans; [|cbn in *; lia]. destruct per; [|cbn in *; lia].
      cbn. auto.
    + destruct (IH {| md_plan := Some (strip p);
                      md_checks := md_checks md ++ items;
                      md_retries := attempt |} plans per) as [Hr Hp];
        try (cbn in *; lia); try congruence.
      rewrite Hr, Hp. destruct plans; [cbn in *; lia|]. split; reflexivity.
Qed.

Lemma py_range_succ_last n :
  (0 <= n)%Z -> last (py_range (n + 1)) 0%Z = n /\ py_range (n + 1) <> [].
Proof.
  intros H. replace (n + 1)%Z with (Z.of_nat (S (Z.to_nat n))) by lia.
  rewrite py_range_last. split.
  - rewrite last_last. lia.
  - intros E. apply app_eq_nil in E. destruct E; discriminate.
Qed.

Lemma attempts_started_rejected question attempt rest md en items sc :
  rejected en items ->
  attempts_started script scripted question (attempt :: rest) md
    (script_of [en] ++ sc)
  = S (attempts_started script scripted question rest
         {| md_plan := Some (strip (fst (fst en)));
            md_checks := md_checks md ++ items;
            md_retries := attempt |} sc).
Proof.
  destruct en as [[p e] v]. intros (ke & kv & He & Hv & Hp & Hit).
  cbn [fst snd] in *. unfold script_of. cbn [flat_map fst snd].
  rewrite app_nil_r. cbn [attempts_started].
  rewrite (attempt_body_pass _ _ _ _ _ _ _ ke kv items) by assumption.
  cbv zeta. rewrite Hp. reflexivity.
Qed.

Lemma attempts_started_all_rejected question entries :
  forall per attempts md sc,
    Forall2 rejected entries per ->
    (List.length entries <= List.length attempts)%nat ->
    attempts_started script scripted question attempts md (script_of entries ++ sc)
    = (List.length entries
       + attempts_started script scripted question
           (skipn (List.length entries) attempts)
           (md_after md attempts (map (fun en => fst (fst en)) entries) per) sc)%nat.
Proof.
  induction entries as [|en entries IH]; intros per attempts md sc Hall Hlen.
  - inversion Hall; subst. cbn. destruct attempts; reflexivity.
  - inversion Hall as [|? items ? per' Hr Hall']; subst.
    destruct attempts as [|attempt rest]; [cbn in Hlen; lia|].
    rewrite script_of_cons, <- app_assoc.
    rewrite (attempts_started_rejected _ _ _ _ _ items) by exact Hr.
    rewrite (IH per') by (auto; cbn in Hlen; lia).
    reflexivity.
Qed.

Lemma skipn_py_range_cons (k : nat) n :
  (Z.of_nat k < n)%Z ->
  exists rest, skipn k (py_range n) = Z.of_nat k :: rest.
Proof.
  intros H. unfold py_range.
  replace (Z.to_nat n) with (k + S (Z.to_nat n - S k))%nat by lia.
  rewrite seq_app, map_app, skipn_app, length_map, length_seq, Nat.sub_diag.
  rewrite skipn_all2 by (rewrite length_map, length_seq; lia).
  cbn. eauto.
Qed.

Lemma dict_get_lacks kvs key default :
  lacks kvs key -> dict_get kvs key default = default.
Proof.
  unfold lacks. induction kvs as [|[k v] kvs IH]; intros H; cbn.
  - reflexivity.
  - rewrite (H k v) by (left; reflexivity).
    apply IH. intros k' v' Hin. apply (H k' v'). right. exact Hin.
Qed.

Lemma script_of_entry p e v entries :
  script_of ((p, e, v) :: entries) = pass p e v ++ script_of entries.
Proof. reflexivity. Qed.

Lemma script_of_length entries :
  List.length (script_of entries) = (3 * List.length entries)%nat.
Proof.
  induction entries as [|[[p e] v] entries IH].
  - reflexivity.
  - rewrite script_of_entry. cbn [pass app List.length]. lia.
Qed.

Lemma solve_loop_cons question attempt rest md sc :
  solve_loop script scripted question (attempt :: rest) md sc
  = match attempt_body script scripted question attempt md sc with
    | (Ok a, sc') =>
        match att_return a with
        | Some result => (Ok result, sc')
        | None => solve_loop script scripted question rest (att_metadata a) sc'
        end
    | (Raise e, sc') => (Raise e, sc')
    end.
Proof.
  cbn [solve_loop]. unfold bind.
  destruct (attempt_body script scripted question attempt md sc) as [[a|e] sc'];
    [|reflexivity].
  destruct (att_return a); reflexivity.
Qed.

(** Two scripts whose entries the controller cannot tell apart lead the
    loop through the same decisions. *)
Lemma solve_loop_same_verdict question attempts :
  forall entries1 entries2 md1 md2,
    Forall2 same_verdict entries1 entries2 ->
    md_retries md1 = md_retries md2 ->
    observe (solve_loop script scripted question attempts md1 (script_of entries1))
    = observe (solve_loop script scripted question attempts md2 (script_of entries2))
    /\
    attempts_started script scripted question attempts md1 (script_of entries1)
    = attempts_started script scripted question attempts md2 (script_of entries2).
Proof.
  induction attempts as [|attempt rest IH]; intros entries1 entries2 md1 md2 Hall Hmd.
  - cbn [solve_loop attempts_started]. unfold ret, observe, decision_of. cbn.
    rewrite !script_of_length, (Forall2_length Hall), Hmd. auto.
  - destruct Hall as [|[[p1 e1] v1] [[p2 e2] v2] entries1 entries2 Hsame Hall].
    + split; reflexivity.
    + destruct Hsame as (Heq & kv1 & kv2 & items1 & items2 & Hv1 & Hv2 & Hp & Hi1 & Hi2).
      cbn [fst snd] in *. subst e2.
      pose proof (Forall2_length Hall) as Hlen.
      rewrite !script_of_entry, !solve_loop_cons. cbn [attempts_started].
      destruct (decode e1) as [x|err] eqn:He.
      * destruct x as [| | | | | |ke];
          try (cbn [pass app];
               rewrite !(attempt_body_execute_not_dict _ _ _ _ _ _ _ He)
                 by (intros ke; discriminate);
               unfold observe; cbn; rewrite !script_of_length, Hlen; auto).
        rewrite (attempt_body_pass _ _ _ _ _ _ _ ke kv1 items1) by assumption.
        rewrite (attempt_body_pass _ _ _ _ _ _ _ ke kv2 items2) by assumption.
        cbv zeta. rewrite <- Hp.
        destruct (py_truthy (dict_get kv1 (lit "passed") (PyBool false))).
        -- destruct (summarize_short (PyDict ke)) as [reasoning|x];
             unfold observe, decision_of, ret; cbn;
             rewrite !script_of_length, Hlen; auto.
        -- cbn [att_return att_metadata].
           destruct (IH entries1 entries2
                       {| md_plan := Some (strip p1);
                          md_checks := md_checks md1 ++ items1;
                          md_retries := attempt |}
                       {| md_plan := Some (strip p2);
                          md_checks := md_checks md2 ++ items2;
                          md_retries := attempt |} Hall eq_refl) as [IH1 IH2].
           rewrite IH1, IH2. auto.
      * cbn [pass app].
        rewrite !(attempt_body_execute_raises _ _ _ _ _ _ _ He).
        unfold observe; cbn. rewrite !script_of_length, Hlen. auto.
Qed.

(** ** The executor *)

Lemma execute_decodes
  (service : Type)
  (generate_content : prompt -> service -> outcome (option pystr) * service)
  (question plan_text text : pystr) (st st1 : service) :
  gemini_call service generate_content (execute_prompt question plan_text) st
  = (Ok text, st1) ->
  execute service generate_content question plan_text st = (decode text, st1).
Proof. intros H. unfold execute, bind, lift, decode. rewrite H. reflexivity. Qed.

End ScriptedFacts.
(** * More facts *)

(** ** Whitespace at the ends of a text *)

Lemma lstrip_head s c r : lstrip s = c :: r -> py_isspace c = false.
Proof.
  induction s as [|x s IH]; cbn; [discriminate|].
  destruct (py_isspace x) eqn:Hx; [exact IH|].
  intros H. inversion H; subst. exact Hx.
Qed.

Lemma lstrip_nonspace c s : py_isspace c = false -> lstrip (c :: s) = c :: s.
Proof. cbn. intros ->. reflexivity. Qed.

Lemma lstrip_app_nonspace x c y :
  py_isspace c = false -> lstrip (x ++ c :: y) = lstrip x ++ c :: y.
Proof.
  intros Hc. induction x as [|a x IH]; cbn.
  - rewrite Hc. reflexivity.
  - destruct (py_isspace a); [exact IH | reflexivity].
Qed.

Lemma lstrip_all_space s : forallb py_isspace s = true -> lstrip s = [].
Proof.
  induction s as [|c s IH]; cbn; [reflexivity|].
  intros H. apply andb_prop in H. destruct H as [-> H]. auto.
Qed.

Lemma rstrip_cons_nonspace c s :
  py_isspace c = false -> rstrip (c :: s) = c :: rstrip s.
Proof.
  intros Hc. unfold rstrip. cbn [rev].
  rewrite lstrip_app_nonspace by exact Hc.
  rewrite rev_app_distr. reflexivity.
Qed.

Lemma rstrip_nil : rstrip [] = [].
Proof. reflexivity. Qed.

Lemma rstrip_last s : rstrip s <> [] -> py_isspace (last (rstrip s) 0) = false.
Proof.
  unfold rstrip. destruct (lstrip (rev s)) as [|c r] eqn:H.
  { intros H'. exfalso. apply H'. reflexivity. }
  intros _. cbn [rev]. rewrite last_last. eapply lstrip_head. exact H.
Qed.

Lemma rstrip_app_space s o :
  forallb py_isspace o = true -> rstrip (s ++ o) = rstrip s.
Proof.
  intros Ho. unfold rstrip. rewrite rev_app_distr.
  rewrite lstrip_spaces; [reflexivity|].
  rewrite forallb_forall in *. intros x Hx. apply Ho. now apply in_rev.
Qed.

Lemma strip_around o1 t o2 :
  forallb py_isspace o1 = true -> forallb py_isspace o2 = true ->
  strip (o1 ++ t ++ o2) = strip t.
Proof.
  intros H1 H2. unfold strip. rewrite lstrip_spaces by exact H1.
  destruct (lstrip t) as [|c r] eqn:Ht.
  - assert (Hall : forallb py_isspace t = true).
    { clear - Ht. induction t as [|x t IH]; cbn in *; [reflexivity|].
      destruct (py_isspace x); [auto | discriminate]. }
    rewrite lstrip_spaces by exact Hall.
    rewrite lstrip_all_space by exact H2. reflexivity.
  - assert (Hsplit : exists pre, t = pre ++ c :: r /\ forallb py_isspace pre = true).
    { clear - Ht. induction t as [|x t IH]; cbn in *; [discriminate|].
      destruct (py_isspace x) eqn:Hx.
      - destruct (IH Ht) as (pre & -> & Hp). exists (x :: pre).
        cbn. rewrite Hx. auto.
      - inversion Ht; subst. exists []. auto. }
    destruct Hsplit as (pre & -> & Hpre).
    rewrite <- app_assoc. rewrite lstrip_spaces by exact Hpre.
    cbn [app]. rewrite lstrip_nonspace by (eapply lstrip_head; exact Ht).
    change (c :: r ++ o2) with ((c :: r) ++ o2).
    apply rstrip_app_space. exact H2.
Qed.

Lemma strip_all_space s : forallb py_isspace s = true -> strip s = [].
Proof. intros H. unfold strip. rewrite lstrip_all_space by exact H. reflexivity. Qed.

Lemma strip_trimmed s : trimmed (strip s) = true.
Proof.
  unfold trimmed, strip.
  destruct (lstrip s) as [|c r] eqn:Hl; [reflexivity|].
  pose proof (lstrip_head _ _ _ Hl) as Hc.
  rewrite rstrip_cons_nonspace by exact Hc. cbn [hd]. rewrite Hc. cbn [negb andb].
  rewrite <- (rstrip_cons_nonspace c r Hc).
  rewrite rstrip_last; [reflexivity|].
  rewrite rstrip_cons_nonspace by exact Hc. discriminate.
Qed.

Lemma strip_of_trimmed s : trimmed s = true -> strip s = s.
Proof.
  unfold trimmed. intros H. apply andb_prop in H. destruct H as [Hh Hl].
  apply negb_true_iff in Hh, Hl.
  destruct s as [|c r]; [reflexivity|]. cbn [hd] in Hh.
  unfold strip. rewrite lstrip_nonspace by exact Hh.
  unfold rstrip.
  destruct (rev (c :: r)) as [|d q] eqn:Hr.
  - apply (f_equal (@List.length N)) in Hr. rewrite length_rev in Hr. discriminate.
  - assert (Hd : last (c :: r) 0 = d).
    { rewrite <- (rev_involutive (c :: r)), Hr. cbn [rev]. apply last_last. }
    rewrite Hd in Hl. rewrite lstrip_nonspace by exact Hl.
    rewrite <- Hr. apply rev_involutive.
Qed.

(** ** The recorded service *)

Section RecordingFacts.

Context {py : interpreter}.
Variable service : Type.
Variable generate_content :
  prompt -> service -> outcome (option pystr) * service.

Lemma gemini_call_recording p st l :
  gemini_call (recorded service) (recording service generate_content) p (st, l)
  = (fst (gemini_call service generate_content p st),
     (snd (gemini_call service generate_content p st), l ++ [p])).
Proof.
  unfold gemini_call, bind, recording, ret. cbn [fst snd].
  destruct (generate_content p st) as [[t|e] st']; reflexivity.
Qed.

Lemma plan_recording question st l :
  plan (recorded service) (recording service generate_content) question (st, l)
  = (fst (plan service generate_content question st),
     (snd (plan service generate_content question st),
      l ++ [plan_prompt question])).
Proof.
  unfold plan, bind. rewrite gemini_call_recording.
  destruct (gemini_call service generate_content (plan_prompt question) st)
    as [[t|e] st']; reflexivity.
Qed.

Lemma execute_recording question plan_text st l :
  execute (recorded service) (recording service generate_content)
    question plan_text (st, l)
  = (fst (execute service generate_content question plan_text st),
     (snd (execute service generate_content question plan_text st),
      l ++ [execute_prompt question plan_text])).
Proof.
  unfold execute, bind. rewrite gemini_call_recording.
  destruct (gemini_call service generate_content
              (execute_prompt question plan_text) st)
    as [[t|e] st']; reflexivity.
Qed.

Lemma verify_llm_recording question ke st l :
  verify_llm (recorded service) (recording service generate_content)
    question (PyDict ke) (st, l)
  = (fst (verify_llm service generate_content question (PyDict ke) st),
     (snd (verify_llm service generate_content question (PyDict ke) st),
      l ++ [verify_prompt question
              (dict_get ke (lit "proposed_answer") (PyStr []))
              (dict_get ke (lit "explanation") (PyStr []))])).
Proof.
  unfold verify_llm, bind, lift. cbn [py_get]. rewrite gemini_call_recording.
  destruct (gemini_call service generate_content _ st)
    as [[t|e] st']; reflexivity.
Qed.

Lemma verify_llm_not_dict (svc : Type)
  (gc : prompt -> svc -> outcome (option pystr) * svc) question x st :
  is_dict x = false ->
  verify_llm svc gc question x st = (Raise AttributeError, st).
Proof. destruct x; try discriminate; reflexivity. Qed.

(** One pass on the recorded service: the outcome and the state of the
    service are those of the pass on the service itself, at most three
    prompts are sent, and a pass that runs to its end has sent its
    three. *)
Lemma attempt_body_recording question attempt md st l :
  exists sent,
    attempt_body (recorded service) (recording service generate_content)
      question attempt md (st, l)
    = (fst (attempt_body service generate_content question attempt md st),
       (snd (attempt_body service generate_content question attempt md st),
        l ++ sent))
    /\ (List.length sent <= 3)%nat
    /\ forall a,
        fst (attempt_body service generate_content question attempt md st) = Ok a ->
        sent = prompts_of_pass question a.
Proof.
  unfold attempt_body, bind, lift, ret.
  rewrite plan_recording.
  destruct (plan service generate_content question st) as [[p|e] st1];
    cbn [fst snd].
  2:{ eexists. split; [reflexivity|]. split; [cbn; lia | discriminate]. }
  rewrite execute_recording.
  destruct (execute service generate_content question p st1) as [[x|e] st2];
    cbn [fst snd].
  2:{ exists [plan_prompt question; execute_prompt question p].
      rewrite <- app_assoc. split; [reflexivity|].
      split; [cbn; lia | discriminate]. }
  destruct (is_dict x) eqn:Hx.
  2:{ rewrite !verify_llm_not_dict by exact Hx.
      exists [plan_prompt question; execute_prompt question p].
      rewrite <- app_assoc. split; [reflexivity|].
      split; [cbn; lia | discriminate]. }
  destruct x as [| | | | | |ke]; try discriminate.
  rewrite verify_llm_recording.
  destruct (verify_llm service generate_content question (PyDict ke) st2)
    as [[v|e] st3]; cbn [fst snd].
  2:{ eexists. rewrite <- !app_assoc. split; [reflexivity|].
      split; [cbn; lia | discriminate]. }
  rewrite <- !app_assoc. cbn [app].
  exists [plan_prompt question; execute_prompt question p;
          verify_prompt question
            (dict_get ke (lit "proposed_answer") (PyStr []))
            (dict_get ke (lit "explanation") (PyStr []))].
  destruct (py_get v (lit "checks") (PyList [])) as [c|e];
    [|split; [reflexivity | split; [cbn; lia | discriminate]]].
  destruct (list_extend _ c) as [cs|e];
    [|split; [reflexivity | split; [cbn; lia | discriminate]]].
  destruct (py_get v (lit "passed") (PyBool false)) as [b|e];
    [|split; [reflexivity | split; [cbn; lia | discriminate]]].
  destruct (py_truthy b).
  - destruct (py_get (PyDict ke) (lit "proposed_answer") (PyStr [])) as [pa|e];
      [|split; [reflexivity | split; [cbn; lia | discriminate]]].
    destruct (summarize_short (PyDict ke)) as [r|e];
      [|split; [reflexivity | split; [cbn; lia | discriminate]]].
    cbn [fst snd]. split; [reflexivity|]. split; [cbn; lia|].
    intros a H. inversion H; subst. reflexivity.
  - cbn [fst snd]. split; [reflexivity|]. split; [cbn; lia|].
    intros a H. inversion H; subst. reflexivity.
Qed.

Lemma attempts_of_recording question attempts :
  forall md st l,
  exists sent,
    attempts_of (recorded service) (recording service generate_content)
      question attempts md (st, l)
    = (fst (attempts_of service generate_content question attempts md st),
       (snd (attempts_of service generate_content question attempts md st),
        l ++ sent))
    /\ (List.length sent <= 3 * List.length attempts)%nat
    /\ forall log,
        fst (attempts_of service generate_content question attempts md st) = Ok log ->
        sent = flat_map (prompts_of_pass question) log.
Proof.
  induction attempts as [|attempt rest IH]; intros md st l.
  - exists []. cbn. rewrite app_nil_r. split; [reflexivity|].
    split; [lia|]. intros log H. inversion H. reflexivity.
  - cbn [attempts_of]. unfold bind.
    destruct (attempt_body_recording question attempt md st l)
      as (s1 & -> & Hn1 & Hs1).
    destruct (attempt_body service generate_content question attempt md st)
      as [[a|e] st1]; cbn [fst snd] in *.
    2:{ exists s1. split; [reflexivity|]. split; [cbn; lia | discriminate]. }
    specialize (Hs1 a eq_refl). subst s1.
    destruct (att_return a) as [r|].
    + exists (prompts_of_pass question a). unfold ret. cbn [fst snd].
      split; [reflexivity|]. split; [cbn; lia|].
      intros log H. inversion H. cbn. reflexivity.
    + destruct (IH (att_metadata a) st1 (l ++ prompts_of_pass question a))
        as (s2 & -> & Hn2 & Hs2).
      destruct (attempts_of service generate_content question rest
                  (att_metadata a) st1) as [[more|e] st2]; cbn [fst snd] in *.
      * exists (prompts_of_pass question a ++ s2). unfold ret.
        rewrite <- app_assoc. split; [reflexivity|].
        split; [rewrite length_app; cbn in *; lia|].
        intros log H. inversion H. cbn [flat_map].
        rewrite (Hs2 more eq_refl). reflexivity.
      * exists (prompts_of_pass question a ++ s2).
        rewrite <- app_assoc. split; [reflexivity|].
        split; [rewrite length_app; cbn in *; lia | discriminate].
Qed.

End RecordingFacts.

(** ** The plan of a pass *)

Section PlanFacts.

Context {py : interpreter}.
Variable service : Type.
Variable generate_content :
  prompt -> service -> outcome (option pystr) * service.

(** The plan a pass keeps is the stripped answer of its first call. *)
Lemma attempt_body_plan question attempt md st a st' :
  attempt_body service generate_content question attempt md st = (Ok a, st') ->
  exists text st1,
    gemini_call service generate_content (plan_prompt question) st
    = (Ok text, st1) /\
    att_plan a = strip text.
Proof.
  unfold attempt_body. cbv zeta. intros H.
  apply bind_Ok in H. destruct H as (p & st1 & Hplan & H).
  unfold plan in Hplan. apply bind_Ok in Hplan.
  destruct Hplan as (text & st0 & Hcall & Hret).
  apply ret_Ok in Hret. destruct Hret as [-> ->].
  exists text, st0. split; [exact Hcall|].
  monad_inv. destruct (py_truthy _) in H; monad_inv; reflexivity.
Qed.

Lemma attempts_of_plans question attempts :
  forall md st log st',
    attempts_of service generate_content question attempts md st = (Ok log, st') ->
    Forall (fun a => trimmed (att_plan a) = true) log.
Proof.
  induction attempts as [|attempt rest IH]; intros md st log st' H.
  - cbn in H. inversion H. constructor.
  - cbn [attempts_of] in H. monad_inv.
    destruct (attempt_body_plan _ _ _ _ _ _ Hc) as (text & st1 & _ & Hp).
    assert (Ht : trimmed (att_plan v) = true)
      by (rewrite Hp; apply strip_trimmed).
    destruct (att_return v) as [r|]; monad_inv.
    + constructor; [exact Ht | constructor].
    + constructor; [exact Ht | eapply IH; eauto].
Qed.

End PlanFacts.

(** ** Passes of the scripted service that raise *)

Section ScriptedEdges.

Context {py : interpreter}.

Lemma attempt_body_planner_fails question attempt md e sc :
  attempt_body script scripted question attempt md (Raise e :: sc)
  = (Raise e, sc).
Proof. reflexivity. Qed.

Lemma attempt_body_executor_fails question attempt md p e sc :
  attempt_body script scripted question attempt md (Ok p :: Raise e :: sc)
  = (Raise e, sc).
Proof. reflexivity. Qed.

Lemma attempt_body_verifier_fails question attempt md p ex ke e sc :
  decode ex = Ok (PyDict ke) ->
  attempt_body script scripted question attempt md
    (Ok p :: Ok ex :: Raise e :: sc)
  = (Raise e, sc).
Proof. intros H. run_pass. rewrite H. reflexivity. Qed.

Lemma is_dict_false x : is_dict x = false -> forall ke, x <> PyDict ke.
Proof. intros H ke ->. discriminate. Qed.

Lemma attempt_body_verdict_not_dict question attempt md p e v sc ke x :
  decode e = Ok (PyDict ke) -> decode v = Ok x -> is_dict x = false ->
  attempt_body script scripted question attempt md (pass p e v ++ sc)
  = (Raise AttributeError, sc).
Proof.
  intros H1 H2 Hx. run_pass. rewrite H1. cbn [py_get]. rewrite H2.
  destruct x; try discriminate; reflexivity.
Qed.

Lemma attempt_body_checks_not_iterable question attempt md p e v sc ke kv :
  decode e = Ok (PyDict ke) -> decode v = Ok (PyDict kv) ->
  not_iterable (dict_get kv (lit "checks") (PyList [])) = true ->
  attempt_body script scripted question attempt md (pass p e v ++ sc)
  = (Raise TypeError, sc).
Proof.
  intros H1 H2 Hc. run_pass. rewrite H1. cbn [py_get]. rewrite H2.
  cbn [py_get]. unfold list_extend.
  destruct (dict_get kv (lit "checks") (PyList [])); try discriminate;
    reflexivity.
Qed.

(** The run after a number of rejected passes that leaves a value of
    [attempt] or more: the loop goes on with the next value, on what is
    left of the script. *)
Lemma run_after_rejections question max_retries entries per sc :
  (Z.of_nat (List.length entries) <= max_retries)%Z ->
  Forall2 rejected entries per ->
  exists rest md,
    run question max_retries (script_of entries ++ sc)
    = solve_loop script scripted question
        (Z.of_nat (List.length entries) :: rest) md sc
    /\
    solve_attempts_started script scripted question max_retries
      (script_of entries ++ sc)
    = (List.length entries
       + attempts_started script scripted question
           (Z.of_nat (List.length entries) :: rest) md sc)%nat.
Proof.
  intros Hk Hall. unfold run, solve, solve_attempts_started.
  assert (Hlen : (List.length entries <= List.length (py_range (max_retries + 1)))%nat)
    by (rewrite py_range_length; lia).
  rewrite (solve_loop_all_rejected _ _ per) by assumption.
  rewrite (attempts_started_all_rejected _ _ per) by assumption.
  destruct (skipn_py_range_cons (List.length entries) (max_retries + 1))
    as [rest ->]; [lia|].
  eexists; eexists. split; reflexivity.
Qed.

End ScriptedEdges.

(** ** A value followed by any text *)

(** Rewrites with a fact about [_ ++ t] where the goal has the
    concatenation computed. *)
Ltac rew_app L :=
  let E := fresh "E" in
  pose proof L as E; cbn [app] in E; rewrite E; clear E.

Lemma startswith_app p :
  forall s t, startswith p s = true -> startswith p (s ++ t) = true.
Proof.
  induction p as [|x p IH]; intros s t H; [reflexivity|].
  destruct s as [|y s]; [discriminate|]. cbn in *.
  apply andb_prop in H. destruct H as [-> H]. cbn. auto.
Qed.

Lemma span_digits_app_rest s t :
  forall d x r,
    span_digits s = (d, x :: r) -> span_digits (s ++ t) = (d, x :: r ++ t).
Proof.
  induction s as [|c s IH]; intros d x r H; cbn in *; [discriminate|].
  destruct (is_digit c) eqn:Hc.
  - destruct (span_digits s) as [d0 r0] eqn:E. inversion H; subst.
    rewrite (IH _ _ _ eq_refl). reflexivity.
  - inversion H; subst. reflexivity.
Qed.

Lemma match_sign_app_rest s t neg x r :
  match_sign s = (neg, x :: r) -> match_sign (s ++ t) = (neg, x :: r ++ t).
Proof.
  destruct s as [|c s]; cbn; [discriminate|].
  destruct (c =? 45); intros H; inversion H; subst; reflexivity.
Qed.

Lemma match_int_app_rest s t d x r :
  match_int s = Some (d, x :: r) -> match_int (s ++ t) = Some (d, x :: r ++ t).
Proof.
  destruct s as [|c s]; cbn; [discriminate|].
  destruct (c =? 48); [intros H; inversion H; subst; reflexivity|].
  destruct (is_digit c); [|discriminate].
  destruct (span_digits s) as [d0 r0] eqn:E. intros H. inversion H; subst.
  rewrite (span_digits_app_rest _ t _ _ _ E). reflexivity.
Qed.

Lemma match_frac_app_rest s t d x r :
  match_frac s = Some (d, x :: r) -> match_frac (s ++ t) = Some (d, x :: r ++ t).
Proof.
  destruct s as [|c s]; cbn; [discriminate|].
  destruct (c =? 46); [|discriminate].
  destruct (span_digits s) as [d0 r0] eqn:E.
  destruct d0 as [|y d0]; [discriminate|]. intros H. inversion H; subst.
  rewrite (span_digits_app_rest _ t _ _ _ E). reflexivity.
Qed.

Lemma match_exp_sign_app_rest s t neg x r :
  match_exp_sign s = (neg, x :: r) ->
  match_exp_sign (s ++ t) = (neg, x :: r ++ t).
Proof.
  destruct s as [|c s]; cbn; [discriminate|].
  destruct (c =? 45); [intros H; inversion H; subst; reflexivity|].
  destruct (c =? 43); intros H; inversion H; subst; reflexivity.
Qed.

Lemma span_digits_some s y d r : span_digits s = (y :: d, r) -> s <> [].
Proof. destruct s; [discriminate | discriminate]. Qed.

Lemma match_exp_app_rest s t z x r :
  match_exp s = Some (z, x :: r) -> match_exp (s ++ t) = Some (z, x :: r ++ t).
Proof.
  destruct s as [|c s]; cbn; [discriminate|].
  destruct ((c =? 101) || (c =? 69)); [|discriminate].
  destruct (match_exp_sign s) as [neg s2] eqn:E1.
  destruct (span_digits s2) as [d0 r0] eqn:E2.
  destruct d0 as [|y d0]; [discriminate|]. intros H. inversion H; subst.
  destruct s2 as [|y2 s2]; [discriminate|].
  rew_app (match_exp_sign_app_rest _ t _ _ _ E1).
  rew_app (span_digits_app_rest _ t _ _ _ E2). reflexivity.
Qed.

Lemma delimited_no_frac c r t :
  delimited (c :: r) = true -> match_frac ((c :: r) ++ t) = None.
Proof.
  intros H. apply delimited_cases in H.
  destruct H as [-> | [-> | [-> | [-> | [-> | [-> | ->]]]]]]; reflexivity.
Qed.

Lemma delimited_no_exp c r t :
  delimited (c :: r) = true -> match_exp ((c :: r) ++ t) = None.
Proof.
  intros H. apply delimited_cases in H.
  destruct H as [-> | [-> | [-> | [-> | [-> | [-> | ->]]]]]]; reflexivity.
Qed.

Lemma match_frac_nonempty s d r : match_frac s = Some (d, r) -> s <> [].
Proof. destruct s; discriminate. Qed.

Lemma match_exp_nonempty s z r : match_exp s = Some (z, r) -> s <> [].
Proof. destruct s; discriminate. Qed.

(** A number that is followed by something that ends it is read the same
    whatever comes after. *)
Lemma match_number_app_rest s t v c r :
  match_number s = Some (v, c :: r) -> delimited (c :: r) = true ->
  match_number (s ++ t) = Some (v, c :: r ++ t).
Proof.
  unfold match_number. intros H Hd.
  destruct (match_sign s) as [neg s1] eqn:E1.
  destruct (match_int s1) as [[ip s2]|] eqn:E2; [|discriminate].
  destruct s1 as [|x1 s1]; [discriminate|].
  rew_app (match_sign_app_rest _ t _ _ _ E1).
  destruct (match_frac s2) as [[fd s3]|] eqn:E3.
  - destruct s2 as [|x2 s2]; [discriminate|].
    rew_app (match_int_app_rest _ t _ _ _ E2).
    destruct (match_exp s3) as [[ex s4]|] eqn:E4.
    + inversion H; subst v s4.
      destruct s3 as [|x3 s3]; [discriminate|].
      rew_app (match_frac_app_rest _ t _ _ _ E3).
      rew_app (match_exp_app_rest _ t _ _ _ E4). reflexivity.
    + inversion H; subst v s3.
      rew_app (match_frac_app_rest _ t _ _ _ E3).
      change (c :: r ++ t) with ((c :: r) ++ t).
      rewrite (delimited_no_exp _ _ t Hd). reflexivity.
  - destruct (match_exp s2) as [[ex s4]|] eqn:E4.
    + inversion H; subst v s4.
      destruct s2 as [|x2 s2]; [discriminate|].
      rew_app (match_int_app_rest _ t _ _ _ E2).
      assert (E3' : match_frac ((x2 :: s2) ++ t) = None).
      { cbn in E4 |- *. destruct (x2 =? 46) eqn:Hx; [|reflexivity].
        apply N.eqb_eq in Hx. subst x2. discriminate. }
      cbn [app] in E3'. rewrite E3'.
      rew_app (match_exp_app_rest _ t _ _ _ E4). reflexivity.
    + inversion H; subst v s2.
      rew_app (match_int_app_rest _ t _ _ _ E2).
      change (c :: r ++ t) with ((c :: r) ++ t).
      rewrite (delimited_no_frac _ _ t Hd), (delimited_no_exp _ _ t Hd).
      reflexivity.
Qed.

Lemma startswith_cons_inv x p s :
  startswith (x :: p) s = true ->
  exists s', s = x :: s' /\ startswith p s' = true.
Proof.
  destruct s as [|y s]; [discriminate|]. cbn [startswith].
  intros H. apply andb_prop in H. destruct H as [Hx H].
  apply N.eqb_eq in Hx. subst y. eauto.
Qed.

Lemma match_constant_app_any s t v r :
  match_constant s = Some (v, r) ->
  match_constant (s ++ t) = Some (v, r ++ t).
Proof.
  unfold match_constant. intros H.
  destruct (startswith (lit "null") s) eqn:E1.
  { rewrite (startswith_app _ _ t E1). inversion H; subst.
    do 2 f_equal. exact (startswith_skipn_app (lit "null") s t E1). }
  destruct (startswith (lit "true") s) eqn:E2.
  { assert (E1' : startswith (lit "null") (s ++ t) = false).
    { change (lit "true") with (116 :: lit "rue") in E2.
      destruct (startswith_cons_inv _ _ _ E2) as (s' & -> & _). reflexivity. }
    rewrite E1', (startswith_app _ _ t E2). inversion H; subst.
    do 2 f_equal. exact (startswith_skipn_app (lit "true") s t E2). }
  destruct (startswith (lit "false") s) eqn:E3; [|discriminate].
  assert (E1' : startswith (lit "null") (s ++ t) = false
                /\ startswith (lit "true") (s ++ t) = false).
  { change (lit "false") with (102 :: lit "alse") in E3.
    destruct (startswith_cons_inv _ _ _ E3) as (s' & -> & _).
    split; reflexivity. }
  destruct E1' as [-> ->]. rewrite (startswith_app _ _ t E3).
  inversion H; subst.
  do 2 f_equal. exact (startswith_skipn_app (lit "false") s t E3).
Qed.

Lemma match_nonfinite_app_any s t v r :
  match_nonfinite s = Some (v, r) ->
  match_constant (s ++ t) = None /\
  match_number (s ++ t) = None /\
  match_nonfinite (s ++ t) = Some (v, r ++ t).
Proof.
  unfold match_nonfinite. intros H.
  destruct (startswith (lit "NaN") s) eqn:E1.
  { pose proof (startswith_app _ _ t E1) as E1'.
    pose proof (startswith_skipn_app (lit "NaN") s t E1) as Hk.
    change (lit "NaN") with (78 :: lit "aN") in E1.
    destruct (startswith_cons_inv _ _ _ E1) as (s' & -> & _).
    rewrite E1'. inversion H; subst.
    repeat split. do 2 f_equal. exact Hk. }
  destruct (startswith (lit "Infinity") s) eqn:E2.
  { pose proof (startswith_app _ _ t E2) as E2'.
    pose proof (startswith_skipn_app (lit "Infinity") s t E2) as Hk.
    change (lit "Infinity") with (73 :: lit "nfinity") in E2.
    destruct (startswith_cons_inv _ _ _ E2) as (s' & -> & _).
    assert (E1' : startswith (lit "NaN") ((73 :: s') ++ t) = false)
      by reflexivity.
    rewrite E1', E2'. inversion H; subst.
    repeat split. do 2 f_equal. exact Hk. }
  destruct (startswith (lit "-Infinity") s) eqn:E3; [|discriminate].
  pose proof (startswith_app _ _ t E3) as E3'.
  pose proof (startswith_skipn_app (lit "-Infinity") s t E3) as Hk.
  change (lit "-Infinity") with (45 :: 73 :: lit "nfinity") in E3.
  destruct (startswith_cons_inv _ _ _ E3) as (s' & -> & E3a).
  destruct (startswith_cons_inv _ _ _ E3a) as (s'' & -> & _).
  assert (E1' : startswith (lit "NaN") ((45 :: 73 :: s'') ++ t) = false)
    by reflexivity.
  assert (E2' : startswith (lit "Infinity") ((45 :: 73 :: s'') ++ t) = false)
    by reflexivity.
  rewrite E1', E2', E3'. inversion H; subst.
  repeat split. do 2 f_equal. exact Hk.
Qed.

Lemma skip_ws_nonempty_rest r e r4 : skip_ws r = e :: r4 -> r <> [].
Proof. destruct r; discriminate. Qed.

Lemma int_digits_app_rest s t z x r :
  match_number s = Some (PyInt z, x :: r) ->
  int_digits (s ++ t) = int_digits s.
Proof.
  unfold match_number, int_digits. intros H.
  destruct (match_sign s) as [neg s1] eqn:E1.
  destruct (match_int s1) as [[ip s2]|] eqn:E2; [|discriminate].
  destruct s1 as [|x1 s1]; [discriminate|].
  rew_app (match_sign_app_rest _ t _ _ _ E1). cbn [snd].
  destruct (match_frac s2) as [[fd s3]|] eqn:E3.
  { destruct (match_exp s3) as [[ex s4]|]; discriminate. }
  destruct (match_exp s2) as [[ex s4]|] eqn:E4; [discriminate|].
  inversion H; subst s2.
  rew_app (match_int_app_rest _ t _ _ _ E2). rewrite E2. reflexivity.
Qed.

Section DecoderFacts.

Context {py : interpreter}.

(** A value decoded from a text is decoded from the text followed by
    anything, when the value ends with a closing quote, bracket or brace,
    or is followed in the text by something that ends it. *)
Lemma decoder_app t :
  forall fuel,
    (forall room s v r fuel',
        scan_once fuel room s = Parsed v r ->
        closed v = true \/ (r <> [] /\ delimited r = true) ->
        (fuel <= fuel')%nat ->
        scan_once fuel' room (s ++ t) = Parsed v (r ++ t))
    /\
    (forall room s d v r fuel',
        object_items fuel room s d = Parsed v r -> (fuel <= fuel')%nat ->
        object_items fuel' room (s ++ t) d = Parsed v (r ++ t))
    /\
    (forall room s acc v r fuel',
        array_items fuel room s acc = Parsed v r -> (fuel <= fuel')%nat ->
        array_items fuel' room (s ++ t) acc = Parsed v (r ++ t)).
Proof.
  induction fuel as [|fuel (IHs & IHo & IHa)].
  - repeat split; intros; discriminate.
  - split; [|split].
    + intros room s v r fuel' H Hc Hle.
      destruct fuel' as [|fuel']; [lia|]. apply le_S_n in Hle.
      destruct s as [|c s']; [discriminate|].
      cbn [scan_once app] in *.
      destruct (c =? 34).
      { destruct (scanstring s' [] None) as [k r0| |] eqn:E;
          [|exfalso; exact (refused_not_parsed _ _ _ H)|discriminate].
        rewrite (scanstring_app _ t _ _ _ _ E). inversion H; reflexivity. }
      destruct (c =? 123).
      { destruct room as [|room']; [discriminate|].
        destruct (skip_ws s') as [|d r0] eqn:Ew; [exfalso; exact (refused_not_parsed _ _ _ H)|].
        rewrite (skip_ws_app _ t _ _ Ew).
        destruct (d =? 125); [inversion H; reflexivity|].
        destruct (d =? 34); [|exfalso; exact (refused_not_parsed _ _ _ H)].
        apply IHo; assumption. }
      destruct (c =? 91).
      { destruct room as [|room']; [discriminate|].
        destruct (skip_ws s') as [|d r0] eqn:Ew; [discriminate|].
        rewrite (skip_ws_app _ t _ _ Ew).
        destruct (d =? 93); [inversion H; reflexivity|].
        apply (IHa room' (d :: r0)); assumption. }
      change (c :: s' ++ t) with ((c :: s') ++ t).
      destruct (match_constant (c :: s')) as [[v0 r0]|] eqn:E1.
      { rewrite (match_constant_app_any _ t _ _ E1). inversion H; reflexivity. }
      destruct (match_number (c :: s')) as [[v0 r0]|] eqn:E2.
      { assert (Hv0 : v0 = v /\ r0 = r).
        { destruct v0; try (inversion H; split; reflexivity).
          destruct (over_int_limit _); [discriminate|].
          inversion H; split; reflexivity. }
        destruct Hv0 as [-> ->].
        assert (Hk : match_constant (c :: s' ++ t) = None).
        { apply match_constant_not_number.
          exact (match_number_first _ _ _ _ E2). }
        cbn [app]. rewrite Hk.
        destruct Hc as [Hc | [Hr Hd]].
        { exfalso. unfold match_number in E2.
          branches E2; try discriminate; inversion E2; subst; discriminate. }
        destruct r as [|x r]; [congruence|].
        rew_app (match_number_app_rest _ t _ _ _ E2 Hd).
        destruct v; try reflexivity.
        rew_app (int_digits_app_rest _ t _ _ _ E2).
        destruct (over_int_limit _); [discriminate | reflexivity]. }
      destruct (match_nonfinite (c :: s')) as [[v0 r0]|] eqn:E3;
        [|discriminate].
      destruct (match_nonfinite_app_any _ t _ _ E3) as (-> & -> & ->).
      destruct room; [discriminate|].
      inversion H; reflexivity.
    + intros room s d v r fuel' H Hle.
      destruct fuel' as [|fuel']; [lia|]. apply le_S_n in Hle.
      cbn [object_items] in *.
      destruct (scanstring s [] None) as [key r1| |] eqn:Ek;
        [|exfalso; exact (refused_not_parsed _ _ _ H)|discriminate].
      rewrite (scanstring_app _ t _ _ _ _ Ek).
      destruct (skip_ws r1) as [|c r2] eqn:Ew1; [exfalso; exact (refused_not_parsed _ _ _ H)|].
      rewrite (skip_ws_app _ t _ _ Ew1).
      destruct (c =? 58); [|exfalso; exact (refused_not_parsed _ _ _ H)].
      destruct (scan_once fuel room (skip_ws r2)) as [v0 r3| |] eqn:Ev;
        try discriminate.
      assert (Hne : exists x y, skip_ws r2 = x :: y).
      { destruct (skip_ws r2) as [|x y]; [|eauto].
        exfalso. exact (scan_once_nil _ _ _ _ Ev). }
      destruct Hne as (x & y & Ew2).
      rewrite (skip_ws_app _ t _ _ Ew2). rewrite Ew2 in Ev.
      destruct (skip_ws r3) as [|e r4] eqn:Ew3; [exfalso; exact (refused_not_parsed _ _ _ H)|].
      assert (Hd3 : r3 <> [] /\ delimited r3 = true).
      { split; [eapply skip_ws_nonempty_rest; exact Ew3|].
        apply (skip_ws_delimited _ _ _ Ew3).
        destruct (e =? 125) eqn:H1; [apply N.eqb_eq in H1; auto|].
        destruct (e =? 44) eqn:H2; [apply N.eqb_eq in H2; auto|].
        exfalso; exact (refused_not_parsed _ _ _ H). }
      pose proof (IHs _ _ _ _ fuel' Ev (or_intror Hd3) Hle) as Hv.
      cbn [app] in Hv. rewrite Hv.
      rewrite (skip_ws_app _ t _ _ Ew3).
      destruct (e =? 125); [inversion H; reflexivity|].
      destruct (e =? 44); [|exfalso; exact (refused_not_parsed _ _ _ H)].
      destruct (skip_ws r4) as [|q r5] eqn:Ew4; [exfalso; exact (refused_not_parsed _ _ _ H)|].
      rewrite (skip_ws_app _ t _ _ Ew4).
      destruct (q =? 34); [|exfalso; exact (refused_not_parsed _ _ _ H)].
      apply IHo; assumption.
    + intros room s acc v r fuel' H Hle.
      destruct fuel' as [|fuel']; [lia|]. apply le_S_n in Hle.
      cbn [array_items] in *.
      destruct (scan_once fuel room s) as [v0 r1| |] eqn:Ev; try discriminate.
      destruct (skip_ws r1) as [|e r2] eqn:Ew1; [exfalso; exact (refused_not_parsed _ _ _ H)|].
      assert (Hd1 : r1 <> [] /\ delimited r1 = true).
      { split; [eapply skip_ws_nonempty_rest; exact Ew1|].
        apply (skip_ws_delimited _ _ _ Ew1).
        destruct (e =? 93) eqn:H1; [apply N.eqb_eq in H1; auto|].
        destruct (e =? 44) eqn:H2; [apply N.eqb_eq in H2; auto|].
        exfalso; exact (refused_not_parsed _ _ _ H). }
      rewrite (IHs _ _ _ _ fuel' Ev (or_intror Hd1) Hle).
      rewrite (skip_ws_app _ t _ _ Ew1).
      destruct (e =? 93); [inversion H; reflexivity|].
      destruct (e =? 44); [|exfalso; exact (refused_not_parsed _ _ _ H)].
      assert (Hne : exists x y, skip_ws r2 = x :: y).
      { destruct (skip_ws r2) as [|x y]; [|eauto].
        exfalso. exact (array_items_nil _ _ _ _ _ H). }
      destruct Hne as (x & y & Ew2).
      rewrite (skip_ws_app _ t _ _ Ew2). rewrite Ew2 in H.
      apply (IHa room (x :: y)); assumption.
Qed.

(** ** Texts the decoder refuses *)

Lemma skip_ws_nil_all_ws r : skip_ws r = [] -> all_ws r = true.
Proof.
  induction r as [|c r IH]; cbn; [reflexivity|].
  destruct (json_ws c); [exact IH | discriminate].
Qed.

Lemma json_loads_nil : json_loads [] = Raise JSONDecodeError.
Proof. reflexivity. Qed.

(** Anything but whitespace after a value that ends with a closing quote,
    bracket or brace is refused. *)
Lemma json_loads_trailing s t v :
  json_loads s = Ok v -> closed v = true -> skip_ws t <> [] ->
  json_loads (s ++ t) = Raise JSONDecodeError.
Proof.
  unfold json_loads. intros H Hc Ht.
  destruct (startswith [65279] s) eqn:Hbom; [discriminate|].
  destruct (scan_once (S (2 * List.length s)) decoder_room (skip_ws s))
    as [v0 r| |] eqn:Ev; try discriminate.
  destruct (skip_ws r) eqn:Er; [|discriminate].
  inversion H; subst v0; clear H.
  destruct (skip_ws s) as [|x y] eqn:Ews;
    [exfalso; exact (scan_once_nil _ _ _ _ Ev)|].
  assert (Hbom' : startswith [65279] (s ++ t) = false).
  { destruct s as [|c s']; [discriminate|]. exact Hbom. }
  rewrite Hbom', (skip_ws_app _ t _ _ Ews).
  destruct (decoder_app t (S (2 * List.length s))) as [Hs _].
  pose proof (Hs decoder_room (x :: y) v r (S (2 * List.length (s ++ t))) Ev
                (or_introl Hc)) as Hv.
  cbn [app] in Hv. rewrite Hv by (rewrite length_app; lia).
  rewrite (skip_ws_prefix _ _ (skip_ws_nil_all_ws _ Er)).
  destruct (skip_ws t); [congruence | reflexivity].
Qed.

Lemma starts_value_false c :
  starts_value c = false ->
  c <> 34 /\ c <> 123 /\ c <> 91 /\ c <> 45 /\ is_digit c = false /\
  c <> 110 /\ c <> 116 /\ c <> 102 /\ c <> 78 /\ c <> 73.
Proof.
  unfold starts_value. intros H.
  repeat (apply orb_false_elim in H; destruct H as [H ?]).
  repeat match goal with
         | G : (_ =? _) = false |- _ => apply N.eqb_neq in G
         end.
  repeat split; assumption.
Qed.

Lemma startswith_other_head x p c s :
  c <> x -> startswith (x :: p) (c :: s) = false.
Proof.
  intros H. cbn [startswith].
  destruct (x =? c) eqn:E; [|reflexivity].
  apply N.eqb_eq in E. congruence.
Qed.

(** A text whose first code point cannot start a value is refused. *)
Lemma json_loads_bad_start c r :
  json_ws c = false -> starts_value c = false ->
  json_loads (c :: r) = Raise JSONDecodeError.
Proof.
  intros Hw Hs. apply starts_value_false in Hs.
  destruct Hs as (H34 & H123 & H91 & H45 & Hd & H110 & H116 & H102 & H78 & H73).
  unfold json_loads. destruct (startswith [65279] (c :: r)); [reflexivity|].
  cbn [skip_ws]. rewrite Hw. cbn [scan_once].
  apply N.eqb_neq in H34, H123, H91. rewrite H34, H123, H91.
  assert (E1 : match_constant (c :: r) = None).
  { unfold match_constant.
    change (lit "null") with (110 :: lit "ull").
    change (lit "true") with (116 :: lit "rue").
    change (lit "false") with (102 :: lit "alse").
    rewrite !startswith_other_head by assumption. reflexivity. }
  assert (E2 : match_number (c :: r) = None).
  { unfold match_number, match_sign, match_int.
    apply N.eqb_neq in H45. rewrite H45.
    destruct (c =? 48) eqn:E0.
    - apply N.eqb_eq in E0. subst c. discriminate.
    - rewrite Hd. reflexivity. }
  assert (E3 : match_nonfinite (c :: r) = None).
  { unfold match_nonfinite.
    change (lit "NaN") with (78 :: lit "aN").
    change (lit "Infinity") with (73 :: lit "nfinity").
    change (lit "-Infinity") with (45 :: lit "Infinity").
    rewrite !startswith_other_head by assumption. reflexivity. }
  rewrite E1, E2, E3. reflexivity.
Qed.

End DecoderFacts.

(** ** Fence markers *)

Lemma replace_cons_other old new c s :
  startswith old (c :: s) = false ->
  replace old new (c :: s) = c :: replace old new s.
Proof. unfold replace. cbn [replace_from]. intros ->. reflexivity. Qed.

Lemma strip_fences_cons_other c s :
  c <> 96 -> strip_fences (c :: s) = c :: strip_fences s.
Proof.
  intros Hc. unfold strip_fences.
  change (lit "```json") with (96 :: lit "``json").
  change (lit "```") with (96 :: lit "``").
  rewrite !replace_cons_other by (apply startswith_other_head; exact Hc).
  reflexivity.
Qed.

Lemma strip_fences_clean s : occurs 96 s = false -> strip_fences s = s.
Proof.
  intros H. unfold strip_fences.
  rewrite (replace_without_head (lit "```json") [] s)
    by (discriminate || exact H).
  apply replace_without_head; [discriminate | exact H].
Qed.

(** Where the text without the occurrences of three backquotes starts
    with a backquote, so does the text. *)
Lemma replace_backquotes_head s r :
  replace [96; 96; 96] [] s = 96 :: r ->
  exists s0, s = 96 :: s0 /\
             (startswith [96; 96; 96] s = false ->
              r = replace [96; 96; 96] [] s0).
Proof.
  destruct s as [|x s0]; [discriminate|].
  unfold replace. cbn [replace_from].
  destruct (startswith [96; 96; 96] (x :: s0)) eqn:E.
  - destruct (startswith_cons_inv _ _ _ E) as (s' & Hs & _).
    inversion Hs; subst. intros _. exists s'. split; [reflexivity|discriminate].
  - intros H. inversion H; subst. exists s0. split; [reflexivity|].
    intros _. reflexivity.
Qed.

(** No three backquotes in a row are left where their occurrences were
    replaced by nothing. *)
Lemma replace_backquotes_gone s :
  contains [96; 96; 96] (replace [96; 96; 96] [] s) = false.
Proof.
  induction s as [s IH] using (induction_ltof1 _ (@List.length N)).
  unfold ltof in IH.
  destruct s as [|c s']; [reflexivity|].
  unfold replace. cbn [replace_from].
  destruct (startswith [96; 96; 96] (c :: s')) eqn:E.
  - cbn [app List.length pred]. rewrite replace_from_skipn.
    apply IH. cbn [List.length].
    pose proof (skipn_le 2 s'). lia.
  - fold (replace [96; 96; 96] [] s').
    cbn [contains]. rewrite (IH s') by (cbn; lia). rewrite orb_false_r.
    destruct (startswith [96; 96; 96] (c :: replace [96; 96; 96] [] s'))
      eqn:E2; [|reflexivity].
    exfalso.
    destruct (startswith_cons_inv _ _ _ E2) as (r1 & H1 & E3).
    injection H1 as Hc Hr1. subst c.
    destruct (startswith_cons_inv _ _ _ E3) as (r2 & -> & E6).
    destruct (replace_backquotes_head _ _ Hr1) as (s0 & -> & Hk).
    destruct (startswith [96; 96; 96] (96 :: s0)) eqn:E4.
    + destruct (startswith_cons_inv _ _ _ E4) as (s1 & Hs1 & E5).
      injection Hs1 as <-.
      destruct (startswith_cons_inv _ _ _ E5) as (s2 & -> & _).
      discriminate E.
    + specialize (Hk eq_refl). subst r2.
      destruct (startswith_cons_inv _ _ _ E6) as (r3 & Hr3 & _).
      destruct (replace_backquotes_head _ _ Hr3) as (s1 & -> & _).
      discriminate E.
Qed.

Lemma startswith_app_left p q :
  forall s, startswith (p ++ q) s = true -> startswith p s = true.
Proof.
  induction p as [|x p IH]; intros s H; [reflexivity|].
  destruct s as [|y s]; [discriminate|]. cbn in *.
  apply andb_prop in H. destruct H as [-> H]. cbn. auto.
Qed.

Lemma contains_app_left p q s :
  contains p s = false -> contains (p ++ q) s = false.
Proof.
  induction s as [|c s IH]; cbn [contains]; intros H;
    apply orb_false_elim in H; destruct H as [H1 H2].
  - destruct (startswith (p ++ q) []) eqn:E; [|reflexivity].
    apply startswith_app_left in E. congruence.
  - rewrite (IH H2), orb_false_r.
    destruct (startswith (p ++ q) (c :: s)) eqn:E; [|reflexivity].
    apply startswith_app_left in E. congruence.
Qed.

Lemma all_ws_false_skip t : all_ws t = false -> skip_ws t <> [].
Proof.
  intros H E. apply skip_ws_nil_all_ws in E. congruence.
Qed.

Lemma not_isspace_not_ws c : py_isspace c = false -> json_ws c = false.
Proof.
  intros H. destruct (json_ws c) eqn:E; [|reflexivity].
  apply json_ws_isspace in E. congruence.
Qed.

Lemma decode_blank {py : interpreter} text :
  forallb py_isspace text = true -> decode text = Raise JSONDecodeError.
Proof.
  intros H. unfold decode, fence_stripped. rewrite strip_all_space by exact H.
  reflexivity.
Qed.

Lemma verify_llm_decodes {py : interpreter}
  (service : Type)
  (generate_content : prompt -> service -> outcome (option pystr) * service)
  (question : pystr) (ke : list (pystr * pyval)) (text : pystr)
  (st st1 : service) :
  gemini_call service generate_content
    (verify_prompt question
       (dict_get ke (lit "proposed_answer") (PyStr []))
       (dict_get ke (lit "explanation") (PyStr []))) st
  = (Ok text, st1) ->
  verify_llm service generate_content question (PyDict ke) st
  = (decode text, st1).
Proof.
  intros H. unfold verify_llm, bind, lift. cbn [py_get]. rewrite H.
  reflexivity.
Qed.

(** ** What the encoder writes, the decoder reads *)

Lemma pystr_eqb_eq a : forall b, pystr_eqb a b = true <-> a = b.
Proof.
  induction a as [|x a IH]; intros [|y b]; cbn; split; intros H;
    try reflexivity; try discriminate.
  - apply andb_prop in H. destruct H as [Hx H].
    apply N.eqb_eq in Hx. apply IH in H. congruence.
  - inversion H; subst. rewrite N.eqb_refl. cbn. apply IH. reflexivity.
Qed.

Lemma pystr_eqb_refl a : pystr_eqb a a = true.
Proof. apply pystr_eqb_eq. reflexivity. Qed.

Lemma pystr_eqb_sym a b : pystr_eqb a b = pystr_eqb b a.
Proof.
  destruct (pystr_eqb a b) eqn:E1, (pystr_eqb b a) eqn:E2; try reflexivity.
  - apply pystr_eqb_eq in E1. subst. rewrite pystr_eqb_refl in E2. discriminate.
  - apply pystr_eqb_eq in E2. subst. rewrite pystr_eqb_refl in E1. discriminate.
Qed.

(** *** Hexadecimal digits *)

Lemma hex_value_hexdigit d : d < 16 -> hex_value (hexdigit d) = Some d.
Proof.
  intros H.
  assert (Hd : d = 0 \/ d = 1 \/ d = 2 \/ d = 3 \/ d = 4 \/ d = 5 \/ d = 6
               \/ d = 7 \/ d = 8 \/ d = 9 \/ d = 10 \/ d = 11 \/ d = 12
               \/ d = 13 \/ d = 14 \/ d = 15) by lia.
  repeat (destruct Hd as [-> | Hd]; [reflexivity|]). subst. reflexivity.
Qed.

Lemma hex4_u_escape u :
  u < 65536 ->
  hex4 (hexdigit (u / 4096)) (hexdigit (u / 256 mod 16))
       (hexdigit (u / 16 mod 16)) (hexdigit (u mod 16)) = Some u.
Proof.
  intros H. unfold hex4.
  rewrite !hex_value_hexdigit;
    try (apply N.mod_lt; discriminate);
    try (apply N.Div0.div_lt_upper_bound; exact H).
  f_equal.
  pose proof (N.Div0.div_mod u 16) as H1.
  pose proof (N.Div0.div_mod (u / 16) 16) as H2.
  pose proof (N.Div0.div_mod (u / 16 / 16) 16) as H3.
  rewrite !N.Div0.div_div in H2, H3.
  change (16 * 16) with 256 in *.
  rewrite N.Div0.div_div in H3. change (256 * 16) with 4096 in *.
  lia.
Qed.

(** *** Surrogate pairs *)

Lemma below_1024 (P : N -> bool) :
  forallb P (map N.of_nat (seq 0 1024)) = true ->
  forall y, y < 1024 -> P y = true.
Proof.
  intros H y Hy. rewrite forallb_forall in H. apply H.
  apply in_map_iff. exists (N.to_nat y). split; [lia|].
  apply in_seq. lia.
Qed.

Lemma lor_high y : y < 1024 -> N.lor 55296 y = 55296 + y.
Proof.
  intros H. apply N.eqb_eq.
  apply (below_1024 (fun y => N.lor 55296 y =? 55296 + y));
    [vm_compute; reflexivity | exact H].
Qed.

Lemma lor_low y : y < 1024 -> N.lor 56320 y = 56320 + y.
Proof.
  intros H. apply N.eqb_eq.
  apply (below_1024 (fun y => N.lor 56320 y =? 56320 + y));
    [vm_compute; reflexivity | exact H].
Qed.

(** The two halves of the pair written for a code point above
    [0xFFFF]. *)
Lemma surrogate_pair c :
  65536 <= c -> c < 1114112 ->
  exists y1 y2,
    y1 < 1024 /\ y2 < 1024 /\
    N.lor 55296 (N.land (N.shiftr (c - 65536) 10) 1023) = 55296 + y1 /\
    N.lor 56320 (N.land (c - 65536) 1023) = 56320 + y2 /\
    c = 65536 + (y1 * 1024 + y2).
Proof.
  intros H1 H2.
  change 1023 with (N.ones 10). rewrite !N.land_ones, N.shiftr_div_pow2.
  change (2 ^ 10) with 1024.
  exists (((c - 65536) / 1024) mod 1024), ((c - 65536) mod 1024).
  assert (Ha : ((c - 65536) / 1024) mod 1024 < 1024)
    by (apply N.mod_lt; discriminate).
  assert (Hb : (c - 65536) mod 1024 < 1024) by (apply N.mod_lt; discriminate).
  rewrite lor_high, lor_low by assumption.
  repeat split; try assumption.
  assert (Hs : (c - 65536) / 1024 < 1024)
    by (apply N.Div0.div_lt_upper_bound; lia).
  rewrite (N.mod_small _ _ Hs).
  pose proof (N.Div0.div_mod (c - 65536) 1024). lia.
Qed.

(** *** Strings *)

Arguments hexdigit : simpl never.

Lemma scanstring_u_escape u rest acc high :
  u < 65536 ->
  scanstring (u_escape u ++ rest) acc high
  = match high with
    | Some h =>
        if is_low_surrogate u
        then scanstring rest (join_surrogates h u :: tl acc) None
        else scanstring rest (u :: acc)
               (if is_high_surrogate u then Some u else None)
    | None =>
        scanstring rest (u :: acc)
          (if is_high_surrogate u then Some u else None)
    end.
Proof.
  intros H. unfold u_escape. cbn [app scanstring].
  change (92 =? 34) with false. change (92 =? 92) with true.
  change (117 =? 117) with true. cbv iota.
  rewrite hex4_u_escape by exact H. reflexivity.
Qed.

(** Reading what was written for one code point appends the code point,
    unless it is a low surrogate right after the escape of a high one. *)
Lemma scanstring_escape_char c rest acc high :
  c < 1114112 -> high = None \/ is_low_surrogate c = false ->
  scanstring (escape_char c ++ rest) acc high
  = scanstring rest (c :: acc) (if is_high_surrogate c then Some c else None).
Proof.
  intros Hc Hh. unfold escape_char.
  destruct (c =? 92) eqn:E92; [apply N.eqb_eq in E92; subst; reflexivity|].
  destruct (c =? 34) eqn:E34; [apply N.eqb_eq in E34; subst; reflexivity|].
  destruct ((32 <=? c) && (c <=? 126)) eqn:Ep.
  { apply andb_prop in Ep. destruct Ep as [Hl Hu].
    apply N.leb_le in Hl, Hu.
    cbn [app scanstring]. rewrite E34, E92.
    assert (E32 : (c <? 32) = false) by (apply N.ltb_ge; exact Hl).
    rewrite E32.
    assert (Ehs : is_high_surrogate c = false).
    { unfold is_high_surrogate.
      assert (E : (55296 <=? c) = false) by (apply N.leb_gt; lia).
      rewrite E. reflexivity. }
    rewrite Ehs. reflexivity. }
  destruct (c =? 8) eqn:E8; [apply N.eqb_eq in E8; subst; reflexivity|].
  destruct (c =? 12) eqn:E12; [apply N.eqb_eq in E12; subst; reflexivity|].
  destruct (c =? 10) eqn:E10; [apply N.eqb_eq in E10; subst; reflexivity|].
  destruct (c =? 13) eqn:E13; [apply N.eqb_eq in E13; subst; reflexivity|].
  destruct (c =? 9) eqn:E9; [apply N.eqb_eq in E9; subst; reflexivity|].
  destruct (c <? 65536) eqn:Eu.
  - apply N.ltb_lt in Eu. rewrite scanstring_u_escape by exact Eu.
    destruct high as [h|]; [|reflexivity].
    destruct Hh as [Hh | Hh]; [discriminate|]. rewrite Hh. reflexivity.
  - apply N.ltb_ge in Eu. cbv zeta.
    destruct (surrogate_pair c Eu Hc) as (y1 & y2 & Hy1 & Hy2 & -> & -> & Hsum).
    rewrite <- app_assoc.
    rewrite scanstring_u_escape by lia.
    assert (E1 : is_low_surrogate (55296 + y1) = false).
    { unfold is_low_surrogate.
      assert (E : (56320 <=? 55296 + y1) = false) by (apply N.leb_gt; lia).
      rewrite E. reflexivity. }
    assert (E2 : is_high_surrogate (55296 + y1) = true).
    { unfold is_high_surrogate. apply andb_true_intro.
      split; apply N.leb_le; lia. }
    assert (E3 : is_low_surrogate (56320 + y2) = true).
    { unfold is_low_surrogate. apply andb_true_intro.
      split; apply N.leb_le; lia. }
    assert (E4 : is_high_surrogate c = false).
    { unfold is_high_surrogate.
      assert (E : (c <=? 56319) = false) by (apply N.leb_gt; lia).
      rewrite E. apply andb_false_r. }
    assert (Hstep : scanstring (u_escape (56320 + y2) ++ rest)
                      (55296 + y1 :: acc) (Some (55296 + y1))
                    = scanstring rest (c :: acc) None).
    { rewrite scanstring_u_escape by lia. rewrite E3. cbn [tl].
      unfold join_surrogates. do 3 f_equal. lia. }
    rewrite E1, E2, E4.
    destruct high; exact Hstep.
Qed.

Lemma no_split_pair_tail c s : no_split_pair (c :: s) = true -> no_split_pair s = true.
Proof. cbn [no_split_pair]. intros H. apply andb_prop in H. tauto. Qed.

(** A string is read back from what was written for it. *)
Lemma scanstring_escaped s :
  forall t acc high,
    text_round_trips s = true ->
    high = None \/ is_low_surrogate (hd 0 s) = false ->
    scanstring (flat_map escape_char s ++ 34 :: t) acc high
    = Parsed (rev acc ++ s) t.
Proof.
  induction s as [|c s IH]; intros t acc high Hs Hh.
  - cbn. rewrite app_nil_r. reflexivity.
  - unfold text_round_trips in Hs. apply andb_prop in Hs.
    destruct Hs as [Hv Hp]. cbn [forallb] in Hv.
    apply andb_prop in Hv. destruct Hv as [Hc Hv]. apply N.ltb_lt in Hc.
    cbn [flat_map]. rewrite <- app_assoc.
    rewrite scanstring_escape_char by (exact Hc || exact Hh).
    rewrite IH.
    + cbn [rev]. rewrite <- app_assoc. reflexivity.
    + unfold text_round_trips. rewrite Hv.
      rewrite (no_split_pair_tail _ _ Hp). reflexivity.
    + destruct (is_high_surrogate c) eqn:Eh; [right | left; reflexivity].
      cbn [no_split_pair] in Hp. destruct s as [|d s']; [reflexivity|].
      cbn [hd]. apply andb_prop in Hp. destruct Hp as [Hp _].
      rewrite Eh in Hp. cbn in Hp. apply negb_true_iff in Hp. exact Hp.
Qed.

(** *** Integers *)

Lemma digits_value_app ds d :
  digits_value (ds ++ [d]) = digits_value ds * 10 + (d - 48).
Proof. unfold digits_value. rewrite fold_left_app. reflexivity. Qed.

Lemma digits_from_acc fuel :
  forall n acc, digits_from fuel n acc = digits_from fuel n [] ++ acc.
Proof.
  induction fuel as [|fuel IH]; intros n acc; cbn [digits_from].
  - reflexivity.
  - destruct (n <? 10); [reflexivity|].
    rewrite (IH _ (_ :: acc)), (IH _ [_]). rewrite <- app_assoc. reflexivity.
Qed.

(** With fuel for the binary length of [n], the digits are the decimal
    digits of [n], the first of them no zero unless [n] is zero. *)
Lemma digits_from_S fuel n acc :
  digits_from (S fuel) n acc
  = if n <? 10 then (48 + n) :: acc
    else digits_from fuel (n / 10) ((48 + n mod 10) :: acc).
Proof. reflexivity. Qed.

Lemma digits_from_spec fuel :
  forall n,
    n < 2 ^ N.of_nat (S fuel) ->
    exists d ds,
      digits_from (S fuel) n [] = d :: ds /\
      forallb is_digit (d :: ds) = true /\
      digits_value (d :: ds) = n /\
      (n = 0 -> d :: ds = [48]) /\
      (n <> 0 -> d <> 48).
Proof.
  assert (Hsmall : forall f n, n < 10 ->
            exists d ds,
              digits_from (S f) n [] = d :: ds /\
              forallb is_digit (d :: ds) = true /\
              digits_value (d :: ds) = n /\
              (n = 0 -> d :: ds = [48]) /\
              (n <> 0 -> d <> 48)).
  { intros f n E. cbn [digits_from].
    assert (E' : (n <? 10) = true) by (apply N.ltb_lt; exact E). rewrite E'.
    exists (48 + n), []. split; [reflexivity|]. split.
    { cbn [forallb]. unfold is_digit. rewrite andb_true_r.
      apply andb_true_intro. split; apply N.leb_le; lia. }
    split; [unfold digits_value; cbn [fold_left]; lia|].
    split; [intros ->; reflexivity | lia]. }
  induction fuel as [|fuel IH]; intros n Hn.
  - apply Hsmall. change (2 ^ N.of_nat 1) with 2 in Hn. lia.
  - destruct (n <? 10) eqn:E; [apply Hsmall; apply N.ltb_lt; exact E|].
    rewrite digits_from_S, E. apply N.ltb_ge in E.
    assert (Hq : n / 10 < 2 ^ N.of_nat (S fuel)).
    { rewrite (Nat2N.inj_succ (S fuel)), N.pow_succ_r' in Hn.
      apply N.Div0.div_lt_upper_bound. lia. }
    destruct (IH _ Hq) as (d & ds & Hds & Hall & Hval & _ & Hnz).
    rewrite digits_from_acc, Hds.
    exists d, (ds ++ [48 + n mod 10]).
    split; [reflexivity|].
    assert (Hm : n mod 10 < 10) by (apply N.mod_lt; discriminate).
    pose proof (N.Div0.div_mod n 10) as Hdm.
    split.
    { change (d :: ds ++ [48 + n mod 10]) with ((d :: ds) ++ [48 + n mod 10]).
      rewrite forallb_app, Hall. cbn [forallb andb]. unfold is_digit.
      rewrite andb_true_r.
      set (m := n mod 10) in *. clearbody m.
      apply andb_true_intro. split; apply N.leb_le; lia. }
    split.
    { change (d :: ds ++ [48 + n mod 10]) with ((d :: ds) ++ [48 + n mod 10]).
      rewrite digits_value_app, Hval.
      set (m := n mod 10) in *. clearbody m.
      set (q := n / 10) in *. clearbody q. lia. }
    split; [lia|].
    intros _. apply Hnz.
    intros H0. apply N.div_small_iff in H0; [lia | discriminate].
Qed.

Lemma N_repr_spec n :
  exists d ds,
    N_repr n = d :: ds /\
    forallb is_digit (d :: ds) = true /\
    digits_value (d :: ds) = n /\
    (n = 0 -> d :: ds = [48]) /\
    (n <> 0 -> d <> 48).
Proof.
  unfold N_repr. apply digits_from_spec.
  rewrite Nat2N.inj_succ, N2Nat.id.
  destruct n as [|p]; [reflexivity|].
  apply N.log2_spec. reflexivity.
Qed.

Lemma delimited_not_digit c r : delimited (c :: r) = true -> is_digit c = false.
Proof.
  intros H. apply delimited_cases in H.
  destruct H as [-> | [-> | [-> | [-> | [-> | [-> | ->]]]]]]; reflexivity.
Qed.

Lemma span_digits_all ds t :
  forallb is_digit ds = true -> delimited t = true ->
  span_digits (ds ++ t) = (ds, t).
Proof.
  intros Hd Ht. induction ds as [|d ds IH]; cbn [app].
  - destruct t as [|c r]; [reflexivity|]. cbn [span_digits].
    rewrite (delimited_not_digit _ _ Ht). reflexivity.
  - cbn in Hd. apply andb_prop in Hd. destruct Hd as [H1 H2].
    cbn [span_digits]. rewrite H1, (IH H2). reflexivity.
Qed.

Lemma delimited_ends_number t :
  delimited t = true -> match_frac t = None /\ match_exp t = None.
Proof.
  intros H. destruct t as [|c r]; [split; reflexivity|].
  pose proof (delimited_no_frac c r [] H) as H1.
  pose proof (delimited_no_exp c r [] H) as H2.
  rewrite app_nil_r in H1, H2. split; assumption.
Qed.

Lemma is_digit_not_minus d : is_digit d = true -> (d =? 45) = false.
Proof.
  unfold is_digit. intros H. apply andb_prop in H. destruct H as [H _].
  apply N.leb_le in H. apply N.eqb_neq. lia.
Qed.

(** The digits written for a natural number are read as that number. *)
Lemma match_int_N_repr n t :
  delimited t = true ->
  exists d ds,
    N_repr n = d :: ds /\ is_digit d = true /\
    match_int (N_repr n ++ t) = Some (d :: ds, t) /\
    digits_value (d :: ds) = n.
Proof.
  intros Ht.
  destruct (N_repr_spec n) as (d & ds & Hr & Hall & Hval & Hz & Hnz).
  exists d, ds. rewrite Hr. pose proof Hall as Hall'.
  cbn [forallb] in Hall. apply andb_prop in Hall. destruct Hall as [Hd Hds].
  repeat split; try assumption.
  cbn [app match_int].
  destruct (d =? 48) eqn:E.
  - apply N.eqb_eq in E. subst d.
    destruct (N.eq_dec n 0) as [H0 | H0].
    + specialize (Hz H0). inversion Hz; subst. reflexivity.
    + exfalso. apply (Hnz H0). reflexivity.
  - rewrite Hd, (span_digits_all _ _ Hds Ht). reflexivity.
Qed.

Lemma match_number_int_repr {py : interpreter} z text t :
  int_repr z = Ok text -> delimited t = true ->
  exists c r,
    text ++ t = c :: r /\ (c = 45 \/ is_digit c = true) /\
    match_number (c :: r) = Some (PyInt z, t) /\
    over_int_limit (int_digits (c :: r)) = false.
Proof.
  unfold int_repr. intros Hz Ht.
  destruct (over_int_limit _) eqn:Eo; [discriminate|].
  inversion Hz; subst text; clear Hz.
  destruct (match_int_N_repr (Z.abs_N z) t Ht) as (d & ds & Hr & Hd & Hm & Hv).
  destruct (delimited_ends_number t Ht) as [Hf He].
  destruct (z <? 0)%Z eqn:Ez.
  - apply Z.ltb_lt in Ez.
    exists 45, (N_repr (Z.abs_N z) ++ t).
    split; [reflexivity|]. split; [left; reflexivity|]. split.
    + unfold match_number. cbn [match_sign]. change (45 =? 45) with true.
      cbv iota. rewrite Hm, Hf, He, Hv. do 3 f_equal. lia.
    + unfold int_digits. cbn [match_sign]. change (45 =? 45) with true.
      cbv iota. cbn [snd]. rewrite Hm, <- Hr. exact Eo.
  - apply Z.ltb_ge in Ez.
    exists d, (ds ++ t). rewrite Hr.
    split; [reflexivity|]. split; [right; exact Hd|]. split.
    + unfold match_number. cbn [match_sign].
      rewrite (is_digit_not_minus _ Hd).
      change (d :: ds ++ t) with ((d :: ds) ++ t).
      rewrite <- Hr, Hm, Hf, He, Hv. do 3 f_equal. lia.
    + unfold int_digits. cbn [match_sign].
      rewrite (is_digit_not_minus _ Hd). cbn [snd].
      change (d :: ds ++ t) with ((d :: ds) ++ t).
      rewrite <- Hr, Hm, <- Hr. exact Eo.
Qed.

(** *** Values *)

(** Brings a text to the form [c :: a ++ b ++ ...]. *)
Ltac right_assoc :=
  repeat first [rewrite <- app_assoc | progress cbn [app]].

Lemma Ok_inj {A : Type} (a b : A) : Ok a = Ok b -> a = b.
Proof. intros H. inversion H. reflexivity. Qed.

Lemma and_then_Ok {A B : Type} (o : outcome A) (k : A -> outcome B) b :
  and_then o k = Ok b -> exists a, o = Ok a /\ k a = Ok b.
Proof. destruct o as [a|e]; cbn; [eauto | discriminate]. Qed.

Lemma and_then_Raise {A B : Type} (o : outcome A) (k : A -> outcome B) e :
  and_then o k = Raise e ->
  o = Raise e \/ exists a, o = Ok a /\ k a = Raise e.
Proof.
  destruct o as [a|e0]; cbn; [eauto|].
  intros H. inversion H. left. reflexivity.
Qed.

Lemma encode_each_cons {A : Type} (enc : A -> outcome pystr) x l :
  encode_each enc (x :: l)
  = and_then (enc x) (fun tx =>
    and_then (encode_each enc l) (fun rest => Ok (tx ++ rest))).
Proof. reflexivity. Qed.

Lemma encode_each_cons_Ok {A : Type} (enc : A -> outcome pystr) x l text :
  encode_each enc (x :: l) = Ok text ->
  exists tx rest,
    enc x = Ok tx /\ encode_each enc l = Ok rest /\ text = tx ++ rest.
Proof.
  rewrite encode_each_cons. intros H.
  apply and_then_Ok in H. destruct H as (tx & Hx & H).
  apply and_then_Ok in H. destruct H as (rest & Hr & H).
  inversion H. eauto.
Qed.

Lemma nesting_items l n :
  (fold_right (fun x n => Nat.max (nesting x) n) O l <= n)%nat ->
  Forall (fun y => (nesting y <= n)%nat) l.
Proof.
  induction l as [|x l IH]; cbn [fold_right]; intros H; constructor;
    [lia | apply IH; lia].
Qed.

Lemma nesting_members (kvs : list (pystr * pyval)) n :
  (fold_right (fun kv n => Nat.max (nesting (snd kv)) n) O kvs <= n)%nat ->
  Forall (fun kv => (nesting (snd kv) <= n)%nat) kvs.
Proof.
  induction kvs as [|x l IH]; cbn [fold_right]; intros H; constructor;
    [lia | apply IH; lia].
Qed.

Lemma all_ws_newline_indent level : all_ws (newline_indent level) = true.
Proof.
  unfold newline_indent. cbn [all_ws forallb].
  change (json_ws 10) with true. cbn [andb].
  induction (2 * level)%nat as [|k IH]; [reflexivity|].
  cbn [repeat forallb]. change (json_ws 32) with true. exact IH.
Qed.

Lemma skip_ws_newline_indent level s :
  skip_ws (newline_indent level ++ s) = skip_ws s.
Proof. apply skip_ws_prefix. apply all_ws_newline_indent. Qed.

Lemma delimited_newline_indent level s :
  delimited (newline_indent level ++ s) = true.
Proof. reflexivity. Qed.

Lemma skip_ws_head c r : json_ws c = false -> skip_ws (c :: r) = c :: r.
Proof. cbn [skip_ws]. intros ->. reflexivity. Qed.

Lemma skip_ws_space s : skip_ws (32 :: s) = skip_ws s.
Proof. reflexivity. Qed.

Lemma starts_value_cases c :
  starts_value c = true ->
  c = 34 \/ c = 123 \/ c = 91 \/ c = 45 \/ is_digit c = true \/
  c = 110 \/ c = 116 \/ c = 102 \/ c = 78 \/ c = 73.
Proof.
  unfold starts_value. intros H.
  repeat (apply orb_true_iff in H; destruct H as [H | H]);
    try (apply N.eqb_eq in H); tauto.
Qed.

(** What a value can start with is neither whitespace, nor a closing
    bracket or brace, nor the byte-order mark. *)
Lemma starts_value_head c :
  starts_value c = true ->
  json_ws c = false /\ (c =? 93) = false /\ (c =? 125) = false /\
  (65279 =? c) = false.
Proof.
  intros H. apply starts_value_cases in H.
  destruct H as [-> | [-> | [-> | [-> | [H | [-> | [-> | [-> | [-> | ->]]]]]]]]];
    try (repeat split; reflexivity).
  unfold is_digit in H. apply andb_prop in H. destruct H as [H1 H2].
  apply N.leb_le in H1, H2.
  repeat split; try (apply N.eqb_neq; lia).
  unfold json_ws.
  repeat (apply orb_false_intro); apply N.eqb_neq; lia.
Qed.

(** *** Keys *)

Lemma dict_set_fresh d k v :
  existsb (pystr_eqb k) (map fst d) = false -> dict_set d k v = d ++ [(k, v)].
Proof.
  induction d as [|[k0 w] d IH]; cbn [map fst existsb dict_set app];
    [reflexivity|].
  intros H. apply orb_false_elim in H. destruct H as [H1 H2].
  rewrite pystr_eqb_sym, H1. rewrite (IH H2). reflexivity.
Qed.

Lemma existsb_app_false {A : Type} (f : A -> bool) l1 l2 :
  existsb f (l1 ++ l2) = false ->
  existsb f l1 = false /\ existsb f l2 = false.
Proof. rewrite existsb_app. apply orb_false_elim. Qed.

Lemma keys_distinct_fresh ks k ks' :
  keys_distinct (ks ++ k :: ks') = true -> existsb (pystr_eqb k) ks = false.
Proof.
  induction ks as [|k0 ks IH]; cbn [app keys_distinct existsb]; [reflexivity|].
  intros H. apply andb_prop in H. destruct H as [H1 H2].
  apply negb_true_iff in H1. apply existsb_app_false in H1.
  destruct H1 as [_ H1]. cbn [existsb] in H1.
  apply orb_false_elim in H1. destruct H1 as [H1 _].
  rewrite pystr_eqb_sym, H1. cbn [orb]. exact (IH H2).
Qed.

(** *** Lists, dicts and all values *)

Section RoundTrip.

Context {py : interpreter}.

Lemma scan_once_string f room s :
  scan_once (S f) room (34 :: s)
  = match scanstring s [] None with
    | Parsed str r => Parsed (PyStr str) r
    | Failed _ => refused room
    | OutOfFuel => OutOfFuel
    end.
Proof. reflexivity. Qed.

Lemma scan_once_object f room s :
  scan_once (S f) (S room) (123 :: s)
  = match skip_ws s with
    | [] => refused room
    | d :: r =>
        if d =? 125 then Parsed (PyDict []) r
        else if d =? 34 then object_items f room r []
        else refused room
    end.
Proof. reflexivity. Qed.

Lemma scan_once_array f room s :
  scan_once (S f) (S room) (91 :: s)
  = match skip_ws s with
    | [] => Invalid
    | d :: r =>
        if d =? 93 then Parsed (PyList []) r
        else array_items f room (d :: r) []
    end.
Proof. reflexivity. Qed.

Lemma array_items_S f room s acc :
  array_items (S f) room s acc
  = match scan_once f room s with
    | Parsed v r1 =>
        match skip_ws r1 with
        | [] => refused room
        | e :: r2 =>
            if e =? 93 then Parsed (PyList (acc ++ [v])) r2
            else if e =? 44 then array_items f room (skip_ws r2) (acc ++ [v])
            else refused room
        end
    | Failed x => Failed x
    | OutOfFuel => OutOfFuel
    end.
Proof. reflexivity. Qed.

Lemma object_items_S f room s d :
  object_items (S f) room s d
  = match scanstring s [] None with
    | Parsed key r1 =>
        match skip_ws r1 with
        | [] => refused room
        | c :: r2 =>
            if c =? 58 then
              match scan_once f room (skip_ws r2) with
              | Parsed v r3 =>
                  match skip_ws r3 with
                  | [] => refused room
                  | e :: r4 =>
                      if e =? 125 then Parsed (PyDict (dict_set d key v)) r4
                      else if e =? 44 then
                        match skip_ws r4 with
                        | [] => refused room
                        | q :: r5 =>
                            if q =? 34
                            then object_items f room r5 (dict_set d key v)
                            else refused room
                        end
                      else refused room
                  end
              | Failed x => Failed x
              | OutOfFuel => OutOfFuel
              end
            else refused room
        end
    | Failed _ => refused room
    | OutOfFuel => OutOfFuel
    end.
Proof. reflexivity. Qed.

(** The text of a value starts with what a value can start with. *)
Lemma iterencode_head ft room level v text :
  round_trips v = true -> iterencode ft room level v = Ok text ->
  exists c r, text = c :: r /\ starts_value c = true.
Proof.
  intros H Henc. destruct v as [|b|z|f|s|l|kvs].
  - (cbn [iterencode] in Henc; inversion Henc). exists 110, (lit "ull"). split; reflexivity.
  - destruct b; (cbn [iterencode] in Henc; inversion Henc);
      [exists 116, (lit "rue") | exists 102, (lit "alse")];
      split; reflexivity.
  - cbn [iterencode] in Henc.
    destruct (match_number_int_repr z text [] Henc eq_refl)
      as (c & r & Hz & Hc & _).
    rewrite app_nil_r in Hz. exists c, r. split; [exact Hz|].
    unfold starts_value. destruct Hc as [-> | Hc]; [reflexivity|].
    rewrite Hc. rewrite !orb_true_r. reflexivity.
  - cbn [iterencode] in Henc. destruct room; [discriminate|].
    (cbn [iterencode] in Henc; inversion Henc).
    destruct f as [|[|]|neg m e]; try discriminate.
    + exists 78, (lit "aN"). split; reflexivity.
    + exists 45, (lit "Infinity"). split; reflexivity.
    + exists 73, (lit "nfinity"). split; reflexivity.
  - (cbn [iterencode] in Henc; inversion Henc). eexists; eexists. split; reflexivity.
  - destruct l as [|x l];
      [(cbn [iterencode] in Henc; inversion Henc); eexists; eexists; split; reflexivity|].
    cbn [iterencode] in Henc. destruct room; [discriminate|].
    apply and_then_Ok in Henc. destruct Henc as (tx & _ & Henc).
    apply and_then_Ok in Henc. destruct Henc as (rest & _ & Henc).
    (cbn [iterencode] in Henc; inversion Henc). eexists; eexists. split; reflexivity.
  - destruct kvs as [|[k x] kvs];
      [(cbn [iterencode] in Henc; inversion Henc); eexists; eexists; split; reflexivity|].
    cbn [iterencode] in Henc. destruct room; [discriminate|].
    apply and_then_Ok in Henc. destruct Henc as (tx & _ & Henc).
    apply and_then_Ok in Henc. destruct Henc as (rest & _ & Henc).
    (cbn [iterencode] in Henc; inversion Henc). eexists; eexists. split; reflexivity.
Qed.

Lemma skip_ws_iterencode ft room level v text s :
  round_trips v = true -> iterencode ft room level v = Ok text ->
  skip_ws (text ++ s) = text ++ s.
Proof.
  intros H Henc.
  destruct (iterencode_head ft room level v text H Henc) as (c & r & -> & Hc).
  apply skip_ws_head. apply (starts_value_head c Hc).
Qed.

Lemma scan_once_int f room z text t :
  int_repr z = Ok text -> delimited t = true ->
  scan_once (S f) room (text ++ t) = Parsed (PyInt z) t.
Proof.
  intros Hz Ht.
  destruct (match_number_int_repr z text t Hz Ht) as (c & r & -> & Hc & Hm & Ho).
  assert (H3 : (c =? 34) = false /\ (c =? 123) = false /\ (c =? 91) = false).
  { destruct Hc as [-> | Hc]; [repeat split; reflexivity|].
    unfold is_digit in Hc. apply andb_prop in Hc. destruct Hc as [H1 H2].
    apply N.leb_le in H1, H2. repeat split; apply N.eqb_neq; lia. }
  destruct H3 as (E1 & E2 & E3).
  cbn [scan_once]. rewrite E1, E2, E3.
  rewrite (match_constant_not_number c r Hc), Hm, Ho. reflexivity.
Qed.

Lemma scan_once_str f room s t :
  text_round_trips s = true ->
  scan_once (S f) room (encode_basestring_ascii s ++ t) = Parsed (PyStr s) t.
Proof.
  intros Hs. unfold encode_basestring_ascii. cbn [app].
  rewrite scan_once_string, <- app_assoc. cbn [app].
  rewrite scanstring_escaped by (exact Hs || (left; reflexivity)).
  reflexivity.
Qed.

Section Lists.

Variable ft : bool -> N -> Z -> pystr.
Variable level : nat.
Variable t : pystr.
Variables eroom droom : nat.

Lemma array_items_encoded l :
  Forall (reads_back ft) l -> forallb round_trips l = true ->
  Forall (fun y => (nesting y <= droom)%nat) l ->
  forall rest,
    encode_each
      (fun y => and_then (iterencode ft eroom (S level) y) (fun ty =>
                Ok (44 :: newline_indent (S level) ++ ty))) l = Ok rest ->
  forall x tx acc,
    reads_back ft x -> round_trips x = true -> (nesting x <= droom)%nat ->
    iterencode ft eroom (S level) x = Ok tx ->
    exists n, forall fuel,
        (n <= fuel)%nat ->
        array_items fuel droom
          (tx ++ rest ++ newline_indent level ++ 93 :: t) acc
        = Parsed (PyList (acc ++ x :: l)) t.
Proof.
  induction l as [|y l IH]; intros Hall Hrt Hnl rest Hrest x tx acc Hx Hrx Hnx Htx.
  - inversion Hrest; subst rest.
    destruct (Hx Hrx eroom droom (S level) tx
                (newline_indent level ++ 93 :: t) Htx Hnx eq_refl)
      as (n0 & H0).
    exists (S n0). intros fuel Hf. destruct fuel as [|f]; [lia|].
    rewrite array_items_S. cbn [app].
    rewrite H0 by lia. rewrite skip_ws_newline_indent.
    reflexivity.
  - inversion Hall as [|? ? Hy Hall']; subst.
    inversion Hnl as [|? ? Hny Hnl']; subst.
    cbn [forallb] in Hrt. apply andb_prop in Hrt. destruct Hrt as [Hry Hrt].
    apply encode_each_cons_Ok in Hrest.
    destruct Hrest as (ty' & rest' & Hty' & Hrest' & ->).
    apply and_then_Ok in Hty'. destruct Hty' as (ty & Hty & Heq).
    apply Ok_inj in Heq. subst ty'.
    right_assoc.
    destruct (Hx Hrx eroom droom (S level) tx
                (44 :: newline_indent (S level) ++ ty ++ rest'
                 ++ newline_indent level ++ 93 :: t) Htx Hnx eq_refl)
      as (n0 & H0).
    destruct (IH Hall' Hrt Hnl' rest' Hrest' y ty (acc ++ [x]) Hy Hry Hny Hty)
      as (n1 & H1).
    exists (S (Nat.max n0 n1)). intros fuel Hf.
    destruct fuel as [|f]; [lia|].
    rewrite array_items_S. rewrite H0 by lia.
    rewrite (skip_ws_head 44) by reflexivity.
    change (44 =? 93) with false. change (44 =? 44) with true. cbv iota.
    rewrite skip_ws_newline_indent.
    rewrite (skip_ws_iterencode _ _ _ _ _ _ Hry Hty).
    rewrite H1 by lia. rewrite <- app_assoc. reflexivity.
Qed.

Lemma object_items_encoded kvs :
  Forall (fun kv => reads_back ft (snd kv)) kvs ->
  forallb (fun kv => text_round_trips (fst kv) && round_trips (snd kv)) kvs
  = true ->
  Forall (fun kv => (nesting (snd kv) <= droom)%nat) kvs ->
  forall rest,
    encode_each
      (fun kv => and_then (iterencode ft eroom (S level) (snd kv)) (fun ty =>
                 Ok (44 :: newline_indent (S level)
                     ++ encode_basestring_ascii (fst kv) ++ [58; 32] ++ ty)))
      kvs = Ok rest ->
  forall k x tx d,
    reads_back ft x -> round_trips x = true -> (nesting x <= droom)%nat ->
    iterencode ft eroom (S level) x = Ok tx ->
    text_round_trips k = true ->
    keys_distinct (map fst d ++ k :: map fst kvs) = true ->
    exists n, forall fuel,
        (n <= fuel)%nat ->
        object_items fuel droom
          (flat_map escape_char k ++ 34 :: 58 :: 32 :: tx ++ rest
           ++ newline_indent level ++ 125 :: t) d
        = Parsed (PyDict (d ++ (k, x) :: kvs)) t.
Proof.
  induction kvs as [|[k' x'] kvs IH];
    intros Hall Hrt Hnl rest Hrest k x tx d Hx Hrx Hnx Htx Hk Hd.
  - inversion Hrest; subst rest.
    destruct (Hx Hrx eroom droom (S level) tx
                (newline_indent level ++ 125 :: t) Htx Hnx eq_refl)
      as (n0 & H0).
    exists (S n0). intros fuel Hf. destruct fuel as [|f]; [lia|].
    rewrite object_items_S. cbn [app].
    rewrite scanstring_escaped by (exact Hk || (left; reflexivity)).
    cbn [rev app]. rewrite (skip_ws_head 58) by reflexivity.
    change (58 =? 58) with true. cbv iota.
    rewrite skip_ws_space.
    rewrite (skip_ws_iterencode _ _ _ _ _ _ Hrx Htx).
    rewrite H0 by lia. rewrite skip_ws_newline_indent.
    rewrite (skip_ws_head 125) by reflexivity.
    change (125 =? 125) with true. cbv iota.
    rewrite dict_set_fresh by (eapply keys_distinct_fresh; exact Hd).
    reflexivity.
  - inversion Hall as [|? ? Hy Hall']; subst. cbn [snd] in Hy.
    inversion Hnl as [|? ? Hny Hnl']; subst. cbn [snd] in Hny.
    cbn [forallb fst snd] in Hrt. apply andb_prop in Hrt.
    destruct Hrt as [Hrk Hrt]. apply andb_prop in Hrk.
    destruct Hrk as [Hk' Hrx'].
    apply encode_each_cons_Ok in Hrest.
    destruct Hrest as (ty' & rest' & Hty' & Hrest' & ->).
    apply and_then_Ok in Hty'. destruct Hty' as (ty & Hty & Heq).
    apply Ok_inj in Heq. subst ty'.
    change (fst (k', x')) with k'. change (snd (k', x')) with x' in Hty.
    unfold encode_basestring_ascii at 1.
    right_assoc.
    destruct (Hx Hrx eroom droom (S level) tx
                (44 :: newline_indent (S level) ++ 34 :: flat_map escape_char k'
                 ++ 34 :: 58 :: 32 :: ty ++ rest'
                 ++ newline_indent level ++ 125 :: t) Htx Hnx eq_refl)
      as (n0 & H0).
    assert (Hd' : keys_distinct (map fst (d ++ [(k, x)]) ++ k' :: map fst kvs)
                  = true).
    { rewrite map_app, <- app_assoc. exact Hd. }
    destruct (IH Hall' Hrt Hnl' rest' Hrest' k' x' ty (d ++ [(k, x)])
                Hy Hrx' Hny Hty Hk' Hd') as (n1 & H1).
    exists (S (Nat.max n0 n1)). intros fuel Hf.
    destruct fuel as [|f]; [lia|].
    rewrite object_items_S.
    rewrite scanstring_escaped by (exact Hk || (left; reflexivity)).
    cbn [rev app]. rewrite (skip_ws_head 58) by reflexivity.
    change (58 =? 58) with true. cbv iota.
    rewrite skip_ws_space.
    rewrite (skip_ws_iterencode _ _ _ _ _ _ Hrx Htx).
    rewrite H0 by lia.
    rewrite (skip_ws_head 44) by reflexivity.
    change (44 =? 125) with false. change (44 =? 44) with true. cbv iota.
    rewrite skip_ws_newline_indent.
    rewrite (skip_ws_head 34) by reflexivity.
    change (34 =? 34) with true. cbv iota.
    rewrite dict_set_fresh by (eapply keys_distinct_fresh; exact Hd).
    rewrite H1 by lia. rewrite <- app_assoc. reflexivity.
Qed.

End Lists.

(** Every value that [round_trips] is read back from its text. *)
Lemma encode_decode ft v : reads_back ft v.
Proof.
  induction v as [|b|z|f|s|l IH|kvs IH] using pyval_nested_ind;
    intros Hrt eroom droom level text t Henc Hn Ht.
  - (cbn [iterencode] in Henc; inversion Henc); subst text.
    exists 1%nat. intros fuel Hf. destruct fuel as [|fuel]; [lia|].
    change (lit "null" ++ t) with (110 :: 117 :: 108 :: 108 :: t).
    reflexivity.
  - exists 1%nat. intros fuel Hf. destruct fuel as [|fuel]; [lia|].
    destruct b; (cbn [iterencode] in Henc; inversion Henc); subst text.
    + change (lit "true" ++ t) with (116 :: 114 :: 117 :: 101 :: t).
      reflexivity.
    + change (lit "false" ++ t) with (102 :: 97 :: 108 :: 115 :: 101 :: t).
      reflexivity.
  - exists 1%nat. intros fuel Hf. destruct fuel as [|fuel]; [lia|].
    apply scan_once_int; assumption.
  - exists 1%nat. intros fuel Hf. destruct fuel as [|fuel]; [lia|].
    cbn [iterencode] in Henc. destruct eroom; [discriminate|].
    (cbn [iterencode] in Henc; inversion Henc); subst text.
    destruct f as [|[|]|neg m e]; try discriminate; cbn [floatstr];
      (destruct droom as [|droom]; [cbn in Hn; lia|]).
    + change (lit "NaN" ++ t) with (78 :: 97 :: 78 :: t). reflexivity.
    + change (lit "-Infinity" ++ t)
        with (45 :: 73 :: 110 :: 102 :: 105 :: 110 :: 105 :: 116 :: 121 :: t).
      reflexivity.
    + change (lit "Infinity" ++ t)
        with (73 :: 110 :: 102 :: 105 :: 110 :: 105 :: 116 :: 121 :: t).
      reflexivity.
  - exists 1%nat. intros fuel Hf. destruct fuel as [|fuel]; [lia|].
    (cbn [iterencode] in Henc; inversion Henc); subst text. apply scan_once_str. exact Hrt.
  - destruct droom as [|droom]; [cbn in Hn; lia|].
    destruct l as [|x l].
    + exists 1%nat. intros fuel Hf. destruct fuel as [|fuel]; [lia|].
      (cbn [iterencode] in Henc; inversion Henc); subst text.
      change (lit "[]" ++ t) with (91 :: 93 :: t).
      reflexivity.
    + inversion IH as [|? ? Hx Hl]; subst.
      cbn [round_trips forallb] in Hrt. apply andb_prop in Hrt.
      destruct Hrt as [Hrx Hrl].
      cbn [iterencode] in Henc. destruct eroom as [|eroom]; [discriminate|].
      apply and_then_Ok in Henc. destruct Henc as (tx & Htx & Henc).
      apply and_then_Ok in Henc. destruct Henc as (rest & Hrest & Henc).
      apply Ok_inj in Henc. subst text.
      cbn [nesting fold_right] in Hn. apply le_S_n in Hn.
      assert (Hnx : (nesting x <= droom)%nat) by lia.
      assert (Hnl : Forall (fun y => (nesting y <= droom)%nat) l)
        by (apply nesting_items; lia).
      destruct (array_items_encoded ft level t eroom droom l Hl Hrl Hnl
                  rest Hrest x tx [] Hx Hrx Hnx Htx) as (n & Hn').
      exists (S n). intros fuel Hf. destruct fuel as [|fuel]; [lia|].
      right_assoc.
      rewrite scan_once_array, skip_ws_newline_indent.
      rewrite (skip_ws_iterencode _ _ _ _ _ _ Hrx Htx).
      destruct (iterencode_head _ _ _ _ _ Hrx Htx) as (c & r & Hcr & Hc).
      rewrite Hcr in *. cbn [app].
      destruct (starts_value_head c Hc) as (_ & E93 & _). rewrite E93.
      apply (Hn' fuel). lia.
  - destruct droom as [|droom]; [cbn in Hn; lia|].
    destruct kvs as [|[k x] kvs].
    + exists 1%nat. intros fuel Hf. destruct fuel as [|fuel]; [lia|].
      (cbn [iterencode] in Henc; inversion Henc); subst text.
      change (lit "{}" ++ t) with (123 :: 125 :: t).
      reflexivity.
    + inversion IH as [|? ? Hx Hl]; subst. cbn [snd] in Hx.
      cbn [round_trips map fst forallb snd] in Hrt. apply andb_prop in Hrt.
      destruct Hrt as [Hkd Hrt]. apply andb_prop in Hrt.
      destruct Hrt as [Hrk Hrl]. apply andb_prop in Hrk.
      destruct Hrk as [Hk Hrx].
      cbn [iterencode] in Henc. destruct eroom as [|eroom]; [discriminate|].
      apply and_then_Ok in Henc. destruct Henc as (tx & Htx & Henc).
      apply and_then_Ok in Henc. destruct Henc as (rest & Hrest & Henc).
      apply Ok_inj in Henc. subst text.
      cbn [nesting fold_right snd] in Hn. apply le_S_n in Hn.
      assert (Hnx : (nesting x <= droom)%nat) by lia.
      assert (Hnl : Forall (fun kv => (nesting (snd kv) <= droom)%nat) kvs)
        by (apply nesting_members; lia).
      destruct (object_items_encoded ft level t eroom droom kvs Hl Hrl Hnl
                  rest Hrest k x tx [] Hx Hrx Hnx Htx Hk Hkd) as (n & Hn').
      exists (S n). intros fuel Hf. destruct fuel as [|fuel]; [lia|].
      unfold encode_basestring_ascii at 1.
      right_assoc.
      rewrite scan_once_object, skip_ws_newline_indent.
      rewrite (skip_ws_head 34) by reflexivity.
      change (34 =? 125) with false. change (34 =? 34) with true. cbv iota.
      apply (Hn' fuel). lia.
Qed.

(** [json.loads] gives back the value [json.dumps] was given, where
    [json.dumps] returns a text and the decoder has room for the value. *)
Lemma json_loads_json_dumps ft v text :
  json_dumps ft v = Ok text -> round_trips v = true ->
  (nesting v <= decoder_room)%nat ->
  json_loads text = Ok v.
Proof.
  intros Henc Hrt Hroom. unfold json_loads. unfold json_dumps in Henc.
  destruct (encode_decode ft v Hrt encoder_room decoder_room 0%nat text []
              Henc Hroom eq_refl) as (n & Hn).
  rewrite app_nil_r in Hn.
  destruct (iterencode_head _ _ _ _ _ Hrt Henc) as (c & r & Hcr & Hc).
  destruct (starts_value_head c Hc) as (Hws & _ & _ & Hbom).
  rewrite Hcr in *. cbn [startswith]. rewrite Hbom. cbn [andb].
  rewrite skip_ws_head by exact Hws.
  set (fuel := S (2 * List.length (c :: r))).
  destruct (decoder_fuel fuel) as [Hfuel _].
  destruct (Hfuel decoder_room (c :: r) ltac:(subst fuel; lia)) as [Hne _].
  destruct (decoder_fuel_mono fuel) as [Hmono _].
  pose proof (Hmono decoder_room (c :: r) (Nat.max fuel n) Hne ltac:(lia))
    as Heq.
  rewrite Hn in Heq by lia. rewrite <- Heq. reflexivity.
Qed.

(** *** The code points the encoder writes *)

Lemma plain_ascii_hexdigit d : d < 16 -> plain_ascii (hexdigit d) = true.
Proof.
  intros H.
  assert (Hd : d = 0 \/ d = 1 \/ d = 2 \/ d = 3 \/ d = 4 \/ d = 5 \/ d = 6
               \/ d = 7 \/ d = 8 \/ d = 9 \/ d = 10 \/ d = 11 \/ d = 12
               \/ d = 13 \/ d = 14 \/ d = 15) by lia.
  repeat (destruct Hd as [-> | Hd]; [reflexivity|]). subst. reflexivity.
Qed.

Lemma plain_ascii_u_escape u :
  u < 65536 -> forallb plain_ascii (u_escape u) = true.
Proof.
  intros H. unfold u_escape. cbn [forallb].
  rewrite !plain_ascii_hexdigit;
    try (apply N.mod_lt; discriminate);
    try (apply N.Div0.div_lt_upper_bound; exact H).
  reflexivity.
Qed.

Lemma plain_ascii_escape_char c : forallb plain_ascii (escape_char c) = true.
Proof.
  unfold escape_char.
  destruct (c =? 92); [reflexivity|].
  destruct (c =? 34); [reflexivity|].
  destruct ((32 <=? c) && (c <=? 126)) eqn:Ep.
  { cbn [forallb]. unfold plain_ascii. rewrite Ep, orb_true_r. reflexivity. }
  destruct (c =? 8); [reflexivity|].
  destruct (c =? 12); [reflexivity|].
  destruct (c =? 10); [reflexivity|].
  destruct (c =? 13); [reflexivity|].
  destruct (c =? 9); [reflexivity|].
  destruct (c <? 65536) eqn:Eu.
  - apply plain_ascii_u_escape. apply N.ltb_lt. exact Eu.
  - cbv zeta. rewrite forallb_app.
    change 1023 with (N.ones 10). rewrite !N.land_ones.
    change (2 ^ 10) with 1024.
    assert (Ha : N.shiftr (c - 65536) 10 mod 1024 < 1024)
      by (apply N.mod_lt; discriminate).
    assert (Hb : (c - 65536) mod 1024 < 1024) by (apply N.mod_lt; discriminate).
    rewrite lor_high, lor_low by assumption.
    set (a := N.shiftr (c - 65536) 10 mod 1024) in *. clearbody a.
    set (b := (c - 65536) mod 1024) in *. clearbody b.
    rewrite !plain_ascii_u_escape by lia. reflexivity.
Qed.

Lemma plain_ascii_string s :
  forallb plain_ascii (encode_basestring_ascii s) = true.
Proof.
  unfold encode_basestring_ascii. cbn [forallb].
  change (plain_ascii 34) with true. cbn [andb].
  rewrite forallb_app. cbn [forallb]. change (plain_ascii 34) with true.
  rewrite andb_true_r.
  induction s as [|c s IH]; [reflexivity|].
  cbn [flat_map]. rewrite forallb_app, plain_ascii_escape_char. exact IH.
Qed.

Lemma is_digit_plain_ascii d : is_digit d = true -> plain_ascii d = true.
Proof.
  unfold is_digit, plain_ascii. intros H. apply andb_prop in H.
  destruct H as [H1 H2]. apply N.leb_le in H1, H2.
  apply orb_true_intro. right. apply andb_true_intro.
  split; apply N.leb_le; lia.
Qed.

Lemma plain_ascii_int z text :
  int_repr z = Ok text -> forallb plain_ascii text = true.
Proof.
  unfold int_repr. destruct (over_int_limit _); [discriminate|].
  intros Hz. inversion Hz; subst text; clear Hz.
  destruct (N_repr_spec (Z.abs_N z)) as (d & ds & -> & Hall & _).
  assert (H : forallb plain_ascii (d :: ds) = true).
  { rewrite forallb_forall in *. intros x Hx.
    apply is_digit_plain_ascii. apply Hall. exact Hx. }
  destruct (z <? 0)%Z; [|exact H].
  cbn [forallb] in *. rewrite H. reflexivity.
Qed.

Lemma plain_ascii_newline_indent level :
  forallb plain_ascii (newline_indent level) = true.
Proof.
  unfold newline_indent. cbn [forallb]. change (plain_ascii 10) with true.
  cbn [andb].
  induction (2 * level)%nat as [|k IH]; [reflexivity|].
  cbn [repeat forallb]. change (plain_ascii 32) with true. exact IH.
Qed.

(** The texts of the items of a list are made of code points of a kind
    when the text of each is. *)
Lemma encode_each_forallb {A : Type} (P : N -> bool)
  (enc : A -> outcome pystr) l :
  Forall (fun x => forall tx, enc x = Ok tx -> forallb P tx = true) l ->
  forall text, encode_each enc l = Ok text -> forallb P text = true.
Proof.
  induction 1 as [|x l Hx _ IH]; intros text H.
  - inversion H. reflexivity.
  - apply encode_each_cons_Ok in H. destruct H as (tx & rest & H1 & H2 & ->).
    rewrite forallb_app, (Hx _ H1), (IH _ H2). reflexivity.
Qed.

(** The encoder writes line feeds and printable ASCII only, as long as
    the text of a float is made of them. *)
Lemma plain_ascii_iterencode ft :
  (forall neg m e, forallb plain_ascii (ft neg m e) = true) ->
  forall v room level text,
    iterencode ft room level v = Ok text -> forallb plain_ascii text = true.
Proof.
  intros Hft.
  induction v as [|b|z|f|s|l IH|kvs IH] using pyval_nested_ind;
    intros room level text Henc.
  - (cbn [iterencode] in Henc; inversion Henc). reflexivity.
  - destruct b; (cbn [iterencode] in Henc; inversion Henc); reflexivity.
  - eapply plain_ascii_int. exact Henc.
  - cbn [iterencode] in Henc. destruct room; [discriminate|].
    (cbn [iterencode] in Henc; inversion Henc).
    destruct f as [|[|]|neg m e]; try reflexivity. apply Hft.
  - (cbn [iterencode] in Henc; inversion Henc). apply plain_ascii_string.
  - destruct l as [|x l]; [(cbn [iterencode] in Henc; inversion Henc); reflexivity|].
    inversion IH as [|? ? Hx Hl]; subst.
    cbn [iterencode] in Henc. destruct room as [|room]; [discriminate|].
    apply and_then_Ok in Henc. destruct Henc as (tx & Htx & Henc).
    apply and_then_Ok in Henc. destruct Henc as (rest & Hrest & Henc).
    apply Ok_inj in Henc. subst text.
    cbn [forallb]. change (plain_ascii 91) with true. cbn [andb].
    rewrite !forallb_app, plain_ascii_newline_indent, (Hx _ _ _ Htx),
      plain_ascii_newline_indent.
    cbn [forallb andb]. change (plain_ascii 93) with true.
    rewrite andb_true_r.
    refine (encode_each_forallb plain_ascii _ l _ rest Hrest).
    clear Hrest Htx Hx IH. induction Hl as [|y l Hy Hl IHl]; constructor; [|exact IHl].
    intros ty' H. apply and_then_Ok in H. destruct H as (ty & Hty & H).
    apply Ok_inj in H. subst ty'. cbn [forallb]. change (plain_ascii 44) with true.
    cbn [andb]. rewrite forallb_app, plain_ascii_newline_indent.
    exact (Hy _ _ _ Hty).
  - destruct kvs as [|[k x] kvs]; [(cbn [iterencode] in Henc; inversion Henc); reflexivity|].
    inversion IH as [|? ? Hx Hl]; subst. cbn [snd] in Hx.
    cbn [iterencode] in Henc. destruct room as [|room]; [discriminate|].
    apply and_then_Ok in Henc. destruct Henc as (tx & Htx & Henc).
    apply and_then_Ok in Henc. destruct Henc as (rest & Hrest & Henc).
    apply Ok_inj in Henc. subst text.
    cbn [forallb]. change (plain_ascii 123) with true. cbn [andb].
    rewrite !forallb_app, plain_ascii_newline_indent, plain_ascii_string,
      (Hx _ _ _ Htx), plain_ascii_newline_indent.
    cbn [forallb andb]. change (plain_ascii 58) with true.
    change (plain_ascii 32) with true. change (plain_ascii 125) with true.
    rewrite !andb_true_r. cbn [andb].
    refine (encode_each_forallb plain_ascii _ kvs _ rest Hrest).
    clear Hrest Htx Hx IH. induction Hl as [|[k' y] l Hy Hl IHl]; constructor;
      [|exact IHl].
    cbn [fst snd] in *.
    intros ty' H. apply and_then_Ok in H. destruct H as (ty & Hty & H).
    apply Ok_inj in H. subst ty'. cbn [forallb]. change (plain_ascii 44) with true.
    cbn [andb].
    rewrite !forallb_app, plain_ascii_newline_indent, plain_ascii_string.
    cbn [forallb andb]. change (plain_ascii 58) with true.
    change (plain_ascii 32) with true. cbn [andb].
    exact (Hy _ _ _ Hty).
Qed.

End RoundTrip.

(** ** The test runner *)

Section TestFacts.

Context {py : interpreter}.
Variable ft : bool -> N -> Z -> pystr.
Variable service : Type.
Variable agent_solve : pystr -> Z -> service -> outcome pyval * service.

(** The loop over two lists of questions, one after the other. *)
Lemma tests_loop_app qs1 :
  forall i qs2 st,
    tests_loop ft service agent_solve i (qs1 ++ qs2) st
    = match tests_loop ft service agent_solve i qs1 st with
      | (Ok _, st1) =>
          tests_loop ft service agent_solve
            (i + Z.of_nat (List.length qs1)) qs2 st1
      | (Raise e, st1) => (Raise e, st1)
      end.
Proof.
  induction qs1 as [|q qs1 IH]; intros i qs2 st.
  - cbn [app tests_loop List.length]. unfold ret.
    rewrite Z.add_0_r. reflexivity.
  - cbn [app tests_loop]. unfold bind.
    destruct (test_body ft service agent_solve i q st) as [[u|e] st1];
      [|reflexivity].
    rewrite IH.
    replace (i + 1 + Z.of_nat (List.length qs1))%Z
      with (i + Z.of_nat (List.length (q :: qs1)))%Z
      by (cbn [List.length]; lia).
    reflexivity.
Qed.

(** The body of the loop for a question on which [solve] raises: the two
    lines before the call are printed, nothing after. *)
Lemma test_body_raises i q st e s' :
  agent_solve q 1 (fst st) = (Raise e, s') ->
  test_body ft service agent_solve i q st
  = (Raise e,
     (s', snd st
          ++ [ [Text (lit "
--- Test "); Value (PyInt i); Text (lit " ---")];
               [Text (lit "Question: "); Value (PyStr q)] ])).
Proof.
  intros H. unfold test_body, bind, print, call_solve. cbn [fst snd].
  rewrite H. rewrite <- app_assoc. reflexivity.
Qed.

End TestFacts.

(** [all] over checks that are dicts. *)
Lemma all_passed_dicts cs :
  Forall (fun c => is_dict c = true) cs ->
  all_passed cs = Ok (forallb check_passed cs).
Proof.
  induction 1 as [|c cs Hc _ IH]; [reflexivity|].
  destruct c; try discriminate.
  cbn [all_passed py_get forallb]. unfold check_passed at 1. cbn [field].
  destruct (py_truthy _); [exact IH | reflexivity].
Qed.

(** What [run_tests] derives from the dict of a result of [solve] whose
    checks are dicts. *)
Lemma derive_result_dict r :
  Forall (fun c => is_dict c = true) (md_checks (metadata r)) ->
  derive (result_dict r)
  = Ok (match md_checks (metadata r) with
        | [] => match status r with success => true | failed => false end
        | _ :: _ => forallb check_passed (md_checks (metadata r))
        end,
        PyInt (md_retries (metadata r))).
Proof.
  intros H. unfold derive, result_dict, metadata_dict.
  cbn [py_get].
  change (dict_get _ (lit "status") PyNone)
    with (PyStr (status_text (status r))).
  change (dict_get _ (lit "metadata") (PyDict []))
    with (PyDict [ (lit "plan", match md_plan (metadata r) with
                                | Some p => PyStr p
                                | None => PyNone
                                end);
                   (lit "checks", PyList (md_checks (metadata r)));
                   (lit "retries", PyInt (md_retries (metadata r))) ]).
  cbn [py_get].
  change (dict_get _ (lit "checks") (PyList []))
    with (PyList (md_checks (metadata r))).
  change (dict_get _ (lit "retries") (PyInt 0))
    with (PyInt (md_retries (metadata r))).
  unfold verifier_passed. cbn [py_truthy].
  destruct (md_checks (metadata r)) as [|c cs] eqn:Hcs.
  - destruct (status r); reflexivity.
  - cbn [py_iter]. rewrite (all_passed_dicts _ H). reflexivity.
Qed.

(** ** Fence markers inside a string *)

Lemma erased_forallb (P : N -> bool) old s s' :
  erased old s s' -> forallb P s = true -> forallb P s' = true.
Proof.
  induction 1 as [|c s s' _ IH|s s' _ IH]; intros H.
  - reflexivity.
  - cbn [forallb] in *. apply andb_prop in H. destruct H as [-> H]. auto.
  - rewrite forallb_app in H. apply andb_prop in H. destruct H as [_ H]. auto.
Qed.

Lemma strip_fences_plain s :
  forallb plain_char s = true -> forallb plain_char (strip_fences s) = true.
Proof.
  intros H. unfold strip_fences.
  change (lit "```") with (96 :: lit "``").
  change (lit "```json") with (96 :: lit "``json").
  eapply erased_forallb; [apply replace_erased|].
  eapply erased_forallb; [apply replace_erased | exact H].
Qed.

(** Code points that stand for themselves are read as they are, up to
    the closing quote. *)
Lemma scanstring_plain p :
  forallb plain_char p = true ->
  forall r acc high,
    scanstring (p ++ 34 :: r) acc high = Parsed (rev acc ++ p) r.
Proof.
  induction p as [|c p IH]; intros Hp r acc high.
  - cbn. rewrite app_nil_r. reflexivity.
  - cbn [forallb] in Hp. apply andb_prop in Hp. destruct Hp as [Hc Hp].
    unfold plain_char in Hc.
    apply andb_prop in Hc. destruct Hc as [Hc H32].
    apply andb_prop in Hc. destruct Hc as [H34 H92].
    apply negb_true_iff in H34, H92, H32.
    cbn [app scanstring]. rewrite H34, H92, H32.
    rewrite (IH Hp). cbn [rev]. rewrite <- app_assoc. reflexivity.
Qed.

Lemma one_member_text k s :
  one_member k s = 123 :: 34 :: k ++ 34 :: 58 :: 32 :: 34 :: s ++ [34; 125].
Proof.
  unfold one_member.
  change (qlit "{@") with [123; 34]. change (qlit "@: @") with [34; 58; 32; 34].
  change (qlit "@}") with [34; 125].
  reflexivity.
Qed.


Lemma one_member_trimmed k s :
  trimmed (one_member k s) = true.
Proof.
  rewrite one_member_text. unfold trimmed. cbn [hd].
  change (py_isspace 123) with false. cbn [negb andb].
  replace (123 :: 34 :: k ++ 34 :: 58 :: 32 :: 34 :: s ++ [34; 125])
    with ((123 :: 34 :: k ++ 34 :: 58 :: 32 :: 34 :: s ++ [34]) ++ [125]).
  - rewrite last_last. reflexivity.
  - right_assoc. reflexivity.
Qed.

(** The fence removal in an object with one member works on the value
    alone, when the key holds no backquote. *)
Lemma strip_fences_one_member k s :
  occurs 96 k = false ->
  strip_fences (one_member k s) = one_member k (strip_fences s).
Proof.
  intros Hk. rewrite !one_member_text. unfold strip_fences.
  assert (H : forall old,
             old <> [] -> hd 0 old = 96 ->
             occurs 34 old = false -> occurs 125 old = false ->
             forall x,
               replace old [] (123 :: 34 :: k ++ 34 :: 58 :: 32 :: 34 :: x ++ [34; 125])
               = 123 :: 34 :: k ++ 34 :: 58 :: 32 :: 34 :: replace old [] x
                 ++ [34; 125]).
  { intros old Hne Hhd H34 H125 x.
    replace (123 :: 34 :: k ++ 34 :: 58 :: 32 :: 34 :: x ++ [34; 125])
      with ((123 :: 34 :: k ++ 34 :: 58 :: [32]) ++ 34 :: (x ++ 34 :: [125]))
      by (right_assoc; reflexivity).
    rewrite (replace_sep old [] _ 34 _ Hne H34).
    rewrite (replace_sep old [] x 34 [125] Hne H34).
    rewrite (replace_without_head old [] (123 :: 34 :: k ++ 34 :: 58 :: [32])).
    - rewrite (replace_without_head old [] [125]).
      + right_assoc. reflexivity.
      + exact Hne.
      + rewrite Hhd. reflexivity.
    - exact Hne.
    - rewrite Hhd. cbn [occurs existsb]. unfold occurs in Hk.
      change (96 =? 123) with false. change (96 =? 34) with false.
      cbn [orb]. rewrite existsb_app, Hk. reflexivity. }
  rewrite (H (lit "```json")) by (discriminate || reflexivity).
  rewrite (H (lit "```")) by (discriminate || reflexivity).
  reflexivity.
Qed.

(** ** The question and the retry budget *)

Section Blind.

Context {py : interpreter}.
Variable service : Type.
Variable generate_content :
  prompt -> service -> outcome (option pystr) * service.

(** A service that answers without looking at the prompt. *)
Hypothesis blind : forall p1 p2 st, generate_content p1 st = generate_content p2 st.

Lemma gemini_call_blind p1 p2 st :
  gemini_call service generate_content p1 st
  = gemini_call service generate_content p2 st.
Proof. unfold gemini_call, bind. rewrite (blind p1 p2). reflexivity. Qed.

Lemma attempt_body_blind q1 q2 attempt md st :
  attempt_body service generate_content q1 attempt md st
  = attempt_body service generate_content q2 attempt md st.
Proof.
  unfold attempt_body, plan, execute, verify_llm, bind, lift, ret.
  rewrite (gemini_call_blind (plan_prompt q1) (plan_prompt q2)).
  destruct (gemini_call service generate_content (plan_prompt q2) st)
    as [[t|e] st1]; [|reflexivity].
  rewrite (gemini_call_blind (execute_prompt q1 (strip t))
             (execute_prompt q2 (strip t))).
  destruct (gemini_call service generate_content
              (execute_prompt q2 (strip t)) st1) as [[t2|e] st2];
    [|reflexivity].
  destruct (json_loads (fence_stripped t2)) as [x|e]; [|reflexivity].
  destruct (py_get x (lit "proposed_answer") (PyStr [])) as [pa|e];
    [|reflexivity].
  destruct (py_get x (lit "explanation") (PyStr [])) as [ex|e];
    [|reflexivity].
  rewrite (gemini_call_blind (verify_prompt q1 pa ex) (verify_prompt q2 pa ex)).
  reflexivity.
Qed.

Lemma solve_loop_blind q1 q2 attempts :
  forall md st,
    solve_loop service generate_content q1 attempts md st
    = solve_loop service generate_content q2 attempts md st.
Proof.
  induction attempts as [|attempt rest IH]; intros md st; [reflexivity|].
  cbn [solve_loop]. unfold bind.
  rewrite (attempt_body_blind q1 q2).
  destruct (attempt_body service generate_content q2 attempt md st)
    as [[a|e] st1]; [|reflexivity].
  destruct (att_return a); [reflexivity | apply IH].
Qed.

End Blind.

Section Budget.

Context {py : interpreter}.
Variable service : Type.
Variable generate_content :
  prompt -> service -> outcome (option pystr) * service.

(** A loop that ended with a success or with an exception ends the same
    way when more values of [attempt] follow. *)
Lemma solve_loop_app_decided question l1 l2 :
  forall md st,
    (forall r st',
        solve_loop service generate_content question l1 md st = (Ok r, st') ->
        status r = success ->
        solve_loop service generate_content question (l1 ++ l2) md st
        = (Ok r, st'))
    /\
    (forall e st',
        solve_loop service generate_content question l1 md st = (Raise e, st') ->
        solve_loop service generate_content question (l1 ++ l2) md st
        = (Raise e, st')).
Proof.
  induction l1 as [|attempt l1 IH]; intros md st.
  - split.
    + intros r st' H Hs. cbn in H. inversion H; subst. discriminate.
    + intros e st' H. discriminate.
  - cbn [solve_loop app]. unfold bind.
    destruct (attempt_body service generate_content question attempt md st)
      as [[a|e0] st1].
    + destruct (att_return a) as [r0|].
      * split; intros ? ? H; try intros _; exact H.
      * apply IH.
    + split; intros ? ? H; try intros _; exact H.
Qed.

Lemma py_range_app m m' :
  (m <= m')%Z -> exists rest, py_range m' = py_range m ++ rest.
Proof.
  intros H. unfold py_range.
  exists (map Z.of_nat (seq (Z.to_nat m) (Z.to_nat m' - Z.to_nat m))).
  rewrite <- map_app, <- seq_app. do 2 f_equal. lia.
Qed.

End Budget.

(** ** Checks that are no dicts *)

(** [all] stops at the first check that is false, and raises at the
    first that has no [get] when every check before it is true. *)
Lemma all_passed_app cs1 c cs2 :
  Forall (fun c => is_dict c = true) cs1 -> is_dict c = false ->
  all_passed (cs1 ++ c :: cs2)
  = if forallb check_passed cs1 then Raise AttributeError else Ok false.
Proof.
  intros H Hc. induction H as [|d cs1 Hd _ IH].
  - cbn [app all_passed forallb]. destruct c; try discriminate; reflexivity.
  - destruct d; try discriminate.
    cbn [app all_passed py_get forallb]. unfold check_passed at 1.
    cbn [field]. destruct (py_truthy _); [exact IH | reflexivity].
Qed.

(** What [run_tests] derives from the dict of a result of [solve]. *)
Lemma derive_of_result r :
  derive (result_dict r)
  = match verifier_passed (PyStr (status_text (status r)))
            (PyList (md_checks (metadata r))) with
    | Ok vp => Ok (vp, PyInt (md_retries (metadata r)))
    | Raise e => Raise e
    end.
Proof. reflexivity. Qed.

(** ** Control characters inside a string *)

Lemma scanstring_control p c r :
  forallb plain_char p = true -> (c <? 32) = true ->
  forall acc high, scanstring (p ++ c :: r) acc high = Invalid.
Proof.
  intros Hp Hc. apply N.ltb_lt in Hc.
  induction p as [|x p IH]; intros acc high.
  - cbn [app scanstring].
    assert (E34 : (c =? 34) = false) by (apply N.eqb_neq; lia).
    assert (E92 : (c =? 92) = false) by (apply N.eqb_neq; lia).
    assert (E32 : (c <? 32) = true) by (apply N.ltb_lt; lia).
    rewrite E34, E92, E32. reflexivity.
  - cbn [forallb] in Hp. apply andb_prop in Hp. destruct Hp as [Hx Hp].
    unfold plain_char in Hx.
    apply andb_prop in Hx. destruct Hx as [Hx H32].
    apply andb_prop in Hx. destruct Hx as [H34 H92].
    apply negb_true_iff in H34, H92, H32.
    cbn [app scanstring]. rewrite H34, H92, H32. apply (IH Hp).
Qed.

(** A control character in the string of an object with one member is
    refused with [JSONDecodeError], when one level inside the dict the
    decoder has the room it needs to raise it. *)
Lemma json_loads_control {py : interpreter} k p c s :
  (error_room < decoder_room)%nat ->
  forallb plain_char k = true -> forallb plain_char p = true ->
  (c <? 32) = true ->
  json_loads (one_member k (p ++ c :: s)) = Raise JSONDecodeError.
Proof.
  intros Hroom Hk Hp Hc. rewrite one_member_text. unfold json_loads.
  destruct decoder_room as [|room]; [lia|].
  cbn [startswith]. change (65279 =? 123) with false. cbn [andb].
  rewrite (skip_ws_head 123) by reflexivity.
  set (text := 123 :: 34 :: k ++ 34 :: 58 :: 32 :: 34 :: (p ++ c :: s) ++ [34; 125]).
  assert (H3 : scan_once 3 (S room) text = Invalid).
  { subst text. rewrite scan_once_object.
    rewrite (skip_ws_head 34) by reflexivity.
    change (34 =? 125) with false. change (34 =? 34) with true. cbv iota.
    rewrite object_items_S, (scanstring_plain k Hk).
    cbn [rev app]. rewrite (skip_ws_head 58) by reflexivity.
    change (58 =? 58) with true. cbv iota.
    rewrite skip_ws_space, (skip_ws_head 34) by reflexivity.
    rewrite scan_once_string, <- app_assoc. cbn [app].
    rewrite (scanstring_control p c _ Hp Hc). unfold refused.
    assert (E : (room <? error_room)%nat = false)
      by (apply Nat.ltb_ge; lia).
    rewrite E. reflexivity. }
  destruct (decoder_fuel_mono 3) as [Hmono _].
  rewrite (Hmono (S room) text (S (2 * List.length text)));
    [rewrite H3; reflexivity | rewrite H3; discriminate |].
  subst text. cbn [List.length]. lia.
Qed.

Lemma control_not_in_marker c :
  (c <? 32) = true ->
  occurs c (lit "```json") = false /\ occurs c (lit "```") = false.
Proof.
  intros H. apply N.ltb_lt in H.
  change (lit "```json") with [96; 96; 96; 106; 115; 111; 110].
  change (lit "```") with [96; 96; 96].
  unfold occurs. cbn [existsb].
  assert (E1 : (c =? 96) = false) by (apply N.eqb_neq; lia).
  assert (E2 : (c =? 106) = false) by (apply N.eqb_neq; lia).
  assert (E3 : (c =? 115) = false) by (apply N.eqb_neq; lia).
  assert (E4 : (c =? 111) = false) by (apply N.eqb_neq; lia).
  assert (E5 : (c =? 110) = false) by (apply N.eqb_neq; lia).
  rewrite E1, E2, E3, E4, E5. split; reflexivity.
Qed.

Lemma strip_fences_control p c s :
  (c <? 32) = true ->
  strip_fences (p ++ c :: s) = strip_fences p ++ c :: strip_fences s.
Proof.
  intros Hc. destruct (control_not_in_marker c Hc) as [H1 H2].
  unfold strip_fences.
  rewrite (replace_sep (lit "```json") [] p c s) by (discriminate || exact H1).
  rewrite (replace_sep (lit "```") [] _ c _) by (discriminate || exact H2).
  reflexivity.
Qed.

(** ** An object with two members *)




(** ** A fence with another tag *)

Lemma strip_fences_other_tag c s :
  (c =? 96) = false -> (c =? 106) = false ->
  strip_fences (96 :: 96 :: 96 :: c :: s) = c :: strip_fences s.
Proof.
  intros H96 H106. unfold strip_fences.
  assert (E96 : (96 =? c) = false) by (rewrite N.eqb_sym; exact H96).
  assert (E106 : (106 =? c) = false) by (rewrite N.eqb_sym; exact H106).
  change (lit "```json") with [96; 96; 96; 106; 115; 111; 110].
  change (lit "```") with [96; 96; 96].
  assert (H1 : replace [96; 96; 96; 106; 115; 111; 110] []
                 (96 :: 96 :: 96 :: c :: s)
               = 96 :: 96 :: 96 :: c
                 :: replace [96; 96; 96; 106; 115; 111; 110] [] s).
  { rewrite !replace_cons_other; [reflexivity | | | |];
      cbn [startswith]; change (96 =? 96) with true; cbn [andb];
      rewrite ?E96, ?E106; reflexivity. }
  rewrite H1. unfold replace at 1. cbn [replace_from startswith].
  change (96 =? 96) with true. cbn [andb app List.length pred].
  rewrite E96. reflexivity.
Qed.

(** ** The calls of the test script *)

Section ScriptFacts.

Context {py : interpreter}.
Variable ft : bool -> N -> Z -> pystr.
Variable service : Type.
Variable generate_content :
  prompt -> service -> outcome (option pystr) * service.

(** One call of [solve] with one retry sends six prompts at most. *)
Lemma solve_dict_recording q st l :
  exists sent,
    snd (solve_dict (recorded service) (recording service generate_content)
           q 1 (st, l))
    = (snd (solve service generate_content q 1 st), l ++ sent)
    /\ (List.length sent <= 6)%nat.
Proof.
  unfold solve_dict, solve. rewrite !solve_loop_attempts.
  destruct (attempts_of_recording service generate_content q
              (py_range (1 + 1)) initial_metadata st l)
    as (sent & -> & Hn & _).
  exists sent. split; [|exact Hn].
  destruct (attempts_of service generate_content q (py_range (1 + 1))
              initial_metadata st) as [[log|e] st1]; reflexivity.
Qed.

Lemma adds_bind {A B : Type} (c : M (console (recorded service)) A)
  (k : A -> M (console (recorded service)) B) p1 l1 p2 l2 :
  adds service c p1 l1 -> (forall a, adds service (k a) p2 l2) ->
  adds service (bind (console (recorded service)) c k) (p1 + p2) (l1 + l2).
Proof.
  intros Hc Hk st l out. unfold bind.
  destruct (Hc st l out) as (s1 & o1 & E1 & E1' & Hs1 & Ho1).
  destruct (c (st, l, out)) as [[a|e] [[st1 l1'] out1]]; cbn [fst snd] in *;
    subst l1' out1.
  - destruct (Hk a st1 (l ++ s1) (out ++ o1))
      as (s2 & o2 & E2 & E2' & Hs2 & Ho2).
    exists (s1 ++ s2), (o1 ++ o2).
    rewrite <- app_assoc in E2, E2'. rewrite !length_app.
    split; [exact E2|]. split; [exact E2'|]. split; lia.
  - exists s1, o1. split; [reflexivity|]. split; [reflexivity|]. split; lia.
Qed.

Lemma adds_print line : adds service (print (recorded service) line) 0 1.
Proof.
  intros st l out. exists [], [line]. unfold print. cbn [fst snd].
  rewrite app_nil_r. repeat split; cbn; lia.
Qed.

Lemma adds_lift {A : Type} (o : outcome A) :
  adds service (lift (console (recorded service)) o) 0 0.
Proof.
  intros st l out. exists [], []. unfold lift. cbn [fst snd].
  rewrite !app_nil_r. repeat split; cbn; lia.
Qed.

Lemma adds_ret {A : Type} (a : A) :
  adds service (ret (console (recorded service)) a) 0 0.
Proof.
  intros st l out. exists [], []. unfold ret. cbn [fst snd].
  rewrite !app_nil_r. repeat split; cbn; lia.
Qed.

Lemma adds_call_solve q :
  adds service
    (call_solve (recorded service)
       (solve_dict (recorded service) (recording service generate_content))
       q 1) 6 0.
Proof.
  intros st l out. unfold call_solve. cbn [fst snd].
  destruct (solve_dict_recording q st l) as (sent & E & Hn).
  destruct (solve_dict (recorded service) (recording service generate_content)
              q 1 (st, l)) as [o [st1 l1]].
  cbn [fst snd] in *. inversion E; subst.
  exists sent, []. rewrite app_nil_r. repeat split; cbn; lia.
Qed.

Lemma adds_test_body i q :
  adds service (test_body ft (recorded service)
          (solve_dict (recorded service) (recording service generate_content))
          i q) 6 6.
Proof.
  unfold test_body.
  change 6%nat with (0 + (0 + (6 + (0 + (0 + (0 + (0 + (0 + 0))))))))%nat at 1.
  change 6%nat with (1 + (1 + (0 + (1 + (0 + (1 + (0 + (1 + 1))))))))%nat.
  apply adds_bind; [apply adds_print | intros _].
  apply adds_bind; [apply adds_print | intros _].
  apply adds_bind; [apply adds_call_solve | intros result].
  apply adds_bind; [apply adds_print | intros _].
  apply adds_bind; [apply adds_lift | intros text].
  apply adds_bind; [apply adds_print | intros _].
  apply adds_bind; [apply adds_lift | intros d].
  apply adds_bind; [apply adds_print | intros _].
  apply adds_print.
Qed.

Lemma adds_tests_loop qs :
  forall i,
    adds service (tests_loop ft (recorded service)
            (solve_dict (recorded service) (recording service generate_content))
            i qs) (6 * List.length qs) (6 * List.length qs).
Proof.
  induction qs as [|q qs IH]; intros i.
  - apply adds_ret.
  - cbn [tests_loop List.length].
    replace (6 * S (List.length qs))%nat
      with (6 + 6 * List.length qs)%nat by lia.
    apply adds_bind; [apply adds_test_body | intros _; apply IH].
Qed.

Lemma adds_run_tests qs label :
  adds service (run_tests ft (recorded service)
          (solve_dict (recorded service) (recording service generate_content))
          qs label) (6 * List.length qs) (1 + 6 * List.length qs).
Proof.
  unfold run_tests.
  change (6 * List.length qs)%nat with (0 + 6 * List.length qs)%nat at 1.
  apply adds_bind; [apply adds_print | intros _; apply adds_tests_loop].
Qed.

End ScriptFacts.

(** ** The text of a dict as an answer of the service *)



(** ** Answers beyond the limits of the interpreter *)

(** Lists opened one inside the other, more of them than the decoder has
    room for: the interpreter raises at the bracket that has no room,
    before the decoder looks at what follows. *)
Lemma scan_once_deep {py : interpreter} t :
  forall room n fuel,
    (room < n)%nat -> (2 * S room <= fuel)%nat ->
    scan_once fuel room (repeat 91 n ++ t) = Failed RecursionError.
Proof.
  induction room as [|room IH]; intros n fuel Hn Hf.
  - destruct n as [|n]; [lia|]. destruct fuel as [|fuel]; [lia|]. reflexivity.
  - destruct n as [|[|n]]; try lia.
    destruct fuel as [|[|fuel]]; try lia.
    cbn [repeat app]. rewrite scan_once_array.
    rewrite (skip_ws_head 91) by reflexivity.
    change (91 =? 93) with false. cbv iota.
    rewrite array_items_S.
    change (91 :: repeat 91 n ++ t) with (repeat 91 (S n) ++ t).
    rewrite IH by lia. reflexivity.
Qed.

Lemma json_loads_deep {py : interpreter} n t :
  (decoder_room < n)%nat ->
  json_loads (repeat 91 n ++ t) = Raise RecursionError.
Proof.
  intros Hn. unfold json_loads. destruct n as [|n]; [lia|].
  cbn [repeat app startswith]. change (65279 =? 91) with false. cbn [andb].
  rewrite (skip_ws_head 91) by reflexivity.
  change (91 :: repeat 91 n ++ t) with (repeat 91 (S n) ++ t).
  rewrite scan_once_deep; [reflexivity | exact Hn |].
  rewrite length_app, repeat_length. lia.
Qed.

Lemma occurs_repeat c d n : c <> d -> occurs c (repeat d n) = false.
Proof.
  intros H. unfold occurs. induction n as [|n IH]; [reflexivity|].
  cbn [repeat existsb]. rewrite IH, orb_false_r. apply N.eqb_neq. exact H.
Qed.

Lemma occurs_app c a b : occurs c (a ++ b) = occurs c a || occurs c b.
Proof. unfold occurs. apply existsb_app. Qed.

Lemma brackets_trimmed n :
  (0 < n)%nat -> trimmed (repeat 91 n ++ repeat 93 n) = true.
Proof.
  intros Hn. destruct n as [|n]; [lia|]. unfold trimmed.
  cbn [repeat app hd]. change (py_isspace 91) with false. cbn [negb andb].
  rewrite (repeat_cons n 93), app_assoc, app_comm_cons, last_last.
  reflexivity.
Qed.

(** The answer of the service that is so many brackets, opened and
    closed, reaches the decoder as it is. *)
Lemma decode_deep {py : interpreter} n :
  (decoder_room < n)%nat ->
  decode (repeat 91 n ++ repeat 93 n) = Raise RecursionError.
Proof.
  intros Hn. unfold decode, fence_stripped.
  rewrite strip_of_trimmed by (apply brackets_trimmed; lia).
  rewrite strip_fences_clean
    by (rewrite occurs_app, !occurs_repeat by discriminate; reflexivity).
  apply json_loads_deep. exact Hn.
Qed.

Lemma is_digit_cases c :
  is_digit c = true ->
  c = 48 \/ c = 49 \/ c = 50 \/ c = 51 \/ c = 52 \/ c = 53 \/ c = 54 \/
  c = 55 \/ c = 56 \/ c = 57.
Proof.
  unfold is_digit. intros H. apply andb_prop in H. destruct H as [H1 H2].
  apply N.leb_le in H1, H2. lia.
Qed.

Lemma is_digit_not_space c : is_digit c = true -> py_isspace c = false.
Proof.
  intros H. apply is_digit_cases in H.
  repeat (destruct H as [-> | H]; [reflexivity|]). subst. reflexivity.
Qed.

Lemma is_digit_not_backquote c : is_digit c = true -> (96 =? c) = false.
Proof.
  intros H. apply is_digit_cases in H.
  repeat (destruct H as [-> | H]; [reflexivity|]). subst. reflexivity.
Qed.

Lemma forallb_last {A : Type} (P : A -> bool) l d :
  forallb P l = true -> l <> [] -> P (last l d) = true.
Proof.
  induction l as [|x l IH]; intros H Hne; [congruence|].
  cbn [forallb] in H. apply andb_prop in H. destruct H as [Hx Hl].
  destruct l as [|y l]; [exact Hx|].
  change (last (x :: y :: l) d) with (last (y :: l) d).
  apply IH; [exact Hl | discriminate].
Qed.

(** A literal of digits with no zero in front is an integer of so many
    digits. *)
Lemma match_number_digits d ds :
  is_digit d = true -> d <> 48 -> forallb is_digit ds = true ->
  exists z,
    match_number (d :: ds) = Some (PyInt z, []) /\
    int_digits (d :: ds) = List.length (d :: ds).
Proof.
  intros Hd H0 Hds. apply N.eqb_neq in H0.
  pose proof (span_digits_all ds [] Hds eq_refl) as Hsp.
  rewrite app_nil_r in Hsp.
  unfold match_number, int_digits, match_sign, match_int.
  rewrite (is_digit_not_minus _ Hd). cbn [snd]. rewrite H0, Hd, Hsp.
  eexists. split; reflexivity.
Qed.

(** Digits, more of them than [int] accepts: [json.loads] ends with the
    [ValueError] of [int]. *)
Lemma json_loads_digits {py : interpreter} d ds :
  is_digit d = true -> d <> 48 -> forallb is_digit ds = true ->
  (0 < int_max_str_digits)%nat ->
  (int_max_str_digits < List.length (d :: ds))%nat ->
  json_loads (d :: ds) = Raise ValueError.
Proof.
  intros Hd H0 Hds Hpos Hlen.
  destruct (match_number_digits d ds Hd H0 Hds) as (z & Hm & Hn).
  assert (H3 : (d =? 34) = false /\ (d =? 123) = false /\ (d =? 91) = false
               /\ (65279 =? d) = false).
  { unfold is_digit in Hd. apply andb_prop in Hd. destruct Hd as [H1 H2].
    apply N.leb_le in H1, H2. repeat split; apply N.eqb_neq; lia. }
  destruct H3 as (E1 & E2 & E3 & E4).
  unfold json_loads. cbn [startswith]. rewrite E4. cbn [andb].
  rewrite skip_ws_head
    by (apply not_isspace_not_ws; apply is_digit_not_space; exact Hd).
  cbn [scan_once]. rewrite E1, E2, E3.
  rewrite (match_constant_not_number d ds (or_intror Hd)), Hm, Hn.
  unfold over_int_limit.
  assert (Ea : (0 <? int_max_str_digits)%nat = true)
    by (apply Nat.ltb_lt; exact Hpos).
  assert (Eb : (int_max_str_digits <? List.length (d :: ds))%nat = true)
    by (apply Nat.ltb_lt; exact Hlen).
  rewrite Ea, Eb. reflexivity.
Qed.

Lemma decode_digits {py : interpreter} d ds :
  is_digit d = true -> d <> 48 -> forallb is_digit ds = true ->
  (0 < int_max_str_digits)%nat ->
  (int_max_str_digits < List.length (d :: ds))%nat ->
  decode (d :: ds) = Raise ValueError.
Proof.
  intros Hd H0 Hds Hpos Hlen. unfold decode, fence_stripped.
  assert (Hall : forallb is_digit (d :: ds) = true)
    by (cbn [forallb]; rewrite Hd, Hds; reflexivity).
  rewrite strip_of_trimmed.
  - rewrite strip_fences_clean; [apply json_loads_digits; assumption|].
    unfold occurs. apply not_true_is_false. intros H.
    apply existsb_exists in H. destruct H as (c & Hin & Hc).
    rewrite forallb_forall in Hall.
    rewrite (is_digit_not_backquote c (Hall c Hin)) in Hc. discriminate.
  - unfold trimmed. cbn [hd]. rewrite (is_digit_not_space d Hd).
    cbn [negb andb].
    rewrite is_digit_not_space; [reflexivity|].
    apply forallb_last; [exact Hall | discriminate].
Qed.
(** * The claims *)

(** The closed examples run on the interpreter of the sample answers. *)
#[global] Existing Instance script_interpreter.

(** C1, as amended.  When [solve] returns a result with status [success],
    the run ends with a pass whose verdict has a [passed] value (the field,
    or [False] when the verdict has none) that is true in an [if], which
    for a boolean means [True]; and the answer returned is that pass's
    [proposed_answer], or the empty string when the execution result has
    none. *)
Theorem success_means_last_verdict_truthy {py : interpreter}
  (service : Type)
  (generate_content : prompt -> service -> outcome (option pystr) * service)
  (question : pystr) (max_retries : Z) (st st' : service) (r : final_result) :
  solve service generate_content question max_retries st = (Ok r, st') ->
  status r = success ->
  exists earlier last passed,
    solve_attempts service generate_content question max_retries st
    = (Ok (earlier ++ [last]), st') /\
    verdict_passed (att_verdict last) = Ok passed /\
    py_truthy passed = true /\
    (forall b, passed = PyBool b -> b = true) /\
    py_get (att_exec last) (lit "proposed_answer") (PyStr []) = Ok (answer r).
Proof.
  unfold solve, solve_attempts. intros H Hs.
  rewrite solve_loop_attempts in H.
  destruct (attempts_of _ _ _ _ _ _) as [[log|e] st1] eqn:Hlog; [|discriminate].
  inversion H; subst r st1; clear H.
  pose proof (attempts_of_passes _ _ _ _ _ _ _ _ Hlog) as Hp.
  destruct (passes_last _ _ _ Hp)
    as [(_ & _ & Hres) | (earlier & last & mdl & att & -> & _ & Hsl & [Hret | [_ Hres]])].
  - rewrite Hres in Hs. discriminate.
  - destruct (pass_spec_return _ _ _ _ Hsl Hret)
      as (ke & kv & expl & He & Hv & Ht & _ & Hr).
    exists earlier, last, (dict_get kv (lit "passed") (PyBool false)).
    repeat split.
    + unfold verdict_passed. rewrite Hv. reflexivity.
    + exact Ht.
    + intros b Hb. rewrite Hb in Ht. exact Ht.
    + rewrite He, Hr. reflexivity.
  - rewrite Hres in Hs. discriminate.
Qed.

Lemma success_means_last_verdict_truthy_witness :
  exists r,
    solve script scripted (lit "What is 2 + 2?") 1 two_pass_script = (Ok r, []) /\
    status r = success /\
    exists earlier last passed,
      solve_attempts script scripted (lit "What is 2 + 2?") 1 two_pass_script
      = (Ok (earlier ++ [last]), []) /\
      verdict_passed (att_verdict last) = Ok passed /\
      py_truthy passed = true /\
      (forall b, passed = PyBool b -> b = true) /\
      py_get (att_exec last) (lit "proposed_answer") (PyStr []) = Ok (answer r).
Proof.
  eexists. split; [vm_compute; reflexivity|]. split; [reflexivity|].
  eapply success_means_last_verdict_truthy.
  - vm_compute. reflexivity.
  - reflexivity.
Defined.

(** C1 as stated fails: the verdict [{"passed": "false"}] holds a string,
    which is true in an [if] whatever it spells, so the run succeeds
    although [passed == True] does not hold of the last verdict. *)
Lemma success_with_passed_not_true :
  exists r last,
    solve script scripted (lit "What is 2 + 2?") 0
      (pass (lit "1. Add the numbers.")
            (qlit "{@proposed_answer@: @5@, @explanation@: @2 + 2 = 5@}")
            (qlit "{@passed@: @false@, @checks@: [], @issues@: @wrong sum@}"))
    = (Ok r, []) /\
    status r = success /\
    answer r = PyStr (lit "5") /\
    solve_attempts script scripted (lit "What is 2 + 2?") 0
      (pass (lit "1. Add the numbers.")
            (qlit "{@proposed_answer@: @5@, @explanation@: @2 + 2 = 5@}")
            (qlit "{@passed@: @false@, @checks@: [], @issues@: @wrong sum@}"))
    = (Ok [last], []) /\
    verdict_passed (att_verdict last) = Ok (PyStr (lit "false")) /\
    py_eq_True (PyStr (lit "false")) = false.
Proof.
  eexists. eexists.
  split; [vm_compute; reflexivity|].
  repeat split; vm_compute; reflexivity.
Qed.

(** C2, as amended.  For [max_retries >= 0], when each of the
    [max_retries + 1] passes runs to its end (both answers decode to dicts
    and the [checks] of the verdict can be iterated) with a verdict whose
    [passed] is false, [solve] returns: the status is [failed], the answer
    is the empty string, the reasoning is the fixed sentence, and the
    metadata holds the plan of the last pass, the checks of all the passes
    in order, and [max_retries] as [retries].  Nothing after the answers
    of these passes is read. *)
Theorem exhausted_retries_return_failure {py : interpreter}
  (question : pystr) (max_retries : Z) (entries : list entry)
  (per : list (list pyval)) (sc : script) :
  (0 <= max_retries)%Z ->
  Z.of_nat (List.length entries) = (max_retries + 1)%Z ->
  Forall2 rejected entries per ->
  run question max_retries (script_of entries ++ sc)
  = (Ok {| answer := PyStr [];
           status := failed;
           reasoning_visible_to_user :=
             lit "The agent could not find a consistent solution after verification.";
           metadata :=
             {| md_plan :=
                  Some (strip (last (map (fun en => fst (fst en)) entries) []));
                md_checks := List.concat per;
                md_retries := max_retries |} |}, sc).
Proof.
  intros Hn Hlen Hall. unfold run, solve.
  assert (Hl : List.length entries = List.length (py_range (max_retries + 1)))
    by (rewrite py_range_length; lia).
  rewrite (solve_loop_all_rejected _ _ per) by (auto; lia).
  rewrite Hl, skipn_all. cbn [solve_loop]. unfold ret, all_retries_fail.
  pose proof (Forall2_length Hall) as Hper.
  destruct (py_range_succ_last _ Hn) as [Hlast Hne].
  assert (Hplans : List.length (map (fun en : entry => fst (fst en)) entries)
                   = List.length per) by (rewrite length_map; exact Hper).
  destruct (md_after_last (py_range (max_retries + 1)) initial_metadata
              (map (fun en => fst (fst en)) entries) per Hplans
              ltac:(congruence) Hne) as [Hr Hp].
  pose proof (md_after_checks (py_range (max_retries + 1)) initial_metadata
                (map (fun en => fst (fst en)) entries) per Hplans
                ltac:(lia)) as Hc.
  destruct (md_after _ _ _ _) as [pl ch re]. cbn in Hr, Hp, Hc.
  rewrite Hr, Hp, Hc, Hlast. reflexivity.
Qed.

Lemma exhausted_retries_return_failure_witness :
  (0 <= 1)%Z /\
  Z.of_nat (List.length two_rejections) = (1 + 1)%Z /\
  Forall2 rejected two_rejections [ []; [PyStr (lit "sum")] ] /\
  run (lit "What is 2 + 2?") 1 (script_of two_rejections ++ [])
  = (Ok {| answer := PyStr [];
           status := failed;
           reasoning_visible_to_user :=
             lit "The agent could not find a consistent solution after verification.";
           metadata :=
             {| md_plan :=
                  Some (strip (last (map (fun en : entry => fst (fst en))
                                       two_rejections) []));
                md_checks := List.concat [ []; [PyStr (lit "sum")] ];
                md_retries := 1 |} |}, []).
Proof.
  assert (H : Forall2 rejected two_rejections [ []; [PyStr (lit "sum")] ]).
  { repeat constructor; unfold rejected; do 2 eexists;
      (split; [vm_compute; reflexivity|]);
      (split; [vm_compute; reflexivity|]);
      split; vm_compute; reflexivity. }
  split; [lia|]. split; [reflexivity|]. split; [exact H|].
  apply exhausted_retries_return_failure; [lia | reflexivity | exact H].
Defined.

(** C2 as stated fails: a verdict whose [passed] is false is not enough
    for [solve] to return the failure.  The checks are appended before
    [passed] is looked at, and with the verdict
    [{"passed": false, "checks": null}] the call of [extend] raises
    [TypeError]: the one pass of the run has a verdict with [passed] false
    and [solve] returns no result. *)
Lemma rejected_verdict_with_null_checks_raises :
  decode (qlit "{@passed@: false, @checks@: null}")
  = Ok (PyDict [(lit "passed", PyBool false); (lit "checks", PyNone)]) /\
  verdict_passed (PyDict [(lit "passed", PyBool false); (lit "checks", PyNone)])
  = Ok (PyBool false) /\
  run (lit "What is 2 + 2?") 0
    (pass (lit "1. Add the numbers.")
          (qlit "{@proposed_answer@: @5@, @explanation@: @2 + 2 = 5@}")
          (qlit "{@passed@: false, @checks@: null}"))
  = (Raise TypeError, []).
Proof. repeat split; vm_compute; reflexivity. Qed.

(** C3.  For [max_retries >= 0] the loop body is entered at most
    [max_retries + 1] times, whether the run returns or raises; when the
    run returns, the passes are numbered from zero, [retries] in the
    returned metadata is the number of the last pass, and it lies between
    zero and [max_retries]. *)
Theorem retries_is_index_of_last_pass {py : interpreter}
  (service : Type)
  (generate_content : prompt -> service -> outcome (option pystr) * service)
  (question : pystr) (max_retries : Z) (st : service) :
  (0 <= max_retries)%Z ->
  (Z.of_nat (solve_attempts_started service generate_content question
               max_retries st) <= max_retries + 1)%Z /\
  forall r st',
    solve service generate_content question max_retries st = (Ok r, st') ->
    exists earlier last,
      solve_attempts service generate_content question max_retries st
      = (Ok (earlier ++ [last]), st') /\
      solve_attempts_started service generate_content question max_retries st
      = List.length (earlier ++ [last]) /\
      map att_index (earlier ++ [last])
      = py_range (Z.of_nat (List.length (earlier ++ [last]))) /\
      md_retries (metadata r) = att_index last /\
      att_index last = Z.of_nat (List.length earlier) /\
      (0 <= md_retries (metadata r) <= max_retries)%Z.
Proof.
  intros Hn. unfold solve_attempts_started, solve, solve_attempts. split.
  - pose proof (attempts_started_le service generate_content question
                  (py_range (max_retries + 1)) initial_metadata st) as H.
    rewrite py_range_length in H. lia.
  - intros r st' H. rewrite solve_loop_attempts in H.
    destruct (attempts_of _ _ _ _ _ _) as [[log|e] st1] eqn:Hlog; [|discriminate].
    inversion H; subst r st1; clear H.
    pose proof (attempts_of_passes _ _ _ _ _ _ _ _ Hlog) as Hp.
    pose proof (attempts_started_log _ _ _ _ _ _ _ _ Hlog) as Hstarted.
    pose proof (passes_indices _ _ _ Hp) as Hidx.
    pose proof (result_of_metadata _ _ _ Hp) as Hmd.
    destruct (passes_length _ _ _ Hp) as [Hlen _].
    rewrite py_range_length in Hlen.
    rewrite py_range_firstn in Hidx by exact Hlen.
    destruct (passes_last _ _ _ Hp)
      as [(_ & Hr & _) | (earlier & last & mdl & att & -> & _ & Hsl & _)].
    + exfalso. apply (f_equal (@List.length Z)) in Hr.
      rewrite py_range_length in Hr. cbn in Hr. lia.
    + exists earlier, last.
      rewrite rev_app_distr in Hmd. cbn in Hmd.
      destruct (pass_spec_metadata _ _ _ Hsl) as (Hi & Hret & _).
      assert (Hlast : att_index last = Z.of_nat (List.length earlier)).
      { rewrite length_app, Nat.add_comm in Hidx. cbn [List.length Nat.add] in Hidx.
        rewrite py_range_last, map_app in Hidx. cbn [map] in Hidx.
        apply app_inj_tail in Hidx. tauto. }
      repeat split; auto.
      * rewrite Hmd, Hret. symmetry. exact Hi.
      * rewrite Hmd, Hret, <- Hi, Hlast. lia.
      * rewrite Hmd, Hret, <- Hi, Hlast.
        rewrite length_app in Hlen. cbn in Hlen. lia.
Qed.

Lemma retries_is_index_of_last_pass_witness :
  (0 <= 1)%Z /\
  (Z.of_nat (solve_attempts_started script scripted (lit "What is 2 + 2?")
               1 two_pass_script) <= 1 + 1)%Z /\
  forall r st',
    solve script scripted (lit "What is 2 + 2?") 1 two_pass_script = (Ok r, st') ->
    exists earlier last,
      solve_attempts script scripted (lit "What is 2 + 2?") 1 two_pass_script
      = (Ok (earlier ++ [last]), st') /\
      solve_attempts_started script scripted (lit "What is 2 + 2?") 1
        two_pass_script
      = List.length (earlier ++ [last]) /\
      map att_index (earlier ++ [last])
      = py_range (Z.of_nat (List.length (earlier ++ [last]))) /\
      md_retries (metadata r) = att_index last /\
      att_index last = Z.of_nat (List.length earlier) /\
      (0 <= md_retries (metadata r) <= 1)%Z.
Proof.
  split; [lia|].
  apply (retries_is_index_of_last_pass script scripted (lit "What is 2 + 2?")
           1 two_pass_script).
  lia.
Defined.

(** C4.  When [solve] returns, the checks in the returned metadata are
    the checks of the verdicts that [verify_llm] returned in the passes of
    the run, in the order of the passes: [per] holds, pass by pass, the
    checks of the verdict that the call of [verify_llm] returned for the
    execution result that the call of [execute] returned for the plan
    that the call of [plan] returned, the calls made one after the other
    on the service from its state before the run to its state after it.
    There is one such pass for each time the loop body was entered.  After
    each pass the metadata holds the checks of the passes so far, so
    nothing a pass appended is ever removed, whether the pass was rejected
    or not; and when every verdict contributes a check or more, there are
    at least as many checks as passes. *)
Theorem checks_are_appended_pass_by_pass {py : interpreter}
  (service : Type)
  (generate_content : prompt -> service -> outcome (option pystr) * service)
  (question : pystr) (max_retries : Z) (st st' : service) (r : final_result) :
  solve service generate_content question max_retries st = (Ok r, st') ->
  exists log per,
    solve_attempts service generate_content question max_retries st
    = (Ok log, st') /\
    solve_attempts_started service generate_content question max_retries st
    = List.length log /\
    contributes service generate_content question st per st' /\
    List.length per
    = solve_attempts_started service generate_content question max_retries st /\
    Forall2 (fun a items => verdict_checks (att_verdict a) = Ok items) log per /\
    (forall k a, nth_error log k = Some a ->
                 md_checks (att_metadata a) = List.concat (firstn (S k) per)) /\
    md_checks (metadata r) = List.concat per /\
    (Forall (fun items => (1 <= List.length items)%nat) per ->
     (solve_attempts_started service generate_content question max_retries st
      <= List.length (md_checks (metadata r)))%nat).
Proof.
  unfold solve, solve_attempts, solve_attempts_started. intros H.
  rewrite solve_loop_attempts in H.
  destruct (attempts_of _ _ _ _ _ _) as [[log|e] st1] eqn:Hlog; [|discriminate].
  inversion H; subst r st1; clear H.
  pose proof (attempts_of_passes _ _ _ _ _ _ _ _ Hlog) as Hp.
  pose proof (attempts_started_log _ _ _ _ _ _ _ _ Hlog) as Hstarted.
  destruct (passes_checks _ _ _ Hp) as (per & Hall & Hnth & Hfin).
  pose proof (attempts_of_contributes _ _ _ _ _ _ _ _ _ Hlog Hall) as Hcon.
  exists log, per. cbn in Hnth, Hfin. repeat split; auto.
  - rewrite Hstarted. symmetry. exact (Forall2_length Hall).
  - intros Hne. rewrite Hfin, Hstarted, (Forall2_length Hall). clear - Hne.
    induction Hne as [|items per H1 Hne IH]; cbn.
    + lia.
    + rewrite length_app. lia.
Qed.

Lemma checks_are_appended_pass_by_pass_witness :
  exists r,
    solve script scripted (lit "What is 2 + 2?") 1 two_pass_script = (Ok r, []) /\
    md_checks (metadata r)
    = [ PyDict [ (lit "check_name", PyStr (lit "sum"));
                 (lit "passed", PyBool false);
                 (lit "details", PyStr (lit "2 + 2 is 4")) ];
        PyDict [ (lit "check_name", PyStr (lit "sum"));
                 (lit "passed", PyBool true);
                 (lit "details", PyStr (lit "ok")) ] ] /\
    exists log per,
      solve_attempts script scripted (lit "What is 2 + 2?") 1 two_pass_script
      = (Ok log, []) /\
      solve_attempts_started script scripted (lit "What is 2 + 2?") 1
        two_pass_script
      = List.length log /\
      contributes script scripted (lit "What is 2 + 2?") two_pass_script per [] /\
      List.length per
      = solve_attempts_started script scripted (lit "What is 2 + 2?") 1
          two_pass_script /\
      Forall2 (fun a items => verdict_checks (att_verdict a) = Ok items) log per /\
      (forall k a, nth_error log k = Some a ->
                   md_checks (att_metadata a) = List.concat (firstn (S k) per)) /\
      md_checks (metadata r) = List.concat per /\
      (Forall (fun items => (1 <= List.length items)%nat) per ->
       (solve_attempts_started script scripted (lit "What is 2 + 2?") 1
          two_pass_script
        <= List.length (md_checks (metadata r)))%nat).
Proof.
  eexists. split; [vm_compute; reflexivity|].
  split; [vm_compute; reflexivity|].
  eapply checks_are_appended_pass_by_pass.
  vm_compute. reflexivity.
Defined.

(** C5.  When the passes before it were rejected, and whether retries
    remain or not, a pass in which the answer of the executor, or that of
    the verifier, does not decode ends the whole run with the exception
    [json.loads] raised: its own [JSONDecodeError], the [ValueError] of
    [int] for a literal with too many digits, or [RecursionError] for
    lists and dicts nested too deep.  [solve] returns no result, the loop
    body is not entered again, and no answer after the one that failed to
    decode is read. *)
Theorem decoding_error_ends_the_run {py : interpreter}
  (question : pystr) (max_retries : Z) (entries : list entry)
  (per : list (list pyval)) (en : entry) (err : exn) (consumed sc : script) :
  (Z.of_nat (List.length entries) <= max_retries)%Z ->
  Forall2 rejected entries per ->
  undecodable en err consumed ->
  decoder_error err /\
  run question max_retries (script_of entries ++ consumed ++ sc)
  = (Raise err, sc) /\
  solve_attempts_started script scripted question max_retries
    (script_of entries ++ consumed ++ sc)
  = S (List.length entries).
Proof.
  intros Hk Hall Hbad. split.
  { destruct Hbad as [[He _] | (ke & _ & Hv & _)];
      eapply json_loads_error; [exact He | exact Hv]. }
  unfold run, solve, solve_attempts_started.
  assert (Hlen : (List.length entries <= List.length (py_range (max_retries + 1)))%nat)
    by (rewrite py_range_length; lia).
  rewrite (solve_loop_all_rejected _ _ per) by assumption.
  rewrite (attempts_started_all_rejected _ _ per) by assumption.
  destruct (skipn_py_range_cons (List.length entries) (max_retries + 1))
    as [rest ->]; [lia|].
  destruct en as [[p e] v]. cbn [solve_loop attempts_started].
  destruct Hbad as [[He ->] | (ke & He & Hv & ->)]; cbn [fst snd] in *.
  - unfold bind at 1. cbn [app].
    rewrite (attempt_body_execute_raises _ _ _ _ _ _ err) by exact He.
    split; [reflexivity | lia].
  - unfold bind at 1.
    rewrite (attempt_body_verify_raises _ _ _ _ _ _ _ ke err) by assumption.
    split; [reflexivity | lia].
Qed.

(** After one rejected pass and with two retries left, the executor
    answers with an integer of 4301 digits: [int] raises [ValueError]
    inside [json.loads], and the run ends with it. *)
Lemma decoding_error_ends_the_run_witness :
  (Z.of_nat (List.length one_rejection) <= 3)%Z /\
  Forall2 rejected one_rejection [ [] ] /\
  undecodable (lit "1. Add again.", repeat 57 4301%nat, [])
    ValueError [Ok (lit "1. Add again."); Ok (repeat 57 4301%nat)] /\
  decoder_error ValueError /\
  run (lit "What is 2 + 2?") 3
    (script_of one_rejection
     ++ [Ok (lit "1. Add again."); Ok (repeat 57 4301%nat)]
     ++ [Ok (qlit "{@passed@: true}")])
  = (Raise ValueError, [Ok (qlit "{@passed@: true}")]) /\
  solve_attempts_started script scripted (lit "What is 2 + 2?") 3
    (script_of one_rejection
     ++ [Ok (lit "1. Add again."); Ok (repeat 57 4301%nat)]
     ++ [Ok (qlit "{@passed@: true}")])
  = S (List.length one_rejection).
Proof.
  assert (H1 : Forall2 rejected one_rejection [ [] ]).
  { repeat constructor; unfold rejected; do 2 eexists;
      (split; [vm_compute; reflexivity|]);
      (split; [vm_compute; reflexivity|]);
      split; vm_compute; reflexivity. }
  assert (H2 : undecodable (lit "1. Add again.", repeat 57 4301%nat, [])
    ValueError [Ok (lit "1. Add again."); Ok (repeat 57 4301%nat)]).
  { left. split; [vm_compute; reflexivity | reflexivity]. }
  split; [cbn; lia|]. split; [exact H1|]. split; [exact H2|].
  eapply decoding_error_ends_the_run; [cbn; lia | exact H1 | exact H2].
Defined.




(** C7.  When the service answers with a JSON object between an opening
    fence marker, with or without the language tag, and a closing one,
    with whitespace around the markers or none, [execute] returns the
    record it returns when the service answers with the object alone.
    When the object is valid JSON neither of the two fails: both return
    one and the same record, and for an object that holds no backquote
    this is the record [json.loads] gives for it. *)
Theorem fenced_object_is_decoded_like_bare {py : interpreter}
  (service : Type)
  (generate_content : prompt -> service -> outcome (option pystr) * service)
  (question plan_text : pystr) (st_bare st_bare' st st' : service)
  (o1 fence ws1 mid ws2 o2 : pystr) :
  fence = lit "```json" \/ fence = lit "```" ->
  forallb py_isspace o1 = true -> forallb py_isspace o2 = true ->
  all_ws ws1 = true -> all_ws ws2 = true ->
  gemini_call service generate_content (execute_prompt question plan_text) st_bare
  = (Ok (123 :: mid ++ [125]), st_bare') ->
  gemini_call service generate_content (execute_prompt question plan_text) st
  = (Ok (fenced o1 fence ws1 (123 :: mid ++ [125]) ws2 o2), st') ->
  (forall rec,
     execute service generate_content question plan_text st_bare
     = (Ok rec, st_bare') ->
     execute service generate_content question plan_text st = (Ok rec, st'))
  /\
  (forall v,
     json_loads (123 :: mid ++ [125]) = Ok v ->
     exists rec,
       execute service generate_content question plan_text st_bare
       = (Ok rec, st_bare') /\
       execute service generate_content question plan_text st = (Ok rec, st') /\
       (occurs 96 mid = false -> rec = v)).
Proof.
  intros Hf Ho1 Ho2 Hw1 Hw2 Hbare Hfenced.
  rewrite (execute_decodes _ _ _ _ _ _ _ Hbare).
  rewrite (execute_decodes _ _ _ _ _ _ _ Hfenced).
  split.
  - intros rec H. inversion H as [Hd]. rewrite Hd.
    rewrite (decode_fenced _ _ _ _ _ _ rec) by assumption. reflexivity.
  - intros v Hj. destruct (decode_valid_object _ _ Hj) as (rec & Hd).
    exists rec. rewrite Hd.
    rewrite (decode_fenced _ _ _ _ _ _ rec) by assumption.
    repeat split. intros Hq.
    rewrite decode_without_backquote in Hd by exact Hq. congruence.
Qed.

Lemma fenced_object_is_decoded_like_bare_witness :
  (lit "```json" = lit "```json" \/ lit "```json" = lit "```") /\
  forallb py_isspace [] = true /\ forallb py_isspace [10] = true /\
  all_ws [10] = true /\ all_ws [10] = true /\
  gemini_call script scripted
    (execute_prompt (lit "What is 2 + 2?") (lit "1. Add."))
    [Ok (123 :: inside_of_object ++ [125])]
  = (Ok (123 :: inside_of_object ++ [125]), []) /\
  gemini_call script scripted
    (execute_prompt (lit "What is 2 + 2?") (lit "1. Add."))
    [Ok (fenced [] (lit "```json") [10]
           (123 :: inside_of_object ++ [125]) [10] [10])]
  = (Ok (fenced [] (lit "```json") [10]
           (123 :: inside_of_object ++ [125]) [10] [10]), []) /\
  execute script scripted (lit "What is 2 + 2?") (lit "1. Add.")
    [Ok (123 :: inside_of_object ++ [125])]
  = (Ok (PyDict [(lit "proposed_answer", PyStr (lit "4"));
                 (lit "explanation", PyStr (lit "2 + 2 = 4"))]), []) /\
  execute script scripted (lit "What is 2 + 2?") (lit "1. Add.")
    [Ok (fenced [] (lit "```json") [10]
           (123 :: inside_of_object ++ [125]) [10] [10])]
  = (Ok (PyDict [(lit "proposed_answer", PyStr (lit "4"));
                 (lit "explanation", PyStr (lit "2 + 2 = 4"))]), []).
Proof.
  assert (Hbare :
    execute script scripted (lit "What is 2 + 2?") (lit "1. Add.")
      [Ok (123 :: inside_of_object ++ [125])]
    = (Ok (PyDict [(lit "proposed_answer", PyStr (lit "4"));
                   (lit "explanation", PyStr (lit "2 + 2 = 4"))]), []))
    by (vm_compute; reflexivity).
  repeat (split; [first [left; reflexivity | reflexivity | exact Hbare]|]).
  exact (proj1 (fenced_object_is_decoded_like_bare script scripted
                  (lit "What is 2 + 2?") (lit "1. Add.")
                  [Ok (123 :: inside_of_object ++ [125])]
                  []
                  [Ok (fenced [] (lit "```json") [10]
                         (123 :: inside_of_object ++ [125]) [10] [10])]
                  []
                  [] (lit "```json") [10] inside_of_object [10] [10]
                  (or_introl eq_refl) eq_refl eq_refl eq_refl eq_refl
                  eq_refl eq_refl) _ Hbare).
Defined.

(** C8, as amended.  Two runs on the same question and with the same
    [max_retries], whose scripts give, pass for pass, the same answer of
    the executor and verdicts that are dicts with the same truth value of
    [passed] and with checks that can be iterated, whatever the checks,
    the issues and the other fields hold: both enter the loop body the
    same number of times, read the same number of answers, and either
    return the same status, answer, reasoning and [retries] or raise the
    same exception. *)
Theorem decision_depends_on_passed_only {py : interpreter}
  (question : pystr) (max_retries : Z) (entries1 entries2 : list entry) :
  Forall2 same_verdict entries1 entries2 ->
  observe (run question max_retries (script_of entries1))
  = observe (run question max_retries (script_of entries2))
  /\
  solve_attempts_started script scripted question max_retries (script_of entries1)
  = solve_attempts_started script scripted question max_retries (script_of entries2).
Proof.
  intros Hall. unfold run, solve, solve_attempts_started.
  apply solve_loop_same_verdict; [exact Hall | reflexivity].
Qed.

Lemma decision_depends_on_passed_only_witness :
  Forall2 same_verdict verbose_verdicts terse_verdicts /\
  observe (run (lit "What is 2 + 2?") 1 (script_of verbose_verdicts))
  = observe (run (lit "What is 2 + 2?") 1 (script_of terse_verdicts)) /\
  solve_attempts_started script scripted (lit "What is 2 + 2?") 1
    (script_of verbose_verdicts)
  = solve_attempts_started script scripted (lit "What is 2 + 2?") 1
      (script_of terse_verdicts).
Proof.
  assert (H : Forall2 same_verdict verbose_verdicts terse_verdicts).
  { repeat constructor; cbn [fst snd]; try reflexivity;
      do 4 eexists;
      (split; [vm_compute; reflexivity|]);
      (split; [vm_compute; reflexivity|]);
      (split; [vm_compute; reflexivity|]);
      split; vm_compute; reflexivity. }
  split; [exact H|].
  apply (decision_depends_on_passed_only (lit "What is 2 + 2?") 1 _ _ H).
Defined.

(** C8 as stated fails: two runs whose verdicts agree on [passed] do not
    always end the same way.  With the same answer of the executor and
    [passed] true in both verdicts, the run with [checks] an empty list
    returns a success and the run with [checks] [null] raises [TypeError]:
    the checks are iterated before [passed] is looked at. *)
Lemma same_passed_different_outcome :
  verdict_passed (PyDict [(lit "passed", PyBool true); (lit "checks", PyList [])])
  = verdict_passed (PyDict [(lit "passed", PyBool true); (lit "checks", PyNone)])
  /\
  decode (qlit "{@passed@: true, @checks@: []}")
  = Ok (PyDict [(lit "passed", PyBool true); (lit "checks", PyList [])]) /\
  decode (qlit "{@passed@: true, @checks@: null}")
  = Ok (PyDict [(lit "passed", PyBool true); (lit "checks", PyNone)]) /\
  observe (run (lit "What is 2 + 2?") 1
             (pass (lit "1. Add the numbers.")
                   (qlit "{@proposed_answer@: @4@, @explanation@: @2 + 2 = 4@}")
                   (qlit "{@passed@: true, @checks@: []}")))
  = (Ok {| dec_status := success;
           dec_answer := PyStr (lit "4");
           dec_reasoning := lit "2 + 2 = 4";
           dec_retries := 0 |}, O) /\
  observe (run (lit "What is 2 + 2?") 1
             (pass (lit "1. Add the numbers.")
                   (qlit "{@proposed_answer@: @4@, @explanation@: @2 + 2 = 4@}")
                   (qlit "{@passed@: true, @checks@: null}")))
  = (Raise TypeError, O).
Proof. repeat split; vm_compute; reflexivity. Qed.

(** C9, as amended.  When [solve] returns, [reasoning_visible_to_user] has
    at most 250 code points: a failed run returns the fixed sentence, and
    a successful run returns the explanation of its last pass (the empty
    string when the execution result has none) with the whitespace at
    both ends removed and then cut to its first 250 code points. *)
Theorem reasoning_is_stripped_then_cut {py : interpreter}
  (service : Type)
  (generate_content : prompt -> service -> outcome (option pystr) * service)
  (question : pystr) (max_retries : Z) (st st' : service) (r : final_result) :
  solve service generate_content question max_retries st = (Ok r, st') ->
  (List.length (reasoning_visible_to_user r) <= 250)%nat /\
  (status r = failed -> reasoning_visible_to_user r = failure_sentence) /\
  (status r = success ->
   exists earlier last expl,
     solve_attempts service generate_content question max_retries st
     = (Ok (earlier ++ [last]), st') /\
     py_get (att_exec last) (lit "explanation") (PyStr []) = Ok (PyStr expl) /\
     reasoning_visible_to_user r = slice_to 250 (strip expl)).
Proof.
  unfold solve, solve_attempts. intros H.
  rewrite solve_loop_attempts in H.
  destruct (attempts_of _ _ _ _ _ _) as [[log|e] st1] eqn:Hlog; [|discriminate].
  inversion H; subst r st1; clear H.
  pose proof (attempts_of_passes _ _ _ _ _ _ _ _ Hlog) as Hp.
  assert (Hfail : forall md,
             (List.length (reasoning_visible_to_user (all_retries_fail md)) <= 250)%nat).
  { intros md. apply Nat.leb_le. vm_compute. reflexivity. }
  destruct (passes_last _ _ _ Hp)
    as [(_ & _ & Hres) | (earlier & last & mdl & att & -> & _ & Hsl & [Hret | [_ Hres]])].
  - rewrite Hres. repeat split; auto. intros Hs; discriminate.
  - destruct (pass_spec_return _ _ _ _ Hsl Hret)
      as (ke & kv & expl & He & Hv & Ht & Hx & Hr).
    rewrite Hr. cbn [reasoning_visible_to_user status]. repeat split.
    + apply slice_to_length.
    + intros Hs; discriminate.
    + intros _. exists earlier, last, expl. repeat split.
      rewrite He. cbn [py_get]. rewrite Hx. reflexivity.
  - rewrite Hres. repeat split; auto. intros Hs; discriminate.
Qed.

Lemma reasoning_is_stripped_then_cut_witness :
  exists r,
    solve script scripted (lit "What is 2 + 2?") 1 two_pass_script = (Ok r, []) /\
    (List.length (reasoning_visible_to_user r) <= 250)%nat /\
    (status r = failed -> reasoning_visible_to_user r = failure_sentence) /\
    (status r = success ->
     exists earlier last expl,
       solve_attempts script scripted (lit "What is 2 + 2?") 1 two_pass_script
       = (Ok (earlier ++ [last]), []) /\
       py_get (att_exec last) (lit "explanation") (PyStr []) = Ok (PyStr expl) /\
       reasoning_visible_to_user r = slice_to 250 (strip expl)).
Proof.
  eexists. split; [vm_compute; reflexivity|].
  eapply reasoning_is_stripped_then_cut.
  vm_compute. reflexivity.
Defined.

(** C9 as stated fails: an explanation that starts or ends with
    whitespace is not returned cut to its first 250 code points, it loses
    that whitespace first. *)
Lemma reasoning_is_not_the_cut_explanation :
  exists r last,
    solve script scripted (lit "What is 2 + 2?") 0
      (pass (lit "1. Add the numbers.")
            (qlit "{@proposed_answer@: @4@, @explanation@: @  2 + 2 = 4  @}")
            (qlit "{@passed@: true, @checks@: [], @issues@: @@}"))
    = (Ok r, []) /\
    status r = success /\
    solve_attempts script scripted (lit "What is 2 + 2?") 0
      (pass (lit "1. Add the numbers.")
            (qlit "{@proposed_answer@: @4@, @explanation@: @  2 + 2 = 4  @}")
            (qlit "{@passed@: true, @checks@: [], @issues@: @@}"))
    = (Ok [last], []) /\
    py_get (att_exec last) (lit "explanation") (PyStr [])
    = Ok (PyStr (lit "  2 + 2 = 4  ")) /\
    reasoning_visible_to_user r = lit "2 + 2 = 4" /\
    reasoning_visible_to_user r <> slice_to 250 (lit "  2 + 2 = 4  ").
Proof.
  eexists. eexists.
  split; [vm_compute; reflexivity|].
  repeat split; try (vm_compute; reflexivity).
  vm_compute. intros H. discriminate.
Qed.

(** C10, as amended.  A pass whose two answers decode to dicts, at any
    place in the loop.  When the verdict has no [passed] and its [checks]
    (or their default) can be iterated, the value tested is the default
    [False]: nothing is raised, the pass is rejected, and the loop goes on
    with the next value of [attempt], or returns the failure when there is
    none.  When the verdict has no [checks], the default empty list is
    iterated: no [TypeError] is raised and the checks in the metadata
    after the pass are those before it. *)
Theorem missing_verdict_fields_take_defaults {py : interpreter}
  (question : pystr) (attempt : Z) (rest : list Z) (md : metadata_t)
  (p e v : pystr) (sc : script) (ke kv : list (pystr * pyval)) :
  decode e = Ok (PyDict ke) ->
  decode v = Ok (PyDict kv) ->
  (lacks kv (lit "passed") ->
   forall items,
     py_iter (dict_get kv (lit "checks") (PyList [])) = Ok items ->
     verdict_passed (PyDict kv) = Ok (PyBool false) /\
     rejected (p, e, v) items /\
     solve_loop script scripted question (attempt :: rest) md (pass p e v ++ sc)
     = solve_loop script scripted question rest
         {| md_plan := Some (strip p);
            md_checks := md_checks md ++ items;
            md_retries := attempt |} sc /\
     (rest = [] ->
      solve_loop script scripted question (attempt :: rest) md (pass p e v ++ sc)
      = (Ok (all_retries_fail {| md_plan := Some (strip p);
                                 md_checks := md_checks md ++ items;
                                 md_retries := attempt |}), sc)))
  /\
  (lacks kv (lit "checks") ->
   verdict_checks (PyDict kv) = Ok [] /\
   forall o sc',
     attempt_body script scripted question attempt md (pass p e v ++ sc) = (o, sc') ->
     o <> Raise TypeError /\
     forall a, o = Ok a -> md_checks (att_metadata a) = md_checks md).
Proof.
  intros He Hv. split.
  - intros Hlack items Hit.
    assert (Hrej : rejected (p, e, v) items).
    { exists ke, kv. cbn [fst snd]. repeat split; auto.
      rewrite dict_get_lacks by exact Hlack. reflexivity. }
    assert (Hloop :
      solve_loop script scripted question (attempt :: rest) md (pass p e v ++ sc)
      = solve_loop script scripted question rest
          {| md_plan := Some (strip p);
             md_checks := md_checks md ++ items;
             md_retries := attempt |} sc).
    { pose proof (solve_loop_rejected question attempt rest md (p, e, v) items sc Hrej)
        as H.
      unfold script_of in H. cbn [flat_map fst snd] in H.
      rewrite app_nil_r in H. exact H. }
    repeat split; auto.
    + unfold verdict_passed. cbn [py_get].
      rewrite dict_get_lacks by exact Hlack. reflexivity.
    + intros ->. rewrite Hloop. reflexivity.
  - intros Hlack.
    assert (Hit : py_iter (dict_get kv (lit "checks") (PyList [])) = Ok []).
    { rewrite dict_get_lacks by exact Hlack. reflexivity. }
    split.
    + unfold verdict_checks. cbn [py_get]. exact Hit.
    + intros o sc'.
      rewrite (attempt_body_pass _ _ _ _ _ _ _ ke kv []) by assumption.
      cbv zeta. rewrite app_nil_r.
      destruct (py_truthy _).
      * unfold summarize_short. cbn [py_get].
        destruct (dict_get ke (lit "explanation") (PyStr [])); cbn [py_strip];
          intros H; inversion H; subst o sc'; (split; [discriminate|]);
          intros a Ha; inversion Ha; reflexivity.
      * intros H; inversion H; subst o sc'. split; [discriminate|].
        intros a Ha; inversion Ha; reflexivity.
Qed.

Lemma missing_verdict_fields_take_defaults_witness :
  decode (qlit "{@proposed_answer@: @5@}")
  = Ok (PyDict [(lit "proposed_answer", PyStr (lit "5"))]) /\
  decode (qlit "{@issues@: @none@}")
  = Ok (PyDict [(lit "issues", PyStr (lit "none"))]) /\
  lacks [(lit "issues", PyStr (lit "none"))] (lit "passed") /\
  lacks [(lit "issues", PyStr (lit "none"))] (lit "checks") /\
  solve_loop script scripted (lit "What is 2 + 2?") [0%Z] initial_metadata
    (pass (lit "1. Add.") (qlit "{@proposed_answer@: @5@}")
       (qlit "{@issues@: @none@}") ++ [])
  = (Ok (all_retries_fail {| md_plan := Some (strip (lit "1. Add."));
                             md_checks := md_checks initial_metadata ++ [];
                             md_retries := 0 |}), []) /\
  verdict_checks (PyDict [(lit "issues", PyStr (lit "none"))]) = Ok [].
Proof.
  assert (H1 : decode (qlit "{@proposed_answer@: @5@}")
               = Ok (PyDict [(lit "proposed_answer", PyStr (lit "5"))]))
    by (vm_compute; reflexivity).
  assert (H2 : decode (qlit "{@issues@: @none@}")
               = Ok (PyDict [(lit "issues", PyStr (lit "none"))]))
    by (vm_compute; reflexivity).
  assert (H3 : lacks [(lit "issues", PyStr (lit "none"))] (lit "passed")).
  { intros k w [H|[]]. inversion H; subst. vm_compute. reflexivity. }
  assert (H4 : lacks [(lit "issues", PyStr (lit "none"))] (lit "checks")).
  { intros k w [H|[]]. inversion H; subst. vm_compute. reflexivity. }
  destruct (missing_verdict_fields_take_defaults (lit "What is 2 + 2?") 0 []
              initial_metadata (lit "1. Add.") _ _ [] _ _ H1 H2) as [Ha Hb].
  destruct (Ha H3 [] ltac:(vm_compute; reflexivity)) as (_ & _ & _ & Hfail).
  destruct (Hb H4) as [Hc _].
  repeat split; auto.
Defined.

(** C10 as stated fails: a verdict without [passed] does not always make
    a rejected pass.  The verdict [{"checks": 7}] is a dict that has no
    [passed], and [solve] raises [TypeError] at [extend], before the
    default of [passed] is read, although a retry is left. *)
Lemma verdict_without_passed_raises :
  decode (qlit "{@checks@: 7}") = Ok (PyDict [(lit "checks", PyInt 7)]) /\
  lacks [(lit "checks", PyInt 7)] (lit "passed") /\
  run (lit "What is 2 + 2?") 1
    (pass (lit "1. Add the numbers.")
          (qlit "{@proposed_answer@: @5@, @explanation@: @2 + 2 = 5@}")
          (qlit "{@checks@: 7}")
     ++ pass (lit "1. Add the numbers again.")
             (qlit "{@proposed_answer@: @4@, @explanation@: @2 + 2 = 4@}")
             (qlit "{@passed@: true}"))
  = (Raise TypeError,
     pass (lit "1. Add the numbers again.")
          (qlit "{@proposed_answer@: @4@, @explanation@: @2 + 2 = 4@}")
          (qlit "{@passed@: true}")).
Proof.
  split; [vm_compute; reflexivity|]. split.
  - intros k w [H|[]]. inversion H; subst. vm_compute. reflexivity.
  - vm_compute. reflexivity.
Qed.
(** * Further properties of the program *)

(** ** The edges of the loop *)

(** X1.  With a negative [max_retries] the loop body is never entered:
    [solve] returns the failure at once, with no plan, no checks and
    [retries] at zero, and leaves the service as it was, whatever the
    service is (so that on the recorded service no prompt is sent). *)
Theorem negative_budget_fails_without_a_call {py : interpreter}
  (service : Type)
  (generate_content : prompt -> service -> outcome (option pystr) * service)
  (question : pystr) (max_retries : Z) (st : service) :
  (max_retries < 0)%Z ->
  solve service generate_content question max_retries st
  = (Ok {| answer := PyStr []; status := failed;
           reasoning_visible_to_user := failure_sentence;
           metadata := {| md_plan := None; md_checks := [];
                          md_retries := 0 |} |}, st)
  /\
  solve_attempts_started service generate_content question max_retries st = O.
Proof.
  intros H. unfold solve, solve_attempts_started, py_range.
  replace (Z.to_nat (max_retries + 1)) with O by lia.
  split; reflexivity.
Qed.

Lemma negative_budget_fails_without_a_call_witness :
  (-1 < 0)%Z /\
  run (lit "What is 2 + 2?") (-1) two_pass_script
  = (Ok {| answer := PyStr []; status := failed;
           reasoning_visible_to_user := failure_sentence;
           metadata := {| md_plan := None; md_checks := [];
                          md_retries := 0 |} |}, two_pass_script)
  /\
  solve_attempts_started script scripted (lit "What is 2 + 2?") (-1)
    two_pass_script = O.
Proof.
  split; [lia|].
  apply (negative_budget_fails_without_a_call script scripted
           (lit "What is 2 + 2?") (-1) two_pass_script).
  lia.
Defined.

(** X2.  With [max_retries >= 0], the plan in the metadata of a returned
    result is never [None]: it is the plan of the last pass, which is the
    answer of the planner without the whitespace at its ends, so that
    stripping it again changes nothing. *)
Theorem returned_plan_is_the_last_and_trimmed {py : interpreter}
  (service : Type)
  (generate_content : prompt -> service -> outcome (option pystr) * service)
  (question : pystr) (max_retries : Z) (st st' : service) (r : final_result) :
  (0 <= max_retries)%Z ->
  solve service generate_content question max_retries st = (Ok r, st') ->
  exists earlier last,
    solve_attempts service generate_content question max_retries st
    = (Ok (earlier ++ [last]), st') /\
    md_plan (metadata r) = Some (att_plan last) /\
    trimmed (att_plan last) = true /\
    strip (att_plan last) = att_plan last.
Proof.
  intros Hm H. unfold solve, solve_attempts in *.
  rewrite solve_loop_attempts in H.
  destruct (attempts_of _ _ _ _ _ _) as [[log|e] st1] eqn:Hlog; [|discriminate].
  inversion H; subst r st1; clear H.
  pose proof (attempts_of_passes _ _ _ _ _ _ _ _ Hlog) as Hp.
  pose proof (attempts_of_plans _ _ _ _ _ _ _ _ Hlog) as Hpl.
  destruct (passes_length _ _ _ Hp) as [_ Hne].
  assert (Hlog_ne : log <> []).
  { apply Hne. destruct (py_range_succ_last max_retries Hm) as [_ Hr]. exact Hr. }
  destruct (exists_last Hlog_ne) as (earlier & last & ->).
  exists earlier, last. split; [reflexivity|].
  rewrite (result_of_metadata _ _ _ Hp), rev_unit.
  rewrite Forall_app in Hpl. destruct Hpl as [_ Hl].
  inversion Hl as [|? ? Ht _]; subst.
  destruct (passes_last _ _ _ Hp)
    as [(Hnil & _) | (earlier' & last' & mdl & att & Heq & _ & Hs & _)].
  { destruct earlier; discriminate. }
  apply app_inj_tail in Heq. destruct Heq as [_ <-].
  destruct (pass_spec_metadata _ _ _ Hs) as (_ & _ & Hplan & _).
  repeat split; [exact Hplan | exact Ht | apply strip_of_trimmed; exact Ht].
Qed.

Lemma returned_plan_is_the_last_and_trimmed_witness :
  exists r earlier last,
    run (lit "What is 2 + 2?") 1 two_pass_script = (Ok r, []) /\
    solve_attempts script scripted (lit "What is 2 + 2?") 1 two_pass_script
    = (Ok (earlier ++ [last]), []) /\
    md_plan (metadata r) = Some (att_plan last) /\
    trimmed (att_plan last) = true /\
    strip (att_plan last) = att_plan last.
Proof.
  eexists.
  assert (H : solve script scripted (lit "What is 2 + 2?") 1 two_pass_script
              = (Ok _, [])) by (vm_compute; reflexivity).
  destruct (returned_plan_is_the_last_and_trimmed script scripted
              (lit "What is 2 + 2?") 1 two_pass_script [] _ ltac:(lia) H)
    as (earlier & last & H1 & H2).
  exists earlier, last. split; [exact H|]. split; [exact H1 | exact H2].
Defined.

(** X3.  The prompts of a run.  On the service that records what it is
    asked, [solve] returns or raises as on the service itself and leaves it
    in the same state; at most three prompts are sent for each value of
    [attempt]; and when the passes of the run all ran to their end, the
    prompts sent are, pass by pass, the planner's, the executor's and the
    verifier's.  The planner's prompt holds the question and nothing else,
    the executor's the question and the plan of this pass, the verifier's
    the question and two fields of the execution result of this pass,
    so that the prompts of a pass hold nothing of the passes before
    it. *)
Theorem each_pass_sends_its_three_prompts {py : interpreter}
  (service : Type)
  (generate_content : prompt -> service -> outcome (option pystr) * service)
  (question : pystr) (max_retries : Z) (st : service) :
  exists sent,
    solve (recorded service) (recording service generate_content)
      question max_retries (st, [])
    = (fst (solve service generate_content question max_retries st),
       (snd (solve service generate_content question max_retries st), sent))
    /\
    (List.length sent <= 3 * Z.to_nat (max_retries + 1))%nat
    /\
    forall log st',
      solve_attempts service generate_content question max_retries st
      = (Ok log, st') ->
      sent = flat_map (prompts_of_pass question) log /\
      List.length sent = (3 * List.length log)%nat.
Proof.
  unfold solve, solve_attempts. rewrite !solve_loop_attempts.
  destruct (attempts_of_recording service generate_content question
              (py_range (max_retries + 1)) initial_metadata st [])
    as (sent & -> & Hn & Hs).
  rewrite py_range_length in Hn. cbn [app] in *.
  exists sent.
  destruct (attempts_of service generate_content question
              (py_range (max_retries + 1)) initial_metadata st)
    as [[log|e] st1]; cbn [fst snd] in *.
  - split; [reflexivity|]. split; [exact Hn|].
    intros log' st' H. inversion H; subst.
    rewrite (Hs log' eq_refl). split; [reflexivity|].
    clear. induction log' as [|a log IH]; cbn [flat_map List.length];
      [reflexivity|].
    rewrite length_app, IH. cbn. lia.
  - split; [reflexivity|]. split; [exact Hn|]. discriminate.
Qed.

(** ** Runs that end with an exception *)

(** X4.  [solve] has no handler for a failure of the generation service:
    when the passes before were rejected, the exception the service raises
    at the call of the planner, of the executor or of the verifier ends the
    run; the loop body is not entered again and no answer after the
    failure is read. *)
Theorem service_failure_ends_the_run {py : interpreter}
  (question : pystr) (max_retries : Z) (entries : list entry)
  (per : list (list pyval)) (en : entry) (e : exn) (consumed sc : script) :
  (Z.of_nat (List.length entries) <= max_retries)%Z ->
  Forall2 rejected entries per ->
  service_fails en e consumed ->
  run question max_retries (script_of entries ++ consumed ++ sc)
  = (Raise e, sc) /\
  solve_attempts_started script scripted question max_retries
    (script_of entries ++ consumed ++ sc)
  = S (List.length entries).
Proof.
  intros Hk Hall Hf.
  destruct (run_after_rejections question max_retries entries per
              (consumed ++ sc) Hk Hall) as (rest & md & -> & ->).
  destruct en as [[p ex] v]. cbn [fst snd] in Hf.
  cbn [solve_loop attempts_started]. unfold bind at 1.
  destruct Hf as [-> | [-> | (ke & Hd & ->)]]; cbn [app].
  - rewrite attempt_body_planner_fails. split; [reflexivity | lia].
  - rewrite attempt_body_executor_fails. split; [reflexivity | lia].
  - rewrite (attempt_body_verifier_fails _ _ _ _ _ ke) by exact Hd.
    split; [reflexivity | lia].
Qed.

Lemma service_failure_ends_the_run_witness :
  run (lit "What is 2 + 2?") 2
    (script_of one_rejection
     ++ [Ok (lit "1. Add."); Ok (qlit "{@proposed_answer@: @4@}");
         Raise ServiceError]
     ++ pass (lit "1. Add.") (qlit "{@proposed_answer@: @4@}")
          (qlit "{@passed@: true}"))
  = (Raise ServiceError,
     pass (lit "1. Add.") (qlit "{@proposed_answer@: @4@}")
       (qlit "{@passed@: true}")) /\
  solve_attempts_started script scripted (lit "What is 2 + 2?") 2
    (script_of one_rejection
     ++ [Ok (lit "1. Add."); Ok (qlit "{@proposed_answer@: @4@}");
         Raise ServiceError]
     ++ pass (lit "1. Add.") (qlit "{@proposed_answer@: @4@}")
          (qlit "{@passed@: true}"))
  = S (List.length one_rejection).
Proof.
  apply (service_failure_ends_the_run (lit "What is 2 + 2?") 2 one_rejection
           [[]] (lit "1. Add.", qlit "{@proposed_answer@: @4@}", [])).
  - cbn. lia.
  - repeat constructor.
    exists [(lit "proposed_answer", PyStr (lit "5"))],
           [(lit "passed", PyBool false)].
    repeat split; vm_compute; reflexivity.
  - right. right. exists [(lit "proposed_answer", PyStr (lit "4"))].
    split; [vm_compute; reflexivity | reflexivity].
Defined.

(** X5.  An answer that [json.loads] decodes, but not to a dict (to a
    list, a string, a number, a boolean or [None]), ends the run with
    [AttributeError], raised by the first [.get] on the decoded value: for
    the executor's answer inside [verify_llm], before the verifier is asked
    (its answer stays unread), for the verifier's answer in [solve].  The
    loop body is not entered again.  (An answer that [json.loads] does not
    decode, a list nested too deep for one, ends the run with the
    exception of [json.loads].) *)
Theorem answer_that_is_no_object_ends_the_run {py : interpreter}
  (question : pystr) (max_retries : Z) (entries : list entry)
  (per : list (list pyval)) (en : entry) (consumed sc : script) :
  (Z.of_nat (List.length entries) <= max_retries)%Z ->
  Forall2 rejected entries per ->
  not_an_object en consumed ->
  run question max_retries (script_of entries ++ consumed ++ sc)
  = (Raise AttributeError, sc) /\
  solve_attempts_started script scripted question max_retries
    (script_of entries ++ consumed ++ sc)
  = S (List.length entries).
Proof.
  intros Hk Hall Hf.
  destruct (run_after_rejections question max_retries entries per
              (consumed ++ sc) Hk Hall) as (rest & md & -> & ->).
  destruct en as [[p ex] v]. cbn [fst snd] in Hf.
  cbn [solve_loop attempts_started]. unfold bind at 1.
  destruct Hf as [(x & Hd & Hx & ->) | (ke & x & Hd & Hv & Hx & ->)].
  - cbn [app].
    rewrite (attempt_body_execute_not_dict _ _ _ _ _ _ x Hd (is_dict_false x Hx)).
    split; [reflexivity | lia].
  - rewrite (attempt_body_verdict_not_dict _ _ _ _ _ _ _ ke x) by assumption.
    split; [reflexivity | lia].
Qed.

Lemma answer_that_is_no_object_ends_the_run_witness :
  run (lit "What is 2 + 2?") 1
    (script_of []
     ++ [Ok (lit "1. Add."); Ok (lit "[4]")]
     ++ [Ok (qlit "{@passed@: true}")])
  = (Raise AttributeError, [Ok (qlit "{@passed@: true}")]) /\
  solve_attempts_started script scripted (lit "What is 2 + 2?") 1
    (script_of []
     ++ [Ok (lit "1. Add."); Ok (lit "[4]")]
     ++ [Ok (qlit "{@passed@: true}")])
  = 1%nat.
Proof.
  apply (answer_that_is_no_object_ends_the_run (lit "What is 2 + 2?") 1 [] []
           (lit "1. Add.", lit "[4]", [])).
  - cbn. lia.
  - constructor.
  - left. exists (PyList [PyInt 4]).
    repeat split; vm_compute; reflexivity.
Defined.

(** X6.  A verdict whose [checks] are present but are [null], a boolean
    or a number ends the run with [TypeError], raised by [extend], whatever
    its [passed] says: the default [[]] stands in for a missing key only. *)
Theorem checks_that_are_no_sequence_end_the_run {py : interpreter}
  (question : pystr) (max_retries : Z) (entries : list entry)
  (per : list (list pyval)) (en : entry) (sc : script) :
  (Z.of_nat (List.length entries) <= max_retries)%Z ->
  Forall2 rejected entries per ->
  checks_not_iterable en ->
  run question max_retries (script_of entries ++ script_of [en] ++ sc)
  = (Raise TypeError, sc) /\
  solve_attempts_started script scripted question max_retries
    (script_of entries ++ script_of [en] ++ sc)
  = S (List.length entries).
Proof.
  intros Hk Hall Hf.
  destruct (run_after_rejections question max_retries entries per
              (script_of [en] ++ sc) Hk Hall) as (rest & md & -> & ->).
  destruct en as [[p ex] v]. destruct Hf as (ke & kv & Hd & Hv & Hc).
  cbn [fst snd] in *. rewrite script_of_entry. cbn [script_of flat_map].
  rewrite app_nil_r.
  cbn [solve_loop attempts_started]. unfold bind at 1.
  rewrite (attempt_body_checks_not_iterable _ _ _ _ _ _ _ ke kv) by assumption.
  split; [reflexivity | lia].
Qed.

Lemma checks_that_are_no_sequence_end_the_run_witness :
  run (lit "What is 2 + 2?") 1
    (script_of []
     ++ script_of [(lit "1. Add.", qlit "{@proposed_answer@: @4@}",
                    qlit "{@passed@: true, @checks@: null}")]
     ++ [])
  = (Raise TypeError, []) /\
  solve_attempts_started script scripted (lit "What is 2 + 2?") 1
    (script_of []
     ++ script_of [(lit "1. Add.", qlit "{@proposed_answer@: @4@}",
                    qlit "{@passed@: true, @checks@: null}")]
     ++ [])
  = 1%nat.
Proof.
  apply (checks_that_are_no_sequence_end_the_run (lit "What is 2 + 2?") 1 [] []).
  - cbn. lia.
  - constructor.
  - exists [(lit "proposed_answer", PyStr (lit "4"))],
           [(lit "passed", PyBool true); (lit "checks", PyNone)].
    repeat split; vm_compute; reflexivity.
Defined.

(** X7.  An accepted verdict does not make a run return: when the
    execution result holds an [explanation] that is not a string (a
    number, [null], a list), [summarize_short] raises [AttributeError]
    after the verdict was accepted and the run ends with it.  (The
    rejected passes before it may hold such an explanation as well: only
    the success branch reads it.) *)
Theorem accepted_answer_without_text_ends_the_run {py : interpreter}
  (question : pystr) (max_retries : Z) (entries : list entry)
  (per : list (list pyval)) (en : entry) (sc : script) :
  (Z.of_nat (List.length entries) <= max_retries)%Z ->
  Forall2 rejected entries per ->
  accepted_without_text en ->
  run question max_retries (script_of entries ++ script_of [en] ++ sc)
  = (Raise AttributeError, sc) /\
  solve_attempts_started script scripted question max_retries
    (script_of entries ++ script_of [en] ++ sc)
  = S (List.length entries).
Proof.
  intros Hk Hall Hf.
  destruct (run_after_rejections question max_retries entries per
              (script_of [en] ++ sc) Hk Hall) as (rest & md & -> & ->).
  destruct en as [[p ex] v].
  destruct Hf as (ke & kv & items & Hd & Hv & Hit & Hp & Hx).
  cbn [fst snd] in *. rewrite script_of_entry. cbn [script_of flat_map].
  rewrite app_nil_r.
  cbn [solve_loop attempts_started]. unfold bind at 1.
  rewrite (attempt_body_pass _ _ _ _ _ _ _ ke kv items) by assumption.
  cbv zeta. rewrite Hp.
  assert (Hs : summarize_short (PyDict ke) = Raise AttributeError).
  { unfold summarize_short. cbn [py_get].
    destruct (dict_get ke (lit "explanation") (PyStr [])) eqn:Hg;
      try reflexivity.
    exfalso. eapply Hx. reflexivity. }
  rewrite Hs. split; [reflexivity | lia].
Qed.

Lemma accepted_answer_without_text_ends_the_run_witness :
  run (lit "What is 2 + 2?") 1
    (script_of [(lit "1. Add.",
                 qlit "{@proposed_answer@: @5@, @explanation@: null}",
                 qlit "{@passed@: false}")]
     ++ script_of [(lit "1. Add.",
                    qlit "{@proposed_answer@: @4@, @explanation@: null}",
                    qlit "{@passed@: true}")]
     ++ [])
  = (Raise AttributeError, []) /\
  solve_attempts_started script scripted (lit "What is 2 + 2?") 1
    (script_of [(lit "1. Add.",
                 qlit "{@proposed_answer@: @5@, @explanation@: null}",
                 qlit "{@passed@: false}")]
     ++ script_of [(lit "1. Add.",
                    qlit "{@proposed_answer@: @4@, @explanation@: null}",
                    qlit "{@passed@: true}")]
     ++ [])
  = 2%nat.
Proof.
  apply (accepted_answer_without_text_ends_the_run (lit "What is 2 + 2?") 1
           [(lit "1. Add.",
             qlit "{@proposed_answer@: @5@, @explanation@: null}",
             qlit "{@passed@: false}")] [[]]).
  - cbn. lia.
  - repeat constructor.
    exists [(lit "proposed_answer", PyStr (lit "5")); (lit "explanation", PyNone)],
           [(lit "passed", PyBool false)].
    repeat split; vm_compute; reflexivity.
  - exists [(lit "proposed_answer", PyStr (lit "4")); (lit "explanation", PyNone)],
           [(lit "passed", PyBool true)], [].
    repeat split; try (vm_compute; reflexivity).
    intros s H. vm_compute in H. discriminate.
Defined.

(** ** The text that reaches the decoder *)

(** X8.  An answer of the service without text ([resp.text] is [None],
    empty or whitespace only) is an empty plan for [plan], which returns
    the empty string, and a decoding error for [execute] and for
    [verify_llm], which raise [JSONDecodeError]. *)
Theorem answer_without_text_is_an_empty_plan_or_an_error {py : interpreter}
  (service : Type)
  (generate_content : prompt -> service -> outcome (option pystr) * service)
  (question plan_text : pystr) (ke : list (pystr * pyval))
  (t : option pystr) :
  blank t = true ->
  (forall st st1,
      generate_content (plan_prompt question) st = (Ok t, st1) ->
      plan service generate_content question st = (Ok [], st1))
  /\
  (forall st st1,
      generate_content (execute_prompt question plan_text) st = (Ok t, st1) ->
      execute service generate_content question plan_text st
      = (Raise JSONDecodeError, st1))
  /\
  (forall st st1,
      generate_content
        (verify_prompt question
           (dict_get ke (lit "proposed_answer") (PyStr []))
           (dict_get ke (lit "explanation") (PyStr []))) st
      = (Ok t, st1) ->
      verify_llm service generate_content question (PyDict ke) st
      = (Raise JSONDecodeError, st1)).
Proof.
  intros Hb.
  assert (Hs : forallb py_isspace (match t with Some x => x | None => [] end)
               = true)
    by (destruct t; [exact Hb | reflexivity]).
  split; [|split]; intros st st1 H.
  - unfold plan, gemini_call, bind, ret. rewrite H.
    rewrite strip_all_space by exact Hs. reflexivity.
  - rewrite (execute_decodes _ _ _ _ (match t with Some x => x | None => [] end)
               st st1).
    + rewrite decode_blank by exact Hs. reflexivity.
    + unfold gemini_call, bind, ret. rewrite H. reflexivity.
  - rewrite (verify_llm_decodes _ _ _ _ (match t with Some x => x | None => [] end)
               st st1).
    + rewrite decode_blank by exact Hs. reflexivity.
    + unfold gemini_call, bind, ret. rewrite H. reflexivity.
Qed.

Lemma answer_without_text_is_an_empty_plan_or_an_error_witness :
  blank (Some [32; 10]) = true /\
  (forall st st1,
      scripted (plan_prompt (lit "What is 2 + 2?")) st = (Ok (Some [32; 10]), st1) ->
      plan script scripted (lit "What is 2 + 2?") st = (Ok [], st1))
  /\
  (forall st st1,
      scripted (execute_prompt (lit "What is 2 + 2?") []) st
      = (Ok (Some [32; 10]), st1) ->
      execute script scripted (lit "What is 2 + 2?") [] st
      = (Raise JSONDecodeError, st1))
  /\
  (forall st st1,
      scripted
        (verify_prompt (lit "What is 2 + 2?")
           (dict_get [] (lit "proposed_answer") (PyStr []))
           (dict_get [] (lit "explanation") (PyStr []))) st
      = (Ok (Some [32; 10]), st1) ->
      verify_llm script scripted (lit "What is 2 + 2?") (PyDict []) st
      = (Raise JSONDecodeError, st1)).
Proof.
  split; [reflexivity|].
  apply (answer_without_text_is_an_empty_plan_or_an_error script scripted
           (lit "What is 2 + 2?") [] [] (Some [32; 10])).
  reflexivity.
Defined.

(** X9.  [strip] removes all the whitespace of [str.isspace] around an
    answer, not only the four code points that are whitespace for the
    decoder: for a text that has no whitespace at its ends and no
    backquote, [execute] returns or raises what [json.loads] does on that
    text, whatever whitespace the service puts before and after it. *)
Theorem whitespace_around_the_answer_is_dropped {py : interpreter}
  (service : Type)
  (generate_content : prompt -> service -> outcome (option pystr) * service)
  (question plan_text o1 text o2 : pystr) (st st1 : service) :
  forallb py_isspace o1 = true -> forallb py_isspace o2 = true ->
  trimmed text = true -> occurs 96 text = false ->
  gemini_call service generate_content (execute_prompt question plan_text) st
  = (Ok (o1 ++ text ++ o2), st1) ->
  execute service generate_content question plan_text st
  = (json_loads text, st1).
Proof.
  intros H1 H2 Ht Hq Hcall.
  rewrite (execute_decodes _ _ _ _ _ _ _ Hcall).
  unfold decode, fence_stripped.
  rewrite strip_around by assumption.
  rewrite strip_of_trimmed by exact Ht.
  rewrite strip_fences_clean by exact Hq. reflexivity.
Qed.

Lemma whitespace_around_the_answer_is_dropped_witness :
  execute script scripted (lit "What is 2 + 2?") (lit "1. Add.")
    [Ok ([160; 8195] ++ qlit "{@proposed_answer@: @4@}" ++ [12288; 10])]
  = (json_loads (qlit "{@proposed_answer@: @4@}"), [])
  /\ json_loads ([160; 8195] ++ qlit "{@proposed_answer@: @4@}" ++ [12288; 10])
     = Raise JSONDecodeError.
Proof.
  split; [|vm_compute; reflexivity].
  apply (whitespace_around_the_answer_is_dropped script scripted
           (lit "What is 2 + 2?") (lit "1. Add.") [160; 8195]
           (qlit "{@proposed_answer@: @4@}") [12288; 10]);
    vm_compute; reflexivity.
Defined.

(** X10.  Text before the value is refused: when the first code point of
    the answer that is not whitespace is none a JSON value can start
    with (and not a backquote, which the fence removal may drop),
    [execute] raises [JSONDecodeError], whatever follows. *)
Theorem text_before_the_value_is_refused {py : interpreter}
  (service : Type)
  (generate_content : prompt -> service -> outcome (option pystr) * service)
  (question plan_text o : pystr) (c : N) (r : pystr) (st st1 : service) :
  forallb py_isspace o = true -> py_isspace c = false ->
  (c =? 96) = false -> starts_value c = false ->
  gemini_call service generate_content (execute_prompt question plan_text) st
  = (Ok (o ++ c :: r), st1) ->
  execute service generate_content question plan_text st
  = (Raise JSONDecodeError, st1).
Proof.
  intros Ho Hc Hq Hs Hcall.
  rewrite (execute_decodes _ _ _ _ _ _ _ Hcall).
  unfold decode, fence_stripped.
  replace (o ++ c :: r) with (o ++ (c :: r) ++ []) by now rewrite app_nil_r.
  rewrite strip_around by (exact Ho || reflexivity).
  unfold strip. rewrite lstrip_nonspace by exact Hc.
  rewrite rstrip_cons_nonspace by exact Hc.
  apply N.eqb_neq in Hq.
  rewrite strip_fences_cons_other by exact Hq.
  rewrite json_loads_bad_start;
    [reflexivity | apply not_isspace_not_ws; exact Hc | exact Hs].
Qed.

Lemma text_before_the_value_is_refused_witness :
  execute script scripted (lit "What is 2 + 2?") (lit "1. Add.")
    [Ok ([10] ++ 72 :: qlit "ere is the JSON: {@proposed_answer@: @4@}")]
  = (Raise JSONDecodeError, []).
Proof.
  apply (text_before_the_value_is_refused script scripted
           (lit "What is 2 + 2?") (lit "1. Add.") [10] 72
           (qlit "ere is the JSON: {@proposed_answer@: @4@}"));
    vm_compute; reflexivity.
Defined.

(** X11.  Text after the value is refused: when the answer, which has no
    whitespace at its ends and no backquote, starts with a text that
    [json.loads] decodes to a string, a list or a dict, and anything but
    the decoder's whitespace follows it, a second JSON object for one,
    [execute] raises [JSONDecodeError]. *)
Theorem text_after_the_value_is_refused {py : interpreter}
  (service : Type)
  (generate_content : prompt -> service -> outcome (option pystr) * service)
  (question plan_text s t : pystr) (v : pyval) (st st1 : service) :
  json_loads s = Ok v -> closed v = true -> all_ws t = false ->
  trimmed (s ++ t) = true -> occurs 96 (s ++ t) = false ->
  gemini_call service generate_content (execute_prompt question plan_text) st
  = (Ok (s ++ t), st1) ->
  execute service generate_content question plan_text st
  = (Raise JSONDecodeError, st1).
Proof.
  intros Hv Hc Ht Htr Hq Hcall.
  rewrite (execute_decodes _ _ _ _ _ _ _ Hcall).
  unfold decode, fence_stripped.
  rewrite strip_of_trimmed by exact Htr.
  rewrite strip_fences_clean by exact Hq.
  rewrite (json_loads_trailing s t v Hv Hc (all_ws_false_skip t Ht)).
  reflexivity.
Qed.

Lemma text_after_the_value_is_refused_witness :
  execute script scripted (lit "What is 2 + 2?") (lit "1. Add.")
    [Ok (qlit "{@proposed_answer@: @4@}" ++ qlit " {@proposed_answer@: @4@}")]
  = (Raise JSONDecodeError, []).
Proof.
  apply (text_after_the_value_is_refused script scripted
           (lit "What is 2 + 2?") (lit "1. Add.")
           (qlit "{@proposed_answer@: @4@}") (qlit " {@proposed_answer@: @4@}")
           (PyDict [(lit "proposed_answer", PyStr (lit "4"))]));
    vm_compute; reflexivity.
Defined.

(** X12.  After the two [replace] calls no fence marker is left: the
    text that reaches [json.loads] never holds three backquotes in a row,
    also where the removal of a marker with the language tag has brought
    backquotes together. *)
Theorem no_fence_marker_reaches_the_decoder (text : pystr) :
  contains (lit "```") (fence_stripped text) = false /\
  contains (lit "```json") (fence_stripped text) = false.
Proof.
  assert (H : contains (lit "```") (fence_stripped text) = false).
  { unfold fence_stripped, strip_fences.
    change (lit "```") with [96; 96; 96]. apply replace_backquotes_gone. }
  split; [exact H|].
  change (lit "```json") with (lit "```" ++ lit "json").
  apply contains_app_left. exact H.
Qed.

(** ** The result as JSON *)

(** X13.  [json.loads] undoes [json.dumps(_, indent=2)] where
    [json.dumps] returns a text and the decoder has room for the value:
    a value whose dicts have distinct keys, whose strings are made of code
    points of Unicode with no high surrogate right before a low one, and
    which holds no finite float, is decoded from the text written for it
    as it was.  [json.dumps] returns no text for an integer with more
    digits than [int.__repr__] writes, nor for lists and dicts nested
    deeper than the recursion limit allows.  (A high and a low surrogate
    that stand side by side in a string are written as two escapes, which
    the decoder reads as one code point.) *)
Theorem encoded_value_is_decoded_back {py : interpreter}
  (float_text : bool -> N -> Z -> pystr) (v : pyval) (text : pystr) :
  json_dumps float_text v = Ok text ->
  round_trips v = true ->
  (nesting v <= decoder_room)%nat ->
  json_loads text = Ok v.
Proof. apply json_loads_json_dumps. Qed.

Lemma encoded_value_is_decoded_back_witness :
  exists text,
    json_dumps (fun _ _ _ => []) (result_dict sample_result) = Ok text /\
    round_trips (result_dict sample_result) = true /\
    (nesting (result_dict sample_result) <= decoder_room)%nat /\
    json_loads text = Ok (result_dict sample_result).
Proof.
  eexists. split; [vm_compute; reflexivity|].
  split; [vm_compute; reflexivity|].
  assert (Hn : (nesting (result_dict sample_result) <= decoder_room)%nat)
    by (apply Nat.leb_le; vm_compute; reflexivity).
  split; [exact Hn|].
  apply (encoded_value_is_decoded_back (fun _ _ _ => [])
           (result_dict sample_result)).
  - vm_compute. reflexivity.
  - vm_compute. reflexivity.
  - exact Hn.
Defined.

(** X14.  The text [json.dumps(_, indent=2)] writes, when it returns
    one, holds line feeds and printable ASCII code points only, whatever
    the strings of the value hold, provided the text of a float does (as
    [float.__repr__] does). *)
Theorem encoded_text_is_ascii {py : interpreter}
  (float_text : bool -> N -> Z -> pystr) (v : pyval) (text : pystr) :
  (forall neg m e, forallb plain_ascii (float_text neg m e) = true) ->
  json_dumps float_text v = Ok text ->
  forallb plain_ascii text = true.
Proof. intros H Ht. eapply plain_ascii_iterencode; [exact H | exact Ht]. Qed.

Lemma encoded_text_is_ascii_witness :
  exists text,
    json_dumps (fun _ _ _ => lit "2.5")
      (PyDict [ ([233; 128512], PyList [PyFloat (FDec false 25 (-1));
                                        PyStr [0; 127; 55296; 1114111]]) ])
    = Ok text /\
    forallb plain_ascii text = true.
Proof.
  eexists. split; [vm_compute; reflexivity|].
  apply (encoded_text_is_ascii (fun _ _ _ => lit "2.5")
           (PyDict [ ([233; 128512], PyList [PyFloat (FDec false 25 (-1));
                                             PyStr [0; 127; 55296; 1114111]]) ])).
  - intros neg m e. reflexivity.
  - vm_compute. reflexivity.
Defined.

(** X15.  The command-line entry point calls [solve] with one retry: the
    loop body is entered at most twice; when [solve] raises, so does the
    entry point, which then prints nothing; when [solve] returns, the
    entry point prints the text [json.dumps] returns for the result dict,
    or raises what [json.dumps] raises and prints nothing.  The dict has
    the keys [answer], [status], [reasoning_visible_to_user] and [metadata]
    in this order, and [json.loads] gives the result dict back from the
    text when the dict round-trips and the decoder has room for it. *)
Theorem entry_point_prints_the_result_as_json {py : interpreter}
  (float_text : bool -> N -> Z -> pystr)
  (service : Type)
  (generate_content : prompt -> service -> outcome (option pystr) * service)
  (q : pystr) (st : service) :
  (solve_attempts_started service generate_content q 1 st <= 2)%nat
  /\
  (forall e st',
      solve service generate_content q 1 st = (Raise e, st') ->
      main_cli float_text service generate_content q st = (Raise e, st'))
  /\
  (forall r st',
      solve service generate_content q 1 st = (Ok r, st') ->
      main_cli float_text service generate_content q st
      = (json_dumps float_text (result_dict r), st') /\
      map fst (match result_dict r with PyDict kvs => kvs | _ => [] end)
      = [lit "answer"; lit "status"; lit "reasoning_visible_to_user";
         lit "metadata"] /\
      (forall text,
          json_dumps float_text (result_dict r) = Ok text ->
          round_trips (result_dict r) = true ->
          (nesting (result_dict r) <= decoder_room)%nat ->
          json_loads text = Ok (result_dict r))).
Proof.
  split; [|split].
  - unfold solve_attempts_started.
    pose proof (attempts_started_le service generate_content q
                  (py_range (1 + 1)) initial_metadata st) as H.
    rewrite py_range_length in H. exact H.
  - intros e st' H. unfold main_cli, bind. rewrite H. reflexivity.
  - intros r st' H. unfold main_cli, bind, lift. rewrite H.
    split; [reflexivity|]. split; [reflexivity|].
    intros text. apply json_loads_json_dumps.
Qed.

(** ** The test runner *)

(** X16.  [run_tests] has no handler: when [solve] raises for a
    question, after the questions before it went through, [run_tests]
    ends with that exception; the header and the question were printed
    for it and nothing else, and the questions after it are never asked,
    whatever they are. *)
Theorem tests_stop_at_the_first_exception {py : interpreter}
  (float_text : bool -> N -> Z -> pystr)
  (service : Type)
  (agent_solve : pystr -> Z -> service -> outcome pyval * service)
  (label : pystr) (qs1 : list pystr) (q : pystr) (qs2 : list pystr)
  (st st1 : console service) (e : exn) (s' : service) :
  run_tests float_text service agent_solve qs1 label st = (Ok tt, st1) ->
  agent_solve q 1%Z (fst st1) = (Raise e, s') ->
  run_tests float_text service agent_solve (qs1 ++ q :: qs2) label st
  = (Raise e,
     (s', snd st1
          ++ [ [Text (lit "
--- Test "); Value (PyInt (1 + Z.of_nat (List.length qs1)));
                Text (lit " ---")];
               [Text (lit "Question: "); Value (PyStr q)] ])).
Proof.
  unfold run_tests, bind. intros H1 H2.
  destruct (print service _ st) as [[u|e0] st0]; [|discriminate].
  rewrite tests_loop_app.
  destruct (tests_loop float_text service agent_solve 1 qs1 st0)
    as [[u1|e1] st1']; [|discriminate].
  inversion H1; subst st1'. cbn [tests_loop]. unfold bind.
  rewrite (test_body_raises float_text service agent_solve _ q st1 e s' H2).
  reflexivity.
Qed.

Lemma tests_stop_at_the_first_exception_witness :
  exists st1,
    run_tests (fun _ _ _ => []) script (solve_dict script scripted)
      [lit "What is 2 + 2?"] (lit "EASY") (two_pass_script, [])
    = (Ok tt, st1) /\
    solve_dict script scripted (lit "What is 3 + 3?") 1 (fst st1)
    = (Raise ServiceError, []) /\
    run_tests (fun _ _ _ => []) script (solve_dict script scripted)
      ([lit "What is 2 + 2?"] ++ lit "What is 3 + 3?" :: [lit "What is 4 + 4?"])
      (lit "EASY") (two_pass_script, [])
    = (Raise ServiceError,
       ([], snd st1
            ++ [ [Text (lit "
--- Test "); Value (PyInt (1 + Z.of_nat (List.length [lit "What is 2 + 2?"])));
                  Text (lit " ---")];
                 [Text (lit "Question: "); Value (PyStr (lit "What is 3 + 3?"))] ])).
Proof.
  eexists.
  assert (H1 : run_tests (fun _ _ _ => []) script (solve_dict script scripted)
                 [lit "What is 2 + 2?"] (lit "EASY") (two_pass_script, [])
               = (Ok tt, _)) by (vm_compute; reflexivity).
  assert (H2 : solve_dict script scripted (lit "What is 3 + 3?") 1 []
               = (Raise ServiceError, [])) by reflexivity.
  split; [exact H1|]. split; [exact H2|].
  exact (tests_stop_at_the_first_exception (fun _ _ _ => []) script
           (solve_dict script scripted) (lit "EASY") [lit "What is 2 + 2?"]
           (lit "What is 3 + 3?") [lit "What is 4 + 4?"]
           (two_pass_script, []) _ ServiceError [] H1 H2).
Defined.

(** X17.  The line [Verifier passed] of the test log, for the dict this
    [solve] returns with checks that are dicts: it is computed from the
    checks of all the passes of the run, the rejected ones included, and
    not from the verdict that decided the run.  With no check at all it
    says whether the status is [success]; otherwise it says whether every
    check of every pass has a true [passed], so that it is [False] for a
    run that succeeded after a rejected pass with a failed check, and
    [True] for a run that failed with checks that all passed.  The line
    [Agent retries] shows [retries]. *)
Theorem test_log_reads_the_checks_of_all_passes {py : interpreter}
  (service : Type)
  (generate_content : prompt -> service -> outcome (option pystr) * service)
  (question : pystr) (max_retries : Z) (st st' : service) (r : final_result) :
  solve service generate_content question max_retries st = (Ok r, st') ->
  Forall (fun c => is_dict c = true) (md_checks (metadata r)) ->
  exists log per,
    solve_attempts service generate_content question max_retries st
    = (Ok log, st') /\
    Forall2 (fun a items => verdict_checks (att_verdict a) = Ok items) log per /\
    derive (result_dict r)
    = Ok (match List.concat per with
          | [] => match status r with success => true | failed => false end
          | _ :: _ => forallb check_passed (List.concat per)
          end,
          PyInt (md_retries (metadata r))).
Proof.
  unfold solve, solve_attempts. intros H Hd.
  rewrite solve_loop_attempts in H.
  destruct (attempts_of _ _ _ _ _ _) as [[log|e] st1] eqn:Hlog; [|discriminate].
  inversion H; subst r st1; clear H.
  pose proof (attempts_of_passes _ _ _ _ _ _ _ _ Hlog) as Hp.
  destruct (passes_checks _ _ _ Hp) as (per & Hall & _ & Hfin).
  cbn [md_checks initial_metadata app] in Hfin.
  exists log, per. split; [reflexivity|]. split; [exact Hall|].
  rewrite (derive_result_dict _ Hd). rewrite Hfin. reflexivity.
Qed.

Lemma test_log_reads_the_checks_of_all_passes_witness :
  exists r log per,
    run (lit "What is 2 + 2?") 1 two_pass_script = (Ok r, []) /\
    status r = success /\
    solve_attempts script scripted (lit "What is 2 + 2?") 1 two_pass_script
    = (Ok log, []) /\
    Forall2 (fun a items => verdict_checks (att_verdict a) = Ok items) log per /\
    derive (result_dict r)
    = Ok (match List.concat per with
          | [] => match status r with success => true | failed => false end
          | _ :: _ => forallb check_passed (List.concat per)
          end,
          PyInt (md_retries (metadata r))) /\
    derive (result_dict r) = Ok (false, PyInt 1).
Proof.
  eexists.
  assert (H : solve script scripted (lit "What is 2 + 2?") 1 two_pass_script
              = (Ok _, [])) by (vm_compute; reflexivity).
  destruct (test_log_reads_the_checks_of_all_passes script scripted
              (lit "What is 2 + 2?") 1 two_pass_script [] _ H)
    as (log & per & H1 & H2 & H3).
  { repeat constructor. }
  exists log, per. split; [exact H|]. split; [reflexivity|].
  split; [exact H1|]. split; [exact H2|]. split; [exact H3|].
  vm_compute. reflexivity.
Defined.

(** X18.  A check that is no dict makes the test runner raise: [solve]
    accepts any [checks] that can be iterated, a list of strings for one,
    and returns them in the metadata; in [run_tests], [all] then calls
    [get] on each check in turn and raises [AttributeError] at the first
    that is no dict, after the result was printed.  [all] stops at the
    first check that is false: when one of the dicts before has a false
    [passed], nothing is raised and the line says [False]. *)
Theorem check_that_is_no_dict_stops_the_test_runner
  (r : final_result) (cs1 : list pyval) (c : pyval) (cs2 : list pyval) :
  md_checks (metadata r) = cs1 ++ c :: cs2 ->
  Forall (fun c => is_dict c = true) cs1 ->
  is_dict c = false ->
  derive (result_dict r)
  = if forallb check_passed cs1 then Raise AttributeError
    else Ok (false, PyInt (md_retries (metadata r))).
Proof.
  intros Hc H1 H2. rewrite derive_of_result. unfold verifier_passed.
  rewrite Hc. cbn [py_iter].
  assert (Ht : py_truthy (PyList (cs1 ++ c :: cs2)) = true)
    by (destruct cs1; reflexivity).
  rewrite Ht, (all_passed_app cs1 c cs2 H1 H2).
  destruct (forallb check_passed cs1); reflexivity.
Qed.

Lemma check_that_is_no_dict_stops_the_test_runner_witness :
  exists r,
    run (lit "What is 2 + 2?") 1
      (pass (lit "1. Add.") (qlit "{@proposed_answer@: @4@, @explanation@: @sum@}")
         (qlit "{@passed@: true, @checks@: [@sum is right@]}"))
    = (Ok r, []) /\
    status r = success /\
    md_checks (metadata r) = [] ++ PyStr (lit "sum is right") :: [] /\
    derive (result_dict r)
    = (if forallb check_passed [] then Raise AttributeError
       else Ok (false, PyInt (md_retries (metadata r)))).
Proof.
  eexists. split; [vm_compute; reflexivity|].
  split; [reflexivity|]. split; [reflexivity|].
  apply (check_that_is_no_dict_stops_the_test_runner _ []
           (PyStr (lit "sum is right")) []).
  - reflexivity.
  - constructor.
  - reflexivity.
Defined.

(** ** What the result depends on *)

(** X19.  The question reaches the result through the prompts only:
    on a service that answers without looking at its prompt (as the
    scripted one does), [solve] returns or raises the same for any two
    questions and leaves the service in the same state.  Nothing in the
    result is computed from the question by the program itself. *)
Theorem question_is_only_used_in_prompts {py : interpreter}
  (service : Type)
  (generate_content : prompt -> service -> outcome (option pystr) * service)
  (q1 q2 : pystr) (max_retries : Z) (st : service) :
  (forall p1 p2 s, generate_content p1 s = generate_content p2 s) ->
  solve service generate_content q1 max_retries st
  = solve service generate_content q2 max_retries st.
Proof.
  intros H. unfold solve. apply solve_loop_blind. exact H.
Qed.

Lemma question_is_only_used_in_prompts_witness :
  solve script scripted (lit "What is 2 + 2?") 1 two_pass_script
  = solve script scripted (lit "How long is the journey?") 1 two_pass_script.
Proof.
  apply (question_is_only_used_in_prompts script scripted).
  intros p1 p2 s. reflexivity.
Defined.

(** X20.  A larger retry budget changes neither a success nor an
    exception: when [solve] returns a success, or raises, with
    [max_retries], it returns the same result, or raises the same
    exception, and leaves the service in the same state with any larger
    [max_retries].  (Only a run that failed goes on with a larger
    budget.) *)
Theorem larger_budget_keeps_successes_and_exceptions {py : interpreter}
  (service : Type)
  (generate_content : prompt -> service -> outcome (option pystr) * service)
  (question : pystr) (max_retries more : Z) (st : service) :
  (max_retries <= more)%Z ->
  (forall r st',
      solve service generate_content question max_retries st = (Ok r, st') ->
      status r = success ->
      solve service generate_content question more st = (Ok r, st'))
  /\
  (forall e st',
      solve service generate_content question max_retries st = (Raise e, st') ->
      solve service generate_content question more st = (Raise e, st')).
Proof.
  intros H. unfold solve.
  destruct (py_range_app (max_retries + 1) (more + 1) ltac:(lia)) as (rest & ->).
  apply solve_loop_app_decided.
Qed.

Lemma larger_budget_keeps_successes_and_exceptions_witness :
  (1 <= 5)%Z /\
  (forall r st',
      solve script scripted (lit "What is 2 + 2?") 1 two_pass_script = (Ok r, st') ->
      status r = success ->
      solve script scripted (lit "What is 2 + 2?") 5 two_pass_script = (Ok r, st'))
  /\
  (forall e st',
      solve script scripted (lit "What is 2 + 2?") 1 two_pass_script
      = (Raise e, st') ->
      solve script scripted (lit "What is 2 + 2?") 5 two_pass_script
      = (Raise e, st')).
Proof.
  split; [lia|].
  apply (larger_budget_keeps_successes_and_exceptions script scripted
           (lit "What is 2 + 2?") 1 5 two_pass_script).
  lia.
Defined.

(** ** Fence markers inside the answer *)



(** X22.  A control character that stands unescaped in a JSON string, a
    line break for one, makes the answer undecodable: for an answer that
    is an object with one string member whose value holds a code point
    below 32, [execute] raises [JSONDecodeError], whatever follows the
    code point. *)
Theorem control_character_inside_a_string_is_refused {py : interpreter}
  (service : Type)
  (generate_content : prompt -> service -> outcome (option pystr) * service)
  (question plan_text k p : pystr) (c : N) (s : pystr) (st st1 : service) :
  forallb plain_char k = true -> occurs 96 k = false ->
  forallb plain_char p = true -> (c <? 32) = true ->
  gemini_call service generate_content (execute_prompt question plan_text) st
  = (Ok (one_member k (p ++ c :: s)), st1) ->
  execute service generate_content question plan_text st
  = (Raise JSONDecodeError, st1).
Proof.
  intros Hk Hq Hp Hc Hcall.
  rewrite (execute_decodes _ _ _ _ _ _ _ Hcall).
  unfold decode, fence_stripped.
  rewrite strip_of_trimmed by apply one_member_trimmed.
  rewrite strip_fences_one_member by exact Hq.
  rewrite strip_fences_control by exact Hc.
  rewrite json_loads_control;
    [reflexivity | exact room_to_raise | exact Hk
    | apply strip_fences_plain; exact Hp | exact Hc].
Qed.

Lemma control_character_inside_a_string_is_refused_witness :
  execute script scripted (lit "What is 2 + 2?") (lit "1. Add.")
    [Ok (one_member (lit "explanation")
           (lit "First add." ++ 10 :: lit "Then check."))]
  = (Raise JSONDecodeError, []).
Proof.
  apply (control_character_inside_a_string_is_refused script scripted
           (lit "What is 2 + 2?") (lit "1. Add.") (lit "explanation")
           (lit "First add.") 10 (lit "Then check."));
    vm_compute; reflexivity.
Defined.



(** X24.  A fence whose language tag is not [json] is not tolerated: an
    answer that starts with three backquotes followed by a tag written in
    capitals, or by the name of another language, keeps its tag when the
    markers are removed, and [execute] raises [JSONDecodeError].  (The tag
    is taken to start with a code point that is no whitespace, no
    backquote, no [j] and none a JSON value can start with.) *)
Theorem fence_with_another_tag_is_refused {py : interpreter}
  (service : Type)
  (generate_content : prompt -> service -> outcome (option pystr) * service)
  (question plan_text : pystr) (c : N) (r : pystr) (st st1 : service) :
  (c =? 96) = false -> (c =? 106) = false ->
  py_isspace c = false -> starts_value c = false ->
  gemini_call service generate_content (execute_prompt question plan_text) st
  = (Ok (lit "```" ++ c :: r), st1) ->
  execute service generate_content question plan_text st
  = (Raise JSONDecodeError, st1).
Proof.
  intros H96 H106 Hc Hs Hcall.
  rewrite (execute_decodes _ _ _ _ _ _ _ Hcall).
  unfold decode, fence_stripped.
  change (lit "```" ++ c :: r) with (96 :: 96 :: 96 :: c :: r).
  unfold strip. rewrite lstrip_nonspace by reflexivity.
  rewrite !rstrip_cons_nonspace by (reflexivity || exact Hc).
  rewrite strip_fences_other_tag by assumption.
  rewrite json_loads_bad_start;
    [reflexivity | apply not_isspace_not_ws; exact Hc | exact Hs].
Qed.

Lemma fence_with_another_tag_is_refused_witness :
  execute script scripted (lit "What is 2 + 2?") (lit "1. Add.")
    [Ok (lit "```" ++ 74 :: qlit "SON
{@proposed_answer@: @4@}
```")]
  = (Raise JSONDecodeError, []).
Proof.
  apply (fence_with_another_tag_is_refused script scripted
           (lit "What is 2 + 2?") (lit "1. Add.") 74
           (qlit "SON
{@proposed_answer@: @4@}
```"));
    vm_compute; reflexivity.
Defined.

(** X25.  The calls of the test script.  With the [solve] of this
    program, the script (the five easy questions, then the three tricky
    ones, each with one retry) sends at most 48 prompts to the generation
    service and calls [print] at most 50 times, whatever the service
    answers and whether the script ends or raises.  (A call of [print] can
    print several lines: the text of [json.dumps] has a line for each
    field, and two of the f-strings start with a line break.) *)
Theorem test_script_sends_48_prompts_at_most {py : interpreter}
  (float_text : bool -> N -> Z -> pystr)
  (service : Type)
  (generate_content : prompt -> service -> outcome (option pystr) * service)
  (st : service) :
  (List.length
     (snd (fst (snd (test_main float_text (recorded service)
                       (solve_dict (recorded service)
                          (recording service generate_content))
                       ((st, []), []))))) <= 48)%nat
  /\
  (List.length
     (snd (snd (test_main float_text (recorded service)
                  (solve_dict (recorded service)
                     (recording service generate_content))
                  ((st, []), [])))) <= 50)%nat.
Proof.
  assert (H : adds service
                (test_main float_text (recorded service)
                   (solve_dict (recorded service)
                      (recording service generate_content)))
                (6 * List.length EASY_QUESTIONS
                 + 6 * List.length TRICKY_QUESTIONS)
                ((1 + 6 * List.length EASY_QUESTIONS)
                 + (1 + 6 * List.length TRICKY_QUESTIONS))).
  { unfold test_main. apply adds_bind; [|intros _]; apply adds_run_tests. }
  destruct (H st [] []) as (sent & printed & E1 & E2 & H1 & H2).
  rewrite E1, E2. cbn [app List.length EASY_QUESTIONS TRICKY_QUESTIONS] in *.
  split; lia.
Qed.

(** ** The limits of the interpreter *)

(** X26.  An answer nested deeper than the recursion limit allows is not
    decoded: when the executor answers with more opening brackets, one
    after the other, than the decoder has room for lists, and as many
    closing ones, [json.loads] ends with the [RecursionError] of the
    interpreter, and [execute] raises it.  With the limit of 1000 that the
    interpreter starts with, 2000 brackets are too many. *)
Theorem answer_nested_too_deep_raises_recursion_error {py : interpreter}
  (service : Type)
  (generate_content : prompt -> service -> outcome (option pystr) * service)
  (question plan_text : pystr) (n : nat) (st st1 : service) :
  (decoder_room < n)%nat ->
  gemini_call service generate_content (execute_prompt question plan_text) st
  = (Ok (repeat 91 n ++ repeat 93 n), st1) ->
  execute service generate_content question plan_text st
  = (Raise RecursionError, st1).
Proof.
  intros Hn Hcall.
  rewrite (execute_decodes _ _ _ _ _ _ _ Hcall).
  rewrite decode_deep by exact Hn. reflexivity.
Qed.

Lemma answer_nested_too_deep_raises_recursion_error_witness :
  (decoder_room < 2000)%nat /\
  execute script scripted (lit "What is 2 + 2?") (lit "1. Add.")
    [Ok (repeat 91 2000%nat ++ repeat 93 2000%nat)]
  = (Raise RecursionError, []).
Proof.
  assert (H : (decoder_room < 2000)%nat)
    by (apply Nat.ltb_lt; vm_compute; reflexivity).
  split; [exact H|].
  apply (answer_nested_too_deep_raises_recursion_error script scripted
           (lit "What is 2 + 2?") (lit "1. Add.") 2000
           [Ok (repeat 91 2000%nat ++ repeat 93 2000%nat)] [] H).
  reflexivity.
Defined.

(** X27.  An integer with more digits than [int] accepts is not decoded:
    when the executor answers with digits, the first of them no zero, and
    there are more of them than the limit of the interpreter, which is
    not zero, [json.loads] ends with the [ValueError] of [int], and
    [execute] raises it.  With the limit of 4300 digits that the
    interpreter starts with, 4301 digits are too many. *)
Theorem integer_beyond_the_digit_limit_raises_value_error {py : interpreter}
  (service : Type)
  (generate_content : prompt -> service -> outcome (option pystr) * service)
  (question plan_text : pystr) (d : N) (ds : pystr) (st st1 : service) :
  is_digit d = true -> d <> 48 -> forallb is_digit ds = true ->
  (0 < int_max_str_digits)%nat ->
  (int_max_str_digits < List.length (d :: ds))%nat ->
  gemini_call service generate_content (execute_prompt question plan_text) st
  = (Ok (d :: ds), st1) ->
  execute service generate_content question plan_text st
  = (Raise ValueError, st1).
Proof.
  intros Hd H0 Hds Hpos Hlen Hcall.
  rewrite (execute_decodes _ _ _ _ _ _ _ Hcall).
  rewrite decode_digits by assumption. reflexivity.
Qed.

Lemma integer_beyond_the_digit_limit_raises_value_error_witness :
  is_digit 57 = true /\ 57 <> 48 /\
  forallb is_digit (repeat 57 4300%nat) = true /\
  (0 < int_max_str_digits)%nat /\
  (int_max_str_digits < List.length (57 :: repeat 57 4300%nat))%nat /\
  execute script scripted (lit "What is 2 + 2?") (lit "1. Add.")
    [Ok (57 :: repeat 57 4300%nat)]
  = (Raise ValueError, []).
Proof.
  assert (H1 : forallb is_digit (repeat 57 4300%nat) = true)
    by (vm_compute; reflexivity).
  assert (H2 : (0 < int_max_str_digits)%nat)
    by (apply Nat.ltb_lt; vm_compute; reflexivity).
  assert (H3 : (int_max_str_digits < List.length (57 :: repeat 57 4300%nat))%nat)
    by (apply Nat.ltb_lt; vm_compute; reflexivity).
  split; [reflexivity|]. split; [discriminate|]. split; [exact H1|].
  split; [exact H2|]. split; [exact H3|].
  apply (integer_beyond_the_digit_limit_raises_value_error script scripted
           (lit "What is 2 + 2?") (lit "1. Add.") 57 (repeat 57 4300%nat)
           [Ok (57 :: repeat 57 4300%nat)] []
           eq_refl ltac:(discriminate) H1 H2 H3).
  reflexivity.
Defined.
